(** * StudyMate.Ai: a shallow embedding of the view controllers and the
      flashcard proxy, with the properties of its specification.

    The development follows the repository file by file:

    - [Js]: the pieces of the JavaScript runtime the code relies on
      (UTF-16 strings, numbers, [Number], [toString], [Math.round]);
    - [JsDate]: the calendar of [Date] (year, month and date of a day);
    - [Regex]: a backtracking matcher for the regular expressions that
      occur in the sources, with [match], [split] and [replace];
    - [SavedPDFs]: [handleDownloadPDF];
    - [StudyPlanner]: [fetchStudySessions], [onSubmit],
      [extractMinutes], [updateSessionProgress], [markSessionComplete],
      [sessionsForSelectedDate], [deleteSession], [handleUndoDelete];
    - [Dashboard]: [updateSubjectProgress], [fetchDashboardData] and the
      broadcast handlers;
    - [DoubtSolver]: [fetchDoubts], [filteredDoubts],
      [handleSubmitQuestion], [handleSendMessage], [markAsSolved];
    - [Flashcards]: [handleCreateDeck], [handleUpdateDeck],
      [handleAddGeneratedFlashcards] and the card editors;
    - [FlashcardStudyMode]: [handleNext], [handlePrevious], the flip;
    - [Json] and [GenerateFlashcards]: the edge function that turns the
      model's answer into cards. *)

From Stdlib Require Import ZArith NArith QArith Qround Bool String Ascii List Lia.
From Stdlib Require Import Sorting.Permutation Sorting.Sorted.
From Stdlib Require Import Floats.PrimFloat Floats.FloatOps Floats.SpecFloat.
From Stdlib Require Import Floats.FloatAxioms.
From Stdlib Require Reals Lra.
From Stdlib Require DecimalPos.
Import ListNotations.

Set Implicit Arguments.
Set Warnings "-register-all".
Local Open Scope Z_scope.

(* ================================================================== *)
(** * The JavaScript runtime *)
(* ================================================================== *)

Module Js.

(** A JavaScript string is a sequence of UTF-16 code units. *)
Definition jsstring := list N.

(** An ASCII literal of the source, as code units. *)
Definition lit (s : string) : jsstring :=
  map N_of_ascii (list_ascii_of_string s).

Definition unit_eqb (a b : N) : bool := N.eqb a b.

Fixpoint str_eqb (a b : jsstring) : bool :=
  match a, b with
  | [], [] => true
  | x :: a', y :: b' => N.eqb x y && str_eqb a' b'
  | _, _ => false
  end.

Definition between (lo hi c : N) : bool := (N.leb lo c && N.leb c hi)%bool.

Definition isDigit (c : N) : bool := between 48 57 c.      (* 0-9 *)
Definition isUpper (c : N) : bool := between 65 90 c.      (* A-Z *)
Definition isLower (c : N) : bool := between 97 122 c.     (* a-z *)
Definition isAscii (c : N) : bool := N.ltb c 128.
Definition underscore : N := 95.

(** [WhiteSpace] and [LineTerminator] of ECMAScript: the class [\s] of a
    regular expression and what [String.prototype.trim] strips. *)
Definition isSpace (c : N) : bool :=
  (between 9 13 c || N.eqb c 32 || N.eqb c 160 || N.eqb c 5760
   || between 8192 8202 c || N.eqb c 8232 || N.eqb c 8233
   || N.eqb c 8239 || N.eqb c 8287 || N.eqb c 12288 || N.eqb c 65279)%bool.

Fixpoint trimStart (s : jsstring) : jsstring :=
  match s with
  | c :: s' => if isSpace c then trimStart s' else s
  | [] => []
  end.

Definition trimEnd (s : jsstring) : jsstring := rev (trimStart (rev s)).

Definition trim (s : jsstring) : jsstring := trimEnd (trimStart s).

(** Truthiness of a string: only the empty string is falsy. *)
Definition truthy_str (s : jsstring) : bool :=
  match s with [] => false | _ => true end.

(** ** Lower-casing

    On text made of ASCII code units [toLowerCase] maps [A-Z] to [a-z]
    unit by unit.  What it does to text with other code units is the
    Unicode table of the runtime, taken here as a parameter. *)
Definition lowerAscii (c : N) : N := if isUpper c then (c + 32)%N else c.

Definition toLowerCase (unicodeLower : jsstring -> jsstring) (s : jsstring)
  : jsstring :=
  if forallb isAscii s then map lowerAscii s else unicodeLower s.

(** ** Numbers

    The numbers that the planner stores are integer percentages, so a
    number is an integer or [NaN].  Arithmetic on them in the dashboard is
    done in binary64, see [to_float]. *)
Inductive number : Type :=
| Int (z : Z)
| NaN.

Definition number_eqb (a b : number) : bool :=
  match a, b with
  | Int x, Int y => Z.eqb x y
  | NaN, NaN => true
  | _, _ => false
  end.

(** [a >= b] and [a > b]: false as soon as one side is [NaN]. *)
Definition geb (a b : number) : bool :=
  match a, b with Int x, Int y => Z.leb y x | _, _ => false end.

Definition gtb (a b : number) : bool :=
  match a, b with Int x, Int y => Z.ltb y x | _, _ => false end.

(** *** Decimal digits *)

Fixpoint codes_of_uint (d : Decimal.uint) : jsstring :=
  match d with
  | Decimal.Nil => []
  | Decimal.D0 d => 48%N :: codes_of_uint d
  | Decimal.D1 d => 49%N :: codes_of_uint d
  | Decimal.D2 d => 50%N :: codes_of_uint d
  | Decimal.D3 d => 51%N :: codes_of_uint d
  | Decimal.D4 d => 52%N :: codes_of_uint d
  | Decimal.D5 d => 53%N :: codes_of_uint d
  | Decimal.D6 d => 54%N :: codes_of_uint d
  | Decimal.D7 d => 55%N :: codes_of_uint d
  | Decimal.D8 d => 56%N :: codes_of_uint d
  | Decimal.D9 d => 57%N :: codes_of_uint d
  end.

(** The value of a run of decimal digits, most significant first; [None]
    when a code unit is not a digit. *)
Fixpoint digits_value (acc : N) (s : jsstring) : option N :=
  match s with
  | [] => Some acc
  | c :: s' =>
      if isDigit c then digits_value (acc * 10 + (c - 48))%N s' else None
  end.

(** [Number.prototype.toString] (radix 10) of an integer, and of [NaN]. *)
Definition toString (n : number) : jsstring :=
  match n with
  | NaN => lit "NaN"
  | Int z =>
      match z with
      | Z0 => lit "0"
      | Zpos p => codes_of_uint (Pos.to_uint p)
      | Zneg p => 45%N :: codes_of_uint (Pos.to_uint p)
      end
  end.

Definition bool_toString (b : bool) : jsstring :=
  if b then lit "true" else lit "false".

(** [Number(s)] on the integer literals [StrDecimalLiteral] allows:
    white space around, an optional sign, decimal digits; the empty text
    is [0].  Every other text (fractions, exponents, hexadecimal,
    [Infinity]; none is ever written by the application) is read as
    [NaN]. *)
Definition Number (s : jsstring) : number :=
  match trim s with
  | [] => Int 0
  | c :: ds =>
      if N.eqb c 45 then                       (* - *)
        match ds, digits_value 0 ds with
        | _ :: _, Some v => Int (- Z.of_N v)
        | _, _ => NaN
        end
      else if N.eqb c 43 then                  (* + *)
        match ds, digits_value 0 ds with
        | _ :: _, Some v => Int (Z.of_N v)
        | _, _ => NaN
        end
      else
        match digits_value 0 (c :: ds) with
        | Some v => Int (Z.of_N v)
        | None => NaN
        end
  end.

(** ** Searching in a string

    [s.startsWith(p)] and [s.includes(p)] *)
Fixpoint startsWith (s p : jsstring) : bool :=
  match p, s with
  | [], _ => true
  | a :: p', b :: s' => N.eqb a b && startsWith s' p'
  | _ :: _, [] => false
  end.

Fixpoint includes (s p : jsstring) : bool :=
  match s with
  | [] => startsWith [] p
  | _ :: s' => startsWith s p || includes s' p
  end.

End Js.

(* ================================================================== *)
(** * Calendar dates of the runtime *)
(* ================================================================== *)

Module JsDate.

(** The calendar of ECMAScript's time values, on day numbers: a day is
    counted in days since 1970-01-01, as [Day(t)] does.  The definitions
    are those of the language standard ([DaysInYear], [DayFromYear],
    [YearFromTime], [InLeapYear], [DayWithinYear], [MonthFromTime],
    [DateFromTime]). *)
Definition DaysInYear (y : Z) : Z :=
  if negb (y mod 4 =? 0) then 365
  else if negb (y mod 100 =? 0) then 366
  else if negb (y mod 400 =? 0) then 365
  else 366.

Definition DayFromYear (y : Z) : Z :=
  365 * (y - 1970) + (y - 1969) / 4 - (y - 1901) / 100 + (y - 1601) / 400.

(** The largest [y] with [DayFromYear y <= day]: the year that
    [day / 365.2425] estimates, or one of its neighbours. *)
Definition YearFromDay (day : Z) : Z :=
  let y := 1970 + (400 * day) / 146097 in
  if day <? DayFromYear y then y - 1
  else if DayFromYear (y + 1) <=? day then y + 1
  else y.

Definition InLeapYear (day : Z) : Z :=
  if DaysInYear (YearFromDay day) =? 365 then 0 else 1.

Definition DayWithinYear (day : Z) : Z := day - DayFromYear (YearFromDay day).

(** January is month 0. *)
Definition MonthFromDay (day : Z) : Z :=
  let d := DayWithinYear day in
  let leap := InLeapYear day in
  if d <? 31 then 0
  else if d <? 59 + leap then 1
  else if d <? 90 + leap then 2
  else if d <? 120 + leap then 3
  else if d <? 151 + leap then 4
  else if d <? 181 + leap then 5
  else if d <? 212 + leap then 6
  else if d <? 243 + leap then 7
  else if d <? 273 + leap then 8
  else if d <? 304 + leap then 9
  else if d <? 334 + leap then 10
  else 11.

Definition DateFromDay (day : Z) : Z :=
  let d := DayWithinYear day in
  let leap := InLeapYear day in
  match MonthFromDay day with
  | 0 => d + 1
  | 1 => d - 30
  | 2 => d - 58 - leap
  | 3 => d - 89 - leap
  | 4 => d - 119 - leap
  | 5 => d - 150 - leap
  | 6 => d - 180 - leap
  | 7 => d - 211 - leap
  | 8 => d - 242 - leap
  | 9 => d - 272 - leap
  | 10 => d - 303 - leap
  | _ => d - 333 - leap
  end.

End JsDate.

(* ================================================================== *)
(** * Arithmetic of the runtime *)
(* ================================================================== *)

Module JsNum.
Import Js.

(** The operations the dashboard applies to numbers.  The code runs them
    on binary64 values ([Binary64]). *)
Class Arith (T : Type) : Type := {
  ofInt : Z -> T;
  add : T -> T -> T;
  div : T -> T -> T;
  mul : T -> T -> T;
  (** [x < y] *)
  ltb : T -> T -> bool;
  (** [Math.round]: the nearest integer, a tie going up. *)
  round : T -> T
}.

(** The binary64 value nearest to an integer. *)
Definition to_float (z : Z) : float :=
  SF2Prim (binary_normalize prec emax z 0 false).

(** [Math.round] on binary64.  A finite value with a non-negative
    exponent is an integer already; otherwise the value is [m * 2^e] with
    [e < 0] and the result is [floor (m * 2^e + 1/2)].  Zeros, infinities
    and [NaN] are returned as they are. *)
Definition Math_round (x : float) : float :=
  match Prim2SF x with
  | S754_finite s m e =>
      if 0 <=? e then x
      else
        let mz := if s then Zneg m else Zpos m in
        to_float ((mz + 2 ^ (- e - 1)) / 2 ^ (- e))
  | _ => x
  end.

#[export] Instance Binary64 : Arith float := {
  ofInt := to_float;
  add := PrimFloat.add;
  div := PrimFloat.div;
  mul := PrimFloat.mul;
  ltb := PrimFloat.ltb;
  round := Math_round
}.

(** [parseInt] of a text that is a non-empty run of decimal digits (what
    the capture [(\d+)] delivers): the binary64 value nearest to the
    integer written, [Infinity] from [2^1024 - 2^970] on.  (The language
    lets a runtime read the digits after the twentieth as zeros; here
    they are read as written.)  Any other text is taken as [NaN]. *)
Definition parseInt (s : jsstring) : float :=
  match s, digits_value 0 s with
  | _ :: _, Some v => to_float (Z.of_N v)
  | _, _ => nan
  end.

(** [x || d] on numbers: [0], [-0] and [NaN] are falsy. *)
Definition orDefault (x d : float) : float :=
  if (is_zero x || is_nan x)%bool then d else x.

Definition Qround_half_up (x : Q) : Z := Qfloor (x + (1 # 2)).


End JsNum.
(* ================================================================== *)
(** * Regular expressions *)
(* ================================================================== *)

Module Regex.
Import Js.

(** The fragment of the pattern language used by the sources.  A
    quantifier is applied to a character class only ([\d+], [\s+],
    [[\s\S]*]); [Opt] is the greedy [?]; [Group] is a capturing group. *)
Inductive regex : Type :=
| Class (p : N -> bool)
| Eps
| Seq (r1 r2 : regex)
| Alt (r1 r2 : regex)
| Opt (r : regex)
| Star (p : N -> bool)
| Plus (p : N -> bool)
| Group (r : regex).

(** Classes.  Under the [i] flag (without [u]) a pattern character
    matches the code units with the same canonical form, which for an
    ASCII letter are its two cases and nothing else. *)
Definition chr (a : ascii) : N -> bool := N.eqb (N_of_ascii a).

Definition chr_i (a : ascii) : N -> bool :=
  fun c => N.eqb (lowerAscii c) (lowerAscii (N_of_ascii a)).

Definition anyUnit : N -> bool := fun c => (isSpace c || negb (isSpace c))%bool.

(** [[^a-z0-9]] under [i]. *)
Definition notAlnum_i : N -> bool :=
  fun c => negb (isLower c || isUpper c || isDigit c).

Fixpoint str (s : list ascii) : regex :=
  match s with
  | [] => Eps
  | a :: s' => Seq (Class (chr a)) (str s')
  end.

Fixpoint str_i (s : list ascii) : regex :=
  match s with
  | [] => Eps
  | a :: s' => Seq (Class (chr_i a)) (str_i s')
  end.

Definition text (s : string) : regex := str (list_ascii_of_string s).
Definition text_i (s : string) : regex := str_i (list_ascii_of_string s).

Section Matcher.
Variable R : Type.

(** The greedy [p*] followed by the continuation [k]: the longest run
    first, shorter ones on backtracking. *)
Fixpoint star (p : N -> bool) (k : jsstring -> option R) (s : jsstring)
  : option R :=
  match s with
  | c :: s' =>
      if p c then
        match star p k s' with
        | Some r => Some r
        | None => k s
        end
      else k s
  | [] => k []
  end.

(** [run r s caps k]: match [r] at the start of [s], then hand the rest
    of the text and the captures to [k]; alternatives are tried in the
    order of the pattern. *)
Fixpoint run (r : regex) (s : jsstring) (caps : list jsstring)
         (k : jsstring -> list jsstring -> option R) : option R :=
  match r with
  | Class p =>
      match s with
      | c :: s' => if p c then k s' caps else None
      | [] => None
      end
  | Eps => k s caps
  | Seq r1 r2 => run r1 s caps (fun s1 caps1 => run r2 s1 caps1 k)
  | Alt r1 r2 =>
      match run r1 s caps k with
      | Some x => Some x
      | None => run r2 s caps k
      end
  | Opt r1 =>
      match run r1 s caps k with
      | Some x => Some x
      | None => k s caps
      end
  | Star p => star p (fun s' => k s' caps) s
  | Plus p =>
      match s with
      | c :: s' => if p c then star p (fun s' => k s' caps) s' else None
      | [] => None
      end
  | Group r1 =>
      run r1 s caps
        (fun s' caps' =>
           k s' (caps' ++ [firstn (length s - length s') s]))
  end.
End Matcher.

(** A match anchored at the start of [s]: the rest of the text after the
    match, and the captures. *)
Definition matchAt (r : regex) (s : jsstring)
  : option (jsstring * list jsstring) :=
  run r s [] (fun rest caps => Some (rest, caps)).

(** The result of [RegExp.prototype.exec] / non-global
    [String.prototype.match]: index, matched text, captures. *)
Record match_result : Type := MatchResult {
  index : nat;
  matched : jsstring;
  captures : list jsstring
}.

Fixpoint execFrom (r : regex) (i : nat) (s : jsstring) : option match_result :=
  match matchAt r s with
  | Some (rest, caps) =>
      Some (MatchResult i (firstn (length s - length rest) s) caps)
  | None =>
      match s with
      | [] => None
      | _ :: s' => execFrom r (S i) s'
      end
  end.

(** [s.match(r)] for a pattern without the [g] flag: the leftmost match. *)
Definition match_ (r : regex) (s : jsstring) : option match_result :=
  execFrom r 0 s.

(** [s.split(r)] for a pattern without capturing groups, no limit.
    [cur] is the piece being collected, reversed; [skip] counts the code
    units of the separator still to pass.  As in the runtime, a match is
    looked for at every position but the end of the text, and an empty
    match at the start of a piece is ignored. *)
Fixpoint splitGo (r : regex) (cur : jsstring) (skip : nat) (s : jsstring)
  : list jsstring :=
  match s with
  | [] => [rev cur]
  | c :: s' =>
      match skip with
      | S n => splitGo r cur n s'
      | O =>
          match matchAt r s with
          | None => splitGo r (c :: cur) 0 s'
          | Some (rest, _) =>
              match length s - length rest with
              | O =>
                  match cur with
                  | [] => splitGo r [c] 0 s'
                  | _ => rev cur :: splitGo r [c] 0 s'
                  end
              | S n => rev cur :: splitGo r [] n s'
              end
          end
      end
  end%nat.

Definition split (r : regex) (s : jsstring) : list jsstring :=
  match s with
  | [] => match matchAt r [] with Some _ => [] | None => [[]] end
  | _ => splitGo r [] 0 s
  end.

(** [s.replace(r, rep)] for a pattern with the [g] flag and a
    replacement text without [$]. *)
Fixpoint replaceGo (r : regex) (rep : jsstring) (skip : nat) (s : jsstring)
  : jsstring :=
  match s with
  | [] => match skip, matchAt r [] with
          | O, Some _ => rep
          | _, _ => []
          end
  | c :: s' =>
      match skip with
      | S n => replaceGo r rep n s'
      | O =>
          match matchAt r s with
          | None => c :: replaceGo r rep 0 s'
          | Some (rest, _) =>
              match length s - length rest with
              | O => rep ++ c :: replaceGo r rep 0 s'
              | S n => rep ++ replaceGo r rep n s'
              end
          end
      end
  end%nat.

Definition replaceAll (r : regex) (rep : jsstring) (s : jsstring) : jsstring :=
  replaceGo r rep 0 s.

(** [Array.prototype.filter(Boolean)] on an array of strings. *)
Definition filterBoolean (l : list jsstring) : list jsstring :=
  filter truthy_str l.

End Regex.

(* ================================================================== *)
(** * SavedPDFs: [handleDownloadPDF] *)
(* ================================================================== *)

Module SavedPDFs.
Import Js Regex.

Record SavedPDF : Type := {
  id : jsstring;
  title : jsstring;
  pdf_data : jsstring;
  created_at : jsstring;
  user_id : option jsstring
}.

(** The anchor element the handler builds and clicks. *)
Record Link : Type := {
  href : jsstring;
  download : jsstring
}.

Section Download.
(** The runtime's lower-casing of text that is not plain ASCII. *)
Variable unicodeLower : jsstring -> jsstring.

(** [pdf.title.replace(/[^a-z0-9]/gi, '_').toLowerCase()] *)
Definition sanitize (t : jsstring) : jsstring :=
  toLowerCase unicodeLower (replaceAll (Class notAlnum_i) (lit "_") t).

Definition handleDownloadPDF (pdf : SavedPDF) : Link :=
  {| href := pdf_data pdf;
     download := sanitize (title pdf) ++ lit ".pdf" |}.
End Download.

(** What the specification calls alphanumeric-only and lower-cased. *)
Definition lowerOrDigit (c : N) : bool := (isLower c || isDigit c)%bool.

(** What one code unit of the title becomes. *)
Definition sanitizeUnit (c : N) : N :=
  if (isLower c || isUpper c || isDigit c)%bool then lowerAscii c else underscore.

End SavedPDFs.


(* ================================================================== *)
(** * Ordered reads of the record store *)
(* ================================================================== *)

Module Order.

(** [.order(column, { ascending })]: an insertion sort on the column,
    which keeps rows of equal key in table order. *)
Section Ordering.
Variable A : Type.
Variable key : A -> Z.

Fixpoint insertAsc (x : A) (l : list A) : list A :=
  match l with
  | [] => [x]
  | y :: l' => if key y <? key x then y :: insertAsc x l' else x :: l
  end.

Definition orderAsc (l : list A) : list A := fold_right insertAsc [] l.

Fixpoint insertDescending (x : A) (l : list A) : list A :=
  match l with
  | [] => [x]
  | y :: l' => if key x <? key y then y :: insertDescending x l' else x :: l
  end.

Definition orderDesc (l : list A) : list A := fold_right insertDescending [] l.
End Ordering.

End Order.
(* ================================================================== *)
(** * StudyPlanner *)
(* ================================================================== *)

Module StudyPlanner.
Import Js Regex.

(** ** [extractMinutes] *)

Definition optSpaces : regex := Opt (Plus isSpace).

(** [/(\d+)(?:\s+)?hours?/i] *)
Definition hourRe : regex :=
  Seq (Group (Plus isDigit))
      (Seq optSpaces (Seq (text_i "hour") (Opt (Class (chr_i "s"))))).

(** [/(\d+)(?:\s+)?minutes?/i] *)
Definition minuteRe : regex :=
  Seq (Group (Plus isDigit))
      (Seq optSpaces (Seq (text_i "minute") (Opt (Class (chr_i "s"))))).

(** [/(\d+\.5)(?:\s+)?hours?/i] *)
Definition halfHourRe : regex :=
  Seq (Group (Seq (Plus isDigit) (text ".5")))
      (Seq optSpaces (Seq (text_i "hour") (Opt (Class (chr_i "s"))))).

(** [m[1]] of a match. *)
Definition group1 (m : match_result) : jsstring := nth 0 (captures m) [].

(** The sum is formed in the numbers of the runtime (binary64):
    [totalMinutes += parseInt(...) * 60] and the like, then
    [totalMinutes || 60]. *)
Definition extractMinutes (duration : jsstring) : float :=
  let hourMatch := match_ hourRe duration in
  let minuteMatch := match_ minuteRe duration in
  let halfHourMatch := match_ halfHourRe duration in
  let totalMinutes := 0%float in
  let totalMinutes :=
    match hourMatch with
    | Some m => (totalMinutes + JsNum.parseInt (group1 m) * 60)%float
    | None => totalMinutes
    end in
  let totalMinutes :=
    match minuteMatch with
    | Some m => (totalMinutes + JsNum.parseInt (group1 m))%float
    | None => totalMinutes
    end in
  let totalMinutes :=
    match halfHourMatch with
    | Some _ => (totalMinutes + 30)%float
    | None => totalMinutes
    end in
  JsNum.orDefault totalMinutes 60%float.

(** ** The record store: table [study_sessions] *)

(** Identifiers are server-assigned UUID texts of which the code uses
    nothing but equality; an identifier is represented by the serial
    number of its allocation. *)
Definition ident : Type := N.

(** A cell of a column that the code reads defensively
    ([number | string], [boolean | string], nullable). *)
Inductive cell : Type :=
| CNull
| CStr (s : jsstring)
| CNum (n : number)
| CBool (b : bool).

(** A row.  [db_date] is the calendar day that the column's
    [yyyy-MM-dd] text names, counted in days since 1970-01-01. *)
Record DbStudySession : Type := {
  db_id : ident;
  db_user_id : ident;
  db_subject : jsstring;
  db_topic : jsstring;
  db_date : Z;
  db_startTime : option jsstring;
  db_duration : jsstring;
  db_notes : option jsstring;
  db_created_at : Z;
  db_progress : cell;
  db_completed : cell
}.

(** What an insert sends: a row without the server-assigned fields. *)
Record NewRow : Type := {
  new_user_id : ident;
  new_subject : jsstring;
  new_topic : jsstring;
  new_date : Z;
  new_startTime : option jsstring;
  new_duration : jsstring;
  new_notes : option jsstring;
  new_progress : cell;
  new_completed : cell
}.

(** The table as the hosted store keeps it.  The handlers rely on this
    much of its contract: an insert returns the row as sent, with a
    fresh identity and the creation time; an update and a delete act on
    the row with the given identity. *)
Record store : Type := {
  rows : list DbStudySession;
  nextId : ident;
  clock : Z
}.

Definition insertRow (r : NewRow) (db : store) : DbStudySession * store :=
  let row :=
    {| db_id := nextId db;
       db_user_id := new_user_id r;
       db_subject := new_subject r;
       db_topic := new_topic r;
       db_date := new_date r;
       db_startTime := new_startTime r;
       db_duration := new_duration r;
       db_notes := new_notes r;
       db_created_at := clock db;
       db_progress := new_progress r;
       db_completed := new_completed r |} in
  (row, {| rows := rows db ++ [row];
           nextId := N.succ (nextId db);
           clock := clock db |}).

Definition setProgress (p c : cell) (r : DbStudySession) : DbStudySession :=
  {| db_id := db_id r;
     db_user_id := db_user_id r;
     db_subject := db_subject r;
     db_topic := db_topic r;
     db_date := db_date r;
     db_startTime := db_startTime r;
     db_duration := db_duration r;
     db_notes := db_notes r;
     db_created_at := db_created_at r;
     db_progress := p;
     db_completed := c |}.

(** [.update({progress, completed}).eq('id', id)] *)
Definition updateRow (id : ident) (p c : cell) (db : store) : store :=
  {| rows := map (fun r => if N.eqb (db_id r) id then setProgress p c r else r)
                 (rows db);
     nextId := nextId db;
     clock := clock db |}.

(** [.delete().eq('id', id)] *)
Definition deleteRow (id : ident) (db : store) : store :=
  {| rows := filter (fun r => negb (N.eqb (db_id r) id)) (rows db);
     nextId := nextId db;
     clock := clock db |}.

(** ** Dates

    A [Date] is its time value, milliseconds since the epoch (UTC).
    [tz] is the offset of the browser's local time from UTC in
    milliseconds (positive east of Greenwich), taken as fixed. *)
Definition msPerDay : Z := 86400000.

(** [new Date("yyyy-MM-dd")]: a date-only text is read as UTC midnight. *)
Definition newDate (day : Z) : Z := day * msPerDay.

(** [format(date, 'yyyy-MM-dd')] of date-fns: the calendar day of [date]
    in local time. *)
Definition format_yyyy_MM_dd (tz : Z) (date : Z) : Z := (date + tz) / msPerDay.

(** ** The component's sessions *)

Record StudySession : Type := {
  id : ident;
  user_id : ident;
  subject : jsstring;
  topic : jsstring;
  date : Z;
  startTime : jsstring;
  duration : jsstring;
  notes : jsstring;
  created_at : Z;
  progress : number;
  completed : bool
}.

(** [x || ""] *)
Definition orEmpty (x : option jsstring) : jsstring :=
  match x with Some s => s | None => [] end.

(** [typeof p === 'number' ? p : p ? Number(p) : 0] *)
Definition decodeProgress (p : cell) : number :=
  match p with
  | CNum n => n
  | CStr s => if truthy_str s then Number s else Int 0
  | CBool b => if b then Int 1 else Int 0
  | CNull => Int 0
  end.

(** [typeof c === 'boolean' ? c : c === 'true' ? true : false] *)
Definition decodeCompleted (c : cell) : bool :=
  match c with
  | CBool b => b
  | CStr s => str_eqb s (lit "true")
  | _ => false
  end.

(** The conversion of a returned row to the component format, as written
    in [fetchStudySessions], [onSubmit] and [handleUndoDelete]. *)
Definition toSession (data : DbStudySession) : StudySession :=
  {| id := db_id data;
     user_id := db_user_id data;
     subject := db_subject data;
     topic := db_topic data;
     date := newDate (db_date data);
     startTime := orEmpty (db_startTime data);
     duration := db_duration data;
     notes := orEmpty (db_notes data);
     created_at := db_created_at data;
     progress := decodeProgress (db_progress data);
     completed := decodeCompleted (db_completed data) |}.

Definition withProgress (s : StudySession) (p : number) (c : bool)
  : StudySession :=
  {| id := id s;
     user_id := user_id s;
     subject := subject s;
     topic := topic s;
     date := date s;
     startTime := startTime s;
     duration := duration s;
     notes := notes s;
     created_at := created_at s;
     progress := p;
     completed := c |}.

(** ** Broadcast events on the channel [dashboard-updates] *)

Inductive DashboardEvent : Type :=
| SessionCreated (session : StudySession)
| SessionUpdated (sessionId : ident) (progress : number) (completed : bool)
                 (subject : option jsstring)
| SessionCompleted (sessionId : ident) (subject : option jsstring)
| SessionDeleted (sessionId : ident) (subject : jsstring)
| SessionRestored (session : StudySession).

Inductive Toast : Type :=
| Notice (title : string)
| Failure (title : string)
| Deleted (undo : option StudySession).

(** What a handler leaves behind: the component state, the store, the
    events it broadcast and the notifications it raised. *)
Record outcome : Type := {
  studySessions : list StudySession;
  db : store;
  sent : list DashboardEvent;
  toasts : list Toast
}.

Definition findSession (sessionId : ident) (l : list StudySession)
  : option StudySession :=
  find (fun s => N.eqb (id s) sessionId) l.

(** ** Handlers

    A handler reads, besides its arguments, the signed-in [user], the
    [studySessions] of the render that created it, and the store.  [ok]
    tells whether the store answers its request without an error. *)

Definition updateSessionProgress
    (user : option ident) (sessions : list StudySession) (st : store)
    (ok : bool) (sessionId : ident) (progress : number) : outcome :=
  match user with
  | None => {| studySessions := sessions; db := st; sent := []; toasts := [] |}
  | Some _ =>
      let completed := geb progress (Int 100) in
      if ok then
        let updatedSessions :=
          map (fun session =>
                 if N.eqb (id session) sessionId
                 then withProgress session progress completed
                 else session) sessions in
        {| studySessions := updatedSessions;
           db := updateRow sessionId (CStr (toString progress))
                           (CStr (bool_toString completed)) st;
           sent := [SessionUpdated sessionId progress completed
                      (option_map subject
                         (findSession sessionId updatedSessions))];
           toasts := if completed then [Notice "Study session completed"]
                     else [] |}
      else
        {| studySessions := sessions; db := st; sent := [];
           toasts := [Failure "Error updating progress"] |}
  end.

Definition markSessionComplete
    (user : option ident) (sessions : list StudySession) (st : store)
    (ok : bool) (sessionId : ident) : outcome :=
  match user with
  | None => {| studySessions := sessions; db := st; sent := []; toasts := [] |}
  | Some _ =>
      if ok then
        let updatedSessions :=
          map (fun session =>
                 if N.eqb (id session) sessionId
                 then withProgress session (Int 100) true
                 else session) sessions in
        {| studySessions := updatedSessions;
           db := updateRow sessionId (CStr (lit "100")) (CStr (lit "true")) st;
           sent := [SessionCompleted sessionId
                      (option_map subject
                         (findSession sessionId updatedSessions))];
           toasts := [Notice "Study session completed"] |}
      else
        {| studySessions := sessions; db := st; sent := [];
           toasts := [Failure "Error updating session"] |}
  end.

Definition deleteSession
    (sessions : list StudySession) (st : store) (ok : bool) (sid : ident)
  : outcome :=
  let sessionToDelete := findSession sid sessions in
  if ok then
    {| studySessions := filter (fun session => negb (N.eqb (id session) sid))
                               sessions;
       db := deleteRow sid st;
       sent := match sessionToDelete with
               | Some s => [SessionDeleted sid (subject s)]
               | None => []
               end;
       toasts := [Deleted sessionToDelete] |}
  else
    {| studySessions := sessions; db := st; sent := [];
       toasts := [Failure "Error deleting study session"] |}.

(** The row [handleUndoDelete] inserts for [session]. *)
Definition undoRow (tz : Z) (session : StudySession) : NewRow :=
  let formattedDate := format_yyyy_MM_dd tz (date session) in
  {| new_user_id := user_id session;
     new_subject := subject session;
     new_topic := topic session;
     new_date := formattedDate;
     new_startTime := Some (startTime session);
     new_duration := duration session;
     new_notes := Some (notes session);
     new_progress := CStr (toString (progress session));
     new_completed := CStr (bool_toString (completed session)) |}.

(** [sessions] is the list of the render in which the session was
    deleted: the Undo button of the notification calls the handler of
    that render. *)
Definition handleUndoDelete
    (tz : Z) (sessions : list StudySession) (st : store) (ok : bool)
    (session : StudySession) : outcome :=
  if ok then
    let (data, st') := insertRow (undoRow tz session) st in
    let restoredSession := toSession data in
    {| studySessions := sessions ++ [restoredSession];
       db := st';
       sent := [SessionRestored restoredSession];
       toasts := [Notice "Study session restored"] |}
  else
    {| studySessions := sessions; db := st; sent := [];
       toasts := [Failure "Error restoring study session"] |}.

(** The session [handleUndoDelete] hands back, if any. *)
Definition restored (o : outcome) : option StudySession :=
  match sent o with
  | [SessionRestored s] => Some s
  | _ => None
  end.

(** Deleting [sid] and then pressing Undo on the notification. *)
Definition deleteThenUndo
    (tz : Z) (sessions : list StudySession) (st : store) (sid : ident)
  : option (StudySession * outcome) :=
  let o := deleteSession sessions st true sid in
  match toasts o with
  | [Deleted (Some deleted)] =>
      Some (deleted, handleUndoDelete tz sessions (db o) true deleted)
  | _ => None
  end.

(** ** [fetchStudySessions] *)

(** [.select('*').eq('user_id', user.id).order('date', { ascending: false })] *)
Definition ownRows (uid : ident) (st : store) : list DbStudySession :=
  filter (fun r => N.eqb (db_user_id r) uid) (rows st).

Definition fetchStudySessions
    (user : option ident) (sessions : list StudySession) (st : store)
    (ok : bool) : outcome :=
  match user with
  | None => {| studySessions := sessions; db := st; sent := []; toasts := [] |}
  | Some uid =>
      if ok then
        let data := Order.orderDesc db_date (ownRows uid st) in
        let formattedSessions := map toSession data in
        {| studySessions := formattedSessions; db := st; sent := [];
           toasts := [] |}
      else
        {| studySessions := sessions; db := st; sent := [];
           toasts := [Failure "Error fetching study sessions"] |}
  end.

(** ** [onSubmit] *)

(** The values of the form, after validation; [form_date] is the [Date]
    picked in the calendar, [form_notes] is optional. *)
Record FormValues : Type := {
  form_subject : jsstring;
  form_topic : jsstring;
  form_date : Z;
  form_startTime : jsstring;
  form_duration : jsstring;
  form_notes : option jsstring
}.

(** [x || null] *)
Definition orNull (x : option jsstring) : option jsstring :=
  match x with
  | Some s => if truthy_str s then Some s else None
  | None => None
  end.

(** The row [onSubmit] inserts. *)
Definition submitRow (tz : Z) (uid : ident) (values : FormValues) : NewRow :=
  let formattedDate := format_yyyy_MM_dd tz (form_date values) in
  {| new_user_id := uid;
     new_subject := form_subject values;
     new_topic := form_topic values;
     new_date := formattedDate;
     new_startTime := Some (form_startTime values);
     new_duration := form_duration values;
     new_notes := orNull (form_notes values);
     new_progress := CStr (lit "0");
     new_completed := CStr (lit "false") |}.

Definition onSubmit
    (tz : Z) (user : option ident) (sessions : list StudySession) (st : store)
    (ok : bool) (values : FormValues) : outcome :=
  match user with
  | None => {| studySessions := sessions; db := st; sent := []; toasts := [] |}
  | Some uid =>
      if ok then
        let (data, st') := insertRow (submitRow tz uid values) st in
        let formattedSession := toSession data in
        {| studySessions := formattedSession :: sessions;
           db := st';
           sent := [SessionCreated formattedSession];
           toasts := [Notice "Study session created"] |}
      else
        {| studySessions := sessions; db := st; sent := [];
           toasts := [Failure "Error creating study session"] |}
  end.

(** ** [sessionsForSelectedDate] *)

(** [getDate], [getMonth] and [getFullYear] read the calendar day of the
    local time. *)
Definition localDay (tz : Z) (t : Z) : Z := (t + tz) / msPerDay.

Definition getDate (tz : Z) (t : Z) : Z := JsDate.DateFromDay (localDay tz t).
Definition getMonth (tz : Z) (t : Z) : Z := JsDate.MonthFromDay (localDay tz t).
Definition getFullYear (tz : Z) (t : Z) : Z :=
  JsDate.YearFromDay (localDay tz t).

Definition sessionsForSelectedDate
    (tz : Z) (selectedDate : option Z) (sessions : list StudySession)
  : list StudySession :=
  match selectedDate with
  | Some selected =>
      filter (fun session =>
                (getDate tz (date session) =? getDate tz selected)
                && (getMonth tz (date session) =? getMonth tz selected)
                && (getFullYear tz (date session) =? getFullYear tz selected))
             sessions
  | None => []
  end.

(** ** The planner over time

    What the user does, each with the answer of the store.  Every
    handler but the Undo of a notification is the one of the current
    render. *)
Inductive action : Type :=
| Load (ok : bool)
| Create (ok : bool) (values : FormValues)
| Slide (ok : bool) (sessionId : ident) (progress : number)
| Complete (ok : bool) (sessionId : ident)
| Delete (ok : bool) (sessionId : ident).

Definition perform (tz : Z) (user : option ident) (w : outcome) (a : action)
  : outcome :=
  match a with
  | Load ok => fetchStudySessions user (studySessions w) (db w) ok
  | Create ok values => onSubmit tz user (studySessions w) (db w) ok values
  | Slide ok sid p =>
      updateSessionProgress user (studySessions w) (db w) ok sid p
  | Complete ok sid => markSessionComplete user (studySessions w) (db w) ok sid
  | Delete ok sid => deleteSession (studySessions w) (db w) ok sid
  end.

(** The page is opened on the store [st], then the user acts. *)
Definition opened (st : store) : outcome :=
  {| studySessions := []; db := st; sent := []; toasts := [] |}.

Definition runActions (tz : Z) (uid : ident) (st : store) (l : list action)
  : outcome :=
  fold_left (perform tz (Some uid)) (Load true :: l) (opened st).

(** What a reload of the page would show. *)
Definition reloaded (uid : ident) (st : store) : list StudySession :=
  studySessions (fetchStudySessions (Some uid) [] st true).

End StudyPlanner.

(* ================================================================== *)
(** * Dashboard *)
(* ================================================================== *)

Module Dashboard.
Import Js JsNum Order StudyPlanner.

(** The dashboard's own view of a session. *)
Record Session : Type := {
  s_id : ident;
  s_subject : jsstring;
  s_topic : jsstring;
  s_date : Z;
  s_startTime : jsstring;
  s_duration : jsstring;
  s_progress : number;
  s_completed : bool
}.

Definition withStatus (s : Session) (p : number) (c : bool) : Session :=
  {| s_id := s_id s;
     s_subject := s_subject s;
     s_topic := s_topic s;
     s_date := s_date s;
     s_startTime := s_startTime s;
     s_duration := s_duration s;
     s_progress := p;
     s_completed := c |}.

(** [formattedSessions] of [fetchDashboardData]. *)
Definition formatSession (session : DbStudySession) : Session :=
  {| s_id := db_id session;
     s_subject := db_subject session;
     s_topic := db_topic session;
     s_date := newDate (db_date session);
     s_startTime := orEmpty (db_startTime session);
     s_duration := db_duration session;
     s_progress := decodeProgress (db_progress session);
     s_completed := decodeCompleted (db_completed session) |}.

Section Aggregates.
Context {T : Type} {A : Arith T}.

(** Converting a number to the arithmetic; [NaN] is [0/0]. *)
Definition ofNumber (n : number) : T :=
  match n with
  | Int z => ofInt z
  | NaN => div (ofInt 0) (ofInt 0)
  end.

Record SubjectProgress : Type := {
  sp_subject : jsstring;
  sp_progress : T;
  totalSessions : nat;
  completedSessions : T
}.

(** The body of both [forEach] loops: a completed session adds 1, a
    session with positive progress adds [progress / 100]. *)
Definition contribute (acc : T) (isCompleted : bool) (sessionProgress : number)
  : T :=
  if isCompleted then add acc (ofInt 1)
  else if gtb sessionProgress (Int 0)
       then add acc (div (ofNumber sessionProgress) (ofInt 100))
       else acc.

(** [x > 0 ? (c / x) * 100 : 0], rounded. *)
Definition percentage (completed : T) (total : nat) : T :=
  round (if (0 <? total)%nat
         then mul (div completed (ofInt (Z.of_nat total))) (ofInt 100)
         else ofInt 0).

(** *** [updateSubjectProgress] *)

(** [.select('*').eq('user_id', user.id).eq('subject', subject)] *)
Definition sessionsOf (uid : ident) (subject : jsstring) (st : store)
  : list DbStudySession :=
  filter (fun r => (N.eqb (db_user_id r) uid
                    && str_eqb (db_subject r) subject)%bool) (rows st).

(** The running sum over the rows read back. *)
Definition sumCompleted (data : list DbStudySession) : T :=
  fold_left
    (fun acc session =>
       contribute acc (decodeCompleted (db_completed session))
                  (decodeProgress (db_progress session)))
    data (ofInt 0).

(** The entry computed from the rows of one subject. *)
Definition subjectEntry (subject : jsstring) (data : list DbStudySession)
  : SubjectProgress :=
  let total := length data in
  let completed := sumCompleted data in
  {| sp_subject := subject;
     sp_progress := percentage completed total;
     totalSessions := total;
     completedSessions := round completed |}.

(** [.sort((a, b) => b.progress - a.progress)]: stable, descending. *)
Fixpoint insertDesc (x : SubjectProgress) (l : list SubjectProgress)
  : list SubjectProgress :=
  match l with
  | [] => [x]
  | y :: l' =>
      if ltb (sp_progress x) (sp_progress y) then y :: insertDesc x l'
      else x :: l
  end.

Definition sortDesc (l : list SubjectProgress) : list SubjectProgress :=
  fold_right insertDesc [] l.

(** The updater passed to [setStudyProgress]. *)
Definition putEntry (e : SubjectProgress) (prev : list SubjectProgress)
  : list SubjectProgress :=
  match find (fun p => str_eqb (sp_subject p) (sp_subject e)) prev with
  | Some _ =>
      map (fun p =>
             if str_eqb (sp_subject p) (sp_subject e)
             then {| sp_subject := sp_subject p;
                     sp_progress := sp_progress e;
                     totalSessions := totalSessions e;
                     completedSessions := completedSessions e |}
             else p) prev
  | None => firstn 3 (sortDesc (prev ++ [e]))
  end.

(** *** The state of the component *)

Record state : Type := {
  upcomingStudySessions : list Session;
  studyProgress : list SubjectProgress;
  updatingProgress : option jsstring
}.

(** [ok] tells whether the store answers the read without an error;
    on an error the handler only logs. *)
Definition updateSubjectProgress
    (user : option ident) (st : store) (ok : bool) (subject : jsstring)
    (s : state) : state :=
  match user with
  | None => s
  | Some uid =>
      if ok then
        {| upcomingStudySessions := upcomingStudySessions s;
           studyProgress :=
             putEntry (subjectEntry subject (sessionsOf uid subject st))
                      (studyProgress s);
           updatingProgress := updatingProgress s |}
      else s
  end.

(** *** The handlers of the broadcast events

    A handler is the sequence of the state updates it issues, in the
    order of its statements. *)
Inductive step : Type :=
| SetUpcoming (f : list Session -> list Session)
| SetUpdating (subject : option jsstring)
| Recompute (subject : jsstring)
| Notify (title : string).

Definition handleSessionUpdated
    (upcoming : list Session) (sessionId : ident) (progress : number)
    (completed : bool) (subject : jsstring) : list step :=
  let updatedUpcoming :=
    map (fun session =>
           if N.eqb (s_id session) sessionId
           then withStatus session progress completed
           else session) upcoming in
  let filteredUpcoming :=
    filter (fun session => negb (s_completed session)) updatedUpcoming in
  [ SetUpcoming (fun _ => filteredUpcoming);
    SetUpdating (Some subject);
    Recompute subject;
    SetUpdating None ].

Definition handleSessionCompleted (sessionId : ident) (subject : jsstring)
  : list step :=
  [ SetUpcoming
      (fun prev => filter (fun session => negb (N.eqb (s_id session) sessionId))
                          prev);
    SetUpdating (Some subject);
    Recompute subject;
    SetUpdating None;
    Notify "Session completed" ].

Definition handleSessionDeleted (sessionId : ident) (subject : jsstring)
  : list step :=
  [ SetUpcoming
      (fun prev => filter (fun session => negb (N.eqb (s_id session) sessionId))
                          prev);
    Recompute subject ].

Definition exec (user : option ident) (st : store) (ok : bool)
           (s : state) (e : step) : state :=
  match e with
  | SetUpcoming f =>
      {| upcomingStudySessions := f (upcomingStudySessions s);
         studyProgress := studyProgress s;
         updatingProgress := updatingProgress s |}
  | SetUpdating u =>
      {| upcomingStudySessions := upcomingStudySessions s;
         studyProgress := studyProgress s;
         updatingProgress := u |}
  | Recompute subject => updateSubjectProgress user st ok subject s
  | Notify _ => s
  end.

Definition run (user : option ident) (st : store) (ok : bool)
           (steps : list step) (s : state) : state :=
  fold_left (exec user st ok) steps s.

(** *** [fetchDashboardData]: study progress by subject *)

(** The [Map] from subject to [{total, completed}], in insertion
    order. *)
Definition subjectMap : Type := list (jsstring * (nat * T)).

Fixpoint bump (subject : jsstring) (f : nat * T -> nat * T) (m : subjectMap)
  : subjectMap :=
  match m with
  | [] => [(subject, f (O, ofInt 0))]
  | (k, v) :: m' =>
      if str_eqb k subject then (k, f v) :: m'
      else (k, v) :: bump subject f m'
  end.

(** One session counted into [{total, completed}]. *)
Definition count (v : nat * T) (session : Session) : nat * T :=
  (S (fst v),
   contribute (snd v) (s_completed session) (s_progress session)).

Definition tally (m : subjectMap) (session : Session) : subjectMap :=
  bump (s_subject session) (fun v => count v session) m.

(** The sessions of one subject counted in their order. *)
Definition statsOf (subject : jsstring) (sessions : list Session) : nat * T :=
  fold_left count
            (filter (fun s => str_eqb (s_subject s) subject) sessions)
            (O, ofInt 0).

Definition entryOf (kv : jsstring * (nat * T)) : SubjectProgress :=
  {| sp_subject := fst kv;
     sp_progress := percentage (snd (snd kv)) (fst (snd kv));
     totalSessions := fst (snd kv);
     completedSessions := round (snd (snd kv)) |}.

(** [.select('*').eq('user_id', user.id).order('date', { ascending: true })] *)
Definition sessionsData (uid : ident) (st : store) : list DbStudySession :=
  orderAsc db_date (filter (fun r => N.eqb (db_user_id r) uid) (rows st)).

Definition progressData (sessionsData : list DbStudySession)
  : list SubjectProgress :=
  let formattedSessions := map formatSession sessionsData in
  let m := fold_left tally formattedSessions [] in
  firstn 3 (sortDesc (map entryOf m)).
End Aggregates.

(** ** The formula of the specification

    [round(100 * sum / count)], where a completed session counts 1 and
    any other session [progress / 100], over the rationals. *)
Definition specContribution (r : DbStudySession) : Q :=
  if decodeCompleted (db_completed r) then 1%Q
  else match decodeProgress (db_progress r) with
       | Int z => (z # 100)%Q
       | NaN => 0%Q
       end.

Definition specSum (data : list DbStudySession) : Q :=
  fold_right (fun r acc => (specContribution r + acc)%Q) 0%Q data.

Definition specProgress (data : list DbStudySession) : Z :=
  Qround_half_up (100 * specSum data / inject_Z (Z.of_nat (length data)))%Q.

(** A session of the data model proper: its progress is an integer
    percentage, from 0 to 100. *)
Definition percentProgress (r : DbStudySession) : bool :=
  match decodeProgress (db_progress r) with
  | Int z => ((0 <=? z) && (z <=? 100))%bool
  | NaN => false
  end.

(** [100 * sum / count] lies halfway between two integers: it is the
    rounded value less one half. *)
Definition halfway (data : list DbStudySession) : Prop :=
  (100 * specSum data / inject_Z (Z.of_nat (length data)) + (1 # 2)
   == inject_Z (specProgress data))%Q.

(** ** [fetchDashboardData]: the upcoming sessions *)

(** [s.split(':')] *)
Fixpoint splitOn (sep : N) (cur : jsstring) (s : jsstring) : list jsstring :=
  match s with
  | [] => [rev cur]
  | c :: s' =>
      if N.eqb c sep then rev cur :: splitOn sep [] s'
      else splitOn sep (c :: cur) s'
  end.

(** [startTime.split(':').map(Number)] *)
Definition timeOf (startTime : jsstring) : list number :=
  map Number (splitOn 58 [] startTime).

(** [a - b] and [a !== b] on elements of such an array; an element
    outside the array is [undefined]. *)
Definition minus (a b : option number) : number :=
  match a, b with
  | Some (Int x), Some (Int y) => Int (x - y)
  | _, _ => NaN
  end.

Definition differ (a b : option number) : bool :=
  match a, b with
  | Some (Int x), Some (Int y) => negb (x =? y)
  | None, None => false
  | _, _ => true
  end.

(** The comparator of both sorts of sessions. *)
Definition compareSessions (a b : Session) : number :=
  let dateComparison := s_date a - s_date b in
  if negb (dateComparison =? 0) then Int dateComparison
  else
    let timeA := timeOf (s_startTime a) in
    let timeB := timeOf (s_startTime b) in
    if differ (nth_error timeA 0) (nth_error timeB 0)
    then minus (nth_error timeA 0) (nth_error timeB 0)
    else minus (nth_error timeA 1) (nth_error timeB 1).

(** [.sort(compare)]: the sort is stable; an element moves behind
    another when the comparator gives a number above 0.  For a
    comparator that is consistent the result is the one every conforming
    sort gives. *)
Section Sorting.
Variable E : Type.
Variable compare : E -> E -> number.

Fixpoint insertBy (x : E) (l : list E) : list E :=
  match l with
  | [] => [x]
  | y :: l' => if gtb (compare x y) (Int 0) then y :: insertBy x l' else x :: l
  end.

Definition sortBy (l : list E) : list E := fold_right insertBy [] l.
End Sorting.

(** [today.setHours(0, 0, 0, 0)]: local midnight of the day of [now]. *)
Definition startOfDay (tz now : Z) : Z := localDay tz now * msPerDay - tz.

Definition sameDate (tz a b : Z) : bool :=
  ((getDate tz a =? getDate tz b)
   && (getMonth tz a =? getMonth tz b)
   && (getFullYear tz a =? getFullYear tz b))%bool.

Definition isUpcoming (tz today : Z) (session : Session) : bool :=
  (negb (s_completed session)
   && ((today <=? s_date session) || sameDate tz (s_date session) today))%bool.

Definition upcomingOf (tz now : Z) (formattedSessions : list Session)
  : list Session :=
  let today := startOfDay tz now in
  firstn 4 (sortBy compareSessions
                   (filter (isUpcoming tz today) formattedSessions)).

(** ** [handleSessionCreated]; [upcoming] is the list of the render that
    registered the handler. *)
Definition handleSessionCreated
    (tz now : Z) (upcoming : list Session) (session : Session) : list step :=
  let today := startOfDay tz now in
  (if (negb (s_completed session) && (today <=? s_date session))%bool
   then [SetUpcoming
           (fun _ => firstn 4 (sortBy compareSessions (upcoming ++ [session])))]
   else [])
  ++ [Recompute (s_subject session); Notify "Dashboard updated"].

(** ** The dashboard over time

    The effect of the component fetches the data and registers the
    handlers of the broadcast events; a handler that reads
    [upcomingStudySessions] reads the list of the render in which it was
    registered.  Every event comes with the store as it is then, and
    with the answer to the read the handler makes. *)
Section Live.
Context {T : Type} {A : Arith T}.

Record live : Type := {
  shown : @state T;
  registered : list Session
}.

Inductive event : Type :=
| Registered
| Loaded (st : store) (ok : bool) (now : Z)
| OnCreated (st : store) (ok : bool) (now : Z) (session : Session)
| OnUpdated (st : store) (ok : bool) (sessionId : ident) (progress : number)
          (completed : bool) (subject : jsstring)
| OnCompleted (st : store) (ok : bool) (sessionId : ident) (subject : jsstring)
| OnDeleted (st : store) (ok : bool) (sessionId : ident) (subject : jsstring).

(** What [fetchDashboardData] sets when its reads are answered. *)
Definition fetchDashboardData (tz : Z) (uid : ident) (st : store) (now : Z)
           (s : @state T) : @state T :=
  let data := sessionsData uid st in
  {| upcomingStudySessions := upcomingOf tz now (map formatSession data);
     studyProgress := progressData data;
     updatingProgress := updatingProgress s |}.

Definition react (tz : Z) (uid : ident) (w : live) (e : event) : live :=
  match e with
  | Registered =>
      {| shown := shown w;
         registered := upcomingStudySessions (shown w) |}
  | Loaded st ok now =>
      {| shown := if ok then fetchDashboardData tz uid st now (shown w)
                  else shown w;
         registered := registered w |}
  | OnCreated st ok now session =>
      {| shown := run (Some uid) st ok
                      (handleSessionCreated tz now (registered w) session)
                      (shown w);
         registered := registered w |}
  | OnUpdated st ok sid p c subject =>
      {| shown := run (Some uid) st ok
                      (handleSessionUpdated (registered w) sid p c subject)
                      (shown w);
         registered := registered w |}
  | OnCompleted st ok sid subject =>
      {| shown := run (Some uid) st ok (handleSessionCompleted sid subject)
                      (shown w);
         registered := registered w |}
  | OnDeleted st ok sid subject =>
      {| shown := run (Some uid) st ok (handleSessionDeleted sid subject)
                      (shown w);
         registered := registered w |}
  end.

(** [useState([])] for both lists, [useState(null)]. *)
Definition mounted : live :=
  {| shown := {| upcomingStudySessions := [];
                 studyProgress := [];
                 updatingProgress := None |};
     registered := [] |}.

Definition runEvents (tz : Z) (uid : ident) (l : list event) : live :=
  fold_left (react tz uid) l mounted.
End Live.

(** ** What the properties speak of *)

(** [a] is not after [b]: by date, then by hour, then by minute, for
    start times that split into an hour and a minute. *)
Definition notAfter (a b : Session) : Prop :=
  s_date a < s_date b
  \/ (s_date a = s_date b
      /\ match timeOf (s_startTime a), timeOf (s_startTime b) with
         | [Int h; Int m], [Int h'; Int m'] => h < h' \/ (h = h' /\ m <= m')
         | _, _ => False
         end).

Definition wellTimed (s : Session) : Prop :=
  exists h m, timeOf (s_startTime s) = [Int h; Int m].

End Dashboard.

(* ================================================================== *)
(** * DoubtSolver *)
(* ================================================================== *)

Module DoubtSolver.
Import Js Order.

Definition ident : Type := N.

(** ** The record store: tables [doubts] and [doubt_messages]

    A timestamp is its time value in milliseconds. *)
Record DoubtRow : Type := {
  d_id : ident;
  d_question : jsstring;
  d_solved : bool;
  d_subject : jsstring;
  d_timestamp : Z;
  d_user_id : ident
}.

Record MessageRow : Type := {
  m_id : ident;
  m_content : jsstring;
  m_doubt_id : ident;
  m_sender : jsstring;
  m_timestamp : Z
}.

(** The tables as the hosted store keeps them.  The handlers rely on
    this much of its contract: an insert returns the row with a fresh
    identity and the time of the server's clock as its timestamp; a read
    returns the rows that match, in the order asked for. *)
Record store : Type := {
  doubtRows : list DoubtRow;
  messageRows : list MessageRow;
  nextId : ident;
  clock : Z
}.

(** How the store answers one request: with or without an error, after
    some time has passed. *)
Record reply : Type := {
  ok : bool;
  elapsed : N
}.

Definition later (r : reply) (st : store) : store :=
  {| doubtRows := doubtRows st;
     messageRows := messageRows st;
     nextId := nextId st;
     clock := clock st + Z.of_N (elapsed r) |}.

Definition insertDoubt (question : jsstring) (uid : ident) (subject : jsstring)
           (st : store) : DoubtRow * store :=
  let row := {| d_id := nextId st;
                d_question := question;
                d_solved := false;
                d_subject := subject;
                d_timestamp := clock st;
                d_user_id := uid |} in
  (row, {| doubtRows := doubtRows st ++ [row];
           messageRows := messageRows st;
           nextId := N.succ (nextId st);
           clock := clock st |}).

Definition insertMessage (doubt_id : ident) (content sender : jsstring)
           (st : store) : MessageRow * store :=
  let row := {| m_id := nextId st;
                m_content := content;
                m_doubt_id := doubt_id;
                m_sender := sender;
                m_timestamp := clock st |} in
  (row, {| doubtRows := doubtRows st;
           messageRows := messageRows st ++ [row];
           nextId := N.succ (nextId st);
           clock := clock st |}).

Definition solveDoubt (id : ident) (st : store) : store :=
  {| doubtRows :=
       map (fun d => if N.eqb (d_id d) id
                     then {| d_id := d_id d;
                             d_question := d_question d;
                             d_solved := true;
                             d_subject := d_subject d;
                             d_timestamp := d_timestamp d;
                             d_user_id := d_user_id d |}
                     else d) (doubtRows st);
     messageRows := messageRows st;
     nextId := nextId st;
     clock := clock st |}.

(** ** The component *)

Record Message : Type := {
  id : ident;
  content : jsstring;
  sender : jsstring;
  timestamp : Z
}.

Record Doubt : Type := {
  doubt_id : ident;
  question : jsstring;
  doubt_timestamp : Z;
  solved : bool;
  subject : jsstring;
  messages : list Message
}.

Definition toMessage (message : MessageRow) : Message :=
  {| id := m_id message;
     content := m_content message;
     sender := m_sender message;
     timestamp := m_timestamp message |}.

Definition withMessages (d : Doubt) (ms : list Message) : Doubt :=
  {| doubt_id := doubt_id d;
     question := question d;
     doubt_timestamp := doubt_timestamp d;
     solved := solved d;
     subject := subject d;
     messages := ms |}.

Definition withSolved (d : Doubt) : Doubt :=
  {| doubt_id := doubt_id d;
     question := question d;
     doubt_timestamp := doubt_timestamp d;
     solved := true;
     subject := subject d;
     messages := messages d |}.

(** The state of the component that the handlers read and set. *)
Record view : Type := {
  doubts : list Doubt;
  selectedDoubt : option Doubt
}.

(** [doubts.map(d => d.id === updated.id ? updated : d)] *)
Definition replaceDoubt (updated : Doubt) (l : list Doubt) : list Doubt :=
  map (fun d => if N.eqb (doubt_id d) (doubt_id updated) then updated else d) l.

Definition apology : jsstring :=
  lit "I'm sorry, I encountered an error while processing your question. Please try again or rephrase your question.".

(** *** [fetchDoubts] *)

Definition messagesOf (did : ident) (st : store) : list Message :=
  map toMessage
      (orderAsc m_timestamp
         (filter (fun m => N.eqb (m_doubt_id m) did) (messageRows st))).

Definition loadDoubt (st : store) (doubt : DoubtRow) : Doubt :=
  {| doubt_id := d_id doubt;
     question := d_question doubt;
     doubt_timestamp := d_timestamp doubt;
     solved := d_solved doubt;
     subject := d_subject doubt;
     messages := messagesOf (d_id doubt) st |}.

(** [answers] tells whether every read is answered without an error. *)
Definition fetchDoubts (user : option ident) (v : view) (st : store)
           (answers : bool) : view :=
  match user with
  | None => v
  | Some uid =>
      if answers then
        let doubtsData :=
          orderDesc d_timestamp
            (filter (fun d => N.eqb (d_user_id d) uid) (doubtRows st)) in
        let doubtsWithMessages := map (loadDoubt st) doubtsData in
        {| doubts := doubtsWithMessages;
           selectedDoubt :=
             match doubtsWithMessages, selectedDoubt v with
             | first :: _, None => Some first
             | _, _ => selectedDoubt v
             end |}
      else v
  end.

(** *** The apology of the [catch] blocks

    [v] is the state set before the error, [closure] the state of the
    render that created the handler: the block reads [selectedDoubt] and
    [doubts] of the latter.  When the insert of the apology fails the
    block throws and sets nothing. *)
Definition apologise (closure v : view) (st : store) (r : reply)
  : view * store :=
  match selectedDoubt closure with
  | Some selected =>
      let st := later r st in
      if ok r then
        let (errorMessageData, st') :=
          insertMessage (doubt_id selected) apology (lit "ai") st in
        let updatedDoubt :=
          withMessages selected
            (messages selected ++ [toMessage errorMessageData]) in
        ({| doubts := replaceDoubt updatedDoubt (doubts closure);
            selectedDoubt := Some updatedDoubt |}, st')
      else (v, st)
  | None => (v, st)
  end.

(** *** [handleSubmitQuestion]

    [closure] is the state of the render that created the handler.
    [r1] .. [r4] answer the inserts of the doubt, of its first message,
    of the AI message and of the apology; [answer] is what the function
    [doubt-solver] returns, [None] for an error. *)
Definition handleSubmitQuestion
    (user : option ident) (newQuestion : jsstring) (closure : view)
    (st : store) (r1 r2 : reply) (answer : option jsstring) (r3 r4 : reply)
  : view * store :=
  match truthy_str (trim newQuestion), user with
  | true, Some uid =>
      let st := later r1 st in
      if ok r1 then
        let (doubtData, st) :=
          insertDoubt newQuestion uid (lit "General") st in
        let st := later r2 st in
        if ok r2 then
          let (messageData, st) :=
            insertMessage (d_id doubtData) newQuestion (lit "user") st in
          let newDoubt :=
            {| doubt_id := d_id doubtData;
               question := d_question doubtData;
               doubt_timestamp := d_timestamp doubtData;
               solved := d_solved doubtData;
               subject := d_subject doubtData;
               messages := [toMessage messageData] |} in
          let v1 := {| doubts := newDoubt :: doubts closure;
                       selectedDoubt := Some newDoubt |} in
          match answer with
          | Some text =>
              let st := later r3 st in
              if ok r3 then
                let (aiMessageData, st) :=
                  insertMessage (d_id doubtData) text (lit "ai") st in
                let updatedDoubt :=
                  withMessages newDoubt
                    (messages newDoubt ++ [toMessage aiMessageData]) in
                ({| doubts := replaceDoubt updatedDoubt (doubts closure);
                    selectedDoubt := Some updatedDoubt |}, st)
              else apologise closure v1 st r4
          | None => apologise closure v1 st r4
          end
        else apologise closure closure st r4
      else apologise closure closure st r4
  | _, _ => (closure, st)
  end.

(** *** [handleSendMessage] *)
Definition handleSendMessage
    (user : option ident) (newMessage : jsstring) (closure : view)
    (st : store) (r1 : reply) (answer : option jsstring) (r2 r3 : reply)
  : view * store :=
  match truthy_str (trim newMessage), selectedDoubt closure, user with
  | true, Some selected, Some _ =>
      let st := later r1 st in
      if ok r1 then
        let (messageData, st) :=
          insertMessage (doubt_id selected) newMessage (lit "user") st in
        let updatedDoubt :=
          withMessages selected (messages selected ++ [toMessage messageData]) in
        let v1 := {| doubts := replaceDoubt updatedDoubt (doubts closure);
                     selectedDoubt := Some updatedDoubt |} in
        match answer with
        | Some text =>
            let st := later r2 st in
            if ok r2 then
              let (aiMessageData, st) :=
                insertMessage (doubt_id selected) text (lit "ai") st in
              let finalDoubt :=
                withMessages updatedDoubt
                  (messages updatedDoubt ++ [toMessage aiMessageData]) in
              ({| doubts := replaceDoubt finalDoubt (doubts closure);
                  selectedDoubt := Some finalDoubt |}, st)
            else apologise closure v1 st r3
        | None => apologise closure v1 st r3
        end
      else apologise closure closure st r3
  | _, _, _ => (closure, st)
  end.

(** *** [markAsSolved] and the selection of a doubt in the list *)
Definition markAsSolved (id : ident) (closure : view) (st : store) (r : reply)
  : view * store :=
  let st := later r st in
  if ok r then
    ({| doubts := map (fun doubt => if N.eqb (doubt_id doubt) id
                                    then withSolved doubt else doubt)
                      (doubts closure);
        selectedDoubt :=
          match selectedDoubt closure with
          | Some selected =>
              if N.eqb (doubt_id selected) id then Some (withSolved selected)
              else Some selected
          | None => None
          end |},
     solveDoubt id st)
  else (closure, st).

Definition selectDoubt (n : nat) (v : view) : view :=
  match nth_error (doubts v) n with
  | Some doubt => {| doubts := doubts v; selectedDoubt := Some doubt |}
  | None => v
  end.

(** ** The component and the store together *)

Record world : Type := {
  w_store : store;
  w_view : view
}.

Inductive action : Type :=
| Fetch (answers : bool)
| Submit (newQuestion : jsstring) (r1 r2 : reply) (answer : option jsstring)
         (r3 r4 : reply)
| Send (newMessage : jsstring) (r1 : reply) (answer : option jsstring)
       (r2 r3 : reply)
| Solve (id : ident) (r : reply)
| Select (n : nat).

Definition perform (user : option ident) (w : world) (a : action) : world :=
  match a with
  | Fetch answers =>
      {| w_store := w_store w;
         w_view := fetchDoubts user (w_view w) (w_store w) answers |}
  | Submit q r1 r2 answer r3 r4 =>
      let (v, st) :=
        handleSubmitQuestion user q (w_view w) (w_store w) r1 r2 answer r3 r4 in
      {| w_store := st; w_view := v |}
  | Send m r1 answer r2 r3 =>
      let (v, st) :=
        handleSendMessage user m (w_view w) (w_store w) r1 answer r2 r3 in
      {| w_store := st; w_view := v |}
  | Solve id r =>
      let (v, st) := markAsSolved id (w_view w) (w_store w) r in
      {| w_store := st; w_view := v |}
  | Select n => {| w_store := w_store w; w_view := selectDoubt n (w_view w) |}
  end.

Definition initial : world :=
  {| w_store := {| doubtRows := []; messageRows := []; nextId := 1%N;
                   clock := 0 |};
     w_view := {| doubts := []; selectedDoubt := None |} |}.

Definition runActions (user : option ident) (l : list action) : world :=
  fold_left (perform user) l initial.

(** ** What the properties speak of *)

(** Messages in non-decreasing order of their timestamps. *)
Fixpoint ascending (l : list Message) : Prop :=
  match l with
  | [] => True
  | m :: l' =>
      match l' with
      | [] => True
      | m' :: _ => timestamp m <= timestamp m'
      end /\ ascending l'
  end.

(** The doubts the component holds. *)
Definition held (v : view) (d : Doubt) : Prop :=
  In d (doubts v) \/ selectedDoubt v = Some d.

(** A run in which no doubt is left without its first message: whenever
    the insert of the doubt is answered, so is the insert of the
    message. *)
Definition createsWhole (a : action) : bool :=
  match a with
  | Submit q r1 r2 _ _ _ =>
      if truthy_str (trim q) then implb (ok r1) (ok r2) else true
  | _ => true
  end.

(** ** The list of questions: the search box and the tabs *)
Section Search.
(** The runtime's lower-casing of text that is not plain ASCII. *)
Variable unicodeLower : jsstring -> jsstring.

Definition matchesQuery (searchQuery : jsstring) (doubt : Doubt) : bool :=
  (includes (toLowerCase unicodeLower (question doubt))
            (toLowerCase unicodeLower searchQuery)
   || includes (toLowerCase unicodeLower (subject doubt))
               (toLowerCase unicodeLower searchQuery))%bool.

Definition filteredDoubts (searchQuery : jsstring) (l : list Doubt)
  : list Doubt :=
  filter (matchesQuery searchQuery) l.

(** The tabs [Solved] and [Unsolved]. *)
Definition solvedTab (searchQuery : jsstring) (l : list Doubt) : list Doubt :=
  filter (fun doubt => solved doubt) (filteredDoubts searchQuery l).

Definition unsolvedTab (searchQuery : jsstring) (l : list Doubt) : list Doubt :=
  filter (fun doubt => negb (solved doubt)) (filteredDoubts searchQuery l).
End Search.

(** ** What the store remembers of a doubt besides its being solved *)
Definition doubtCore (d : DoubtRow) : ident * jsstring * jsstring * Z * ident :=
  (d_id d, d_question d, d_subject d, d_timestamp d, d_user_id d).

End DoubtSolver.

(* ================================================================== *)
(** * FlashcardGenerator and FlashcardDetail *)
(* ================================================================== *)

Module Flashcards.
Import Js.

(** The identifier of a card is a UUID assigned by the store, or the
    decimal text of [Date.now()] that [handleCreateFlashcard] makes up;
    the two kinds of text never coincide. *)
Inductive cardId : Type :=
| Uuid (n : N)
| Stamp (now : Z).

Definition cardId_eqb (a b : cardId) : bool :=
  match a, b with
  | Uuid x, Uuid y => N.eqb x y
  | Stamp x, Stamp y => Z.eqb x y
  | _, _ => false
  end.

Definition deckId : Type := N.

(** ** The record store: tables [flashcard_decks] and [flashcards] *)
Record DeckRow : Type := {
  deck_row_id : deckId;
  deck_row_name : jsstring;
  deck_row_subject : jsstring;
  deck_row_user_id : N
}.

Record CardRow : Type := {
  card_row_id : N;
  card_row_deck_id : deckId;
  card_row_front : jsstring;
  card_row_back : jsstring
}.

(** The tables as the hosted store keeps them; an insert returns the
    rows with fresh identities. *)
Record store : Type := {
  deckRows : list DeckRow;
  cardRows : list CardRow;
  nextId : N
}.

Definition insertDeck (name subject : jsstring) (uid : N) (st : store)
  : DeckRow * store :=
  let row := {| deck_row_id := nextId st;
                deck_row_name := name;
                deck_row_subject := subject;
                deck_row_user_id := uid |} in
  (row, {| deckRows := deckRows st ++ [row];
           cardRows := cardRows st;
           nextId := N.succ (nextId st) |}).

(** A bulk insert: one row for each card sent, in order. *)
Fixpoint insertCards (deck : deckId) (cards : list (jsstring * jsstring))
         (st : store) : list CardRow * store :=
  match cards with
  | [] => ([], st)
  | (f, b) :: cards' =>
      let row := {| card_row_id := nextId st;
                    card_row_deck_id := deck;
                    card_row_front := f;
                    card_row_back := b |} in
      let (rows, st') :=
        insertCards deck cards'
          {| deckRows := deckRows st;
             cardRows := cardRows st ++ [row];
             nextId := N.succ (nextId st) |} in
      (row :: rows, st')
  end.

Definition names (c : cardId) (row : CardRow) : bool :=
  match c with
  | Uuid n => N.eqb (card_row_id row) n
  | Stamp _ => false
  end.

(** [.delete().in('id', ids)] *)
Definition deleteCards (ids : list cardId) (st : store) : store :=
  {| deckRows := deckRows st;
     cardRows := filter (fun row => negb (existsb (fun c => names c row) ids))
                        (cardRows st);
     nextId := nextId st |}.

(** [.update({front, back}).eq('id', id)] *)
Definition updateCard (c : cardId) (f b : jsstring) (st : store) : store :=
  {| deckRows := deckRows st;
     cardRows := map (fun row =>
                        if names c row
                        then {| card_row_id := card_row_id row;
                                card_row_deck_id := card_row_deck_id row;
                                card_row_front := f;
                                card_row_back := b |}
                        else row) (cardRows st);
     nextId := nextId st |}.

(** ** The component *)
Record Flashcard : Type := {
  id : cardId;
  front : jsstring;
  back : jsstring;
  subject : jsstring
}.

Record FlashcardDeck : Type := {
  deck_id : deckId;
  name : jsstring;
  deck_subject : jsstring;
  totalCards : nat;
  flashcards : list Flashcard
}.

Record view : Type := {
  decks : list FlashcardDeck;
  selectedDeck : option FlashcardDeck
}.

(** [{ ...deck, totalCards, flashcards }] *)
Definition withCards (deck : FlashcardDeck) (total : nat)
           (cards : list Flashcard) : FlashcardDeck :=
  {| deck_id := deck_id deck;
     name := name deck;
     deck_subject := deck_subject deck;
     totalCards := total;
     flashcards := cards |}.

Definition toCard (subject : jsstring) (card : CardRow) : Flashcard :=
  {| id := Uuid (card_row_id card);
     front := card_row_front card;
     back := card_row_back card;
     subject := subject |}.

(** *** [fetchDecks] *)
Definition loadDeck (st : store) (deck : DeckRow) : FlashcardDeck :=
  let flashcardsData :=
    filter (fun card => N.eqb (card_row_deck_id card) (deck_row_id deck))
           (cardRows st) in
  {| deck_id := deck_row_id deck;
     name := deck_row_name deck;
     deck_subject := deck_row_subject deck;
     totalCards := length flashcardsData;
     flashcards := map (toCard (deck_row_subject deck)) flashcardsData |}.

Definition fetchDecks (user : option N) (v : view) (st : store) (ok : bool)
  : view :=
  match user with
  | None => v
  | Some uid =>
      if ok then
        let decksWithCards :=
          map (loadDeck st)
              (rev (filter (fun d => N.eqb (deck_row_user_id d) uid)
                           (deckRows st))) in
        {| decks := decksWithCards;
           selectedDeck :=
             match decksWithCards, selectedDeck v with
             | first :: _, None => Some first
             | _, _ => selectedDeck v
             end |}
      else v
  end.

(** *** [handleCreateDeck] *)
Definition handleCreateDeck (user : option N) (closure : view) (st : store)
           (ok : bool) (deckName deckSubject : jsstring) : view * store :=
  match user with
  | None => (closure, st)
  | Some uid =>
      if ok then
        let (data, st') := insertDeck deckName deckSubject uid st in
        let newDeck := {| deck_id := deck_row_id data;
                          name := deck_row_name data;
                          deck_subject := deck_row_subject data;
                          totalCards := 0;
                          flashcards := [] |} in
        ({| decks := newDeck :: decks closure;
            selectedDeck := Some newDeck |}, st')
      else (closure, st)
  end.

(** *** [handleUpdateDeck]

    [okInsert] and [okDelete] answer the insert of the new cards and the
    delete of the removed ones; [okUpdates] is the number of updates the
    store answers before it refuses one. *)
Definition hasId (c : cardId) (l : list Flashcard) : bool :=
  existsb (fun x => cardId_eqb (id x) c) l.

Definition changedIn (card : Flashcard) (l : list Flashcard) : bool :=
  existsb (fun origCard =>
             cardId_eqb (id origCard) (id card)
             && (negb (str_eqb (front origCard) (front card))
                 || negb (str_eqb (back origCard) (back card)))) l.

Fixpoint updateCards (cards : list Flashcard) (okUpdates : nat) (st : store)
  : option store :=
  match cards with
  | [] => Some st
  | card :: cards' =>
      match okUpdates with
      | O => None
      | S n => updateCards cards' n (updateCard (id card) (front card)
                                                (back card) st)
      end
  end.

Definition handleUpdateDeck (closure : view) (st : store)
           (okInsert okDelete : bool) (okUpdates : nat)
           (updatedDeck : FlashcardDeck) : view * store :=
  match find (fun deck => N.eqb (deck_id deck) (deck_id updatedDeck))
             (decks closure) with
  | None => (closure, st)
  | Some originalDeck =>
      let newCards :=
        filter (fun card => negb (hasId (id card) (flashcards originalDeck)))
               (flashcards updatedDeck) in
      let deletedCardIds :=
        map id (filter (fun origCard =>
                          negb (hasId (id origCard) (flashcards updatedDeck)))
                       (flashcards originalDeck)) in
      let updatedCards :=
        filter (fun card => changedIn card (flashcards originalDeck))
               (flashcards updatedDeck) in
      let inserted :=
        match newCards with
        | [] => Some st
        | _ => if okInsert
               then Some (snd (insertCards (deck_id updatedDeck)
                                 (map (fun c => (front c, back c)) newCards)
                                 st))
               else None
        end in
      match inserted with
      | None => (closure, st)
      | Some st1 =>
          let deleted :=
            match deletedCardIds with
            | [] => Some st1
            | _ => if okDelete then Some (deleteCards deletedCardIds st1)
                   else None
            end in
          match deleted with
          | None => (closure, st1)
          | Some st2 =>
              match updateCards updatedCards okUpdates st2 with
              | None => (closure, st2)
              | Some st3 =>
                  ({| decks :=
                        map (fun deck =>
                               if N.eqb (deck_id deck) (deck_id updatedDeck)
                               then updatedDeck else deck) (decks closure);
                      selectedDeck := Some updatedDeck |}, st3)
              end
          end
      end
  end.

(** *** [handleAddGeneratedFlashcards] *)
Definition handleAddGeneratedFlashcards
    (user : option N) (closure : view) (st : store)
    (ok okInsert okDelete : bool) (okUpdates : nat)
    (generatedFlashcards : list (jsstring * jsstring)) : view * store :=
  match selectedDeck closure, generatedFlashcards, user with
  | Some selected, _ :: _, Some _ =>
      if ok then
        let (data, st') :=
          insertCards (deck_id selected) generatedFlashcards st in
        let newFlashcards := map (toCard (deck_subject selected)) data in
        let updatedDeck :=
          withCards selected
            (totalCards selected + length newFlashcards)
            (flashcards selected ++ newFlashcards) in
        handleUpdateDeck closure st' okInsert okDelete okUpdates updatedDeck
      else (closure, st)
  | _, _, _ => (closure, st)
  end.

(** *** The editors of [FlashcardDetail]; [deck] is the selected deck *)
Definition handleCreateFlashcard (deck : FlashcardDeck) (now : Z)
           (newCardFront newCardBack : jsstring) : option FlashcardDeck :=
  if (negb (truthy_str (trim newCardFront))
      || negb (truthy_str (trim newCardBack)))%bool
  then None
  else
    let newCard := {| id := Stamp now;
                      front := newCardFront;
                      back := newCardBack;
                      subject := deck_subject deck |} in
    Some (withCards deck (totalCards deck + 1) (flashcards deck ++ [newCard])).

Definition handleDeleteFlashcard (deck : FlashcardDeck) (c : cardId)
  : FlashcardDeck :=
  let updatedFlashcards :=
    filter (fun card => negb (cardId_eqb (id card) c)) (flashcards deck) in
  withCards deck (length updatedFlashcards) updatedFlashcards.

Definition handleSaveEdit (deck : FlashcardDeck) (editCardId : option cardId)
           (editCardFront editCardBack : jsstring) : option FlashcardDeck :=
  match editCardId with
  | None => None
  | Some c =>
      if (negb (truthy_str (trim editCardFront))
          || negb (truthy_str (trim editCardBack)))%bool
      then None
      else
        let updatedFlashcards :=
          map (fun card =>
                 if cardId_eqb (id card) c
                 then {| id := id card;
                         front := editCardFront;
                         back := editCardBack;
                         subject := subject card |}
                 else card) (flashcards deck) in
        Some (withCards deck (totalCards deck) updatedFlashcards)
  end.

(** ** The component and the store together *)
Record world : Type := {
  w_store : store;
  w_view : view
}.

Inductive action : Type :=
| Fetch (ok : bool)
| CreateDeck (ok : bool) (deckName deckSubject : jsstring)
| AddGenerated (ok okInsert okDelete : bool) (okUpdates : nat)
               (generated : list (jsstring * jsstring))
| CreateCard (now : Z) (cardFront cardBack : jsstring)
             (okInsert okDelete : bool) (okUpdates : nat)
| DeleteCard (c : cardId) (okInsert okDelete : bool) (okUpdates : nat)
| SaveEdit (editCardId : option cardId) (cardFront cardBack : jsstring)
           (okInsert okDelete : bool) (okUpdates : nat)
| SelectDeck (n : nat).

Definition pack (p : view * store) : world :=
  {| w_store := snd p; w_view := fst p |}.

Definition perform (user : option N) (w : world) (a : action) : world :=
  let v := w_view w in
  let st := w_store w in
  match a with
  | Fetch ok => {| w_store := st; w_view := fetchDecks user v st ok |}
  | CreateDeck ok n s => pack (handleCreateDeck user v st ok n s)
  | AddGenerated ok oi od ou cards =>
      pack (handleAddGeneratedFlashcards user v st ok oi od ou cards)
  | CreateCard now f b oi od ou =>
      match selectedDeck v with
      | Some deck =>
          match handleCreateFlashcard deck now f b with
          | Some updatedDeck => pack (handleUpdateDeck v st oi od ou updatedDeck)
          | None => w
          end
      | None => w
      end
  | DeleteCard c oi od ou =>
      match selectedDeck v with
      | Some deck =>
          pack (handleUpdateDeck v st oi od ou (handleDeleteFlashcard deck c))
      | None => w
      end
  | SaveEdit c f b oi od ou =>
      match selectedDeck v with
      | Some deck =>
          match handleSaveEdit deck c f b with
          | Some updatedDeck => pack (handleUpdateDeck v st oi od ou updatedDeck)
          | None => w
          end
      | None => w
      end
  | SelectDeck n =>
      match nth_error (decks v) n with
      | Some deck => {| w_store := st;
                        w_view := {| decks := decks v;
                                     selectedDeck := Some deck |} |}
      | None => w
      end
  end.

Definition initial : world :=
  {| w_store := {| deckRows := []; cardRows := []; nextId := 1%N |};
     w_view := {| decks := []; selectedDeck := None |} |}.

Definition runActions (user : option N) (l : list action) : world :=
  fold_left (perform user) l initial.

(** The decks the component holds, and the invariant of the count. *)
Definition held (v : view) (d : FlashcardDeck) : Prop :=
  In d (decks v) \/ selectedDeck v = Some d.

Definition counted (d : FlashcardDeck) : Prop :=
  totalCards d = length (flashcards d).

End Flashcards.

(* ================================================================== *)
(** * FlashcardStudyMode *)
(* ================================================================== *)

Module FlashcardStudyMode.
Import Js Flashcards.

Record state : Type := {
  currentCardIndex : Z;
  isFlipped : bool
}.

(** [useState(0)], [useState(false)] *)
Definition initial : state := {| currentCardIndex := 0; isFlipped := false |}.

(** [l[i]]: [undefined] outside the array. *)
Definition element (l : list Flashcard) (i : Z) : option Flashcard :=
  if i <? 0 then None else nth_error l (Z.to_nat i).

Definition cardCount (deck : FlashcardDeck) : Z :=
  Z.of_nat (length (flashcards deck)).

Definition currentCard (deck : FlashcardDeck) (s : state) : option Flashcard :=
  if currentCardIndex s <? cardCount deck
  then element (flashcards deck) (currentCardIndex s)
  else None.

Definition handleNext (deck : FlashcardDeck) (s : state) : state :=
  {| currentCardIndex :=
       if currentCardIndex s <? cardCount deck - 1
       then currentCardIndex s + 1
       else 0;
     isFlipped := false |}.

Definition handlePrevious (deck : FlashcardDeck) (s : state) : state :=
  {| currentCardIndex :=
       if 0 <? currentCardIndex s
       then currentCardIndex s - 1
       else cardCount deck - 1;
     isFlipped := false |}.

Definition toggleFlip (s : state) : state :=
  {| currentCardIndex := currentCardIndex s;
     isFlipped := negb (isFlipped s) |}.

(** The buttons and the click on the card. *)
Inductive action : Type :=
| Next
| Previous
| Flip.

Definition perform (deck : FlashcardDeck) (s : state) (a : action) : state :=
  match a with
  | Next => handleNext deck s
  | Previous => handlePrevious deck s
  | Flip => toggleFlip s
  end.

Definition runActions (deck : FlashcardDeck) (l : list action) : state :=
  fold_left (perform deck) l initial.

End FlashcardStudyMode.

(* ================================================================== *)
(** * JSON values and [JSON.parse] *)
(* ================================================================== *)

Module Json.
Import Js.

(** A number literal [-? int frac? exp?] is kept as sign, the natural
    number its digits spell (integer and fraction digits together) and
    the power of ten that scales it: the value is
    [mantissa * 10 ^ exp10]. *)
Record numeral : Type := {
  neg : bool;
  mantissa : N;
  exp10 : Z
}.

Inductive json : Type :=
| JNull
| JBool (b : bool)
| JNumber (n : numeral)
| JString (s : jsstring)
| JArray (items : list json)
| JObject (members : list (jsstring * json)).

(** The binary64 value of a numeral is zero when its digits are, and
    when it is at most [2 ^ -1075], half the least subnormal, which
    rounds to zero. *)
Definition isZero (n : numeral) : bool :=
  (N.eqb (mantissa n) 0
   || ((exp10 n <? 0)
       && (Z.of_N (mantissa n) * 2 ^ 1075 <=? 10 ^ (- exp10 n))))%bool.

(** [ToBoolean]. *)
Definition truthy (v : json) : bool :=
  match v with
  | JNull => false
  | JBool b => b
  | JNumber n => negb (isZero n)
  | JString s => truthy_str s
  | JArray _ => true
  | JObject _ => true
  end.

(** The member of an object under [key]; of a repeated key the last one
    counts. *)
Fixpoint lookup (key : jsstring) (members : list (jsstring * json))
  : option json :=
  match members with
  | [] => None
  | (k, v) :: rest =>
      match lookup key rest with
      | Some v' => Some v'
      | None => if str_eqb k key then Some v else None
      end
  end.

(** ** The parser *)

Definition isJsonSpace (c : N) : bool :=
  (N.eqb c 32 || N.eqb c 9 || N.eqb c 10 || N.eqb c 13)%bool.

Fixpoint skipWs (s : jsstring) : jsstring :=
  match s with
  | c :: s' => if isJsonSpace c then skipWs s' else s
  | [] => []
  end.

Definition hexValue (c : N) : option N :=
  if isDigit c then Some (c - 48)%N
  else if between 97 102 c then Some (c - 87)%N
  else if between 65 70 c then Some (c - 55)%N
  else None.

Definition hex4 (a b c d : N) : option N :=
  match hexValue a, hexValue b, hexValue c, hexValue d with
  | Some x, Some y, Some z, Some w => Some (((x * 16 + y) * 16 + z) * 16 + w)%N
  | _, _, _, _ => None
  end.

(** The rest of a string literal after its opening quote; [acc] holds
    the code units read so far, reversed. *)
Fixpoint parseString (s : jsstring) (acc : jsstring)
  : option (jsstring * jsstring) :=
  match s with
  | [] => None
  | c :: s' =>
      if N.eqb c 34 then Some (rev acc, s')                     (* quote *)
      else if N.eqb c 92 then                                   (* backslash *)
        match s' with
        | [] => None
        | e :: s'' =>
            if N.eqb e 34 then parseString s'' (34%N :: acc)
            else if N.eqb e 92 then parseString s'' (92%N :: acc)
            else if N.eqb e 47 then parseString s'' (47%N :: acc)
            else if N.eqb e 98 then parseString s'' (8%N :: acc)
            else if N.eqb e 102 then parseString s'' (12%N :: acc)
            else if N.eqb e 110 then parseString s'' (10%N :: acc)
            else if N.eqb e 114 then parseString s'' (13%N :: acc)
            else if N.eqb e 116 then parseString s'' (9%N :: acc)
            else if N.eqb e 117 then
              match s'' with
              | h1 :: h2 :: h3 :: h4 :: s3 =>
                  match hex4 h1 h2 h3 h4 with
                  | Some u => parseString s3 (u :: acc)
                  | None => None
                  end
              | _ => None
              end
            else None
        end
      else if N.ltb c 32 then None
      else parseString s' (c :: acc)
  end.

(** A run of digits: their number, their value after [acc], the rest. *)
Fixpoint takeDigits (s : jsstring) (count : nat) (acc : N)
  : nat * N * jsstring :=
  match s with
  | c :: s' =>
      if isDigit c then takeDigits s' (S count) (acc * 10 + (c - 48))%N
      else (count, acc, s)
  | [] => (count, acc, [])
  end.

Definition parseExponent (s : jsstring) : option (Z * jsstring) :=
  match s with
  | c :: s' =>
      if (N.eqb c 101 || N.eqb c 69)%bool then                  (* e E *)
        let (sign, s'') :=
          match s' with
          | d :: t => if N.eqb d 45 then (true, t)
                      else if N.eqb d 43 then (false, t)
                      else (false, s')
          | [] => (false, s')
          end in
        match takeDigits s'' 0 0 with
        | (O, _, _) => None
        | (_, v, rest) => Some (if sign then - Z.of_N v else Z.of_N v, rest)
        end
      else Some (0, s)
  | [] => Some (0, [])
  end.

Definition parseFraction (s : jsstring) (int : N)
  : option (N * nat * jsstring) :=
  match s with
  | c :: s' =>
      if N.eqb c 46 then                                        (* . *)
        match takeDigits s' 0 int with
        | (O, _, _) => None
        | (k, v, rest) => Some (v, k, rest)
        end
      else Some (int, O, s)
  | [] => Some (int, O, [])
  end.

Definition parseNumber (s : jsstring) : option (numeral * jsstring) :=
  let (sign, s1) :=
    match s with
    | c :: t => if N.eqb c 45 then (true, t) else (false, s)
    | [] => (false, s)
    end in
  let int :=
    match s1 with
    | c :: t =>
        if N.eqb c 48 then Some (0%N, t)
        else match takeDigits s1 0 0 with
             | (O, _, _) => None
             | (_, v, rest) => Some (v, rest)
             end
    | [] => None
    end in
  match int with
  | None => None
  | Some (i, s2) =>
      match parseFraction s2 i with
      | None => None
      | Some (m, k, s3) =>
          match parseExponent s3 with
          | None => None
          | Some (e, s4) =>
              Some ({| neg := sign; mantissa := m;
                       exp10 := e - Z.of_nat k |}, s4)
          end
      end
  end.

Fixpoint dropPrefix (p s : jsstring) : option jsstring :=
  match p, s with
  | [], _ => Some s
  | a :: p', b :: s' => if N.eqb a b then dropPrefix p' s' else None
  | _ :: _, [] => None
  end.

(** A value, the elements of an array after its first bracket, the
    members of an object after its first brace.  Every call spends one
    unit of [fuel]; a call is made only after a code unit was read or on
    a shorter text, so twice the length of the text is enough. *)
Fixpoint parseValue (fuel : nat) (s : jsstring) {struct fuel}
  : option (json * jsstring) :=
  match fuel with
  | O => None
  | S fuel' =>
      match skipWs s with
      | [] => None
      | c :: rest =>
          if N.eqb c 34 then
            match parseString rest [] with
            | Some (str, r) => Some (JString str, r)
            | None => None
            end
          else if N.eqb c 91 then                               (* [ *)
            match skipWs rest with
            | c2 :: r2 =>
                if N.eqb c2 93 then Some (JArray [], r2)
                else match parseElements fuel' rest with
                     | Some (items, r) => Some (JArray items, r)
                     | None => None
                     end
            | [] => None
            end
          else if N.eqb c 123 then                              (* { *)
            match skipWs rest with
            | c2 :: r2 =>
                if N.eqb c2 125 then Some (JObject [], r2)
                else match parseMembers fuel' rest with
                     | Some (members, r) => Some (JObject members, r)
                     | None => None
                     end
            | [] => None
            end
          else if N.eqb c 116 then
            match dropPrefix (lit "true") (c :: rest) with
            | Some r => Some (JBool true, r)
            | None => None
            end
          else if N.eqb c 102 then
            match dropPrefix (lit "false") (c :: rest) with
            | Some r => Some (JBool false, r)
            | None => None
            end
          else if N.eqb c 110 then
            match dropPrefix (lit "null") (c :: rest) with
            | Some r => Some (JNull, r)
            | None => None
            end
          else
            match parseNumber (c :: rest) with
            | Some (n, r) => Some (JNumber n, r)
            | None => None
            end
      end
  end

with parseElements (fuel : nat) (s : jsstring) {struct fuel}
  : option (list json * jsstring) :=
  match fuel with
  | O => None
  | S fuel' =>
      match parseValue fuel' s with
      | None => None
      | Some (v, r) =>
          match skipWs r with
          | c :: r' =>
              if N.eqb c 44 then                                (* , *)
                match parseElements fuel' r' with
                | Some (vs, r'') => Some (v :: vs, r'')
                | None => None
                end
              else if N.eqb c 93 then Some ([v], r')
              else None
          | [] => None
          end
      end
  end

with parseMembers (fuel : nat) (s : jsstring) {struct fuel}
  : option (list (jsstring * json) * jsstring) :=
  match fuel with
  | O => None
  | S fuel' =>
      match skipWs s with
      | q :: afterQuote =>
          if N.eqb q 34 then
            match parseString afterQuote [] with
            | None => None
            | Some (key, r0) =>
                match skipWs r0 with
                | colon :: r1 =>
                    if N.eqb colon 58 then
                      match parseValue fuel' r1 with
                      | None => None
                      | Some (v, r) =>
                          match skipWs r with
                          | c :: r' =>
                              if N.eqb c 44 then
                                match parseMembers fuel' r' with
                                | Some (ms, r'') => Some ((key, v) :: ms, r'')
                                | None => None
                                end
                              else if N.eqb c 125 then Some ([(key, v)], r')
                              else None
                          | [] => None
                          end
                      end
                    else None
                | [] => None
                end
            end
          else None
      | [] => None
      end
  end.

(** [JSON.parse]: [None] stands for the [SyntaxError] it throws. *)
Definition parse (s : jsstring) : option json :=
  match parseValue (2 * length s + 2) s with
  | Some (v, rest) =>
      match skipWs rest with
      | [] => Some v
      | _ => None
      end
  | None => None
  end.

End Json.

(* ================================================================== *)
(** * The edge function [generate-flashcards] *)
(* ================================================================== *)

Module GenerateFlashcards.
Import Js Regex Json.

(** What the function answers: the cards under [flashcards], or an
    [error] with its status (and, for 422 after parsing, the raw text). *)
Inductive response : Type :=
| Preflight
| Cards (flashcards : list json)
| Error (status : Z) (error : string) (rawResponse : option jsstring).

(** [/\[[\s\S]*\]/] *)
Definition arrayRe : regex :=
  Seq (Class (chr "[")) (Seq (Star anyUnit) (Class (chr "]"))).

(** [/Flashcard \d+:/gi] *)
Definition flashcardRe : regex :=
  Seq (text_i "Flashcard ") (Seq (Plus isDigit) (Class (chr ":"))).

(** [/Front:|Back:/gi] *)
Definition frontBackRe : regex := Alt (text_i "Front:") (text_i "Back:").

(** ** The structured reading *)

(** [card.front && card.back], as a truth value.  Reading a property of
    [null] throws; of any other value that is not an object the
    properties [front] and [back] are undefined. *)
Inductive verdict : Type :=
| Truthy
| Falsy
| Throws.

Definition property (key : string) (card : json) : option json :=
  match card with
  | JObject members => lookup (lit key) members
  | _ => None
  end.

Definition truthyProperty (key : string) (card : json) : bool :=
  match property key card with
  | Some v => truthy v
  | None => false
  end.

Definition frontAndBack (card : json) : verdict :=
  match card with
  | JNull => Throws
  | _ => if truthyProperty "front" card
         then if truthyProperty "back" card then Truthy else Falsy
         else Falsy
  end.

(** [flashcards.every(card => card.front && card.back)] *)
Fixpoint every (cards : list json) : verdict :=
  match cards with
  | [] => Truthy
  | card :: cards' =>
      match frontAndBack card with
      | Truthy => every cards'
      | v => v
      end
  end.

Section Handler.
(** [JSON.parse] of the runtime; [None] when it throws. *)
Variable JSON_parse : jsstring -> option json.

Definition jsonString (generatedText : jsstring) : jsstring :=
  match match_ arrayRe generatedText with
  | Some jsonMatch => matched jsonMatch
  | None => generatedText
  end.

(** The [try] block: the array it returns, or [None] when it throws
    (a syntax error, a value that is not an array, a card without a
    truthy front and back, a [TypeError]). *)
Definition structured (generatedText : jsstring) : option (list json) :=
  match JSON_parse (jsonString generatedText) with
  | Some (JArray flashcards) =>
      match every flashcards with
      | Truthy => Some flashcards
      | _ => None
      end
  | _ => None
  end.

(** ** The [catch] block: extraction from the text *)
Definition sectionsOf (generatedText : jsstring) : list jsstring :=
  filterBoolean (split flashcardRe generatedText).

Definition partsOf (section : jsstring) : list jsstring :=
  filterBoolean (split frontBackRe section).

Definition cardOf (front back : jsstring) : json :=
  JObject [(lit "front", JString front); (lit "back", JString back)].

(** One turn of the loop over the sections. *)
Definition pushSection (flashcards : list json) (section : jsstring)
  : list json :=
  match partsOf section with
  | front :: back :: _ => flashcards ++ [cardOf (trim front) (trim back)]
  | _ => flashcards
  end.

Definition extracted (generatedText : jsstring) : list json :=
  fold_left pushSection (sectionsOf generatedText) [].

(** From [generatedText] to the answer. *)
Definition respond (generatedText : jsstring) : response :=
  match structured generatedText with
  | Some flashcards => Cards flashcards
  | None =>
      match extracted generatedText with
      | [] => Error 422 "Failed to parse flashcards from AI response"
                    (Some generatedText)
      | flashcards => Cards flashcards
      end
  end.

(** ** The whole handler

    The request, and what the model API answered: [up_ok] is
    [response.ok], [up_text] the text of the first part of the first
    candidate when there is one. *)
Record request : Type := {
  method : string;
  body : option jsstring      (* the [text] of a well-formed body *)
}.

Record upstream : Type := {
  up_ok : bool;
  up_text : option jsstring
}.

Definition serve (geminiApiKey : option jsstring) (req : request)
           (up : upstream) : response :=
  if String.eqb (method req) "OPTIONS" then Preflight
  else
    match geminiApiKey with
    | None => Error 500 "API key configuration error" None
    | Some key =>
        if negb (truthy_str key)
        then Error 500 "API key configuration error" None
        else
          match body req with
          | None => Error 500 "Invalid request format" None
          | Some text =>
              if (negb (truthy_str text) || negb (truthy_str (trim text)))%bool
              then Error 400 "No text provided for flashcard generation" None
              else if negb (up_ok up)
              then Error 502 "Gemini API error" None
              else
                match up_text up with
                | None => Error 422 "Failed to generate flashcards" None
                | Some generatedText =>
                    if truthy_str generatedText
                    then respond generatedText
                    else Error 422 "Failed to generate flashcards" None
                end
          end
    end.
End Handler.

(** A request and an upstream answer that are well formed, around a
    generated text. *)
Definition wellFormed (key : option jsstring) (req : request) (up : upstream)
           (generatedText : jsstring) : Prop :=
  method req = "POST"%string
  /\ (exists k, key = Some k /\ truthy_str k = true)
  /\ (exists text, body req = Some text /\ truthy_str (trim text) = true)
  /\ up_ok up = true
  /\ up_text up = Some generatedText
  /\ truthy_str generatedText = true.

(** A section that splits into a front and a back part. *)
Definition recognisable (section : jsstring) : bool :=
  match partsOf section with
  | _ :: _ :: _ => true
  | _ => false
  end.

(** The card a section yields, if it yields one. *)
Definition cardsOfSection (section : jsstring) : list json :=
  match partsOf section with
  | front :: back :: _ => [cardOf (trim front) (trim back)]
  | _ => []
  end.

(** A request and an upstream answer around [generatedText]. *)
Definition postOf (text : string) : request :=
  {| method := "POST"; body := Some (lit text) |}.

Definition answerOf (generatedText : jsstring) : upstream :=
  {| up_ok := true; up_text := Some generatedText |}.

(** Text in which an apostrophe stands for a double quote. *)
Definition quoted (s : string) : jsstring :=
  map (fun c => if N.eqb c 39 then 34%N else c) (lit s).

End GenerateFlashcards.

(* ================================================================== *)
(** * Sample data *)
(* ================================================================== *)

Module Samples.
Import Js StudyPlanner.

(** A row as the planner writes it. *)
Definition row (i : ident) (subject : string) (progress completed : string)
  : DbStudySession :=
  {| db_id := i;
     db_user_id := 1%N;
     db_subject := lit subject;
     db_topic := lit "Integrals";
     db_date := 19792;
     db_startTime := Some (lit "10:00");
     db_duration := lit "1 hour";
     db_notes := None;
     db_created_at := 0;
     db_progress := CStr (lit progress);
     db_completed := CStr (lit completed) |}.

(** The example of the specification, and a subject on which binary64
    and exact arithmetic part. *)
Definition mathStore : store :=
  {| rows := [row 1%N "Math" "50" "false"; row 2%N "Math" "100" "true";
              row 3%N "Art" "10" "false"];
     nextId := 4%N;
     clock := 0 |}.

Definition physicsStore : store :=
  {| rows := [row 1%N "Physics" "15" "false"; row 2%N "Physics" "100" "true"];
     nextId := 3%N;
     clock := 0 |}.

(** A session of the planner on 2024-03-10 (day 19792), with its row. *)
Definition sampleRow : DbStudySession :=
  {| db_id := 7%N;
     db_user_id := 1%N;
     db_subject := lit "Math";
     db_topic := lit "Integrals";
     db_date := 19792;
     db_startTime := Some (lit "10:00");
     db_duration := lit "1.5 hours";
     db_notes := None;
     db_created_at := 0;
     db_progress := CStr (lit "50");
     db_completed := CStr (lit "false") |}.

Definition sampleStore : store :=
  {| rows := [sampleRow]; nextId := 8%N; clock := 0 |}.

Definition sampleSession : StudySession := toSession sampleRow.

(** UTC-05:00 and UTC+05:30, in milliseconds. *)
Definition newYork : Z := - 5 * 3600000.
Definition kolkata : Z := 5 * 3600000 + 1800000.


(** The two ways the planner changes the progress of a session. *)
Inductive mutation : Type :=
| BySlider (p : number)
| ByButton.

Definition mutate (m : mutation) (uid : ident) (sessions : list StudySession)
           (st : store) (sid : ident) : outcome :=
  match m with
  | BySlider p => updateSessionProgress (Some uid) sessions st true sid p
  | ByButton => markSessionComplete (Some uid) sessions st true sid
  end.

End Samples.

Module DoubtSamples.
Import Js DoubtSolver.

(** The store answers at once, or after a second, or not at all. *)
Definition done : reply := {| ok := true; elapsed := 1000 |}.
Definition failed : reply := {| ok := false; elapsed := 1000 |}.

(** A first question that is answered, then the page is loaded again. *)
Definition answeredRun : list action :=
  [ Submit (lit "What is an integral?") done done (Some (lit "An area."))
           done done;
    Fetch true ].

(** The same, followed by a question whose AI call fails. *)
Definition failingRun : list action :=
  answeredRun ++ [ Submit (lit "Why?") done done None done done ].

(** A first question whose AI call fails while no doubt is selected. *)
Definition firstFailingRun : list action :=
  [ Submit (lit "Why?") done done None done done ].

(** A question whose first message is refused by the store, then the
    page is loaded again. *)
Definition orphanRun : list action :=
  [ Submit (lit "Why?") done failed None done done;
    Fetch true ].

(** The threads of the store: doubt and sender of every message. *)
Definition threads (st : store) : list (ident * jsstring) :=
  map (fun m => (m_doubt_id m, m_sender m)) (messageRows st).

End DoubtSamples.

Module FlashcardSamples.
Import Js Flashcards.

Definition twoCards : list (jsstring * jsstring) :=
  [ (lit "What is a derivative?", lit "A rate of change.");
    (lit "What is an integral?", lit "An area.") ].

(** A deck is created and two generated cards are added to it. *)
Definition createAndAdd : list action :=
  [ CreateDeck true (lit "Calculus") (lit "Math");
    AddGenerated true true true 0 twoCards ].

End FlashcardSamples.

Module StudySamples.
Import Js Flashcards.

(** A deck of two stored cards. *)
Definition twoCardDeck : FlashcardDeck :=
  {| deck_id := 1%N;
     name := lit "Calculus";
     deck_subject := lit "Math";
     totalCards := 2;
     flashcards :=
       [ {| id := Uuid 2; front := lit "What is a derivative?";
            back := lit "A rate of change."; subject := lit "Math" |};
         {| id := Uuid 3; front := lit "What is an integral?";
            back := lit "An area."; subject := lit "Math" |} ] |}.

(** The component showing that deck, and the store behind it. *)
Definition twoCardWorld : world :=
  {| w_store :=
       {| deckRows := [ {| deck_row_id := 1%N;
                           deck_row_name := lit "Calculus";
                           deck_row_subject := lit "Math";
                           deck_row_user_id := 1%N |} ];
          cardRows := [ {| card_row_id := 2%N; card_row_deck_id := 1%N;
                           card_row_front := lit "What is a derivative?";
                           card_row_back := lit "A rate of change." |};
                        {| card_row_id := 3%N; card_row_deck_id := 1%N;
                           card_row_front := lit "What is an integral?";
                           card_row_back := lit "An area." |} ];
          nextId := 4%N |};
     w_view := {| decks := [twoCardDeck]; selectedDeck := Some twoCardDeck |} |}.

End StudySamples.

Module DashboardSamples.
Import Js StudyPlanner Dashboard.

Definition session (i : ident) (day : Z) (time : string) : Session :=
  {| s_id := i;
     s_subject := lit "Math";
     s_topic := lit "Integrals";
     s_date := newDate day;
     s_startTime := lit time;
     s_duration := lit "1 hour";
     s_progress := Int 0;
     s_completed := false |}.

Definition threeSessions : list Session :=
  [session 1%N 19792 "14:30"; session 2%N 19792 "09:00";
   session 3%N 19793 "08:15"].

End DashboardSamples.

(* ================================================================== *)
(** * Properties: the binary64 arithmetic of the runtime

    The operations of [SpecFloat], to which the primitive floats are
    tied by the statements of [FloatAxioms], read on the reals: a
    result is within one unit in the last place of the exact value, and
    it is the exact value when that is in the format. *)
(* ================================================================== *)

Module FloatFacts.

(** ** Shifting a mantissa to the right *)

Lemma iter_pos_nat (A : Type) (f : A -> A) (p : positive) (x : A) :
  iter_pos f p x = Nat.iter (Pos.to_nat p) f x.
Proof.
  revert x. induction p as [p IH|p IH|]; intro x; cbn [iter_pos].
  - rewrite !IH, Pos2Nat.inj_xI. cbn [Nat.mul].
    rewrite Nat.add_0_r, Nat.iter_succ_r, Nat.iter_add. reflexivity.
  - rewrite !IH, Pos2Nat.inj_xO. cbn [Nat.mul].
    rewrite Nat.add_0_r, Nat.iter_add. reflexivity.
  - reflexivity.
Qed.

Lemma shr_1_m (mrs : shr_record) :
  0 <= shr_m mrs -> shr_m (shr_1 mrs) = shr_m mrs / 2.
Proof.
  destruct mrs as [m r s]. cbn [shr_m shr_1]. intro H.
  destruct m as [|[p|p|]|p]; cbn [shr_m]; try reflexivity; try lia.
  - apply Z.div_unique with 1; lia.
  - apply Z.div_unique with 0; lia.
Qed.

Lemma shr_iter_m (n : nat) (mrs : shr_record) :
  0 <= shr_m mrs ->
  shr_m (Nat.iter n shr_1 mrs) = shr_m mrs / 2 ^ Z.of_nat n.
Proof.
  intro H. induction n as [|n IH].
  - cbn. now rewrite Z.div_1_r.
  - rewrite Nat.iter_succ, shr_1_m, IH.
    + rewrite Z.div_div by lia. f_equal. rewrite Nat2Z.inj_succ, Z.pow_succ_r; lia.
    + rewrite IH. apply Z.div_pos; lia.
Qed.

(** Shifting out zeros leaves the record exact. *)
Lemma shr_1_exact (m : Z) :
  0 <= m -> m mod 2 = 0 ->
  shr_1 {| shr_m := m; shr_r := false; shr_s := false |}
  = {| shr_m := m / 2; shr_r := false; shr_s := false |}.
Proof.
  intros H0 H.
  pose proof (@shr_1_m {| shr_m := m; shr_r := false; shr_s := false |} H0) as E.
  cbn [shr_m] in E. rewrite <- E.
  destruct m as [|[p|p|]|p]; cbn; try reflexivity; try lia.
  - rewrite Pos2Z.inj_xI in H. exfalso.
    rewrite Z.add_comm, Z.mul_comm, Z.mod_add in H by lia. discriminate H.
  - discriminate H.
Qed.

Lemma shr_iter_exact (n : nat) (m : Z) :
  0 <= m -> m mod 2 ^ Z.of_nat n = 0 ->
  Nat.iter n shr_1 {| shr_m := m; shr_r := false; shr_s := false |}
  = {| shr_m := m / 2 ^ Z.of_nat n; shr_r := false; shr_s := false |}.
Proof.
  revert m. induction n as [|n IH]; intros m H0 H.
  - cbn. now rewrite Z.div_1_r.
  - rewrite Nat.iter_succ_r.
    rewrite Nat2Z.inj_succ, Z.pow_succ_r in * by lia.
    assert (Hm : m mod 2 = 0).
    { apply Z.mod_divide in H; [|lia]. apply Z.mod_divide; [lia|].
      destruct H as [k ->]. exists (k * 2 ^ Z.of_nat n). lia. }
    rewrite shr_1_exact by assumption.
    rewrite IH.
    + rewrite Z.div_div by lia. reflexivity.
    + apply Z.div_pos; lia.
    + apply Z.mod_divide in H; [|lia]. apply Z.mod_divide; [lia|].
      destruct H as [k ->]. exists k.
      replace (k * (2 * 2 ^ Z.of_nat n)) with (k * 2 ^ Z.of_nat n * 2) by lia.
      now rewrite Z.div_mul by lia.
Qed.

(** [shr] by [n >= 0] places. *)
Lemma shr_m_spec (mrs : shr_record) (e n : Z) :
  0 <= shr_m mrs -> 0 <= n ->
  shr_m (fst (shr mrs e n)) = shr_m mrs / 2 ^ n /\ snd (shr mrs e n) = e + n.
Proof.
  intros H Hn. destruct n as [|p|p]; [| |lia].
  - cbn. rewrite Z.div_1_r. split; [reflexivity|lia].
  - cbn [shr fst snd]. rewrite iter_pos_nat, shr_iter_m by exact H.
    now rewrite positive_nat_Z.
Qed.

Lemma shr_exact (m e n : Z) :
  0 <= m -> 0 <= n -> m mod 2 ^ n = 0 ->
  fst (shr {| shr_m := m; shr_r := false; shr_s := false |} e n)
  = {| shr_m := m / 2 ^ n; shr_r := false; shr_s := false |}.
Proof.
  intros H Hn Hd. destruct n as [|p|p]; [| |lia].
  - cbn. now rewrite Z.div_1_r.
  - cbn [shr fst]. rewrite iter_pos_nat.
    rewrite <- (positive_nat_Z p) in Hd |- *. now apply shr_iter_exact.
Qed.

(** ** Digits *)

Lemma digits2_size (p : positive) : digits2_pos p = Pos.size p.
Proof. induction p; cbn; congruence. Qed.

Lemma digits_bounds (p : positive) :
  2 ^ (Z.pos (digits2_pos p) - 1) <= Z.pos p < 2 ^ Z.pos (digits2_pos p).
Proof.
  rewrite digits2_size. split.
  - pose proof (Pos.size_le p) as H.
    assert (H2 : 2 ^ Z.pos (Pos.size p) <= 2 * Z.pos p).
    { rewrite <- Pos2Z.inj_pow. change (2 * Z.pos p) with (Z.pos p~0). lia. }
    replace (Z.pos (Pos.size p)) with (Z.succ (Z.pos (Pos.size p) - 1)) in H2 by lia.
    rewrite Z.pow_succ_r in H2 by lia. lia.
  - pose proof (Pos.size_gt p) as H. rewrite <- Pos2Z.inj_pow. lia.
Qed.

(** The number of digits is determined by bounds of this kind. *)
Lemma digits_unique (m d : Z) :
  0 < m -> 2 ^ (d - 1) <= m < 2 ^ d -> Zdigits2 m = d.
Proof.
  intros Hm [Hl Hu]. destruct m as [|p|p]; try lia. cbn [Zdigits2].
  pose proof (digits_bounds p) as [Bl Bu].
  assert (Hd : 0 < d).
  { destruct (Z.ltb_spec 0 d) as [|Hd]; [assumption|].
    exfalso. destruct (Z.eq_dec d 0) as [->|]; [cbn in Hu; lia|].
    rewrite Z.pow_neg_r in Hu by lia. lia. }
  set (k := Z.pos (digits2_pos p)) in *.
  assert (0 < k) by (subst k; lia).
  destruct (Z.lt_trichotomy k d) as [Hlt|[Heq|Hgt]]; [|exact Heq|].
  - exfalso. assert (2 ^ k <= 2 ^ (d - 1)) by (apply Z.pow_le_mono_r; lia). lia.
  - exfalso. assert (2 ^ d <= 2 ^ (k - 1)) by (apply Z.pow_le_mono_r; lia). lia.
Qed.


Lemma digits_le (m k : Z) : 0 < m < 2 ^ k -> 0 <= k -> Zdigits2 m <= k.
Proof.
  intros [Hm Hk] H0. destruct m as [|p|p]; try lia. cbn [Zdigits2].
  pose proof (digits_bounds p) as [Bl _].
  destruct (Z.leb_spec (Z.pos (digits2_pos p)) k) as [|Hlt]; [assumption|].
  exfalso.
  assert (2 ^ k <= 2 ^ (Z.pos (digits2_pos p) - 1))
    by (apply Z.pow_le_mono_r; lia).
  lia.
Qed.

Lemma digits_pos (m : Z) : 0 < m -> 0 < Zdigits2 m.
Proof. destruct m; cbn; lia. Qed.

(** ** Rounding to binary64 *)

(** The exponent of the format at magnitude [e]. *)
Definition fexp64 (e : Z) : Z := Z.max (e - 53) (-1074).

Lemma fexp_eq (e : Z) : fexp prec emax e = fexp64 e.
Proof. reflexivity. Qed.

(** The float of sign [s] with integer significand [M <= 2^53] at
    exponent [E]; an infinity when the exponent is beyond the format. *)
Definition canon (s : bool) (M E : Z) : spec_float :=
  match M with
  | Z0 => S754_zero s
  | Zpos p =>
      if Z.eqb M 9007199254740992
      then if Z.leb (E + 1) 971
           then S754_finite s 4503599627370496 (E + 1)
           else S754_infinity s
      else if Z.leb E 971 then S754_finite s p E else S754_infinity s
  | Zneg _ => S754_nan
  end.

Lemma record_of_loc_m (m : Z) (l : location) :
  shr_m (shr_record_of_loc m l) = m.
Proof. destruct l as [|[]]; reflexivity. Qed.

Lemma round_nearest_even_cases (m : Z) (l : location) :
  round_nearest_even m l = m \/ round_nearest_even m l = m + 1.
Proof.
  destruct l as [|[]]; cbn; auto. destruct (Z.even m); auto.
Qed.

Lemma binary_round_aux_canon (s : bool) (m e : Z) (l : location) :
  0 < m ->
  let E := fexp64 (Zdigits2 m + e) in
  e <= E ->
  exists M,
    (M = m / 2 ^ (E - e) \/ M = m / 2 ^ (E - e) + 1)
    /\ (l = loc_Exact -> m mod 2 ^ (E - e) = 0 -> M = m / 2 ^ (E - e))
    /\ binary_round_aux prec emax s m e l = canon s M E.
Proof.
  intros Hm E He. unfold binary_round_aux, shr_fexp.
  rewrite fexp_eq. fold E.
  assert (Hn : 0 <= E - e) by lia.
  pose proof (@shr_m_spec (shr_record_of_loc m l) e (E - e)) as H1.
  rewrite record_of_loc_m in H1. specialize (H1 ltac:(lia) Hn).
  assert (Hex : l = loc_Exact -> m mod 2 ^ (E - e) = 0 ->
                fst (shr (shr_record_of_loc m l) e (E - e))
                = {| shr_m := m / 2 ^ (E - e); shr_r := false;
                     shr_s := false |}).
  { intros -> Hd. apply shr_exact; lia. }
  destruct (shr (shr_record_of_loc m l) e (E - e)) as [mrs' e'].
  cbn [fst snd] in H1, Hex. destruct H1 as [H1 H2].
  replace e' with E by lia.
  set (m1 := round_nearest_even (shr_m mrs') (loc_of_shr_record mrs')).
  assert (Hq : 0 <= m / 2 ^ (E - e) < 9007199254740992).
  { split; [apply Z.div_pos; lia|].
    apply Z.div_lt_upper_bound; [lia|].
    assert (Hd := digits_pos Hm).
    assert (Hb : m < 2 ^ Zdigits2 m).
    { destruct m as [|p|p]; try lia. apply digits_bounds. }
    assert (Hle : 2 ^ Zdigits2 m <= 2 ^ (E - e + 53)).
    { apply Z.pow_le_mono_r; [lia|]. subst E. unfold fexp64. lia. }
    rewrite Z.pow_add_r in Hle by lia.
    change (2 ^ 53) with 9007199254740992 in Hle. lia. }
  exists m1. split; [|split].
  - subst m1. rewrite <- H1. apply round_nearest_even_cases.
  - intros Hl Hd. subst m1. rewrite (Hex Hl Hd). reflexivity.
  - assert (Hm1 : 0 <= m1 <= 9007199254740992).
    { subst m1. destruct (round_nearest_even_cases (shr_m mrs')
                            (loc_of_shr_record mrs')) as [->| ->]; lia. }
    assert (HEmin : -1074 <= E) by (subst E; unfold fexp64; lia).
    clearbody m1. rewrite fexp_eq.
    destruct (Z.eq_dec m1 0) as [->|Hnz].
    { cbn [Zdigits2 shr_record_of_loc canon].
      destruct (fexp64 (0 + E) - E) as [|p|p] eqn:En.
      - reflexivity.
      - exfalso. unfold fexp64 in En. lia.
      - reflexivity. }
    destruct (Z.eq_dec m1 9007199254740992) as [->|Hnt].
    { cbn [Zdigits2 digits2_pos Pos.succ shr_record_of_loc canon Z.eqb Pos.eqb].
      replace (fexp64 (54 + E) - E) with 1 by (unfold fexp64; lia).
      cbn [shr iter_pos shr_1 shr_m]. reflexivity. }
    assert (Hd1 : Zdigits2 m1 <= 53).
    { apply digits_le; [|lia]. change (2 ^ 53) with 9007199254740992. lia. }
    destruct m1 as [|p|p]; try lia.
    assert (Hn2 : fexp64 (Zdigits2 (Z.pos p) + E) - E <= 0)
      by (unfold fexp64; lia).
    destruct (fexp64 (Zdigits2 (Z.pos p) + E) - E) as [|q|q]; try lia;
      cbn [shr shr_record_of_loc shr_m canon];
      destruct (Z.eqb_spec (Z.pos p) 9007199254740992) as [|_]; try lia;
      reflexivity.
Qed.


(** ** Values *)
Import Reals Lra.

Definition bpow (e : Z) : R := powerRZ 2 e.

Definition SF2R (x : spec_float) : R :=
  match x with
  | S754_finite s m e =>
      ((if s then -1 else 1) * IZR (Z.pos m) * bpow e)%R
  | _ => 0%R
  end.

(** Zero or a positive finite number. *)
Definition nonneg_finite (x : spec_float) : Prop :=
  match x with
  | S754_zero false => True
  | S754_finite false _ _ => True
  | _ => False
  end.

(** Not negative: zero, a positive finite number, [+Infinity], or
    [NaN]. *)
Definition nonneg (x : spec_float) : Prop :=
  match x with
  | S754_zero false => True
  | S754_finite false _ _ => True
  | S754_infinity false => True
  | S754_nan => True
  | _ => False
  end.

Lemma bpow_pos (e : Z) : (0 < bpow e)%R.
Proof. apply powerRZ_lt. lra. Qed.

Lemma bpow_add (a b : Z) : bpow (a + b) = (bpow a * bpow b)%R.
Proof. apply powerRZ_add. lra. Qed.

Lemma bpow_IZR (n : Z) : 0 <= n -> bpow n = IZR (2 ^ n).
Proof.
  intro H. unfold bpow. rewrite <- (Z2Nat.id n H) at 1.
  rewrite <- pow_powerRZ. rewrite <- (Z2Nat.id n H) at 2.
  now rewrite pow_IZR.
Qed.

Lemma bpow_1 : bpow 1 = 2%R.
Proof. exact (powerRZ_1 2). Qed.

Lemma bpow_opp (a : Z) : bpow (- a) = (/ bpow a)%R.
Proof. apply powerRZ_neg'. Qed.

Lemma bpow_succ (a : Z) : bpow (a + 1) = (2 * bpow a)%R.
Proof. rewrite bpow_add, bpow_1. lra. Qed.

Lemma bpow_le (a b : Z) : a <= b -> (bpow a <= bpow b)%R.
Proof.
  intro H. replace b with (a + (b - a)) by lia. rewrite bpow_add.
  rewrite (@bpow_IZR (b - a)) by lia.
  assert (0 < 2 ^ (b - a)) by (apply Z.pow_pos_nonneg; lia).
  assert (1 <= 2 ^ (b - a)) by lia.
  apply IZR_le in H1. pose proof (bpow_pos a). nra.
Qed.

Lemma bpow_lt (a b : Z) : a < b -> (bpow a < bpow b)%R.
Proof.
  intro H. apply Rlt_le_trans with (bpow (a + 1)).
  - rewrite bpow_succ. pose proof (bpow_pos a). lra.
  - apply bpow_le. lia.
Qed.

Lemma bpow_lt_inv (a b : Z) : (bpow a < bpow b)%R -> a < b.
Proof.
  intro H. destruct (Z.ltb_spec a b) as [|Hge]; [assumption|].
  apply bpow_le in Hge. lra.
Qed.

Lemma SF2R_canon (M E : Z) :
  0 <= M -> E <= 970 -> SF2R (canon false M E) = (IZR M * bpow E)%R.
Proof.
  intros H HE. destruct M as [|p|p]; try lia; cbn [canon].
  - cbn. lra.
  - destruct (Z.leb_spec (E + 1) 971); [|lia].
    destruct (Z.leb_spec E 971); [|lia].
    destruct (Z.eqb_spec (Z.pos p) 9007199254740992) as [->|_]; cbn [SF2R].
    + rewrite bpow_succ. lra.
    + lra.
Qed.

Lemma nonneg_finite_canon (M E : Z) :
  0 <= M -> E <= 970 -> nonneg_finite (canon false M E).
Proof.
  intros H HE. destruct M as [|p|p]; try lia; cbn [canon]; [exact I|].
  destruct (Z.leb_spec (E + 1) 971); [|lia].
  destruct (Z.leb_spec E 971); [|lia].
  destruct (Z.pos p =? 9007199254740992); exact I.
Qed.

Lemma nonneg_canon (M E : Z) : 0 <= M -> nonneg (canon false M E).
Proof.
  intros H. destruct M as [|p|p]; try lia; cbn [canon]; [exact I|].
  destruct (Z.pos p =? 9007199254740992);
    [destruct (E + 1 <=? 971)|destruct (E <=? 971)]; exact I.
Qed.

Lemma valid_canon (s : bool) (M E : Z) :
  0 <= M <= 9007199254740992 ->
  4503599627370496 <= M \/ E = -1074 ->
  -1074 <= E ->
  valid_binary (canon s M E) = true.
Proof.
  intros HM Hn HE. destruct M as [|p|p]; try lia; cbn [canon]; [reflexivity|].
  destruct (Z.eqb_spec (Z.pos p) 9007199254740992) as [E1|Hne];
    [destruct (Z.leb_spec (E + 1) 971); [|reflexivity]
    |destruct (Z.leb_spec E 971); [|reflexivity]].
  - cbn [SpecFloat.valid_binary]. unfold SpecFloat.bounded, SpecFloat.canonical_mantissa.
    rewrite fexp_eq. apply andb_true_intro. split.
    + apply Z.eqb_eq. cbn [digits2_pos Pos.succ]. unfold fexp64. lia.
    + apply Z.leb_le. change (emax - prec) with 971. lia.
  - cbn [SpecFloat.valid_binary]. unfold SpecFloat.bounded, SpecFloat.canonical_mantissa.
    rewrite fexp_eq. apply andb_true_intro. split.
    + apply Z.eqb_eq.
      change (Z.pos (digits2_pos p)) with (Zdigits2 (Z.pos p)).
      destruct Hn as [Hn| ->].
      * rewrite (@digits_unique (Z.pos p) 53); [unfold fexp64; lia|lia|].
        change (2 ^ (53 - 1)) with 4503599627370496.
        change (2 ^ 53) with 9007199254740992. lia.
      * assert (Zdigits2 (Z.pos p) <= 53).
        { apply digits_le; [|lia]. change (2 ^ 53) with 9007199254740992. lia. }
        unfold fexp64. lia.
    + apply Z.leb_le. change (emax - prec) with 971. lia.
Qed.

(** The quotient kept by the shift. *)
Lemma quotient_range (m e : Z) :
  0 < m ->
  let E := fexp64 (Zdigits2 m + e) in
  e <= E ->
  0 <= m / 2 ^ (E - e) < 9007199254740992
  /\ (4503599627370496 <= m / 2 ^ (E - e) \/ E = -1074).
Proof.
  intros Hm E He.
  assert (Hd := digits_pos Hm).
  assert (Hb : 2 ^ (Zdigits2 m - 1) <= m < 2 ^ Zdigits2 m).
  { destruct m as [|p|p]; try lia. apply digits_bounds. }
  split; [split|].
  - apply Z.div_pos; lia.
  - apply Z.div_lt_upper_bound; [lia|].
    assert (Hle : 2 ^ Zdigits2 m <= 2 ^ (E - e + 53)).
    { apply Z.pow_le_mono_r; [lia|]. subst E. unfold fexp64. lia. }
    rewrite Z.pow_add_r in Hle by lia.
    change (2 ^ 53) with 9007199254740992 in Hle. lia.
  - destruct (Z.eq_dec E (-1074)) as [|Hne]; [now right|left].
    assert (HE : E = Zdigits2 m + e - 53) by (subst E; unfold fexp64 in *; lia).
    apply Z.div_le_lower_bound; [lia|].
    replace (E - e) with (Zdigits2 m - 1 - 52) by lia.
    change 4503599627370496 with (2 ^ 52).
    rewrite <- Z.pow_add_r by lia.
    replace (Zdigits2 m - 1 - 52 + 52) with (Zdigits2 m - 1) by lia. lia.
Qed.


Lemma bpow_shift (e n : Z) : 0 <= n -> bpow (e + n) = (bpow e * IZR (2 ^ n))%R.
Proof. intro H. now rewrite bpow_add, (@bpow_IZR n). Qed.

(** Rounding a positive real [x] known to lie in
    [[m * 2^e, (m + 1) * 2^e)]: the result is a valid float within one
    unit in the last place of [x], and it is [x] when [x] is in the
    format. *)
Lemma binary_round_aux_real (m e : Z) (l : location) (x : R) :
  0 < m ->
  let E := fexp64 (Zdigits2 m + e) in
  e <= E -> E <= 970 ->
  (IZR m * bpow e <= x < IZR (m + 1) * bpow e)%R ->
  (l = loc_Exact -> x = IZR m * bpow e)%R ->
  let z := binary_round_aux prec emax false m e l in
  valid_binary z = true
  /\ nonneg_finite z
  /\ (Rabs (SF2R z - x) <= bpow E)%R
  /\ (l = loc_Exact -> forall k : Z, x = (IZR k * bpow E)%R -> SF2R z = x).
Proof.
  intros Hm E He HE Hx Hexact z.
  destruct (@binary_round_aux_canon false m e l Hm He) as (M & HM & HMe & Hz).
  fold E in HM, HMe, Hz.
  destruct (@quotient_range m e Hm He) as [Hq Hnorm]. fold E in Hq, Hnorm.
  set (n := E - e) in *. set (q := m / 2 ^ n) in *.
  assert (HEmin : -1074 <= E) by (subst E; unfold fexp64; lia).
  assert (Hn : 0 <= n) by (subst n; lia).
  assert (Hpow : 0 < 2 ^ n) by (apply Z.pow_pos_nonneg; lia).
  assert (HM0 : 0 <= M <= 9007199254740992) by lia.
  subst z. rewrite Hz. split; [|split; [|split]].
  - apply valid_canon; [exact HM0| |lia].
    destruct Hnorm as [Hnorm|Hnorm]; [left; lia|now right].
  - apply nonneg_finite_canon; lia.
  - rewrite SF2R_canon by lia.
    assert (HE' : bpow E = (bpow e * IZR (2 ^ n))%R).
    { replace E with (e + n) by (subst n; lia). now apply bpow_shift. }
    assert (Hdiv : q * 2 ^ n <= m < (q + 1) * 2 ^ n).
    { subst q. pose proof (Z.mul_div_le m (2 ^ n) Hpow).
      pose proof (Z.mul_succ_div_gt m (2 ^ n) Hpow). lia. }
    destruct Hdiv as [Hd1 Hd2]. assert (Hd3 : m + 1 <= (q + 1) * 2 ^ n) by lia.
    apply IZR_le in Hd1, Hd3. rewrite mult_IZR in Hd1, Hd3.
    rewrite plus_IZR in Hd3. rewrite !plus_IZR in *.
    pose proof (bpow_pos e) as Hp. set (P := bpow e) in *.
    set (T := IZR (2 ^ n)) in *.
    assert (H1 : (IZR q * T * P <= IZR m * P)%R)
      by (apply Rmult_le_compat_r; lra).
    assert (H2 : ((IZR m + 1) * P <= (IZR q + 1) * T * P)%R)
      by (apply Rmult_le_compat_r; lra).
    rewrite HE'. apply Rabs_le.
    destruct HM as [-> | ->]; rewrite ?plus_IZR; split; nra.
  - intros Hl k Hk. rewrite SF2R_canon by lia.
    assert (HE' : bpow E = (bpow e * IZR (2 ^ n))%R).
    { replace E with (e + n) by (subst n; lia). now apply bpow_shift. }
    assert (Hmk : m = k * 2 ^ n).
    { apply eq_IZR. rewrite mult_IZR.
      pose proof (Hexact Hl) as Hxm. rewrite Hk, HE' in Hxm.
      pose proof (bpow_pos e) as Hp.
      apply Rmult_eq_reg_r with (bpow e); [|lra]. lra. }
    assert (Hmod : m mod 2 ^ n = 0).
    { rewrite Hmk. apply Z.mod_mul. lia. }
    rewrite (HMe Hl Hmod). subst q. rewrite Hmk, Z.div_mul by lia.
    now rewrite Hk.
Qed.

(** ** Aligning a mantissa to the left *)

Lemma iter_xO (m d : positive) :
  Z.pos (Pos.iter xO m d) = Z.pos m * 2 ^ Z.pos d.
Proof.
  induction d as [|d IH] using Pos.peano_ind.
  - cbn [Pos.iter]. lia.
  - rewrite Pos.iter_succ, Pos2Z.inj_xO, IH, Pos2Z.inj_succ.
    rewrite Z.pow_succ_r by lia. lia.
Qed.

Lemma digits_shift (m : positive) (d : Z) :
  0 <= d -> Zdigits2 (Z.pos m * 2 ^ d) = Z.pos (digits2_pos m) + d.
Proof.
  intro Hd. pose proof (digits_bounds m) as [Bl Bu].
  assert (Hp : 0 < 2 ^ d) by (apply Z.pow_pos_nonneg; lia).
  apply digits_unique; [lia|].
  replace (Z.pos (digits2_pos m) + d - 1)
    with (Z.pos (digits2_pos m) - 1 + d) by lia.
  rewrite !Z.pow_add_r by lia. split; nia.
Qed.

Lemma binary_round_real (mx : positive) (ex : Z) :
  let x := (IZR (Z.pos mx) * bpow ex)%R in
  let E := fexp64 (Z.pos (digits2_pos mx) + ex) in
  E <= 970 ->
  let z := binary_round prec emax false mx ex in
  valid_binary z = true
  /\ nonneg_finite z
  /\ (Rabs (SF2R z - x) <= bpow E)%R
  /\ (forall k : Z, x = (IZR k * bpow E)%R -> SF2R z = x).
Proof.
  intros x E HE z. subst z. unfold binary_round, shl_align.
  rewrite fexp_eq. fold E.
  destruct (E - ex) as [|d|d] eqn:Ed.
  - destruct (@binary_round_aux_real (Z.pos mx) ex loc_Exact x) as (V & N & B & X);
      cbn [Zdigits2]; fold E; try lia.
    + subst x. rewrite plus_IZR. pose proof (bpow_pos ex). split; nra.
    + reflexivity.
    + repeat split; auto. exact (X eq_refl).
  - destruct (@binary_round_aux_real (Z.pos mx) ex loc_Exact x) as (V & N & B & X);
      cbn [Zdigits2]; fold E; try lia.
    + subst x. rewrite plus_IZR. pose proof (bpow_pos ex). split; nra.
    + reflexivity.
    + repeat split; auto. exact (X eq_refl).
  - assert (Hm : Z.pos (Pos.iter xO mx d) = Z.pos mx * 2 ^ Z.pos d)
      by apply iter_xO.
    assert (Hdig : Zdigits2 (Z.pos (Pos.iter xO mx d)) + E
                   = Z.pos (digits2_pos mx) + ex).
    { rewrite Hm, digits_shift by lia. lia. }
    assert (Hx : x = (IZR (Z.pos (Pos.iter xO mx d)) * bpow E)%R).
    { subst x. rewrite Hm, mult_IZR.
      replace ex with (E + Z.pos d) by lia.
      rewrite bpow_shift by lia. lra. }
    destruct (@binary_round_aux_real (Z.pos (Pos.iter xO mx d)) E loc_Exact x)
      as (V & N & B & X); rewrite ?Hdig; fold E; try lia.
    + rewrite Hx, plus_IZR. pose proof (bpow_pos E). split; nra.
    + intros _. exact Hx.
    + rewrite Hdig in B, X. fold E in B, X. repeat split; auto.
      exact (X eq_refl).
Qed.


(** ** Magnitudes *)

Lemma value_bounds (m : positive) (e : Z) :
  (bpow (Z.pos (digits2_pos m) + e - 1) <= IZR (Z.pos m) * bpow e
   < bpow (Z.pos (digits2_pos m) + e))%R.
Proof.
  pose proof (digits_bounds m) as [Bl Bu].
  apply IZR_le in Bl. apply IZR_lt in Bu.
  rewrite <- !bpow_IZR in * by lia.
  pose proof (bpow_pos e) as Hp.
  replace (Z.pos (digits2_pos m) + e - 1)
    with (Z.pos (digits2_pos m) - 1 + e) by lia.
  rewrite !bpow_add. split; nra.
Qed.

Lemma magnitude_le (m : positive) (e K : Z) :
  (IZR (Z.pos m) * bpow e < bpow K)%R -> Z.pos (digits2_pos m) + e <= K.
Proof.
  intro H. pose proof (value_bounds m e) as [Bl _].
  assert (Hlt : (bpow (Z.pos (digits2_pos m) + e - 1) < bpow K)%R) by lra.
  apply bpow_lt_inv in Hlt. lia.
Qed.

Lemma fexp64_mono (a b : Z) : a <= b -> fexp64 a <= fexp64 b.
Proof. unfold fexp64. lia. Qed.

Lemma valid_finite (s : bool) (m : positive) (e : Z) :
  valid_binary (S754_finite s m e) = true ->
  e = fexp64 (Z.pos (digits2_pos m) + e) /\ e <= 971.
Proof.
  cbn [SpecFloat.valid_binary].
  unfold SpecFloat.bounded, SpecFloat.canonical_mantissa.
  rewrite fexp_eq. intro H. apply andb_prop in H as [H1 H2].
  apply Z.eqb_eq in H1. apply Z.leb_le in H2.
  change (emax - prec) with 971 in H2. split; [symmetry; exact H1|exact H2].
Qed.

Lemma SF2R_nonneg (x : spec_float) : nonneg_finite x -> (0 <= SF2R x)%R.
Proof.
  destruct x as [[]|[]| |[] m e]; cbn; try tauto; try lra.
  intros _. pose proof (bpow_pos e). assert (0 < IZR (Z.pos m))%R by (apply IZR_lt; lia).
  nra.
Qed.

(** An integer below [2^53] is in the format at every magnitude it can
    have. *)
Lemma integer_in_format (k : Z) (x : R) (mag : Z) :
  x = IZR k -> (0 < x < bpow mag)%R -> mag <= 53 ->
  exists k' : Z, x = (IZR k' * bpow (fexp64 mag))%R.
Proof.
  intros Hk Hx Hm. set (E := fexp64 mag).
  assert (HE : E <= 0) by (subst E; unfold fexp64; lia).
  exists (k * 2 ^ (- E)). rewrite mult_IZR, <- bpow_IZR by lia.
  rewrite Rmult_assoc, <- bpow_add.
  replace (- E + E) with 0 by lia. unfold bpow at 1. cbn. lra.
Qed.

(** ** Addition of non-negative numbers *)

Lemma shl_align_value (mx : positive) (ex ez : Z) :
  ez <= ex ->
  (IZR (Z.pos (fst (shl_align mx ex ez))) * bpow ez
   = IZR (Z.pos mx) * bpow ex)%R.
Proof.
  intro H. unfold shl_align. destruct (ez - ex) as [|d|d] eqn:Ed; cbn [fst].
  - now replace ez with ex by lia.
  - lia.
  - rewrite iter_xO, mult_IZR. replace ex with (ez + Z.pos d) by lia.
    rewrite bpow_shift by lia. lra.
Qed.

Lemma SFadd_real (x y : spec_float) (K : Z) :
  valid_binary x = true -> valid_binary y = true ->
  nonneg_finite x -> nonneg_finite y ->
  (SF2R x + SF2R y < bpow K)%R -> K <= 1023 ->
  let z := SF64add x y in
  valid_binary z = true
  /\ nonneg_finite z
  /\ (Rabs (SF2R z - (SF2R x + SF2R y)) <= bpow (fexp64 K))%R
  /\ (forall k : Z, (SF2R x + SF2R y)%R = IZR k -> k < 2 ^ 53 ->
                    SF2R z = IZR k).
Proof.
  intros Vx Vy Nx Ny Hs HK z. subst z.
  pose proof (bpow_pos (fexp64 K)) as HpK.
  destruct x as [[]|[]| |[] mx ex]; try (exfalso; exact Nx);
  destruct y as [[]|[]| |[] my ey]; try (exfalso; exact Ny);
    unfold SF64add; cbn [SFadd].
  - cbn [SF2R]. repeat split; auto.
    + replace (0 - (0 + 0))%R with 0%R by lra. rewrite Rabs_R0. lra.
    + intros k Hk _. rewrite <- Hk. lra.
  - repeat split; auto.
    + cbn [SF2R]. match goal with |- (Rabs ?a <= _)%R => replace a with 0%R by lra end.
      rewrite Rabs_R0. lra.
    + intros k Hk _. rewrite <- Hk. cbn [SF2R]. lra.
  - repeat split; auto.
    + cbn [SF2R]. match goal with |- (Rabs ?a <= _)%R => replace a with 0%R by lra end.
      rewrite Rabs_R0. lra.
    + intros k Hk _. rewrite <- Hk. cbn [SF2R]. lra.
  - cbn [cond_Zopp]. set (ez := Z.min ex ey).
    pose proof (@shl_align_value mx ex ez ltac:(subst ez; lia)) as Hx.
    pose proof (@shl_align_value my ey ez ltac:(subst ez; lia)) as Hy.
    set (ax := fst (shl_align mx ex ez)) in *.
    set (ay := fst (shl_align my ey ez)) in *.
    change (Z.pos ax + Z.pos ay) with (Z.pos (ax + ay)).
    cbn [binary_normalize].
    assert (Hv : (IZR (Z.pos (ax + ay)) * bpow ez
                  = SF2R (S754_finite false mx ex)
                    + SF2R (S754_finite false my ey))%R).
    { cbn [SF2R]. rewrite Pos2Z.inj_add, plus_IZR. lra. }
    assert (Hmag : Z.pos (digits2_pos (ax + ay)) + ez <= K).
    { apply magnitude_le. rewrite Hv. exact Hs. }
    destruct (@binary_round_real (ax + ay) ez) as (V & N & B & X).
    { pose proof (fexp64_mono Hmag). unfold fexp64 in *. lia. }
    rewrite Hv in B, X. split; [exact V|]. split; [exact N|]. split.
    + eapply Rle_trans; [exact B|]. apply bpow_le. now apply fexp64_mono.
    + intros k Hk Hlt.
      assert (Hpos : (0 < IZR (Z.pos (ax + ay)) * bpow ez)%R).
      { pose proof (bpow_pos ez).
        assert (0 < IZR (Z.pos (ax + ay)))%R by (apply IZR_lt; lia). nra. }
      rewrite Hv in Hpos.
      assert (Hm53 : Z.pos (digits2_pos (ax + ay)) + ez <= 53).
      { apply magnitude_le. rewrite Hv, Hk.
        rewrite bpow_IZR by lia. now apply IZR_lt. }
      destruct (@integer_in_format k _ (Z.pos (digits2_pos (ax + ay)) + ez) Hk)
        as [k' Hk']; [|exact Hm53|].
      * split; [exact Hpos|]. rewrite <- Hv. apply value_bounds.
      * rewrite (X k' Hk'). exact Hk.
Qed.


(** ** Multiplication of non-negative numbers *)

Lemma digits_mul (mx my : positive) :
  Z.pos (digits2_pos mx) + Z.pos (digits2_pos my) - 1
  <= Z.pos (digits2_pos (mx * my)).
Proof.
  pose proof (digits_bounds mx) as [Bx _].
  pose proof (digits_bounds my) as [By _].
  pose proof (digits_bounds (mx * my)) as [_ Bu].
  set (dx := Z.pos (digits2_pos mx)) in *.
  set (dy := Z.pos (digits2_pos my)) in *.
  set (d := Z.pos (digits2_pos (mx * my))) in *.
  assert (0 < dx /\ 0 < dy /\ 0 < d) as (Hx & Hy & Hd) by (subst dx dy d; lia).
  destruct (Z.leb_spec (dx + dy - 1) d) as [|Hlt]; [assumption|]. exfalso.
  assert (H1 : 2 ^ d <= 2 ^ (dx - 1 + (dy - 1)))
    by (apply Z.pow_le_mono_r; lia).
  rewrite Z.pow_add_r in H1 by lia. rewrite Pos2Z.inj_mul in Bu.
  assert (0 < 2 ^ (dx - 1)) by (apply Z.pow_pos_nonneg; lia).
  assert (0 < 2 ^ (dy - 1)) by (apply Z.pow_pos_nonneg; lia).
  nia.
Qed.

Lemma SFmul_real (x y : spec_float) (K : Z) :
  valid_binary x = true -> valid_binary y = true ->
  nonneg_finite x -> nonneg_finite y ->
  (SF2R x * SF2R y < bpow K)%R -> K <= 1023 ->
  let z := SF64mul x y in
  valid_binary z = true
  /\ nonneg_finite z
  /\ (Rabs (SF2R z - SF2R x * SF2R y) <= bpow (fexp64 K))%R
  /\ (forall k : Z, (SF2R x * SF2R y)%R = IZR k -> k < 2 ^ 53 ->
                    SF2R z = IZR k).
Proof.
  intros Vx Vy Nx Ny Hs HK z. subst z.
  pose proof (bpow_pos (fexp64 K)) as HpK.
  destruct x as [[]|[]| |[] mx ex]; try (exfalso; exact Nx);
  destruct y as [[]|[]| |[] my ey]; try (exfalso; exact Ny);
    unfold SF64mul; cbn [SFmul xorb].
  1-3: repeat split; auto;
    [ cbn [SF2R];
      match goal with |- (Rabs ?a <= _)%R => replace a with 0%R by lra end;
      rewrite Rabs_R0; lra
    | intros k Hk _; rewrite <- Hk; cbn [SF2R]; lra ].
  apply valid_finite in Vx as [Cx _]. apply valid_finite in Vy as [Cy _].
  pose proof (digits_mul mx my) as Hd.
  assert (Hv : (IZR (Z.pos (mx * my)) * bpow (ex + ey)
                = SF2R (S754_finite false mx ex)
                  * SF2R (S754_finite false my ey))%R).
  { cbn [SF2R]. rewrite Pos2Z.inj_mul, mult_IZR, bpow_add. lra. }
  assert (Hmag : Z.pos (digits2_pos (mx * my)) + (ex + ey) <= K).
  { apply magnitude_le. rewrite Hv. exact Hs. }
  assert (Hpos : (0 < IZR (Z.pos (mx * my)) * bpow (ex + ey))%R).
  { pose proof (bpow_pos (ex + ey)).
    assert (0 < IZR (Z.pos (mx * my)))%R by (apply IZR_lt; lia). nra. }
  destruct (@binary_round_aux_real (Z.pos (mx * my)) (ex + ey) loc_Exact
              (IZR (Z.pos (mx * my)) * bpow (ex + ey)))
    as (V & N & B & X); cbn [Zdigits2].
  - lia.
  - assert (0 < Z.pos (digits2_pos mx)) by lia.
    assert (0 < Z.pos (digits2_pos my)) by lia.
    unfold fexp64 in *. lia.
  - pose proof (fexp64_mono Hmag). unfold fexp64 in *. lia.
  - rewrite plus_IZR. pose proof (bpow_pos (ex + ey)). split; nra.
  - reflexivity.
  - cbn [Zdigits2] in B, X. rewrite Hv in B, X, Hpos.
    split; [exact V|]. split; [exact N|]. split.
    + eapply Rle_trans; [exact B|]. apply bpow_le. now apply fexp64_mono.
    + intros k Hk Hlt.
      assert (Hm53 : Z.pos (digits2_pos (mx * my)) + (ex + ey) <= 53).
      { apply magnitude_le. rewrite Hv, Hk.
        rewrite bpow_IZR by lia. now apply IZR_lt. }
      destruct (@integer_in_format k _
                  (Z.pos (digits2_pos (mx * my)) + (ex + ey)) Hk)
        as [k' Hk']; [|exact Hm53|].
      * split; [exact Hpos|]. rewrite <- Hv. apply value_bounds.
      * rewrite (X eq_refl k' Hk'). exact Hk.
Qed.

(** ** Division of positive numbers *)

Lemma new_location_exact (n r : Z) : new_location n r = loc_Exact -> r = 0.
Proof.
  unfold new_location, new_location_even, new_location_odd.
  destruct (Z.even n); destruct (Z.eqb_spec r 0); try discriminate; auto.
Qed.

Lemma SFdiv_real (mx my : positive) (ex ey : Z) (K : Z) :
  let x := S754_finite false mx ex in
  let y := S754_finite false my ey in
  (bpow (-1021) <= SF2R x / SF2R y < bpow K)%R -> K <= 1023 ->
  let z := SF64div x y in
  valid_binary z = true
  /\ nonneg_finite z
  /\ (Rabs (SF2R z - SF2R x / SF2R y) <= bpow (fexp64 K))%R.
Proof.
  intros x y [Hlo Hhi] HK z. subst z x y. unfold SF64div. cbn [SFdiv xorb].
  unfold SFdiv_core_binary. cbn [Zdigits2]. rewrite fexp_eq.
  set (d1 := Z.pos (digits2_pos mx)). set (d2 := Z.pos (digits2_pos my)).
  set (k := d1 + ex - (d2 + ey)).
  set (e' := Z.min (fexp64 k) (ex - ey)).
  set (s := ex - ey - e').
  assert (Hs : 0 <= s) by (subst s e'; lia).
  set (m' := match s with
             | 0 => Z.pos mx
             | Z.pos _ => Z.shiftl (Z.pos mx) s
             | Z.neg _ => 0
             end).
  assert (Hm' : m' = Z.pos mx * 2 ^ s).
  { subst m'. destruct s as [|p|p]; try lia.
    now rewrite Z.shiftl_mul_pow2 by lia. }
  clearbody m'.
  pose proof (digits_bounds mx) as [B1l B1u].
  pose proof (digits_bounds my) as [B2l B2u].
  fold d1 in B1l, B1u. fold d2 in B2l, B2u.
  assert (Hd1 : 0 < d1) by (subst d1; lia).
  assert (Hd2 : 0 < d2) by (subst d2; lia).
  pose proof (bpow_pos ex) as Pex. pose proof (bpow_pos ey) as Pey.
  assert (Hmx : (0 < IZR (Z.pos mx))%R) by (apply IZR_lt; lia).
  assert (Hmy : (0 < IZR (Z.pos my))%R) by (apply IZR_lt; lia).
  cbn [SF2R] in Hlo, Hhi |- *.
  rewrite !Rmult_1_l in Hlo, Hhi |- *.
  set (X := (IZR (Z.pos mx) * bpow ex)%R) in *.
  set (Y := (IZR (Z.pos my) * bpow ey)%R) in *.
  assert (HX : (0 < X)%R) by (subst X; nra).
  assert (HY : (0 < Y)%R) by (subst Y; nra).
  (* the quotient is in the normal range *)
  assert (Hk : -1021 <= k).
  { pose proof (value_bounds mx ex) as [_ Hu].
    pose proof (value_bounds my ey) as [Hl _].
    fold d1 in Hu. fold d2 in Hl. fold X in Hu. fold Y in Hl.
    assert (Hq : (X / Y < bpow (k + 1))%R).
    { apply Rlt_le_trans with (bpow (d1 + ex) / Y)%R.
      - apply Rmult_lt_compat_r; [apply Rinv_0_lt_compat; exact HY|exact Hu].
      - replace (d1 + ex) with (k + 1 + (d2 + ey - 1)) by (subst k; lia).
        rewrite bpow_add. pose proof (bpow_pos (k + 1)).
        pose proof (bpow_pos (d2 + ey - 1)).
        apply Rle_trans with (bpow (k + 1) * Y / Y)%R.
        + apply Rmult_le_compat_r; [left; apply Rinv_0_lt_compat; exact HY|].
          apply Rmult_le_compat_l; lra.
        + right. field. lra. }
    assert (Hlt : (bpow (-1021) < bpow (k + 1))%R) by lra.
    apply bpow_lt_inv in Hlt. lia. }
  assert (Hfk : fexp64 k = k - 53) by (unfold fexp64; lia).
  assert (Hs53 : 53 - d1 + d2 <= s) by (subst s e'; lia).
  assert (Hps : 0 < 2 ^ s) by (apply Z.pow_pos_nonneg; lia).
  destruct (Z.div_eucl m' (Z.pos my)) as [q r] eqn:Hdiv.
  pose proof (Z_div_mod m' (Z.pos my) ltac:(lia)) as Hqr.
  rewrite Hdiv in Hqr. destruct Hqr as [Hqr Hr].
  (* a lower bound of the integer quotient *)
  assert (Hqlow : 2 ^ (d1 - 1 + s - d2) <= q).
  { assert (Hle : Z.pos my * 2 ^ (d1 - 1 + s - d2) < m').
    { rewrite Hm'.
      apply Z.lt_le_trans with (2 ^ d2 * 2 ^ (d1 - 1 + s - d2)).
      - apply Z.mul_lt_mono_pos_r; [apply Z.pow_pos_nonneg; lia|lia].
      - rewrite <- Z.pow_add_r by lia.
        replace (d2 + (d1 - 1 + s - d2)) with (d1 - 1 + s) by lia.
        rewrite Z.pow_add_r by lia. nia. }
    assert (0 < 2 ^ (d1 - 1 + s - d2)) by (apply Z.pow_pos_nonneg; lia).
    nia. }
  assert (Hq0 : 0 < q).
  { assert (0 < 2 ^ (d1 - 1 + s - d2)) by (apply Z.pow_pos_nonneg; lia). lia. }
  assert (Hdq : d1 + s - d2 <= Zdigits2 q).
  { destruct q as [|p|p]; try lia. cbn [Zdigits2].
    pose proof (digits_bounds p) as [_ Bu].
    destruct (Z.leb_spec (d1 + s - d2) (Z.pos (digits2_pos p))) as [|Hlt];
      [assumption|]. exfalso.
    assert (2 ^ Z.pos (digits2_pos p) <= 2 ^ (d1 - 1 + s - d2))
      by (apply Z.pow_le_mono_r; lia).
    lia. }
  (* the real quotient lies between q and q + 1 units *)
  assert (Hval : (X / Y = IZR m' / IZR (Z.pos my) * bpow e')%R).
  { subst X Y. rewrite Hm', mult_IZR.
    replace ex with (e' + s + ey) by (subst s; lia).
    rewrite !bpow_add, (@bpow_IZR s) by lia. field.
    split; lra. }
  assert (Hbetween : (IZR q * bpow e' <= X / Y < IZR (q + 1) * bpow e')%R).
  { rewrite Hval. pose proof (bpow_pos e') as Pe.
    assert (H1 : (IZR q <= IZR m' / IZR (Z.pos my))%R).
    { apply Rmult_le_reg_r with (IZR (Z.pos my)); [exact Hmy|].
      replace (IZR m' / IZR (Z.pos my) * IZR (Z.pos my))%R with (IZR m')
        by (field; lra).
      rewrite <- mult_IZR. apply IZR_le. lia. }
    assert (H2 : (IZR m' / IZR (Z.pos my) < IZR (q + 1))%R).
    { apply Rmult_lt_reg_r with (IZR (Z.pos my)); [exact Hmy|].
      replace (IZR m' / IZR (Z.pos my) * IZR (Z.pos my))%R with (IZR m')
        by (field; lra).
      rewrite <- mult_IZR. apply IZR_lt. lia. }
    split; nra. }
  assert (Hmag : Zdigits2 q + e' <= K).
  { destruct q as [|p|p]; try lia. apply magnitude_le.
    destruct Hbetween as [Hb _]. lra. }
  destruct (@binary_round_aux_real q e' (new_location (Z.pos my) r) (X / Y)%R)
    as (V & N & B & _).
  - exact Hq0.
  - apply Z.le_trans with (fexp64 k); [subst e'; lia|].
    apply fexp64_mono. subst s. lia.
  - pose proof (fexp64_mono Hmag). unfold fexp64 in *. lia.
  - exact Hbetween.
  - intro Hl. apply new_location_exact in Hl. subst r.
    rewrite Hval. replace m' with (Z.pos my * q) by lia.
    rewrite mult_IZR. field. lra.
  - split; [exact V|]. split; [exact N|].
    eapply Rle_trans; [exact B|]. apply bpow_le. now apply fexp64_mono.
Qed.


(** ** Rounding in general: the result is a float of the format *)

Lemma binary_round_aux_general (m e : Z) (l : location) :
  0 < m -> e <= fexp64 (Zdigits2 m + e) ->
  let z := binary_round_aux prec emax false m e l in
  valid_binary z = true /\ nonneg z.
Proof.
  intros Hm He z. subst z.
  destruct (@binary_round_aux_canon false m e l Hm He) as (M & HM & _ & ->).
  destruct (@quotient_range m e Hm He) as [Hq Hnorm].
  split.
  - apply valid_canon; [lia| |unfold fexp64; lia].
    destruct Hnorm as [Hnorm|Hnorm]; [left; lia|now right].
  - apply nonneg_canon. lia.
Qed.

Lemma binary_round_general (mx : positive) (ex : Z) :
  let z := binary_round prec emax false mx ex in
  valid_binary z = true /\ nonneg z.
Proof.
  intro z. subst z. unfold binary_round, shl_align. rewrite fexp_eq.
  set (E := fexp64 (Z.pos (digits2_pos mx) + ex)).
  destruct (E - ex) as [|d|d] eqn:Ed.
  - apply binary_round_aux_general; cbn [Zdigits2]; fold E; lia.
  - apply binary_round_aux_general; cbn [Zdigits2]; fold E; lia.
  - apply binary_round_aux_general; [lia|].
    rewrite iter_xO, digits_shift by lia.
    replace (Z.pos (digits2_pos mx) + Z.pos d + E)
      with (Z.pos (digits2_pos mx) + ex) by lia.
    fold E. lia.
Qed.

(** ** Binary64 numbers of the runtime *)

Definition B2R (x : float) : R := SF2R (Prim2SF x).

(** Zero or a positive finite number. *)
Definition fin (x : float) : Prop := nonneg_finite (Prim2SF x).

Lemma nonneg_finite_nonneg (x : spec_float) : nonneg_finite x -> nonneg x.
Proof. destruct x as [[]|[]| |[] m e]; cbn; tauto. Qed.

Lemma Prim2SF_to_float (z : Z) :
  0 <= z ->
  Prim2SF (JsNum.to_float z) = binary_normalize prec emax z 0 false
  /\ nonneg (Prim2SF (JsNum.to_float z)).
Proof.
  intro H. unfold JsNum.to_float.
  assert (V : valid_binary (binary_normalize prec emax z 0 false) = true
              /\ nonneg (binary_normalize prec emax z 0 false)).
  { destruct z as [|p|p]; try lia; cbn [binary_normalize].
    - split; [reflexivity|exact I].
    - apply binary_round_general. }
  destruct V as [V N]. rewrite (Prim2SF_SF2Prim _ V). now split.
Qed.

Lemma to_float_real (z : Z) :
  0 <= z < 2 ^ 53 -> fin (JsNum.to_float z) /\ B2R (JsNum.to_float z) = IZR z.
Proof.
  intros [H0 H1]. unfold fin, B2R.
  destruct (@Prim2SF_to_float z H0) as [-> _].
  destruct z as [|p|p]; try lia; cbn [binary_normalize].
  - split; [exact I|reflexivity].
  - assert (Hmag : Z.pos (digits2_pos p) + 0 <= 53).
    { apply magnitude_le. change (bpow 0) with 1%R.
      rewrite Rmult_1_r, (@bpow_IZR 53) by lia. now apply IZR_lt. }
    destruct (@binary_round_real p 0) as (V & N & B & X).
    { unfold fexp64. lia. }
    split; [exact N|].
    assert (Hx : (IZR (Z.pos p) * bpow 0)%R = IZR (Z.pos p)).
    { change (bpow 0) with 1%R. lra. }
    rewrite Hx in X.
    destruct (@integer_in_format (Z.pos p) (IZR (Z.pos p))
                (Z.pos (digits2_pos p) + 0) eq_refl) as [k' Hk'].
    + split; [apply IZR_lt; lia|]. rewrite <- Hx at 1. apply value_bounds.
    + exact Hmag.
    + exact (X k' Hk').
Qed.

Lemma fin_nonneg (x : float) : fin x -> (0 <= B2R x)%R.
Proof. apply SF2R_nonneg. Qed.

Lemma add_real (x y : float) (K : Z) :
  fin x -> fin y -> (B2R x + B2R y < bpow K)%R -> K <= 1023 ->
  fin (x + y)
  /\ (Rabs (B2R (x + y) - (B2R x + B2R y)) <= bpow (fexp64 K))%R
  /\ (forall k : Z, (B2R x + B2R y)%R = IZR k -> k < 2 ^ 53 ->
                    B2R (x + y) = IZR k).
Proof.
  intros Fx Fy Hs HK. unfold fin, B2R in *. rewrite add_spec.
  destruct (@SFadd_real (Prim2SF x) (Prim2SF y) K
              (Prim2SF_valid x) (Prim2SF_valid y) Fx Fy Hs HK)
    as (_ & N & B & X).
  repeat split; assumption.
Qed.

Lemma mul_real (x y : float) (K : Z) :
  fin x -> fin y -> (B2R x * B2R y < bpow K)%R -> K <= 1023 ->
  fin (x * y)
  /\ (Rabs (B2R (x * y) - B2R x * B2R y) <= bpow (fexp64 K))%R
  /\ (forall k : Z, (B2R x * B2R y)%R = IZR k -> k < 2 ^ 53 ->
                    B2R (x * y) = IZR k).
Proof.
  intros Fx Fy Hs HK. unfold fin, B2R in *. rewrite mul_spec.
  destruct (@SFmul_real (Prim2SF x) (Prim2SF y) K
              (Prim2SF_valid x) (Prim2SF_valid y) Fx Fy Hs HK)
    as (_ & N & B & X).
  repeat split; assumption.
Qed.

Lemma div_real (x y : float) (K : Z) :
  fin x -> fin y -> (0 < B2R y)%R ->
  (B2R x = 0 \/ bpow (-1021) <= B2R x / B2R y)%R ->
  (B2R x / B2R y < bpow K)%R -> K <= 1023 ->
  fin (x / y)
  /\ (Rabs (B2R (x / y) - B2R x / B2R y) <= bpow (fexp64 K))%R.
Proof.
  intros Fx Fy Hy Hlo Hhi HK. unfold fin, B2R in *. rewrite div_spec.
  pose proof (bpow_pos (fexp64 K)) as HpK.
  destruct (Prim2SF y) as [[]|[]| |[] my ey]; try (exfalso; exact Fy);
    [cbn [SF2R] in Hy; lra|].
  destruct (Prim2SF x) as [[]|[]| |[] mx ex]; try (exfalso; exact Fx).
  - unfold SF64div. cbn [SFdiv xorb SF2R nonneg_finite]. split; [exact I|].
    match goal with |- (Rabs ?a <= _)%R => replace a with 0%R end.
    + rewrite Rabs_R0. lra.
    + unfold Rdiv. lra.
  - destruct Hlo as [H0|Hlo].
    { exfalso. cbn [SF2R] in H0. pose proof (bpow_pos ex).
      assert (0 < IZR (Z.pos mx))%R by (apply IZR_lt; lia). nra. }
    destruct (@SFdiv_real mx my ex ey K (conj Hlo Hhi) HK) as (_ & N & B).
    split; assumption.
Qed.

(** Two numbers of this kind with the same value are the same float. *)
Lemma fin_inj (x y : float) : fin x -> fin y -> B2R x = B2R y -> x = y.
Proof.
  unfold fin, B2R. intros Fx Fy H. apply Prim2SF_inj.
  pose proof (Prim2SF_valid x) as Vx. pose proof (Prim2SF_valid y) as Vy.
  destruct (Prim2SF x) as [[]|[]| |[] mx ex]; try (exfalso; exact Fx);
  destruct (Prim2SF y) as [[]|[]| |[] my ey]; try (exfalso; exact Fy).
  - reflexivity.
  - exfalso. cbn [SF2R] in H. pose proof (bpow_pos ey).
    assert (0 < IZR (Z.pos my))%R by (apply IZR_lt; lia). nra.
  - exfalso. cbn [SF2R] in H. pose proof (bpow_pos ex).
    assert (0 < IZR (Z.pos mx))%R by (apply IZR_lt; lia). nra.
  - cbn [SF2R] in H. rewrite !Rmult_1_l in H.
    apply valid_finite in Vx as [Cx _]. apply valid_finite in Vy as [Cy _].
    pose proof (value_bounds mx ex) as [Lx Ux].
    pose proof (value_bounds my ey) as [Ly Uy].
    assert (Hmag : Z.pos (digits2_pos mx) + ex = Z.pos (digits2_pos my) + ey).
    { assert (H1 : (bpow (Z.pos (digits2_pos mx) + ex - 1)
                    < bpow (Z.pos (digits2_pos my) + ey))%R) by lra.
      assert (H2 : (bpow (Z.pos (digits2_pos my) + ey - 1)
                    < bpow (Z.pos (digits2_pos mx) + ex))%R) by lra.
      apply bpow_lt_inv in H1, H2. lia. }
    assert (He : ex = ey) by congruence. subst ey.
    pose proof (bpow_pos ex) as Hp.
    assert (Hm : IZR (Z.pos mx) = IZR (Z.pos my)) by nra.
    apply eq_IZR in Hm. congruence.
Qed.

(** *** Arithmetic on integers below [2^53] is exact *)

Lemma mul_int (a b : Z) :
  0 <= a < 2 ^ 53 -> 0 <= b < 2 ^ 53 -> a * b < 2 ^ 53 ->
  (JsNum.to_float a * JsNum.to_float b)%float = JsNum.to_float (a * b).
Proof.
  intros [Ha Ha'] [Hb Hb'] Hab.
  destruct (@to_float_real a (conj Ha Ha')) as [Fa Va].
  destruct (@to_float_real b (conj Hb Hb')) as [Fb Vb].
  destruct (@to_float_real (a * b) ltac:(nia)) as [Fab Vab].
  destruct (@mul_real (JsNum.to_float a) (JsNum.to_float b) 53 Fa Fb) as (F & _ & X).
  - rewrite Va, Vb, <- mult_IZR, bpow_IZR by lia. now apply IZR_lt.
  - lia.
  - apply fin_inj; [exact F|exact Fab|].
    rewrite Vab. apply X; [|exact Hab]. now rewrite Va, Vb, mult_IZR.
Qed.

Lemma add_int (a b : Z) :
  0 <= a -> 0 <= b -> a + b < 2 ^ 53 ->
  (JsNum.to_float a + JsNum.to_float b)%float = JsNum.to_float (a + b).
Proof.
  intros Ha Hb Hab.
  destruct (@to_float_real a ltac:(lia)) as [Fa Va].
  destruct (@to_float_real b ltac:(lia)) as [Fb Vb].
  destruct (@to_float_real (a + b) ltac:(lia)) as [Fab Vab].
  destruct (@add_real (JsNum.to_float a) (JsNum.to_float b) 53 Fa Fb) as (F & _ & X).
  - rewrite Va, Vb, <- plus_IZR, bpow_IZR by lia. now apply IZR_lt.
  - lia.
  - apply fin_inj; [exact F|exact Fab|].
    rewrite Vab. apply X; [|exact Hab]. now rewrite Va, Vb, plus_IZR.
Qed.


(** ** Signs *)

(** Not negative. *)
Definition nn (x : float) : Prop := nonneg (Prim2SF x).

Lemma fin_nn (x : float) : fin x -> nn x.
Proof. apply nonneg_finite_nonneg. Qed.

Lemma nn_to_float (z : Z) : 0 <= z -> nn (JsNum.to_float z).
Proof. intro H. now apply Prim2SF_to_float. Qed.

Lemma SFmul_nonneg (x : spec_float) (my : positive) (ey : Z) :
  valid_binary x = true -> valid_binary (S754_finite false my ey) = true ->
  nonneg x -> nonneg (SF64mul x (S754_finite false my ey)).
Proof.
  intros Vx Vy Nx.
  destruct x as [[]|[]| |[] mx ex]; try (exfalso; exact Nx);
    unfold SF64mul; cbn [SFmul xorb]; try exact I.
  apply valid_finite in Vx as [Cx _]. apply valid_finite in Vy as [Cy _].
  pose proof (digits_mul mx my) as Hd.
  apply binary_round_aux_general; [lia|]. cbn [Zdigits2].
  assert (0 < Z.pos (digits2_pos mx)) by lia.
  assert (0 < Z.pos (digits2_pos my)) by lia.
  unfold fexp64 in *. lia.
Qed.

Lemma SFadd_nonneg (x y : spec_float) :
  nonneg x -> nonneg y -> nonneg (SF64add x y).
Proof.
  intros Nx Ny.
  destruct x as [[]|[]| |[] mx ex]; try (exfalso; exact Nx);
  destruct y as [[]|[]| |[] my ey]; try (exfalso; exact Ny);
    unfold SF64add; cbn [SFadd]; try exact I.
  cbn [cond_Zopp].
  match goal with
  | |- context [Z.pos ?a + Z.pos ?b] =>
      change (Z.pos a + Z.pos b) with (Z.pos (a + b))
  end.
  cbn [binary_normalize]. apply binary_round_general.
Qed.

(** A product with a positive finite number, such as [x * 60]. *)
Lemma nn_mul (x y : float) (my : positive) (ey : Z) :
  Prim2SF y = S754_finite false my ey -> nn x -> nn (x * y).
Proof.
  intros Hy Nx. unfold nn in *. rewrite mul_spec.
  pose proof (Prim2SF_valid y) as Vy. rewrite Hy in *.
  apply SFmul_nonneg; [apply Prim2SF_valid|exact Vy|exact Nx].
Qed.

Lemma nn_add (x y : float) : nn x -> nn y -> nn (x + y).
Proof. intros Nx Ny. unfold nn in *. rewrite add_spec. now apply SFadd_nonneg. Qed.

Lemma Pos_compare_cont_refl (m : positive) : Pos.compare_cont Eq m m = Eq.
Proof. induction m; cbn; auto. Qed.

(** [x || d] is positive when [x] is not negative and [d] is positive. *)
Lemma orDefault_positive (x d : float) :
  nn x -> (0 <? d)%float = true -> (0 <? JsNum.orDefault x d)%float = true.
Proof.
  intros Nx Hd. unfold JsNum.orDefault, is_zero, is_nan, nn in *.
  rewrite !eqb_spec.
  destruct (SFeqb (Prim2SF x) (Prim2SF zero)
            || negb (SFeqb (Prim2SF x) (Prim2SF x)))%bool eqn:E;
    [exact Hd|].
  rewrite ltb_spec.
  change (Prim2SF zero) with (S754_zero false) in *.
  change (Prim2SF 0) with (S754_zero false) in *.
  destruct (Prim2SF x) as [[]|[]| |[] mx ex]; try (exfalso; exact Nx);
    try reflexivity; cbn in E; discriminate E.
Qed.

(** [x || d] is [x] when [x] is a positive finite number. *)
Lemma orDefault_fin (x d : float) :
  fin x -> (0 < B2R x)%R -> JsNum.orDefault x d = x.
Proof.
  intros Fx Hx. unfold JsNum.orDefault, is_zero, is_nan, fin, B2R in *.
  rewrite !eqb_spec.
  change (Prim2SF zero) with (S754_zero false) in *.
  destruct (Prim2SF x) as [[]|[]| |[] mx ex]; try (exfalso; exact Fx).
  - cbn [SF2R] in Hx. lra.
  - unfold SFeqb. cbn [SFcompare].
    now rewrite Z.compare_refl, Pos_compare_cont_refl.
Qed.


(** ** [Math.round] *)

Lemma Math_round_fin (x : float) :
  fin x -> (B2R x < bpow 53)%R ->
  exists r : Z,
    JsNum.Math_round x = JsNum.to_float r
    /\ 0 <= r
    /\ (IZR r <= B2R x + / 2 < IZR r + 1)%R.
Proof.
  intros Fx Hx. unfold JsNum.Math_round, fin, B2R in *.
  destruct (Prim2SF x) as [[]|[]| |[] m e] eqn:E; try (exfalso; exact Fx).
  - exists 0. split; [|split; [lia|cbn [SF2R]; lra]].
    apply Prim2SF_inj. rewrite E.
    destruct (@Prim2SF_to_float 0 ltac:(lia)) as [-> _]. reflexivity.
  - cbn [SF2R] in Hx |- *. rewrite Rmult_1_l in Hx |- *.
    destruct (Z.leb_spec 0 e) as [He|He].
    + exists (Z.pos m * 2 ^ e).
      assert (Hv : (IZR (Z.pos m) * bpow e)%R = IZR (Z.pos m * 2 ^ e)).
      { now rewrite mult_IZR, bpow_IZR. }
      assert (Hp : 0 < 2 ^ e) by (apply Z.pow_pos_nonneg; lia).
      rewrite Hv in *. rewrite (@bpow_IZR 53) in Hx by lia.
      apply lt_IZR in Hx.
      destruct (@to_float_real (Z.pos m * 2 ^ e)) as [F V]; [lia|].
      split; [|split; [lia|lra]].
      apply fin_inj; [unfold fin; now rewrite E|exact F|].
      unfold B2R at 1. rewrite E. cbn [SF2R]. rewrite V. lra.
    + set (k := - e) in *. assert (Hk : 0 < k) by (subst k; lia).
      replace (- e - 1) with (k - 1) by (subst k; lia).
      set (r := (Z.pos m + 2 ^ (k - 1)) / 2 ^ k).
      assert (Hp : 0 < 2 ^ k) by (apply Z.pow_pos_nonneg; lia).
      assert (Hp1 : 0 < 2 ^ (k - 1)) by (apply Z.pow_pos_nonneg; lia).
      assert (H2 : 2 ^ k = 2 * 2 ^ (k - 1)).
      { replace k with (Z.succ (k - 1)) at 1 by lia.
        rewrite Z.pow_succ_r by lia. reflexivity. }
      exists r. split; [reflexivity|]. split.
      { subst r. apply Z.div_pos; lia. }
      pose proof (Z.mul_div_le (Z.pos m + 2 ^ (k - 1)) (2 ^ k) Hp) as D1.
      pose proof (Z.mul_succ_div_gt (Z.pos m + 2 ^ (k - 1)) (2 ^ k) Hp) as D2.
      fold r in D1, D2.
      apply IZR_le in D1. apply IZR_lt in D2.
      rewrite mult_IZR, plus_IZR in D1, D2. unfold Z.succ in D2.
      rewrite plus_IZR in D2. rewrite H2 in D1, D2 at 1.
      rewrite mult_IZR in D1, D2.
      assert (Hb : (bpow e * IZR (2 ^ (k - 1)) = / 2)%R).
      { rewrite <- (@bpow_IZR (k - 1)) by lia. rewrite <- bpow_add.
        replace (e + (k - 1)) with (- (1)) by (subst k; lia).
        rewrite bpow_opp, bpow_1. reflexivity. }
      pose proof (bpow_pos e) as Pe.
      set (P := bpow e) in *. set (T := IZR (2 ^ (k - 1))) in *.
      assert (HT : (0 < T)%R) by (subst T; apply IZR_lt; lia).
      assert (D1' : (2 * T * IZR r * P <= (IZR (Z.pos m) + T) * P)%R)
        by (apply Rmult_le_compat_r; lra).
      assert (D2' : ((IZR (Z.pos m) + T) * P < 2 * T * (IZR r + 1) * P)%R)
        by (apply Rmult_lt_compat_r; lra).
      replace (2 * T * IZR r * P)%R with (2 * (P * T) * IZR r)%R in D1'
        by ring.
      replace ((IZR (Z.pos m) + T) * P)%R
        with (IZR (Z.pos m) * P + P * T)%R in D1', D2' by ring.
      replace (2 * T * (IZR r + 1) * P)%R
        with (2 * (P * T) * (IZR r + 1))%R in D2' by ring.
      rewrite Hb in D1', D2'. split; lra.
Qed.


(** ** Rounding a value near a fraction

    A value [V] near [A / n] rounds like [A / n], unless [A / n] lies
    halfway between two integers, where it may round to the one below. *)
Lemma round_near_fraction (A n r : Z) (V : R) :
  0 < n -> 0 <= A ->
  (2 * IZR n * Rabs (V - IZR A / IZR n) < / 2)%R ->
  (IZR r <= V + / 2 < IZR r + 1)%R ->
  r = (2 * A + n) / (2 * n)
  \/ ((2 * A + n) mod (2 * n) = 0 /\ r = (2 * A + n) / (2 * n) - 1).
Proof.
  intros Hn HA Hd [Hr1 Hr2].
  assert (Hn' : (0 < IZR n)%R) by (apply IZR_lt; lia).
  set (T := (IZR A / IZR n)%R) in *.
  assert (HT : (IZR n * T = IZR A)%R) by (subst T; field; lra).
  set (d := (V - T)%R) in *.
  assert (Hd1 : (2 * IZR n * d < / 2)%R).
  { pose proof (Rle_abs d). nra. }
  assert (Hd2 : (- / 2 < 2 * IZR n * d)%R).
  { pose proof (Rle_abs (- d)). rewrite Rabs_Ropp in H. nra. }
  assert (HV : V = (T + d)%R) by (subst d; lra).
  assert (W1 : (2 * IZR n * IZR r <= IZR (2 * A + n) + 2 * IZR n * d)%R).
  { rewrite plus_IZR, mult_IZR, <- HT.
    replace (IZR 2 * (IZR n * T) + IZR n + 2 * IZR n * d)%R
      with (2 * IZR n * (V + / 2))%R by (rewrite HV; field).
    apply Rmult_le_compat_l; lra. }
  assert (W2 : (IZR (2 * A + n) + 2 * IZR n * d < 2 * IZR n * (IZR r + 1))%R).
  { rewrite plus_IZR, mult_IZR, <- HT.
    replace (IZR 2 * (IZR n * T) + IZR n + 2 * IZR n * d)%R
      with (2 * IZR n * (V + / 2))%R by (rewrite HV; field).
    apply Rmult_lt_compat_l; lra. }
  assert (Z1 : 2 * n * r <= 2 * A + n).
  { assert (H : (IZR (2 * n * r) < IZR (2 * A + n + 1))%R).
    { rewrite !mult_IZR, (plus_IZR _ 1). lra. }
    apply lt_IZR in H. lia. }
  assert (Z2 : 2 * A + n <= 2 * n * (r + 1)).
  { assert (H : (IZR (2 * A + n) < IZR (2 * n * (r + 1) + 1))%R).
    { rewrite (plus_IZR _ 1), !mult_IZR, (plus_IZR r 1). lra. }
    apply lt_IZR in H. lia. }
  pose proof (Z.div_mod (2 * A + n) (2 * n) ltac:(lia)) as Hdm.
  pose proof (Z.mod_pos_bound (2 * A + n) (2 * n) ltac:(lia)) as Hu.
  set (R0 := (2 * A + n) / (2 * n)) in *.
  set (u := (2 * A + n) mod (2 * n)) in *.
  assert (Hle : r <= R0) by nia.
  destruct (Z.eq_dec u 0) as [Hu0|Hu0].
  - assert (R0 - 1 <= r) by nia.
    destruct (Z.eq_dec r R0); [now left|right]. split; [exact Hu0|lia].
  - left. assert (R0 <= r) by nia. lia.
Qed.

End FloatFacts.

(* ================================================================== *)
(** * Properties: text processing *)
(* ================================================================== *)

Module TextFacts.
Import Js Regex.

(** Turns the boolean class tests of a goal into linear arithmetic. *)
Ltac class_arith :=
  unfold SavedPDFs.lowerOrDigit, SavedPDFs.sanitizeUnit, notAlnum_i,
    lowerAscii, isLower, isUpper, isDigit, isAscii, underscore, between in *;
  repeat match goal with
  | |- context [N.leb ?a ?b] => destruct (N.leb_spec a b)
  | |- context [N.ltb ?a ?b] => destruct (N.ltb_spec a b)
  | |- context [N.eqb ?a ?b] => destruct (N.eqb_spec a b)
  end; simpl in *; try reflexivity; try discriminate; try lia.

Lemma matchAt_Class (p : N -> bool) (c : N) (s : jsstring) :
  matchAt (Class p) (c :: s) = if p c then Some (s, []) else None.
Proof. reflexivity. Qed.

(** Replacing every match of a one-unit class rewrites the text unit by
    unit. *)
Lemma replaceAll_Class (p : N -> bool) (rep s : jsstring) :
  replaceAll (Class p) rep s = flat_map (fun c => if p c then rep else [c]) s.
Proof.
  unfold replaceAll.
  induction s as [|c s IH]; [reflexivity|].
  cbn [replaceGo flat_map]. rewrite matchAt_Class.
  destruct (p c).
  - replace (length (c :: s) - length s)%nat with 1%nat by (cbn [length]; lia).
    now rewrite IH.
  - now rewrite IH.
Qed.

Lemma replace_notAlnum (t : jsstring) :
  replaceAll (Class notAlnum_i) (lit "_") t
  = map (fun c => if notAlnum_i c then underscore else c) t.
Proof.
  rewrite replaceAll_Class.
  induction t as [|c t IH]; [reflexivity|].
  cbn [flat_map map]. rewrite IH. now destruct (notAlnum_i c).
Qed.

Lemma replaced_unit_ascii (c : N) :
  isAscii (if notAlnum_i c then underscore else c) = true.
Proof. class_arith. Qed.

Lemma lower_replaced_unit (c : N) :
  lowerAscii (if notAlnum_i c then underscore else c) = SavedPDFs.sanitizeUnit c.
Proof. class_arith. Qed.

Lemma sanitizeUnit_class (c : N) :
  SavedPDFs.lowerOrDigit (SavedPDFs.sanitizeUnit c) = true
  \/ SavedPDFs.sanitizeUnit c = underscore.
Proof.
  destruct (N.eq_dec (SavedPDFs.sanitizeUnit c) underscore) as [E|E];
    [now right|left].
  revert E. class_arith.
Qed.

Lemma replaced_all_ascii (t : jsstring) :
  forallb isAscii (map (fun c => if notAlnum_i c then underscore else c) t)
  = true.
Proof.
  induction t as [|c t IH]; [reflexivity|].
  cbn [map forallb]. now rewrite replaced_unit_ascii, IH.
Qed.

(** The sanitised title never reaches the runtime's Unicode table. *)
Lemma sanitize_map (lower : jsstring -> jsstring) (t : jsstring) :
  SavedPDFs.sanitize lower t = map SavedPDFs.sanitizeUnit t.
Proof.
  unfold SavedPDFs.sanitize, toLowerCase. rewrite replace_notAlnum.
  rewrite replaced_all_ascii, map_map.
  apply map_ext. intro c. apply lower_replaced_unit.
Qed.

(** [parseInt] never gives a negative number. *)
Lemma parseInt_nn (s : jsstring) : FloatFacts.nn (JsNum.parseInt s).
Proof.
  unfold JsNum.parseInt. destruct s as [|c s]; [vm_compute; exact I|].
  destruct (digits_value 0 (c :: s)) as [v|]; [|vm_compute; exact I].
  apply FloatFacts.nn_to_float. lia.
Qed.

Lemma nn_times_60 (x : float) : FloatFacts.nn x -> FloatFacts.nn (x * 60).
Proof.
  apply (@FloatFacts.nn_mul x 60%float 8444249301319680 (-47)).
  vm_compute. reflexivity.
Qed.

End TextFacts.

(** C9 (as amended).  The download name is the title with every ASCII
    letter lower-cased, every digit kept and every other code unit
    replaced by an underscore, followed by [.pdf]: each code unit of the
    name part is a lower-case letter, a digit or an underscore, and the
    name part is as long as the title. *)
Theorem download_name_sanitized :
  forall (unicodeLower : Js.jsstring -> Js.jsstring) (pdf : SavedPDFs.SavedPDF),
    let name := map SavedPDFs.sanitizeUnit (SavedPDFs.title pdf) in
    SavedPDFs.download (SavedPDFs.handleDownloadPDF unicodeLower pdf)
      = name ++ Js.lit ".pdf"
    /\ length name = length (SavedPDFs.title pdf)
    /\ Forall (fun c => SavedPDFs.lowerOrDigit c = true \/ c = Js.underscore)
              name.
Proof.
  intros lower pdf name. subst name. repeat split.
  - unfold SavedPDFs.handleDownloadPDF. cbn [SavedPDFs.download].
    now rewrite TextFacts.sanitize_map.
  - apply length_map.
  - apply Forall_forall. intros c Hc. apply in_map_iff in Hc.
    destruct Hc as [c0 [<- _]]. apply TextFacts.sanitizeUnit_class.
Qed.

(** C9, the claim as written fails: the title [My Notes] is offered as
    [my_notes.pdf], and the underscore of its name part is neither a
    lower-case letter nor a digit. *)
Lemma download_name_has_underscore :
  SavedPDFs.download
    (SavedPDFs.handleDownloadPDF (fun s => s)
       {| SavedPDFs.id := Js.lit "1";
          SavedPDFs.title := Js.lit "My Notes";
          SavedPDFs.pdf_data := Js.lit "data:application/pdf;base64,";
          SavedPDFs.created_at := Js.lit "2024-03-10T10:00:00Z";
          SavedPDFs.user_id := None |})
    = Js.lit "my_notes" ++ Js.lit ".pdf"
  /\ forallb SavedPDFs.lowerOrDigit (Js.lit "my_notes") = false.
Proof. split; reflexivity. Qed.

(** C10.  [extractMinutes] returns a positive number of minutes on every
    text (a positive finite number or [Infinity], never [0], a negative
    number or [NaN]); it returns 60 when none of the three patterns
    matches; and on [1.5 hours] it returns 330: the hours pattern
    matches [5 hours] (5 * 60) and the half-hour pattern adds 30. *)
Theorem extractMinutes_positive_default_330 :
  (forall d : Js.jsstring,
      (0 <? StudyPlanner.extractMinutes d)%float = true)
  /\ (forall d : Js.jsstring,
         Regex.match_ StudyPlanner.hourRe d = None ->
         Regex.match_ StudyPlanner.minuteRe d = None ->
         Regex.match_ StudyPlanner.halfHourRe d = None ->
         StudyPlanner.extractMinutes d = 60%float)
  /\ StudyPlanner.extractMinutes (Js.lit "1.5 hours") = 330%float.
Proof.
  split; [|split].
  - intro d. unfold StudyPlanner.extractMinutes.
    apply FloatFacts.orDefault_positive; [|reflexivity].
    assert (H0 : FloatFacts.nn 0%float) by (vm_compute; exact I).
    assert (H30 : FloatFacts.nn 30%float) by (vm_compute; exact I).
    destruct (Regex.match_ StudyPlanner.hourRe d),
             (Regex.match_ StudyPlanner.minuteRe d),
             (Regex.match_ StudyPlanner.halfHourRe d);
      repeat first
        [ exact H0
        | exact H30
        | apply FloatFacts.nn_add
        | apply TextFacts.nn_times_60
        | apply TextFacts.parseInt_nn ].
  - intros d Hh Hm Hf. unfold StudyPlanner.extractMinutes.
    now rewrite Hh, Hm, Hf.
  - vm_compute. reflexivity.
Qed.

(** The default of C10 at a text without any duration pattern. *)
Lemma extractMinutes_default_witness :
  StudyPlanner.extractMinutes (Js.lit "soon") = 60%float.
Proof.
  apply (proj1 (proj2 extractMinutes_positive_default_330)); reflexivity.
Defined.

(** The durations the planner offers, and what [extractMinutes] makes of
    them: a half hour is read as the digit after the point times 60,
    plus 30. *)
Remark extractMinutes_of_the_offered_durations :
  map StudyPlanner.extractMinutes
      [Js.lit "30 minutes"; Js.lit "1 hour"; Js.lit "1.5 hours";
       Js.lit "2 hours"; Js.lit "2.5 hours"; Js.lit "3 hours"]
  = [30; 60; 330; 120; 330; 180]%float.
Proof. vm_compute. reflexivity. Qed.

(* ================================================================== *)
(** * Properties: ordered reads *)
(* ================================================================== *)

Module OrderFacts.
Import Order.

Lemma insertAsc_In (A : Type) (key : A -> Z) (x y : A) (l : list A) :
  In y (insertAsc key x l) <-> y = x \/ In y l.
Proof.
  induction l as [|z l IH]; cbn [insertAsc].
  - cbn. intuition.
  - destruct (key z <? key x); cbn [In]; [|intuition].
    rewrite IH. cbn. intuition.
Qed.

Lemma orderAsc_In (A : Type) (key : A -> Z) (y : A) (l : list A) :
  In y (orderAsc key l) <-> In y l.
Proof.
  induction l as [|x l IH]; [reflexivity|].
  unfold orderAsc in *. cbn [fold_right]. rewrite insertAsc_In, IH.
  cbn. intuition.
Qed.

Lemma insertAsc_length (A : Type) (key : A -> Z) (x : A) (l : list A) :
  length (insertAsc key x l) = S (length l).
Proof.
  induction l as [|z l IH]; [reflexivity|]. cbn [insertAsc].
  destruct (key z <? key x); cbn [length]; [now rewrite IH|reflexivity].
Qed.

Lemma orderAsc_length (A : Type) (key : A -> Z) (l : list A) :
  length (orderAsc key l) = length l.
Proof.
  induction l as [|x l IH]; [reflexivity|].
  unfold orderAsc in *. cbn [fold_right]. now rewrite insertAsc_length, IH.
Qed.

Lemma insertDescending_In (A : Type) (key : A -> Z) (x y : A) (l : list A) :
  In y (insertDescending key x l) <-> y = x \/ In y l.
Proof.
  induction l as [|z l IH]; cbn [insertDescending].
  - cbn. intuition.
  - destruct (key x <? key z); cbn [In]; [|intuition].
    rewrite IH. cbn. intuition.
Qed.

Lemma orderDesc_In (A : Type) (key : A -> Z) (y : A) (l : list A) :
  In y (orderDesc key l) <-> In y l.
Proof.
  induction l as [|x l IH]; [reflexivity|].
  unfold orderDesc in *. cbn [fold_right]. rewrite insertDescending_In, IH.
  cbn. intuition.
Qed.

End OrderFacts.

(* ================================================================== *)
(** * Properties: numbers and their decimal text *)
(* ================================================================== *)

Module JsFacts.
Import Js.

Lemma codes_are_digits (d : Decimal.uint) :
  Forall (fun c => isDigit c = true) (codes_of_uint d).
Proof. induction d; simpl; constructor; auto. Qed.

Lemma digit_not_space (c : N) : isDigit c = true -> isSpace c = false.
Proof.
  unfold isDigit, isSpace, between.
  repeat match goal with
  | |- context [N.leb ?a ?b] => destruct (N.leb_spec a b)
  | |- context [N.eqb ?a ?b] => destruct (N.eqb_spec a b)
  end; simpl; intros; try reflexivity; try discriminate; lia.
Qed.

Lemma digits_value_acc (d : Decimal.uint) (p : positive) :
  digits_value (Npos p) (codes_of_uint d) = Some (Npos (Pos.of_uint_acc d p)).
Proof.
  revert p. induction d; intro p; cbn [codes_of_uint Pos.of_uint_acc];
    [reflexivity| ..];
    unfold digits_value; fold digits_value;
    match goal with
    | |- context [isDigit ?c] => change (isDigit c) with true
    end; cbv iota;
    match goal with
    | |- digits_value ?a _ = Some (Npos (Pos.of_uint_acc _ ?q)) =>
        replace a with (Npos q) by lia
    end; apply IHd.
Qed.

Lemma digits_value_uint (d : Decimal.uint) :
  digits_value 0 (codes_of_uint d) = Some (Pos.of_uint d).
Proof.
  induction d; cbn [codes_of_uint Pos.of_uint]; [reflexivity| ..];
    unfold digits_value; fold digits_value;
    match goal with
    | |- context [isDigit ?c] => change (isDigit c) with true
    end; cbv iota;
    first [ exact IHd | apply digits_value_acc ].
Qed.

Lemma digits_value_pos (p : positive) :
  digits_value 0 (codes_of_uint (Pos.to_uint p)) = Some (Npos p).
Proof. now rewrite digits_value_uint, DecimalPos.Unsigned.of_to. Qed.

Lemma codes_nonempty (p : positive) : codes_of_uint (Pos.to_uint p) <> [].
Proof.
  pose proof (DecimalPos.Unsigned.to_uint_nonnil p) as H.
  destruct (Pos.to_uint p); [congruence| ..]; discriminate.
Qed.

Lemma trimStart_id (s : jsstring) :
  match s with c :: _ => isSpace c = false | [] => True end ->
  trimStart s = s.
Proof. destruct s as [|c s]; [reflexivity|]. simpl. now intros ->. Qed.

(** Text without white space at either end is its own [trim]. *)
Lemma trim_id (s : jsstring) :
  Forall (fun c => isSpace c = false) s -> trim s = s.
Proof.
  intro H. unfold trim, trimEnd.
  rewrite (trimStart_id s) by (destruct H; auto).
  rewrite trimStart_id; [apply rev_involutive|].
  assert (Hr : Forall (fun c => isSpace c = false) (rev s))
    by (apply Forall_forall; intros c Hc; apply in_rev in Hc;
        revert c Hc; now apply Forall_forall).
  destruct Hr; auto.
Qed.

Lemma codes_no_space (d : Decimal.uint) :
  Forall (fun c => isSpace c = false) (codes_of_uint d).
Proof.
  eapply Forall_impl; [|apply codes_are_digits]. apply digit_not_space.
Qed.

(** Reading back the decimal text of a number gives the number. *)
Theorem Number_toString (n : number) : Number (toString n) = n.
Proof.
  destruct n as [[|p|p]|]; try reflexivity.
  - (* a positive integer *)
    unfold Number, toString. rewrite trim_id by apply codes_no_space.
    pose proof (codes_nonempty p) as Hne.
    pose proof (codes_are_digits (Pos.to_uint p)) as Hd.
    pose proof (digits_value_pos p) as Hv.
    destruct (codes_of_uint (Pos.to_uint p)) as [|c ds]; [congruence|].
    inversion Hd as [|? ? Hc _]; subst.
    assert (N.eqb c 45 = false /\ N.eqb c 43 = false) as [-> ->].
    { unfold isDigit, between in Hc. apply andb_prop in Hc as [H1 H2].
      apply N.leb_le in H1. split; apply N.eqb_neq; lia. }
    now rewrite Hv.
  - (* a negative integer *)
    unfold Number, toString.
    rewrite trim_id
      by (constructor; [reflexivity|apply codes_no_space]).
    pose proof (codes_nonempty p) as Hne.
    pose proof (digits_value_pos p) as Hv.
    change (N.eqb 45 45) with true. cbv iota.
    destruct (codes_of_uint (Pos.to_uint p)) as [|c ds]; [congruence|].
    now rewrite Hv.
Qed.

Lemma toString_truthy (n : number) : truthy_str (toString n) = true.
Proof.
  destruct n as [[|p|p]|]; try reflexivity.
  unfold toString. pose proof (codes_nonempty p).
  now destruct (codes_of_uint (Pos.to_uint p)).
Qed.

Lemma str_eqb_eq (a b : jsstring) : str_eqb a b = true <-> a = b.
Proof.
  revert b. induction a as [|x a IH]; intros [|y b]; cbn; split;
    try discriminate; try reflexivity.
  - intro H. apply andb_prop in H as [H1 H2].
    apply N.eqb_eq in H1. apply IH in H2. now subst.
  - intro H. injection H as -> ->. rewrite N.eqb_refl. now apply IH.
Qed.

Lemma str_eqb_refl (a : jsstring) : str_eqb a a = true.
Proof. now apply str_eqb_eq. Qed.

Lemma str_eqb_neq (a b : jsstring) : str_eqb a b = false <-> a <> b.
Proof.
  split.
  - intros H E. apply str_eqb_eq in E. congruence.
  - intro H. destruct (str_eqb a b) eqn:E; [|reflexivity].
    apply str_eqb_eq in E. contradiction.
Qed.

End JsFacts.

(* ================================================================== *)
(** * Properties: the planner *)
(* ================================================================== *)

Module PlannerFacts.
Import Js StudyPlanner.

Lemma decode_written_progress (p : number) :
  decodeProgress (CStr (toString p)) = p.
Proof.
  unfold decodeProgress. rewrite JsFacts.toString_truthy.
  apply JsFacts.Number_toString.
Qed.

Lemma decode_written_completed (b : bool) :
  decodeCompleted (CStr (bool_toString b)) = b.
Proof. now destruct b. Qed.

(** Formatting UTC midnight in a zone east of Greenwich (or at it) keeps
    the day; in a zone west of it the local day is the day before. *)
Lemma format_east (tz day : Z) :
  0 <= tz < msPerDay -> format_yyyy_MM_dd tz (newDate day) = day.
Proof.
  unfold format_yyyy_MM_dd, newDate, msPerDay. intro H.
  symmetry. apply (Z.div_unique_pos _ _ _ tz); lia.
Qed.

Lemma format_west (tz day : Z) :
  - msPerDay <= tz < 0 -> format_yyyy_MM_dd tz (newDate day) = day - 1.
Proof.
  unfold format_yyyy_MM_dd, newDate, msPerDay. intro H.
  symmetry. apply (Z.div_unique_pos _ _ _ (tz + 86400000)); lia.
Qed.

(** What [handleUndoDelete] hands back, field by field. *)
Lemma undo_fields (tz : Z) (sessions : list StudySession) (st : store)
      (s : StudySession) :
  exists r,
    restored (handleUndoDelete tz sessions st true s) = Some r
    /\ id r = nextId st
    /\ user_id r = user_id s
    /\ subject r = subject s
    /\ topic r = topic s
    /\ date r = newDate (format_yyyy_MM_dd tz (date s))
    /\ startTime r = startTime s
    /\ duration r = duration s
    /\ notes r = notes s
    /\ progress r = progress s
    /\ completed r = completed s.
Proof.
  eexists. split; [reflexivity|].
  cbn -[decodeProgress decodeCompleted toString bool_toString newDate
        format_yyyy_MM_dd].
  rewrite decode_written_progress, decode_written_completed.
  repeat split.
Qed.

Lemma find_some_id (sid : ident) (l : list StudySession) (s : StudySession) :
  findSession sid l = Some s -> In s l /\ id s = sid.
Proof.
  unfold findSession. intro H. apply find_some in H as [H1 H2].
  split; [exact H1|now apply N.eqb_eq].
Qed.

Lemma deleteThenUndo_some (tz : Z) (sessions : list StudySession) (st : store)
      (sid : ident) (s : StudySession) :
  findSession sid sessions = Some s ->
  deleteThenUndo tz sessions st sid
  = Some (s, handleUndoDelete tz sessions (deleteRow sid st) true s).
Proof. unfold deleteThenUndo, deleteSession. cbn. now intros ->. Qed.

(** In a zone at or east of Greenwich the undo gives back every field
    of a session dated at UTC midnight, under a fresh identifier. *)
Lemma undo_east_roundtrip (tz : Z) (sessions : list StudySession) (st : store)
      (sid : ident) (s : StudySession) (day : Z) :
  0 <= tz < msPerDay ->
  findSession sid sessions = Some s ->
  date s = newDate day ->
  (sid < nextId st)%N ->
  exists o r,
    deleteThenUndo tz sessions st sid = Some (s, o)
    /\ restored o = Some r
    /\ subject r = subject s /\ topic r = topic s /\ date r = date s
    /\ duration r = duration s /\ notes r = notes s
    /\ progress r = progress s /\ completed r = completed s
    /\ id r <> id s.
Proof.
  intros Htz Hf Hd Hid.
  destruct (undo_fields tz sessions (deleteRow sid st) s)
    as [r (Hr & Hi & _ & Hs & Ht & Hdt & _ & Hdu & Hn & Hp & Hc)].
  exists (handleUndoDelete tz sessions (deleteRow sid st) true s), r.
  repeat split; auto using deleteThenUndo_some.
  - rewrite Hdt, Hd. now rewrite format_east.
  - apply find_some_id in Hf as [_ Hs']. rewrite Hi, Hs'. cbn. lia.
Qed.

(** In a zone west of Greenwich the restored session is dated one day
    before the deleted one. *)
Lemma undo_west_shift (tz : Z) (sessions : list StudySession) (st : store)
      (sid : ident) (s : StudySession) (day : Z) :
  - msPerDay <= tz < 0 ->
  findSession sid sessions = Some s ->
  date s = newDate day ->
  exists o r,
    deleteThenUndo tz sessions st sid = Some (s, o)
    /\ restored o = Some r
    /\ date r = newDate (day - 1)
    /\ date r <> date s.
Proof.
  intros Htz Hf Hd.
  destruct (undo_fields tz sessions (deleteRow sid st) s)
    as [r (Hr & _ & _ & _ & _ & Hdt & _)].
  exists (handleUndoDelete tz sessions (deleteRow sid st) true s), r.
  assert (E : date r = newDate (day - 1))
    by (rewrite Hdt, Hd; now rewrite format_west).
  repeat split; auto using deleteThenUndo_some.
  rewrite E, Hd. unfold newDate, msPerDay. lia.
Qed.

(** What the two progress handlers leave in the component state. *)
Lemma updated_session (sessions : list StudySession) (sid : ident)
      (p : number) (c : bool) (s' : StudySession) :
  In s' (map (fun session =>
                if N.eqb (id session) sid then withProgress session p c
                else session) sessions) ->
  id s' = sid -> progress s' = p /\ completed s' = c.
Proof.
  intros Hin Hid. apply in_map_iff in Hin as [s [Hs _]].
  destruct (N.eqb (id s) sid) eqn:E; subst s'; [now cbn|].
  apply N.eqb_neq in E. contradiction.
Qed.

Lemma updated_row (st : store) (sid : ident) (p c : cell) (r : DbStudySession) :
  In r (rows (updateRow sid p c st)) -> db_id r = sid ->
  db_progress r = p /\ db_completed r = c.
Proof.
  cbn. intros Hin Hid. apply in_map_iff in Hin as [r0 [Hr _]].
  destruct (N.eqb (db_id r0) sid) eqn:E; subst r; [now cbn|].
  apply N.eqb_neq in E. contradiction.
Qed.

Lemma find_map_session (sid : ident) (f : StudySession -> StudySession)
      (l : list StudySession) :
  (forall s, id (f s) = id s) ->
  findSession sid (map f l) = option_map f (findSession sid l).
Proof.
  intro Hf. unfold findSession.
  induction l as [|s l IH]; [reflexivity|].
  cbn [map find]. rewrite Hf. destruct (N.eqb (id s) sid); [reflexivity|exact IH].
Qed.

End PlannerFacts.

(* ================================================================== *)
(** * Properties: the dashboard aggregate *)
(* ================================================================== *)

Module DashboardFacts.
Import Js JsNum StudyPlanner Dashboard.

(** The progress list after a recomputation is the entry computed from
    the store put into the previous list. *)
Lemma run_updated (T : Type) (A : Arith T) (uid : ident) (st : store)
      (d : state (T := T)) (upcoming : list Session)
      (sid : ident) (p : number) (c : bool) (subject : jsstring) :
  studyProgress
    (run (Some uid) st true (handleSessionUpdated upcoming sid p c subject) d)
  = putEntry (subjectEntry subject (sessionsOf uid subject st))
             (studyProgress d).
Proof. reflexivity. Qed.

Lemma run_completed (T : Type) (A : Arith T) (uid : ident) (st : store)
      (d : state (T := T)) (sid : ident) (subject : jsstring) :
  studyProgress
    (run (Some uid) st true (handleSessionCompleted sid subject) d)
  = putEntry (subjectEntry subject (sessionsOf uid subject st))
             (studyProgress d).
Proof. reflexivity. Qed.

Lemma run_deleted (T : Type) (A : Arith T) (uid : ident) (st : store)
      (d : state (T := T)) (sid : ident) (subject : jsstring) :
  studyProgress
    (run (Some uid) st true (handleSessionDeleted sid subject) d)
  = putEntry (subjectEntry subject (sessionsOf uid subject st))
             (studyProgress d).
Proof. reflexivity. Qed.

(** ** The first load: [fetchDashboardData] *)

Section Tally.
Context {T : Type} {A : Arith T}.

Lemma bump_keys (k : jsstring) (f : nat * T -> nat * T) (m : subjectMap)
      (k' : jsstring) :
  In k' (map fst (bump k f m)) <-> k' = k \/ In k' (map fst m).
Proof.
  induction m as [|[k0 v0] m IH]; cbn [bump map fst In].
  - intuition.
  - destruct (str_eqb k0 k) eqn:E; cbn [map fst In].
    + apply JsFacts.str_eqb_eq in E. subst k0. intuition.
    + rewrite IH. intuition.
Qed.

Lemma bump_NoDup (k : jsstring) (f : nat * T -> nat * T) (m : subjectMap) :
  NoDup (map fst m) -> NoDup (map fst (bump k f m)).
Proof.
  induction m as [|[k0 v0] m IH]; cbn [bump map fst]; intro H.
  - constructor; [intros []|constructor].
  - inversion H as [|? ? Hn Hd]; subst.
    destruct (str_eqb k0 k) eqn:E; cbn [map fst].
    + constructor; assumption.
    + constructor; [|now apply IH].
      rewrite bump_keys. intros [->|Hin]; [|contradiction].
      now rewrite JsFacts.str_eqb_refl in E.
Qed.

(** What an entry of the bumped map was before. *)
Lemma bump_entries (k : jsstring) (f : nat * T -> nat * T) (m : subjectMap)
      (k' : jsstring) (v' : nat * T) :
  NoDup (map fst m) ->
  In (k', v') (bump k f m) ->
  (k' <> k /\ In (k', v') m)
  \/ (k' = k /\ ((exists v, In (k, v) m /\ v' = f v)
                 \/ (~ In k (map fst m) /\ v' = f (O, ofInt 0)))).
Proof.
  induction m as [|[k0 v0] m IH]; cbn [bump map fst In]; intros Hnd Hin.
  - destruct Hin as [Hin|[]]. injection Hin as <- <-.
    right. split; [reflexivity|]. right. split; [tauto|reflexivity].
  - inversion Hnd as [|? ? Hn Hd]; subst.
    destruct (str_eqb k0 k) eqn:E.
    + apply JsFacts.str_eqb_eq in E. subst k0.
      destruct Hin as [Hin|Hin].
      * injection Hin as <- <-. right. split; [reflexivity|].
        left. exists v0. split; [now left|reflexivity].
      * left. split; [|now right].
        intros ->. apply Hn. apply in_map_iff. now exists (k, v').
    + apply JsFacts.str_eqb_neq in E.
      destruct Hin as [Hin|Hin].
      * injection Hin as <- <-. left. split; [exact E|now left].
      * destruct (IH Hd Hin) as [[Hk Hm]|[-> [[v [Hv ->]]|[Hnk ->]]]].
        -- left. split; [exact Hk|now right].
        -- right. split; [reflexivity|]. left. exists v.
           split; [now right|reflexivity].
        -- right. split; [reflexivity|]. right. split; [|reflexivity].
           intros [H|H]; [now apply E|now apply Hnk].
Qed.

Lemma statsOf_snoc (k : jsstring) (pre : list Session) (s : Session) :
  statsOf k (pre ++ [s])
  = if str_eqb (s_subject s) k then count (statsOf k pre) s
    else statsOf k pre.
Proof.
  unfold statsOf. rewrite filter_app. cbn [filter].
  destruct (str_eqb (s_subject s) k).
  - now rewrite fold_left_app.
  - now rewrite app_nil_r.
Qed.

Lemma statsOf_absent (k : jsstring) (pre : list Session) :
  (forall s, In s pre -> s_subject s <> k) ->
  statsOf k pre = (O, ofInt 0).
Proof.
  intro H. unfold statsOf.
  replace (filter _ pre) with (@nil Session); [reflexivity|].
  symmetry. induction pre as [|s pre IH]; [reflexivity|].
  cbn [filter].
  assert (E : str_eqb (s_subject s) k = false)
    by (apply JsFacts.str_eqb_neq, H; now left).
  rewrite E. apply IH. intros x Hx. apply H. now right.
Qed.

(** The map after the sessions [pre]: one entry for each subject met,
    holding the count of the sessions of that subject. *)
Definition tallied (m : subjectMap) (pre : list Session) : Prop :=
  NoDup (map fst m)
  /\ (forall s, In s pre -> In (s_subject s) (map fst m))
  /\ (forall k v, In (k, v) m -> v = statsOf k pre).

Lemma tallied_step (m : subjectMap) (pre : list Session) (s : Session) :
  tallied m pre -> tallied (tally m s) (pre ++ [s]).
Proof.
  intros (Hnd & Hcov & Hval). unfold tally. split; [|split].
  - now apply bump_NoDup.
  - intros x Hx. rewrite bump_keys. apply in_app_iff in Hx as [Hx|[<-|[]]].
    + right. now apply Hcov.
    + now left.
  - intros k v Hin. rewrite statsOf_snoc.
    destruct (@bump_entries _ _ _ _ _ Hnd Hin)
      as [[Hk Hm]|[-> [[v0 [Hv ->]]|[Hnk ->]]]].
    + assert (E : str_eqb (s_subject s) k = false)
        by (apply JsFacts.str_eqb_neq; congruence).
      rewrite E. now apply Hval.
    + rewrite JsFacts.str_eqb_refl. now rewrite (Hval _ _ Hv).
    + rewrite JsFacts.str_eqb_refl. rewrite statsOf_absent; [reflexivity|].
      intros x Hx E. apply Hnk. rewrite <- E. now apply Hcov.
Qed.

Lemma tallied_fold (ss : list Session) (m : subjectMap) (pre : list Session) :
  tallied m pre -> tallied (fold_left tally ss m) (pre ++ ss).
Proof.
  revert m pre. induction ss as [|s ss IH]; intros m pre H.
  - now rewrite app_nil_r.
  - cbn [fold_left]. replace (pre ++ s :: ss) with ((pre ++ [s]) ++ ss)
      by (now rewrite <- app_assoc).
    apply IH. now apply tallied_step.
Qed.

Lemma tallied_all (ss : list Session) : tallied (fold_left tally ss []) ss.
Proof.
  apply (@tallied_fold ss [] []). split; [constructor|].
  split; [intros s []|intros k v []].
Qed.

Lemma fold_count_rows (rows : list DbStudySession) (n : nat) (c : T) :
  fold_left count (map formatSession rows) (n, c)
  = ((n + length rows)%nat,
     fold_left
       (fun acc session =>
          contribute acc (decodeCompleted (db_completed session))
                     (decodeProgress (db_progress session)))
       rows c).
Proof.
  revert n c. induction rows as [|r rows IH]; intros n c.
  - cbn. now rewrite Nat.add_0_r.
  - cbn [map fold_left length]. unfold count at 2. cbn [fst snd].
    rewrite IH. cbn [formatSession s_completed s_progress].
    f_equal. lia.
Qed.

Lemma filter_formatted (k : jsstring) (rows : list DbStudySession) :
  filter (fun s => str_eqb (s_subject s) k) (map formatSession rows)
  = map formatSession (filter (fun r => str_eqb (db_subject r) k) rows).
Proof.
  induction rows as [|r rows IH]; [reflexivity|].
  cbn [map filter formatSession s_subject].
  destruct (str_eqb (db_subject r) k); cbn [map]; now rewrite IH.
Qed.

Lemma insertDesc_In (x y : SubjectProgress) (l : list SubjectProgress) :
  In y (insertDesc x l) -> y = x \/ In y l.
Proof.
  induction l as [|z l IH]; cbn [insertDesc].
  - intros [<-|[]]. now left.
  - destruct (ltb (sp_progress x) (sp_progress z)); cbn [In].
    + intros [<-|H]; [right; now left|].
      destruct (IH H) as [->|H']; [now left|right; now right].
    + intros [<-|H]; [now left|now right].
Qed.

Lemma sortDesc_In (y : SubjectProgress) (l : list SubjectProgress) :
  In y (sortDesc l) -> In y l.
Proof.
  induction l as [|x l IH]; [auto|].
  unfold sortDesc in *. cbn [fold_right]. intro H.
  apply insertDesc_In in H as [->|H]; [now left|right; now apply IH].
Qed.

Lemma firstn_subset (B : Type) (n : nat) (l : list B) (y : B) :
  In y (firstn n l) -> In y l.
Proof.
  revert l. induction n as [|n IH]; intros [|x l]; cbn; try tauto.
  intros [<-|H]; [now left|right; now apply IH].
Qed.

(** Every entry [fetchDashboardData] shows is the entry
    [updateSubjectProgress] computes from the sessions of its subject,
    taken in the order of the load. *)
Lemma progressData_entry (sessionsData : list DbStudySession)
      (e : SubjectProgress) :
  In e (progressData sessionsData) ->
  e = subjectEntry (sp_subject e)
        (filter (fun r => str_eqb (db_subject r) (sp_subject e)) sessionsData).
Proof.
  unfold progressData. intro H.
  apply firstn_subset, sortDesc_In in H.
  apply in_map_iff in H as [[k v] [<- Hin]].
  destruct (tallied_all (map formatSession sessionsData)) as (_ & _ & Hval).
  rewrite (Hval k v Hin). cbn [entryOf fst snd sp_subject].
  unfold statsOf. rewrite filter_formatted, fold_count_rows.
  reflexivity.
Qed.

End Tally.

End DashboardFacts.

(* ================================================================== *)
(** * Properties: the subject progress in binary64 *)
(* ================================================================== *)

Module AggregateFacts.
Import Reals Lra.
Import Js JsNum StudyPlanner Dashboard FloatFacts.

Lemma Rabs_le_inv (x b : R) : (Rabs x <= b)%R -> (- b <= x <= b)%R.
Proof. unfold Rabs. destruct (Rcase_abs x); lra. Qed.

(** A hundred times what a session contributes. *)
Definition points (r : DbStudySession) : Z :=
  if decodeCompleted (db_completed r) then 100
  else match decodeProgress (db_progress r) with
       | Int z => z
       | NaN => 0
       end.

Definition pointsSum (data : list DbStudySession) : Z :=
  fold_right (fun r acc => points r + acc) 0 data.

Lemma points_range (r : DbStudySession) :
  percentProgress r = true -> 0 <= points r <= 100.
Proof.
  unfold percentProgress, points. intro H.
  destruct (decodeCompleted (db_completed r)); [lia|].
  destruct (decodeProgress (db_progress r)) as [z|]; [|discriminate].
  apply andb_prop in H as [H1 H2]. apply Z.leb_le in H1, H2. lia.
Qed.

Lemma pointsSum_range (data : list DbStudySession) :
  forallb percentProgress data = true ->
  0 <= pointsSum data <= 100 * Z.of_nat (length data).
Proof.
  induction data as [|r data IH]; intro H; [cbn; lia|].
  cbn [forallb] in H. apply andb_prop in H as [Hr Hd].
  specialize (IH Hd). pose proof (points_range r Hr).
  cbn [pointsSum fold_right length] in *. fold (pointsSum data). lia.
Qed.

(** The unit of the error bound: each session adds at most [2^-31] to
    the distance between the running sum and the exact sum. *)
Definition eps : R := bpow (-31).

Lemma eps_facts :
  (0 < eps /\ bpow (-32) + bpow (-52) <= eps /\ eps * 2147483648 = 1)%R.
Proof.
  unfold eps. split; [apply bpow_pos|]. split.
  - replace (-31) with (-32 + 1) by lia. rewrite bpow_succ.
    pose proof (@bpow_le (-52) (-32) ltac:(lia)). lra.
  - change 2147483648%R with (IZR (2 ^ 31)). rewrite <- bpow_IZR by lia.
    rewrite <- bpow_add. reflexivity.
Qed.

Lemma one_real : fin (to_float 1) /\ B2R (to_float 1) = 1%R.
Proof. apply (@to_float_real 1). lia. Qed.

Lemma hundred_real : fin (to_float 100) /\ B2R (to_float 100) = 100%R.
Proof. apply (@to_float_real 100). lia. Qed.

(** One turn of the loop. *)
Lemma contribute_real (acc : float) (r : DbStudySession) (k A : Z) :
  percentProgress r = true ->
  fin acc -> 0 <= k < 2 ^ 20 -> 0 <= A <= 100 * k ->
  (Rabs (B2R acc - IZR A / 100) <= IZR k * eps)%R ->
  (A = 0 -> B2R acc = 0%R) ->
  let acc' := contribute (A := Binary64) acc
                (decodeCompleted (db_completed r))
                (decodeProgress (db_progress r)) in
  fin acc'
  /\ (Rabs (B2R acc' - IZR (A + points r) / 100) <= IZR (k + 1) * eps)%R
  /\ (A + points r = 0 -> B2R acc' = 0%R).
Proof.
  intros Hr Facc Hk HA Herr Hzero acc'. subst acc'.
  destruct eps_facts as (E0 & E1 & E2).
  pose proof (points_range r Hr) as Hp.
  assert (Hk' : (0 <= IZR k <= 1048575)%R).
  { split; apply IZR_le; lia. }
  assert (HA' : (0 <= IZR A <= 100 * IZR k)%R).
  { split; [apply IZR_le; lia|]. rewrite <- (mult_IZR 100). apply IZR_le. lia. }
  apply Rabs_le_inv in Herr.
  assert (Hacc : (B2R acc + 1 + bpow (-52) < bpow 21)%R).
  { rewrite (@bpow_IZR 21) by lia. change (2 ^ 21) with 2097152.
    pose proof (@bpow_le (-52) 0 ltac:(lia)) as H52.
    change (bpow 0) with 1%R in H52. nra. }
  unfold percentProgress, points, contribute in *.
  destruct (decodeCompleted (db_completed r)).
  - (* a completed session adds 1 *)
    cbn [add ofInt Binary64].
    destruct one_real as [F1 V1].
    destruct (@add_real acc (to_float 1) 21 Facc F1) as (F & B & _).
    + rewrite V1. pose proof (bpow_pos (-52)). lra.
    + lia.
    + change (fexp64 21) with (-32) in B. rewrite V1 in B.
      apply Rabs_le_inv in B. split; [exact F|]. split.
      * rewrite !plus_IZR. pose proof (bpow_pos (-52)).
        apply Rabs_le. split; lra.
      * intro H0. lia.
  - destruct (decodeProgress (db_progress r)) as [z|]; [|discriminate].
    apply andb_prop in Hr as [Hz1 Hz2]. apply Z.leb_le in Hz1, Hz2.
    cbn [gtb]. destruct (Z.ltb_spec 0 z) as [Hz|Hz].
    + (* a positive progress adds [z / 100] *)
      cbn [add div ofInt ofNumber Binary64].
      destruct hundred_real as [F100 V100].
      destruct (@to_float_real z ltac:(lia)) as [Fz Vz].
      assert (Hq : (/ 100 <= IZR z / 100 <= 1)%R).
      { assert (1 <= IZR z <= 100)%R by (split; apply IZR_le; lia). lra. }
      destruct (@div_real (to_float z) (to_float 100) 1 Fz F100) as (Fd & Bd).
      * rewrite V100. lra.
      * right. rewrite Vz, V100.
        apply Rle_trans with (bpow (-7)).
        -- apply bpow_le. lia.
        -- change (bpow (-7)) with (/ bpow 7)%R.
           rewrite (@bpow_IZR 7) by lia. change (2 ^ 7) with 128. lra.
      * rewrite Vz, V100, bpow_1. lra.
      * lia.
      * rewrite Vz, V100 in Bd. change (fexp64 1) with (-52) in Bd.
        apply Rabs_le_inv in Bd.
        destruct (@add_real acc (to_float z / to_float 100) 21 Facc Fd)
          as (F & B & _).
        -- lra.
        -- lia.
        -- change (fexp64 21) with (-32) in B. apply Rabs_le_inv in B.
           split; [exact F|]. split.
           ++ rewrite !plus_IZR. apply Rabs_le. split; lra.
           ++ intro H0. lia.
    + (* no progress adds nothing *)
      assert (z = 0) by lia. subst z. split; [exact Facc|]. split.
      * rewrite Z.add_0_r, plus_IZR. apply Rabs_le. split; lra.
      * rewrite Z.add_0_r. exact Hzero.
Qed.


(** The loop over the rows. *)
Lemma fold_contribute_real (data : list DbStudySession) (acc : float)
      (k A : Z) :
  forallb percentProgress data = true ->
  fin acc -> 0 <= k -> k + Z.of_nat (length data) <= 2 ^ 20 ->
  0 <= A <= 100 * k ->
  (Rabs (B2R acc - IZR A / 100) <= IZR k * eps)%R ->
  (A = 0 -> B2R acc = 0%R) ->
  let acc' :=
    fold_left
      (fun a session =>
         contribute (A := Binary64) a (decodeCompleted (db_completed session))
                    (decodeProgress (db_progress session)))
      data acc in
  fin acc'
  /\ (Rabs (B2R acc' - IZR (A + pointsSum data) / 100)
      <= IZR (k + Z.of_nat (length data)) * eps)%R
  /\ (A + pointsSum data = 0 -> B2R acc' = 0%R).
Proof.
  revert acc k A. induction data as [|r data IH];
    intros acc k A Hd Facc Hk Hlen HA Herr Hzero.
  - cbn [fold_left pointsSum fold_right length Z.of_nat].
    rewrite !Z.add_0_r. auto.
  - cbn [forallb] in Hd. apply andb_prop in Hd as [Hr Hd].
    cbn [length] in Hlen. rewrite Nat2Z.inj_succ in Hlen.
    destruct (@contribute_real acc r k A Hr Facc ltac:(lia) HA Herr Hzero)
      as (F1 & B1 & Z1).
    pose proof (points_range r Hr) as Hp.
    cbn [fold_left].
    destruct (IH _ (k + 1) (A + points r) Hd F1 ltac:(lia) ltac:(lia)
                 ltac:(lia) B1 Z1) as (F2 & B2 & Z2).
    cbn [pointsSum fold_right length]. fold (pointsSum data).
    rewrite Nat2Z.inj_succ.
    replace (A + (points r + pointsSum data))
      with (A + points r + pointsSum data) by lia.
    replace (k + Z.succ (Z.of_nat (length data)))
      with (k + 1 + Z.of_nat (length data)) by lia.
    auto.
Qed.

Lemma sumCompleted_real (data : list DbStudySession) :
  forallb percentProgress data = true ->
  Z.of_nat (length data) <= 2 ^ 20 ->
  let S := sumCompleted (A := Binary64) data in
  fin S
  /\ (Rabs (B2R S - IZR (pointsSum data) / 100)
      <= IZR (Z.of_nat (length data)) * eps)%R
  /\ (pointsSum data = 0 -> B2R S = 0%R).
Proof.
  intros Hd Hlen S. subst S. unfold sumCompleted. cbn [ofInt Binary64].
  destruct (@to_float_real 0 ltac:(lia)) as [F0 V0].
  destruct (@fold_contribute_real data (to_float 0) 0 0 Hd F0)
    as (F & B & Z); try lia.
  - rewrite V0. replace (0 - 0 / 100)%R with 0%R by lra.
    rewrite Rabs_R0. lra.
  - intros _. exact V0.
  - rewrite !Z.add_0_l in *. auto.
Qed.

Lemma Rdiv_le_bound (x n e : R) :
  (0 < n)%R -> (Rabs x <= n * e)%R -> (Rabs (x / n) <= e)%R.
Proof.
  intros Hn Hx. apply Rabs_le_inv in Hx. apply Rabs_le.
  assert (Hi : (0 < / n)%R) by now apply Rinv_0_lt_compat.
  assert (H1 : (n * e * / n = e)%R) by (field; lra).
  unfold Rdiv. split.
  - apply Rmult_le_reg_r with n; [exact Hn|].
    replace (x * / n * n)%R with x by (field; lra). lra.
  - apply Rmult_le_reg_r with n; [exact Hn|].
    replace (x * / n * n)%R with x by (field; lra). lra.
Qed.

(** [Math.round ((sum / n) * 100)] in binary64, against the exact
    [round (A / n)] with [A] the points of the [n] rows. *)
Lemma percentage_real (data : list DbStudySession) :
  forallb percentProgress data = true ->
  (0 < length data)%nat -> Z.of_nat (length data) <= 2 ^ 20 ->
  let n := Z.of_nat (length data) in
  let A := pointsSum data in
  let p := percentage (A := Binary64) (sumCompleted (A := Binary64) data)
             (length data) in
  p = to_float ((2 * A + n) / (2 * n))
  \/ ((2 * A + n) mod (2 * n) = 0
      /\ p = to_float ((2 * A + n) / (2 * n) - 1)).
Proof.
  intros Hd Hpos Hlen n A p. subst p. unfold percentage.
  destruct (Nat.ltb_spec 0 (length data)) as [_|]; [|lia].
  cbn [round mul div ofInt Binary64]. fold n.
  destruct eps_facts as (E0 & E1 & E2).
  destruct (sumCompleted_real data Hd Hlen) as (FS & BS & ZS).
  fold n in BS. fold A in BS, ZS.
  set (S := sumCompleted (A := Binary64) data) in *.
  pose proof (pointsSum_range data Hd) as HA. fold A n in HA.
  assert (Hn : 1 <= n <= 1048576) by (subst n; change (2 ^ 20) with 1048576 in Hlen; lia).
  assert (Hn' : (1 <= IZR n <= 1048576)%R) by (split; apply IZR_le; lia).
  assert (HA' : (0 <= IZR A <= 100 * IZR n)%R).
  { split; [apply IZR_le; lia|]. rewrite <- (mult_IZR 100). apply IZR_le. lia. }
  destruct (@to_float_real n ltac:(change (2 ^ 53) with 9007199254740992; lia))
    as [Fn Vn].
  destruct hundred_real as [F100 V100].
  assert (Hneps : (IZR n * eps <= / 2048)%R) by nra.
  pose proof (Rabs_le_inv _ BS) as BS'.
  (* the quotient *)
  assert (Ht : (Rabs (B2R S / IZR n - IZR A / 100 / IZR n) <= eps)%R).
  { replace (B2R S / IZR n - IZR A / 100 / IZR n)%R
      with ((B2R S - IZR A / 100) / IZR n)%R by (field; lra).
    apply Rdiv_le_bound; [lra|exact BS]. }
  apply Rabs_le_inv in Ht.
  assert (HAn : (0 <= IZR A / 100 / IZR n <= 1)%R).
  { assert (Hi : (0 < / IZR n)%R) by (apply Rinv_0_lt_compat; lra).
    split.
    - unfold Rdiv. apply Rmult_le_pos; [lra|lra].
    - apply Rmult_le_reg_r with (IZR n); [lra|].
      replace (IZR A / 100 / IZR n * IZR n)%R with (IZR A / 100)%R
        by (field; lra). lra. }
  destruct (@div_real S (to_float n) 1 FS Fn) as (Fq & Bq).
  - rewrite Vn. lra.
  - destruct (Z.eq_dec A 0) as [HA0|HA0]; [left; now apply ZS|right].
    rewrite Vn.
    assert (HA1 : (1 <= IZR A)%R) by (apply IZR_le; lia).
    apply Rle_trans with (bpow (-27)); [apply bpow_le; lia|].
    change (bpow (-27)) with (/ bpow 27)%R.
    rewrite (@bpow_IZR 27) by lia. change (2 ^ 27) with 134217728.
    assert (HS : (/ 128 <= B2R S)%R) by lra.
    assert (Hi : (/ 1048576 <= / IZR n)%R)
      by (apply Rinv_le_contravar; lra).
    unfold Rdiv. nra.
  - rewrite Vn, bpow_1. lra.
  - lia.
  - rewrite Vn in Bq. change (fexp64 1) with (-52) in Bq.
    apply Rabs_le_inv in Bq.
    set (q := (S / to_float n)%float) in *.
    pose proof (@bpow_le (-52) (-32) ltac:(lia)) as H52.
    pose proof (@bpow_le (-45) (-32) ltac:(lia)) as H45.
    pose proof (bpow_pos (-52)) as P52. pose proof (bpow_pos (-45)) as P45.
    destruct (@mul_real q (to_float 100) 8 Fq F100) as (Fv & Bv & _).
    + rewrite V100, (@bpow_IZR 8) by lia. change (2 ^ 8) with 256. lra.
    + lia.
    + rewrite V100 in Bv. change (fexp64 8) with (-45) in Bv.
      apply Rabs_le_inv in Bv.
      set (v := (q * to_float 100)%float) in *.
      destruct (@Math_round_fin v Fv) as (r & Er & Hr0 & Hr).
      { rewrite (@bpow_IZR 53) by lia.
        change (2 ^ 53) with 9007199254740992. lra. }
      rewrite Er.
      destruct (@round_near_fraction A n r (B2R v)) as [->|[Hm ->]];
        [lia|lia| |exact Hr|now left|now right].
      assert (HV : (Rabs (B2R v - IZR A / IZR n) <= 201 * eps)%R).
      { replace (IZR A / IZR n)%R with (100 * (IZR A / 100 / IZR n))%R
          by (field; lra).
        apply Rabs_le. split; lra. }
      apply Rle_lt_trans with (2 * IZR n * (201 * eps))%R.
      * apply Rmult_le_compat_l; [lra|exact HV].
      * nra.
Qed.


(** *** The formula of the specification, in integers *)

Lemma specSum_points (data : list DbStudySession) :
  forallb percentProgress data = true ->
  (specSum data == pointsSum data # 100)%Q.
Proof.
  induction data as [|r data IH]; intro H; [reflexivity|].
  cbn [forallb] in H. apply andb_prop in H as [Hr Hd].
  cbn [specSum pointsSum fold_right]. fold (specSum data) (pointsSum data).
  rewrite (IH Hd).
  assert (Hc : (specContribution r == points r # 100)%Q).
  { unfold specContribution, points, percentProgress in *.
    destruct (decodeCompleted (db_completed r)); [reflexivity|].
    destruct (decodeProgress (db_progress r)); [reflexivity|discriminate]. }
  rewrite Hc. unfold Qeq, Qplus. cbn [Qnum Qden]. lia.
Qed.

Lemma formula_points (data : list DbStudySession) (p : positive) :
  forallb percentProgress data = true ->
  Z.of_nat (length data) = Z.pos p ->
  (100 * specSum data / inject_Z (Z.of_nat (length data)) + (1 # 2)
   == (2 * pointsSum data + Z.pos p) # (2 * p))%Q.
Proof.
  intros Hd Hn. rewrite (specSum_points data Hd), Hn.
  unfold Qdiv, Qinv, inject_Z. cbn [Qnum Qden].
  unfold Qeq, Qplus, Qmult. cbn [Qnum Qden].
  rewrite ?Pos2Z.inj_mul. lia.
Qed.

Lemma specProgress_points (data : list DbStudySession) :
  forallb percentProgress data = true ->
  (0 < length data)%nat ->
  let n := Z.of_nat (length data) in
  let A := pointsSum data in
  specProgress data = (2 * A + n) / (2 * n)
  /\ ((2 * A + n) mod (2 * n) = 0 -> halfway data).
Proof.
  intros Hd Hpos n A.
  destruct (Z.of_nat (length data)) as [|p|p] eqn:Hn; try lia.
  pose proof (formula_points data Hd Hn) as HF. fold A in HF.
  assert (Hsp : specProgress data = (2 * A + n) / (2 * n)).
  { unfold specProgress, Qround_half_up. rewrite (Qfloor_comp _ _ HF).
    subst n. reflexivity. }
  split; [exact Hsp|].
  intro Hm. unfold halfway. rewrite HF, Hsp. subst n.
  pose proof (Z.div_mod (2 * A + Z.pos p) (2 * Z.pos p) ltac:(lia)) as Hdm.
  rewrite Hm in Hdm. unfold Qeq, inject_Z. cbn [Qnum Qden].
  rewrite Pos2Z.inj_mul. lia.
Qed.

(** The progress the dashboard computes for the rows [data]. *)
Lemma subjectEntry_real (subject : jsstring) (data : list DbStudySession) :
  forallb percentProgress data = true ->
  Z.of_nat (length data) <= 1048576 ->
  let p := sp_progress (subjectEntry (A := Binary64) subject data) in
  p = to_float (specProgress data)
  \/ (halfway data /\ p = to_float (specProgress data - 1)).
Proof.
  intros Hd Hlen p. subst p. cbn [sp_progress subjectEntry].
  destruct data as [|r data'] eqn:Ed.
  - left. vm_compute. reflexivity.
  - rewrite <- Ed in *. assert (Hpos : (0 < length data)%nat)
      by (rewrite Ed; cbn; lia).
    destruct (specProgress_points data Hd Hpos) as [-> Hh].
    destruct (percentage_real data Hd Hpos) as [H|[Hm H]].
    + change (2 ^ 20) with 1048576. lia.
    + now left.
    + right. split; [now apply Hh|exact H].
Qed.

Lemma percent_subset (l l' : list DbStudySession) :
  (forall r, In r l' -> In r l) ->
  forallb percentProgress l = true -> forallb percentProgress l' = true.
Proof.
  intros Hsub H. apply forallb_forall. intros r Hr.
  apply (proj1 (forallb_forall _ _) H). now apply Hsub.
Qed.

Lemma filter_length_le (B : Type) (f : B -> bool) (l : list B) :
  (length (filter f l) <= length l)%nat.
Proof.
  induction l as [|x l IH]; [apply Nat.le_refl|].
  cbn. destruct (f x); cbn; lia.
Qed.

(** The entries of a subject after [putEntry]. *)
Lemma putEntry_subject (T : Type) (A : Arith T)
      (e x : SubjectProgress (T := T)) (prev : list SubjectProgress) :
  In x (putEntry e prev) -> sp_subject x = sp_subject e ->
  sp_progress x = sp_progress e /\ totalSessions x = totalSessions e.
Proof.
  unfold putEntry. intros Hin Hs.
  destruct (find (fun p => str_eqb (sp_subject p) (sp_subject e)) prev)
    as [y|] eqn:Ef.
  - apply in_map_iff in Hin as [p [Hp _]].
    destruct (str_eqb (sp_subject p) (sp_subject e)) eqn:Ep.
    + subst x. now split.
    + subst x. apply JsFacts.str_eqb_neq in Ep. contradiction.
  - apply DashboardFacts.firstn_subset in Hin.
    apply DashboardFacts.sortDesc_In in Hin.
    apply in_app_or in Hin as [Hin|[<-|[]]]; [|now split].
    pose proof (find_none _ _ Ef x Hin) as Hne. cbn beta in Hne.
    apply JsFacts.str_eqb_neq in Hne. contradiction.
Qed.

End AggregateFacts.

(** C1 (as amended).  For a store of at most 1048576 sessions, each
    with an integer progress from 0 to 100: the progress the dashboard
    computes for a subject, [Math.round ((sum / n) * 100)] in the
    binary64 arithmetic of the runtime over all the rows of that subject
    read back from the store, is [round (100 * sum / n)], the formula of
    the specification; only where [100 * sum / n] lies exactly halfway
    between two integers it can be one less.  This holds for the
    recomputation after an event and for the first load alike.  After
    the handlers of [session-updated], [session-completed] and
    [session-deleted] every entry shown for the subject of the event
    counts all the stored sessions of that subject and has this
    progress, whatever progress and completion the payload carries.
    The sessions {A: 50, incomplete; B: 100, complete} of one subject
    give 75. *)
Theorem subject_progress_aggregate :
  forall (uid : StudyPlanner.ident) (st : StudyPlanner.store),
    forallb Dashboard.percentProgress (StudyPlanner.rows st) = true ->
    Z.of_nat (length (StudyPlanner.rows st)) <= 1048576 ->
    let shown (data : list StudyPlanner.DbStudySession) (p : float) : Prop :=
      p = JsNum.to_float (Dashboard.specProgress data)
      \/ (Dashboard.halfway data
          /\ p = JsNum.to_float (Dashboard.specProgress data - 1)) in
    (forall subject : Js.jsstring,
        shown (Dashboard.sessionsOf uid subject st)
              (Dashboard.sp_progress
                 (Dashboard.subjectEntry (A := JsNum.Binary64) subject
                    (Dashboard.sessionsOf uid subject st))))
    /\ (forall e : Dashboard.SubjectProgress (T := float),
           In e (Dashboard.progressData (A := JsNum.Binary64)
                   (Dashboard.sessionsData uid st)) ->
           shown (filter (fun r => Js.str_eqb (StudyPlanner.db_subject r)
                                              (Dashboard.sp_subject e))
                         (Dashboard.sessionsData uid st))
                 (Dashboard.sp_progress e))
    /\ (forall (subject : Js.jsstring) (d : Dashboard.state (T := float))
               (upcoming : list Dashboard.Session) (sid : StudyPlanner.ident)
               (p : Js.number) (c : bool)
               (x : Dashboard.SubjectProgress (T := float)),
           In x (Dashboard.studyProgress
                   (Dashboard.run (A := JsNum.Binary64) (Some uid) st true
                      (Dashboard.handleSessionUpdated upcoming sid p c subject)
                      d))
           \/ In x (Dashboard.studyProgress
                      (Dashboard.run (A := JsNum.Binary64) (Some uid) st true
                         (Dashboard.handleSessionCompleted sid subject) d))
           \/ In x (Dashboard.studyProgress
                      (Dashboard.run (A := JsNum.Binary64) (Some uid) st true
                         (Dashboard.handleSessionDeleted sid subject) d)) ->
           Dashboard.sp_subject x = subject ->
           Dashboard.totalSessions x
           = length (Dashboard.sessionsOf uid subject st)
           /\ shown (Dashboard.sessionsOf uid subject st)
                    (Dashboard.sp_progress x))
    /\ Dashboard.sp_progress
         (Dashboard.subjectEntry (A := JsNum.Binary64) (Js.lit "Math")
            (Dashboard.sessionsOf 1%N (Js.lit "Math") Samples.mathStore))
       = 75%float.
Proof.
  intros uid st Hp Hlen shown.
  assert (Hof : forall subject,
             forallb Dashboard.percentProgress
                     (Dashboard.sessionsOf uid subject st) = true
             /\ Z.of_nat (length (Dashboard.sessionsOf uid subject st))
                <= 1048576).
  { intro subject. split.
    - apply (AggregateFacts.percent_subset (StudyPlanner.rows st)); [|exact Hp].
      intros r Hr. now apply filter_In in Hr as [Hr _].
    - pose proof (AggregateFacts.filter_length_le
                    (fun r => (N.eqb (StudyPlanner.db_user_id r) uid
                               && Js.str_eqb (StudyPlanner.db_subject r)
                                             subject)%bool)
                    (StudyPlanner.rows st)) as Hl.
      unfold Dashboard.sessionsOf. lia. }
  assert (H1 : forall subject : Js.jsstring,
             shown (Dashboard.sessionsOf uid subject st)
                   (Dashboard.sp_progress
                      (Dashboard.subjectEntry (A := JsNum.Binary64) subject
                         (Dashboard.sessionsOf uid subject st)))).
  { intro subject. destruct (Hof subject) as [Hd Hl].
    exact (AggregateFacts.subjectEntry_real subject _ Hd Hl). }
  split; [exact H1|]. split; [|split].
  - intros e He.
    pose proof (DashboardFacts.progressData_entry _ _ He) as Ee.
    apply (f_equal (Dashboard.sp_progress (T := float))) in Ee.
    unfold shown. rewrite Ee.
    apply AggregateFacts.subjectEntry_real.
    + apply (AggregateFacts.percent_subset (StudyPlanner.rows st)); [|exact Hp].
      intros r Hr. apply filter_In in Hr as [Hr _].
      unfold Dashboard.sessionsData in Hr.
      apply OrderFacts.orderAsc_In in Hr. now apply filter_In in Hr as [Hr _].
    + pose proof (AggregateFacts.filter_length_le
                    (fun r => Js.str_eqb (StudyPlanner.db_subject r)
                                         (Dashboard.sp_subject e))
                    (Dashboard.sessionsData uid st)) as Hl1.
      unfold Dashboard.sessionsData in *.
      rewrite OrderFacts.orderAsc_length in Hl1.
      pose proof (AggregateFacts.filter_length_le
                    (fun r => N.eqb (StudyPlanner.db_user_id r) uid)
                    (StudyPlanner.rows st)) as Hl2.
      lia.
  - intros subject d upcoming sid p c x Hin Hs.
    rewrite DashboardFacts.run_updated, DashboardFacts.run_completed,
      DashboardFacts.run_deleted in Hin.
    assert (Hx : In x (Dashboard.putEntry (A := JsNum.Binary64)
                         (Dashboard.subjectEntry (A := JsNum.Binary64) subject
                            (Dashboard.sessionsOf uid subject st))
                         (Dashboard.studyProgress d)))
      by (destruct Hin as [H|[H|H]]; exact H).
    destruct (@AggregateFacts.putEntry_subject _ _ _ _ _ Hx) as [Epr Etot].
    + exact Hs.
    + split; [exact Etot|]. rewrite Epr. apply H1.
  - vm_compute. reflexivity.
Qed.

(** C1 at the sessions of "Math" in [mathStore]. *)
Lemma subject_progress_aggregate_witness :
  let data := Dashboard.sessionsOf 1%N (Js.lit "Math") Samples.mathStore in
  let p := Dashboard.sp_progress
             (Dashboard.subjectEntry (A := JsNum.Binary64) (Js.lit "Math")
                data) in
  p = JsNum.to_float (Dashboard.specProgress data)
  \/ (Dashboard.halfway data
      /\ p = JsNum.to_float (Dashboard.specProgress data - 1)).
Proof.
  intros data p.
  apply (proj1 (@subject_progress_aggregate 1%N Samples.mathStore eq_refl
                  ltac:(intro H; discriminate H))
               (Js.lit "Math")).
Defined.

(** C1, the claim as written fails in the arithmetic the code runs: for
    {A: 15, incomplete; B: complete} the sum is [0.15 + 1], which
    binary64 rounds below 1.15, so the dashboard shows 57 where
    [round (100 * 1.15 / 2)] is 58. *)
Lemma subject_progress_binary64_differs :
  let data := Dashboard.sessionsOf 1%N (Js.lit "Physics")
                Samples.physicsStore in
  Dashboard.sp_progress
    (Dashboard.subjectEntry (A := JsNum.Binary64) (Js.lit "Physics") data)
  = 57%float
  /\ Dashboard.specProgress data = 58.
Proof. split; vm_compute; reflexivity. Qed.

(* ================================================================== *)
(** * Properties: completing, deleting and restoring a session *)
(* ================================================================== *)

Module SessionFacts.
Import Js JsNum StudyPlanner Dashboard.

Lemma not_in_removed (sid : ident) (l : list Session) (x : Session) :
  In x (filter (fun session => negb (N.eqb (s_id session) sid)) l) ->
  s_id x <> sid.
Proof.
  intro H. apply filter_In in H as [_ H].
  apply negb_true_iff in H. now apply N.eqb_neq.
Qed.

End SessionFacts.

(** C2.  After a successful [markSessionComplete] every session with
    that identifier has progress 100 and is completed, in the component
    state and in the store, where its row is still present and every
    other session and row is as it was; the event [session-completed]
    goes out with the identifier.  The dashboard's handler of that event
    issues, before the recomputation of the subject, the state update
    that takes exactly the sessions with that identifier out of the
    upcoming list: the list is the previous one without them, in the
    same order, when the aggregate is recomputed and when the handler
    has finished. *)
Theorem markSessionComplete_then_dashboard :
  forall (uid : StudyPlanner.ident) (sessions : list StudyPlanner.StudySession)
         (st : StudyPlanner.store) (sid : StudyPlanner.ident),
    let o := StudyPlanner.markSessionComplete (Some uid) sessions st true sid in
    let without (l : list Dashboard.Session) :=
      filter (fun x => negb (N.eqb (Dashboard.s_id x) sid)) l in
    (map StudyPlanner.id (StudyPlanner.studySessions o)
     = map StudyPlanner.id sessions
     /\ forall s, In s sessions ->
          (StudyPlanner.id s = sid ->
           In (StudyPlanner.withProgress s (Js.Int 100) true)
              (StudyPlanner.studySessions o))
          /\ (StudyPlanner.id s <> sid ->
              In s (StudyPlanner.studySessions o)))
    /\ (forall s', In s' (StudyPlanner.studySessions o) ->
                   StudyPlanner.id s' = sid ->
                   StudyPlanner.progress s' = Js.Int 100
                   /\ StudyPlanner.completed s' = true)
    /\ (map StudyPlanner.db_id (StudyPlanner.rows (StudyPlanner.db o))
        = map StudyPlanner.db_id (StudyPlanner.rows st)
        /\ (forall r, In r (StudyPlanner.rows st) ->
              StudyPlanner.db_id r <> sid ->
              In r (StudyPlanner.rows (StudyPlanner.db o)))
        /\ (forall r, In r (StudyPlanner.rows (StudyPlanner.db o)) ->
              StudyPlanner.db_id r = sid ->
              StudyPlanner.decodeProgress (StudyPlanner.db_progress r)
                = Js.Int 100
              /\ StudyPlanner.decodeCompleted (StudyPlanner.db_completed r)
                 = true))
    /\ (exists subject,
           StudyPlanner.sent o = [StudyPlanner.SessionCompleted sid subject])
    /\ (forall (subject : Js.jsstring) (user : option StudyPlanner.ident)
               (ok : bool) (d : Dashboard.state (T := float)),
           exists before after,
             Dashboard.handleSessionCompleted sid subject
               = before ++ Dashboard.Recompute subject :: after
             /\ ~ In (Dashboard.Recompute subject) before
             /\ Dashboard.upcomingStudySessions
                  (Dashboard.run (A := JsNum.Binary64) user st ok before d)
                = without (Dashboard.upcomingStudySessions d)
             /\ Dashboard.studyProgress
                  (Dashboard.run (A := JsNum.Binary64) user st ok before d)
                = Dashboard.studyProgress d
             /\ Dashboard.upcomingStudySessions
                  (Dashboard.run (A := JsNum.Binary64) user
                     (StudyPlanner.db o) ok
                     (Dashboard.handleSessionCompleted sid subject) d)
                = without (Dashboard.upcomingStudySessions d)
             /\ (forall x, In x (without (Dashboard.upcomingStudySessions d))
                           <-> In x (Dashboard.upcomingStudySessions d)
                               /\ Dashboard.s_id x <> sid)).
Proof.
  intros uid sessions st sid o without. subst o.
  cbn [StudyPlanner.markSessionComplete].
  cbn [StudyPlanner.studySessions StudyPlanner.db StudyPlanner.sent].
  split; [|split; [|split; [|split]]].
  - split.
    + rewrite map_map. apply map_ext. intro s.
      now destruct (N.eqb (StudyPlanner.id s) sid).
    + intros s Hin. split; intro Hid; apply in_map_iff; exists s;
        (split; [|exact Hin]).
      * apply N.eqb_eq in Hid. now rewrite Hid.
      * apply N.eqb_neq in Hid. now rewrite Hid.
  - intros s' Hin Hid. eapply PlannerFacts.updated_session; eauto.
  - split; [|split].
    + cbn [StudyPlanner.updateRow StudyPlanner.rows]. rewrite map_map.
      apply map_ext. intro r.
      now destruct (N.eqb (StudyPlanner.db_id r) sid).
    + intros r Hin Hid. cbn [StudyPlanner.updateRow StudyPlanner.rows].
      apply in_map_iff. exists r. split; [|exact Hin].
      apply N.eqb_neq in Hid. now rewrite Hid.
    + intros r Hin Hid.
      destruct (@PlannerFacts.updated_row _ _ _ _ _ Hin Hid) as [-> ->].
      split; reflexivity.
  - eexists. reflexivity.
  - intros subject user ok d.
    exists [Dashboard.SetUpcoming
              (fun prev =>
                 filter (fun session =>
                           negb (N.eqb (Dashboard.s_id session) sid)) prev);
            Dashboard.SetUpdating (Some subject)],
           [Dashboard.SetUpdating None; Dashboard.Notify "Session completed"].
    split; [reflexivity|]. split.
    { intros [H|[H|[]]]; discriminate. }
    split; [reflexivity|]. split; [reflexivity|]. split.
    + cbn. destruct user as [u|]; [destruct ok|]; reflexivity.
    + intro x. subst without. cbn beta. rewrite filter_In.
      rewrite negb_true_iff, N.eqb_neq. reflexivity.
Qed.

(** C3 at a browser in UTC-05:00: the session deleted was on 2024-03-10
    (day 19792), the restored one is on day 19791; its other fields are
    those of the deleted session and its identifier is new. *)
Theorem undo_west_of_greenwich_changes_date :
  exists o r,
    StudyPlanner.deleteThenUndo Samples.newYork
      [Samples.sampleSession] Samples.sampleStore 7%N
    = Some (Samples.sampleSession, o)
    /\ StudyPlanner.restored o = Some r
    /\ StudyPlanner.date Samples.sampleSession = StudyPlanner.newDate 19792
    /\ StudyPlanner.date r = StudyPlanner.newDate 19791
    /\ StudyPlanner.date r <> StudyPlanner.date Samples.sampleSession
    /\ StudyPlanner.subject r = StudyPlanner.subject Samples.sampleSession
    /\ StudyPlanner.topic r = StudyPlanner.topic Samples.sampleSession
    /\ StudyPlanner.duration r = StudyPlanner.duration Samples.sampleSession
    /\ StudyPlanner.notes r = StudyPlanner.notes Samples.sampleSession
    /\ StudyPlanner.progress r = StudyPlanner.progress Samples.sampleSession
    /\ StudyPlanner.completed r = StudyPlanner.completed Samples.sampleSession
    /\ StudyPlanner.id r <> StudyPlanner.id Samples.sampleSession.
Proof.
  eexists. eexists. split; [reflexivity|]. split; [reflexivity|].
  repeat split; try reflexivity; vm_compute; discriminate.
Qed.

(** The same undo at a browser in UTC+05:30 gives the date back. *)
Remark undo_east_of_greenwich_keeps_date :
  exists o r,
    StudyPlanner.deleteThenUndo Samples.kolkata
      [Samples.sampleSession] Samples.sampleStore 7%N
    = Some (Samples.sampleSession, o)
    /\ StudyPlanner.restored o = Some r
    /\ StudyPlanner.date r = StudyPlanner.date Samples.sampleSession
    /\ StudyPlanner.id r <> StudyPlanner.id Samples.sampleSession.
Proof.
  eexists. eexists. split; [reflexivity|]. split; [reflexivity|].
  split; [reflexivity|]. vm_compute. discriminate.
Qed.

(** The Undo button calls the handler of the render in which the
    session was deleted, whose list still holds it: after the undo the
    component lists the deleted session and the restored one. *)
Remark undo_lists_the_deleted_session_again :
  exists o,
    StudyPlanner.deleteThenUndo Samples.kolkata
      [Samples.sampleSession] Samples.sampleStore 7%N
    = Some (Samples.sampleSession, o)
    /\ map StudyPlanner.id (StudyPlanner.studySessions o) = [7%N; 8%N]
    /\ map StudyPlanner.db_id (StudyPlanner.rows (StudyPlanner.db o)) = [8%N].
Proof. eexists. split; [reflexivity|]. split; reflexivity. Qed.

(** C4 (as amended).  Both handlers write progress and completion
    together: [updateSessionProgress] leaves the session and its row
    with the progress given and [completed = (progress >= 100)],
    [markSessionComplete] with progress 100 and [completed = true].
    Hence for a progress between 0 and 100, as the slider delivers, the
    session is completed after either handler exactly when its progress
    is 100. *)
Theorem progress_and_completed_move_together :
  forall (uid : StudyPlanner.ident) (sessions : list StudyPlanner.StudySession)
         (st : StudyPlanner.store) (sid : StudyPlanner.ident) (z : Z),
    0 <= z <= 100 ->
    let o1 := StudyPlanner.updateSessionProgress (Some uid) sessions st true
                sid (Js.Int z) in
    let o2 := StudyPlanner.markSessionComplete (Some uid) sessions st true sid in
    (forall s', In s' (StudyPlanner.studySessions o1) ->
                StudyPlanner.id s' = sid ->
                StudyPlanner.progress s' = Js.Int z
                /\ StudyPlanner.completed s' = (100 <=? z)
                /\ (StudyPlanner.completed s' = true
                    <-> StudyPlanner.progress s' = Js.Int 100))
    /\ (forall r, In r (StudyPlanner.rows (StudyPlanner.db o1)) ->
                  StudyPlanner.db_id r = sid ->
                  StudyPlanner.decodeProgress (StudyPlanner.db_progress r)
                    = Js.Int z
                  /\ StudyPlanner.decodeCompleted (StudyPlanner.db_completed r)
                     = (100 <=? z))
    /\ (forall s', In s' (StudyPlanner.studySessions o2) ->
                   StudyPlanner.id s' = sid ->
                   StudyPlanner.progress s' = Js.Int 100
                   /\ StudyPlanner.completed s' = true).
Proof.
  intros uid sessions st sid z Hz o1 o2. subst o1 o2.
  cbn [StudyPlanner.updateSessionProgress StudyPlanner.markSessionComplete].
  cbn [StudyPlanner.studySessions StudyPlanner.db].
  split; [|split].
  - intros s' Hin Hid.
    destruct (@PlannerFacts.updated_session _ _ _ _ _ Hin Hid) as [Hp Hc].
    rewrite Hp, Hc. cbn [Js.geb]. split; [reflexivity|]. split; [reflexivity|].
    split.
    + intro H. apply Z.leb_le in H. f_equal. lia.
    + intro H. injection H as ->. reflexivity.
  - intros r Hin Hid.
    destruct (@PlannerFacts.updated_row _ _ _ _ _ Hin Hid) as [-> ->].
    split.
    + apply PlannerFacts.decode_written_progress.
    + apply PlannerFacts.decode_written_completed.
  - intros s' Hin Hid. eapply PlannerFacts.updated_session; eauto.
Qed.

(** C4 for the slider at 100 on the sample session. *)
Lemma progress_and_completed_witness :
  0 <= 100 <= 100
  /\ exists s',
       In s' (StudyPlanner.studySessions
                (StudyPlanner.updateSessionProgress (Some 1%N)
                   [Samples.sampleSession] Samples.sampleStore true
                   7%N (Js.Int 100)))
       /\ StudyPlanner.id s' = 7%N
       /\ StudyPlanner.progress s' = Js.Int 100
       /\ StudyPlanner.completed s' = true.
Proof.
  assert (Hz : 0 <= 100 <= 100) by lia.
  split; [exact Hz|].
  exists (StudyPlanner.withProgress Samples.sampleSession (Js.Int 100) true).
  assert (Hin : In (StudyPlanner.withProgress Samples.sampleSession
                      (Js.Int 100) true)
                   (StudyPlanner.studySessions
                      (StudyPlanner.updateSessionProgress (Some 1%N)
                         [Samples.sampleSession] Samples.sampleStore
                         true 7%N (Js.Int 100))))
    by (left; reflexivity).
  split; [exact Hin|]. split; [reflexivity|].
  destruct (proj1 (@progress_and_completed_move_together 1%N
                     [Samples.sampleSession] Samples.sampleStore 7%N
                     100 Hz) _ Hin eq_refl) as (Hp & Hc & _).
  split; [exact Hp|exact Hc].
Defined.

(** C4, the claim as written fails: neither handler, whatever number the
    slider hands over, leaves a session at progress 100 that is not
    completed. *)
Lemma no_handler_sets_100_without_completed :
  ~ exists (m : Samples.mutation) (uid : StudyPlanner.ident)
           (sessions : list StudyPlanner.StudySession)
           (st : StudyPlanner.store) (sid : StudyPlanner.ident)
           (s' : StudyPlanner.StudySession),
      In s' (StudyPlanner.studySessions (Samples.mutate m uid sessions st sid))
      /\ StudyPlanner.id s' = sid
      /\ StudyPlanner.progress s' = Js.Int 100
      /\ StudyPlanner.completed s' = false.
Proof.
  intros (m & uid & sessions & st & sid & s' & Hin & Hid & Hp & Hc).
  destruct m as [p|]; cbn in Hin;
    destruct (@PlannerFacts.updated_session _ _ _ _ _ Hin Hid) as [Hp' Hc'].
  - rewrite Hp' in Hp. subst p. rewrite Hc' in Hc. discriminate.
  - rewrite Hc' in Hc. discriminate.
Qed.

(* ================================================================== *)
(** * Properties: the doubt solver *)
(* ================================================================== *)

Module DoubtFacts.
Import Js Order DoubtSolver OrderFacts.

(** Rows in non-decreasing order of their timestamps. *)
Fixpoint rowsAscending (l : list MessageRow) : Prop :=
  match l with
  | [] => True
  | m :: l' =>
      match l' with
      | [] => True
      | m' :: _ => m_timestamp m <= m_timestamp m'
      end /\ rowsAscending l'
  end.

Lemma insertAsc_ascending (x : MessageRow) (l : list MessageRow) :
  rowsAscending l -> rowsAscending (insertAsc m_timestamp x l).
Proof.
  induction l as [|y l IH]; intro H; cbn [insertAsc].
  - cbn. auto.
  - destruct (Z.ltb_spec (m_timestamp y) (m_timestamp x)) as [Hlt|Hge].
    + cbn [rowsAscending] in H. destruct H as [Hhd Htl].
      specialize (IH Htl).
      destruct l as [|z l].
      * cbn. repeat split; lia.
      * cbn [insertAsc] in *.
        destruct (Z.ltb_spec (m_timestamp z) (m_timestamp x));
          cbn [rowsAscending] in *; repeat split; try lia; tauto.
    + cbn [rowsAscending]. split; [lia|exact H].
Qed.

Lemma orderAsc_ascending (l : list MessageRow) :
  rowsAscending (orderAsc m_timestamp l).
Proof.
  induction l as [|x l IH]; [exact I|].
  unfold orderAsc in *. cbn [fold_right]. now apply insertAsc_ascending.
Qed.

Lemma ascending_map (l : list MessageRow) :
  rowsAscending l -> ascending (map toMessage l).
Proof.
  induction l as [|x l IH]; [auto|].
  cbn [map rowsAscending ascending]. intros [H1 H2]. split; [|auto].
  destruct l; [exact I|exact H1].
Qed.

(** What [fetchDoubts] loads for a doubt is in timestamp order. *)
Lemma messagesOf_ascending (did : ident) (st : store) :
  ascending (messagesOf did st).
Proof. apply ascending_map, orderAsc_ascending. Qed.

Lemma messagesOf_In (did : ident) (st : store) (m : Message) :
  In m (messagesOf did st) ->
  exists r, In r (messageRows st) /\ m_doubt_id r = did /\ m = toMessage r.
Proof.
  unfold messagesOf. intro H. apply in_map_iff in H as [r [<- H]].
  apply orderAsc_In in H. apply filter_In in H as [H1 H2].
  exists r. repeat split; [exact H1|now apply N.eqb_eq].
Qed.

Lemma messagesOf_nonempty (did : ident) (st : store) :
  (exists r, In r (messageRows st) /\ m_doubt_id r = did) ->
  messagesOf did st <> [].
Proof.
  intros [r [Hin Hid]] E. apply (f_equal (@length _)) in E.
  unfold messagesOf in E. rewrite length_map, orderAsc_length in E.
  assert (Hf : In r (filter (fun m => N.eqb (m_doubt_id m) did)
                            (messageRows st)))
    by (apply filter_In; split; [exact Hin|now apply N.eqb_eq]).
  destruct (filter _ _); [contradiction|discriminate].
Qed.

(** ** Appending at the end *)

Lemma ascending_app (l : list Message) (m : Message) :
  ascending l ->
  (forall x, In x l -> timestamp x <= timestamp m) ->
  ascending (l ++ [m]).
Proof.
  induction l as [|x l IH]; intros Hs Hb; [cbn; auto|].
  cbn [app ascending] in *. destruct Hs as [H1 H2]. split.
  - destruct l as [|y l]; cbn [app]; [apply Hb; now left|exact H1].
  - apply IH; [exact H2|]. intros z Hz. apply Hb. now right.
Qed.

(** ** The invariant *)

(** A doubt whose messages are in order and not from the future. *)
Definition goodDoubt (c : Z) (d : Doubt) : Prop :=
  ascending (messages d) /\ forall m, In m (messages d) -> timestamp m <= c.

Definition goodView (c : Z) (v : view) : Prop :=
  forall d, held v d -> goodDoubt c d.

Definition goodStore (st : store) : Prop :=
  forall r, In r (messageRows st) -> m_timestamp r <= clock st.

Definition good (w : world) : Prop :=
  goodStore (w_store w) /\ goodView (clock (w_store w)) (w_view w).

Lemma goodDoubt_mono (c c' : Z) (d : Doubt) :
  c <= c' -> goodDoubt c d -> goodDoubt c' d.
Proof.
  intros Hc [H1 H2]. split; [exact H1|].
  intros m Hm. specialize (H2 m Hm). lia.
Qed.

Lemma goodView_mono (c c' : Z) (v : view) :
  c <= c' -> goodView c v -> goodView c' v.
Proof. intros Hc H d Hd. eapply goodDoubt_mono; eauto. Qed.

Lemma later_clock (r : reply) (st : store) : clock st <= clock (later r st).
Proof. cbn. lia. Qed.

Lemma goodStore_later (r : reply) (st : store) :
  goodStore st -> goodStore (later r st).
Proof. intros H x Hx. specialize (H x Hx). cbn in *. lia. Qed.

Lemma goodStore_insertMessage (did : ident) (c s : jsstring) (st : store) :
  goodStore st -> goodStore (snd (insertMessage did c s st)).
Proof.
  intros H x Hx. cbn in *. apply in_app_iff in Hx as [Hx|[<-|[]]].
  - now apply H.
  - cbn. lia.
Qed.

Lemma goodStore_insertDoubt (q : jsstring) (uid : ident) (s : jsstring)
      (st : store) :
  goodStore st -> goodStore (snd (insertDoubt q uid s st)).
Proof. intros H x Hx. cbn in *. now apply H. Qed.

Lemma goodDoubt_append (c : Z) (d : Doubt) (m : Message) :
  goodDoubt c d -> timestamp m = c ->
  goodDoubt c (withMessages d (messages d ++ [m])).
Proof.
  intros [H1 H2] Hm. split; cbn [messages withMessages].
  - apply ascending_app; [exact H1|]. intros x Hx. rewrite Hm. now apply H2.
  - intros x Hx. apply in_app_iff in Hx as [Hx|[<-|[]]]; [now apply H2|lia].
Qed.

Lemma held_replace (u : Doubt) (l : list Doubt) (d : Doubt) :
  held {| doubts := replaceDoubt u l; selectedDoubt := Some u |} d ->
  d = u \/ In d l.
Proof.
  intros [H|H]; cbn in H.
  - unfold replaceDoubt in H. apply in_map_iff in H as [x [Hx Hin]].
    destruct (N.eqb (doubt_id x) (doubt_id u)); subst; auto.
  - injection H as <-. now left.
Qed.

Lemma goodView_replace (c : Z) (u : Doubt) (v : view) :
  goodDoubt c u -> goodView c v ->
  goodView c {| doubts := replaceDoubt u (doubts v); selectedDoubt := Some u |}.
Proof.
  intros Hu Hv d Hd. apply held_replace in Hd as [->|Hd]; [exact Hu|].
  apply Hv. now left.
Qed.

(** The [catch] block keeps the invariant. *)
Lemma good_apologise (closure v : view) (st : store) (r : reply) :
  goodStore st -> goodView (clock st) closure -> goodView (clock st) v ->
  let (v', st') := apologise closure v st r in
  goodStore st' /\ goodView (clock st') v' /\ clock st <= clock st'.
Proof.
  intros Hs Hc Hv. unfold apologise.
  destruct (selectedDoubt closure) as [selected|] eqn:Esel;
    [|split; [exact Hs|split; [exact Hv|lia]]].
  pose proof (later_clock r st) as Hl.
  destruct (ok r).
  - cbn [insertMessage]. split; [|split].
    + apply (goodStore_insertMessage (doubt_id selected) apology (lit "ai")).
      now apply goodStore_later.
    + cbn [clock]. apply goodView_replace.
      * apply goodDoubt_append; [|reflexivity].
        apply (goodDoubt_mono (c := clock st)); [exact Hl|].
        apply Hc. right. exact Esel.
      * eapply goodView_mono; eauto.
    + exact Hl.
  - split; [|split].
    + now apply goodStore_later.
    + eapply goodView_mono; eauto.
    + exact Hl.
Qed.

Definition goodPair (p : view * store) : Prop :=
  goodStore (snd p) /\ goodView (clock (snd p)) (fst p).

Lemma goodPair_apologise (closure v : view) (st : store) (r : reply) :
  goodStore st -> goodView (clock st) closure -> goodView (clock st) v ->
  goodPair (apologise closure v st r).
Proof.
  intros Hs Hc Hv. pose proof (good_apologise r Hs Hc Hv) as H.
  destruct (apologise closure v st r). unfold goodPair. cbn. tauto.
Qed.

Lemma goodView_later (r : reply) (st : store) (v : view) :
  goodView (clock st) v -> goodView (clock (later r st)) v.
Proof. apply goodView_mono, later_clock. Qed.

(** A doubt with the single message just inserted. *)
Lemma goodDoubt_single (c : Z) (d : Doubt) (m : Message) :
  messages d = [m] -> timestamp m = c -> goodDoubt c d.
Proof.
  intros Hd Hm. split; rewrite Hd.
  - cbn. auto.
  - intros x [<-|[]]. lia.
Qed.

Lemma goodView_cons (c : Z) (d : Doubt) (v : view) :
  goodDoubt c d -> goodView c v ->
  goodView c {| doubts := d :: doubts v; selectedDoubt := Some d |}.
Proof.
  intros Hd Hv x [[<-|Hx]|Hx]; cbn in *.
  - exact Hd.
  - apply Hv. now left.
  - injection Hx as <-. exact Hd.
Qed.

Lemma goodPair_submit (user : option ident) (q : jsstring) (closure : view)
      (st : store) (r1 r2 : reply) (answer : option jsstring) (r3 r4 : reply) :
  goodStore st -> goodView (clock st) closure ->
  goodPair (handleSubmitQuestion user q closure st r1 r2 answer r3 r4).
Proof.
  intros Hs Hv. unfold handleSubmitQuestion.
  destruct (truthy_str (trim q)); [|split; assumption].
  destruct user as [uid|]; [|split; assumption].
  pose proof (goodStore_later r1 Hs) as Hs1.
  pose proof (goodView_later r1 _ Hv) as Hv1.
  destruct (ok r1); [|now apply goodPair_apologise].
  cbn [insertDoubt].
  set (st2 := {| doubtRows := _ |}).
  assert (Hs2 : goodStore st2) by exact Hs1.
  assert (Hv2 : goodView (clock st2) closure) by exact Hv1.
  clearbody st2. clear Hs Hv Hs1 Hv1.
  pose proof (goodStore_later r2 Hs2) as Hs3.
  pose proof (goodView_later r2 _ Hv2) as Hv3.
  destruct (ok r2); [|now apply goodPair_apologise].
  cbn [insertMessage].
  set (st4 := {| doubtRows := doubtRows (later r2 st2) |}).
  set (newDoubt := {| doubt_id := _ |}).
  assert (Hs4 : goodStore st4)
    by (apply (goodStore_insertMessage (nextId st) q (lit "user") Hs3)).
  assert (Hv4 : goodView (clock st4) closure) by exact Hv3.
  assert (Hn : goodDoubt (clock st4) newDoubt)
    by (eapply goodDoubt_single; reflexivity).
  assert (Hv1 : goodView (clock st4)
                  {| doubts := newDoubt :: doubts closure;
                     selectedDoubt := Some newDoubt |})
    by (now apply goodView_cons).
  clearbody st4. clear Hs2 Hv2 Hs3 Hv3.
  destruct answer as [text|]; [|now apply goodPair_apologise].
  pose proof (goodStore_later r3 Hs4) as Hs5.
  destruct (ok r3).
  - cbn [insertMessage]. split.
    + apply (goodStore_insertMessage (nextId st) text (lit "ai") Hs5).
    + cbn [fst snd clock]. apply goodView_replace.
      * apply goodDoubt_append; [|reflexivity].
        eapply goodDoubt_mono; [apply (later_clock r3)|exact Hn].
      * now apply goodView_later.
  - apply goodPair_apologise; [exact Hs5| |]; now apply goodView_later.
Qed.

Lemma goodPair_send (user : option ident) (m : jsstring) (closure : view)
      (st : store) (r1 : reply) (answer : option jsstring) (r2 r3 : reply) :
  goodStore st -> goodView (clock st) closure ->
  goodPair (handleSendMessage user m closure st r1 answer r2 r3).
Proof.
  intros Hs Hv. unfold handleSendMessage.
  destruct (truthy_str (trim m)); [|split; assumption].
  destruct (selectedDoubt closure) as [selected|] eqn:Esel;
    [|split; assumption].
  destruct user as [uid|]; [|split; assumption].
  assert (Hsel : goodDoubt (clock st) selected) by (apply Hv; now right).
  pose proof (goodStore_later r1 Hs) as Hs1.
  pose proof (goodView_later r1 _ Hv) as Hv1.
  destruct (ok r1); [|now apply goodPair_apologise].
  cbn [insertMessage].
  set (st2 := {| doubtRows := doubtRows (later r1 st) |}).
  set (updatedDoubt := withMessages selected _).
  assert (Hs2 : goodStore st2)
    by (apply (goodStore_insertMessage (doubt_id selected) m (lit "user") Hs1)).
  assert (Hv2 : goodView (clock st2) closure) by exact Hv1.
  assert (Hu : goodDoubt (clock st2) updatedDoubt).
  { apply goodDoubt_append; [|reflexivity].
    eapply goodDoubt_mono; [apply (later_clock r1)|exact Hsel]. }
  assert (Hv1' : goodView (clock st2)
                   {| doubts := replaceDoubt updatedDoubt (doubts closure);
                      selectedDoubt := Some updatedDoubt |})
    by (now apply goodView_replace).
  clearbody st2 updatedDoubt. clear Hs Hv Hs1 Hv1 Hsel.
  destruct answer as [text|]; [|now apply goodPair_apologise].
  pose proof (goodStore_later r2 Hs2) as Hs3.
  destruct (ok r2).
  - cbn [insertMessage]. split.
    + apply (goodStore_insertMessage (doubt_id selected) text (lit "ai") Hs3).
    + cbn [fst snd clock]. apply goodView_replace.
      * apply goodDoubt_append; [|reflexivity].
        eapply goodDoubt_mono; [apply (later_clock r2)|exact Hu].
      * now apply goodView_later.
  - apply goodPair_apologise; [exact Hs3| |]; now apply goodView_later.
Qed.

Lemma goodDoubt_solved (c : Z) (d : Doubt) :
  goodDoubt c d -> goodDoubt c (withSolved d).
Proof. intro H. exact H. Qed.

Lemma goodPair_solve (id : ident) (closure : view) (st : store) (r : reply) :
  goodStore st -> goodView (clock st) closure ->
  goodPair (markAsSolved id closure st r).
Proof.
  intros Hs Hv. unfold markAsSolved.
  pose proof (goodStore_later r Hs) as Hs1.
  pose proof (goodView_later r _ Hv) as Hv1.
  destruct (ok r); [|split; assumption].
  split; [exact Hs1|]. cbn [fst snd solveDoubt clock].
  intros d [Hd|Hd]; cbn in Hd.
  - apply in_map_iff in Hd as [x [Hx Hin]].
    assert (Hg : goodDoubt (clock (later r st)) x) by (apply Hv1; now left).
    destruct (N.eqb (doubt_id x) id); subst d; [now apply goodDoubt_solved|exact Hg].
  - destruct (selectedDoubt closure) as [selected|] eqn:Esel; [|discriminate].
    assert (Hg : goodDoubt (clock (later r st)) selected)
      by (apply Hv1; now right).
    destruct (N.eqb (doubt_id selected) id); injection Hd as <-;
      [now apply goodDoubt_solved|exact Hg].
Qed.

Lemma goodDoubt_load (st : store) (row : DoubtRow) :
  goodStore st -> goodDoubt (clock st) (loadDoubt st row).
Proof.
  intro Hs. split; cbn [messages loadDoubt].
  - apply messagesOf_ascending.
  - intros m Hm. apply messagesOf_In in Hm as [r [Hr [_ ->]]].
    cbn. now apply Hs.
Qed.

Lemma goodView_fetch (user : option ident) (v : view) (st : store)
      (answers : bool) :
  goodStore st -> goodView (clock st) v ->
  goodView (clock st) (fetchDoubts user v st answers).
Proof.
  intros Hs Hv. unfold fetchDoubts.
  destruct user as [uid|]; [|exact Hv].
  destruct answers; [|exact Hv].
  set (loaded := map (loadDoubt st) _).
  assert (Hl : forall d, In d loaded -> goodDoubt (clock st) d).
  { intros d Hd. apply in_map_iff in Hd as [row [<- _]].
    now apply goodDoubt_load. }
  intros d [Hd|Hd]; cbn in Hd; [now apply Hl|].
  destruct loaded as [|first rest].
  - apply Hv. now right.
  - destruct (selectedDoubt v) as [selected|] eqn:Esel.
    + apply Hv. right. now rewrite Esel.
    + injection Hd as <-. apply Hl. now left.
Qed.

Lemma goodView_select (c : Z) (n : nat) (v : view) :
  goodView c v -> goodView c (selectDoubt n v).
Proof.
  intro Hv. unfold selectDoubt.
  destruct (nth_error (doubts v) n) as [doubt|] eqn:E; [|exact Hv].
  apply nth_error_In in E.
  intros d [Hd|Hd]; cbn in Hd.
  - apply Hv. now left.
  - injection Hd as <-. apply Hv. now left.
Qed.

Lemma good_perform (user : option ident) (w : world) (a : action) :
  good w -> good (perform user w a).
Proof.
  intros [Hs Hv]. destruct a as [answers|q r1 r2 answer r3 r4|m r1 answer r2 r3|id r|n];
    cbn [perform].
  - split; [exact Hs|]. now apply goodView_fetch.
  - pose proof (goodPair_submit user q r1 r2 answer r3 r4 Hs Hv) as H.
    destruct (handleSubmitQuestion _ _ _ _ _ _ _ _ _). exact H.
  - pose proof (goodPair_send user m r1 answer r2 r3 Hs Hv) as H.
    destruct (handleSendMessage _ _ _ _ _ _ _ _). exact H.
  - pose proof (goodPair_solve id r Hs Hv) as H.
    destruct (markAsSolved _ _ _ _). exact H.
  - split; [exact Hs|]. now apply goodView_select.
Qed.

Lemma good_fold (user : option ident) (l : list action) (w : world) :
  good w -> good (fold_left (perform user) l w).
Proof.
  revert w. induction l as [|a l IH]; intros w Hw; [exact Hw|].
  cbn [fold_left]. apply IH. now apply good_perform.
Qed.

Lemma good_initial : good initial.
Proof.
  split.
  - intros r [].
  - intros d [[]|H]; discriminate.
Qed.

(** ** Doubts and their first message *)

(** Every doubt of the store has a message. *)
Definition wholeStore (st : store) : Prop :=
  forall d, In d (doubtRows st) ->
            exists r, In r (messageRows st) /\ m_doubt_id r = d_id d.

Definition nonEmptyView (v : view) : Prop :=
  forall d, held v d -> messages d <> [].

Definition wholePair (p : view * store) : Prop :=
  wholeStore (snd p) /\ nonEmptyView (fst p).

Lemma wholeStore_later (r : reply) (st : store) :
  wholeStore st -> wholeStore (later r st).
Proof. intro H. exact H. Qed.

Lemma wholeStore_insertMessage (did : ident) (c s : jsstring) (st : store) :
  wholeStore st -> wholeStore (snd (insertMessage did c s st)).
Proof.
  intros H d Hd. destruct (H d Hd) as [r [Hr Hid]].
  exists r. split; [|exact Hid]. cbn. apply in_app_iff. now left.
Qed.

Lemma app_single_nonempty (A : Type) (l : list A) (x : A) : l ++ [x] <> [].
Proof. destruct l; discriminate. Qed.

Lemma nonEmptyView_replace (u : Doubt) (v : view) :
  messages u <> [] -> nonEmptyView v ->
  nonEmptyView {| doubts := replaceDoubt u (doubts v);
                  selectedDoubt := Some u |}.
Proof.
  intros Hu Hv d Hd. apply held_replace in Hd as [->|Hd]; [exact Hu|].
  apply Hv. now left.
Qed.

Lemma wholePair_apologise (closure v : view) (st : store) (r : reply) :
  wholeStore st -> nonEmptyView closure -> nonEmptyView v ->
  wholePair (apologise closure v st r).
Proof.
  intros Hs Hc Hv. unfold apologise.
  destruct (selectedDoubt closure) as [selected|]; [|split; assumption].
  destruct (ok r); [|split; assumption].
  cbn [insertMessage]. split.
  - apply (wholeStore_insertMessage (doubt_id selected) apology (lit "ai")).
    exact Hs.
  - cbn [fst]. apply nonEmptyView_replace; [|exact Hc].
    apply app_single_nonempty.
Qed.

Lemma wholeStore_created (q : jsstring) (uid : ident) (st : store)
      (r1 r2 : reply) :
  wholeStore st ->
  wholeStore
    (snd (insertMessage (nextId st) q (lit "user")
            (later r2 (snd (insertDoubt q uid (lit "General")
                              (later r1 st)))))).
Proof.
  intros Hs d Hd. cbn in Hd. apply in_app_iff in Hd as [Hd|[<-|[]]].
  - destruct (Hs d Hd) as [r [Hr Hid]]. exists r. split; [|exact Hid].
    cbn. apply in_app_iff. now left.
  - eexists. split; [cbn; apply in_app_iff; right; left; reflexivity|].
    reflexivity.
Qed.

Lemma nonEmptyView_cons (d : Doubt) (v : view) :
  messages d <> [] -> nonEmptyView v ->
  nonEmptyView {| doubts := d :: doubts v; selectedDoubt := Some d |}.
Proof.
  intros Hd Hv x [[<-|Hx]|Hx]; cbn in *.
  - exact Hd.
  - apply Hv. now left.
  - injection Hx as <-. exact Hd.
Qed.

Lemma wholePair_submit (user : option ident) (q : jsstring) (closure : view)
      (st : store) (r1 r2 : reply) (answer : option jsstring) (r3 r4 : reply) :
  createsWhole (Submit q r1 r2 answer r3 r4) = true ->
  wholeStore st -> nonEmptyView closure ->
  wholePair (handleSubmitQuestion user q closure st r1 r2 answer r3 r4).
Proof.
  intros Hw Hs Hv. unfold handleSubmitQuestion. cbn [createsWhole] in Hw.
  destruct (truthy_str (trim q)); [|split; assumption].
  destruct user as [uid|]; [|split; assumption].
  destruct (ok r1); [|now apply wholePair_apologise].
  cbn [implb] in Hw. rewrite Hw. cbn [insertDoubt insertMessage].
  pose proof (wholeStore_created q uid r1 r2 Hs) as Hs4.
  destruct answer as [text|].
  - destruct (ok r3).
    + cbn [insertMessage]. split.
      * exact (wholeStore_insertMessage (nextId st) text (lit "ai")
                 (wholeStore_later r3 Hs4)).
      * cbn [fst]. apply nonEmptyView_replace; [|exact Hv].
        apply app_single_nonempty.
    + apply wholePair_apologise; [exact (wholeStore_later r3 Hs4)|exact Hv|].
      apply nonEmptyView_cons; [discriminate|exact Hv].
  - apply wholePair_apologise; [exact Hs4|exact Hv|].
    apply nonEmptyView_cons; [discriminate|exact Hv].
Qed.

Lemma wholePair_send (user : option ident) (m : jsstring) (closure : view)
      (st : store) (r1 : reply) (answer : option jsstring) (r2 r3 : reply) :
  wholeStore st -> nonEmptyView closure ->
  wholePair (handleSendMessage user m closure st r1 answer r2 r3).
Proof.
  intros Hs Hv. unfold handleSendMessage.
  destruct (truthy_str (trim m)); [|split; assumption].
  destruct (selectedDoubt closure) as [selected|]; [|split; assumption].
  destruct user as [uid|]; [|split; assumption].
  destruct (ok r1); [|now apply wholePair_apologise].
  cbn [insertMessage].
  set (st2 := {| doubtRows := doubtRows (later r1 st) |}).
  set (updatedDoubt := withMessages selected _).
  assert (Hs2 : wholeStore st2)
    by (exact (wholeStore_insertMessage (doubt_id selected) m (lit "user")
                 (wholeStore_later r1 Hs))).
  assert (Hv1 : nonEmptyView
                  {| doubts := replaceDoubt updatedDoubt (doubts closure);
                     selectedDoubt := Some updatedDoubt |})
    by (apply nonEmptyView_replace; [apply app_single_nonempty|exact Hv]).
  clearbody st2 updatedDoubt.
  destruct answer as [text|]; [|now apply wholePair_apologise].
  destruct (ok r2); [|now apply wholePair_apologise].
  cbn [insertMessage]. split.
  - exact (wholeStore_insertMessage (doubt_id selected) text (lit "ai")
             (wholeStore_later r2 Hs2)).
  - cbn [fst]. apply nonEmptyView_replace; [|exact Hv].
    apply app_single_nonempty.
Qed.

Lemma wholePair_solve (id : ident) (closure : view) (st : store) (r : reply) :
  wholeStore st -> nonEmptyView closure ->
  wholePair (markAsSolved id closure st r).
Proof.
  intros Hs Hv. unfold markAsSolved.
  destruct (ok r); [|split; assumption]. split.
  - intros d Hd. cbn in Hd. apply in_map_iff in Hd as [x [Hx Hin]].
    destruct (Hs x Hin) as [m [Hm Hid]]. exists m. split; [exact Hm|].
    rewrite Hid. destruct (N.eqb (d_id x) id); now subst d.
  - intros d [Hd|Hd]; cbn in Hd.
    + apply in_map_iff in Hd as [x [Hx Hin]].
      assert (Hg : messages x <> []) by (apply Hv; now left).
      destruct (N.eqb (doubt_id x) id); now subst d.
    + destruct (selectedDoubt closure) as [selected|] eqn:Esel; [|discriminate].
      assert (Hg : messages selected <> []) by (apply Hv; now right).
      destruct (N.eqb (doubt_id selected) id); now injection Hd as <-.
Qed.

Lemma nonEmptyView_fetch (user : option ident) (v : view) (st : store)
      (answers : bool) :
  wholeStore st -> nonEmptyView v ->
  nonEmptyView (fetchDoubts user v st answers).
Proof.
  intros Hs Hv. unfold fetchDoubts.
  destruct user as [uid|]; [|exact Hv].
  destruct answers; [|exact Hv].
  set (loaded := map (loadDoubt st) _).
  assert (Hl : forall d, In d loaded -> messages d <> []).
  { intros d Hd. apply in_map_iff in Hd as [row [<- Hrow]].
    apply orderDesc_In in Hrow. apply filter_In in Hrow as [Hrow _].
    cbn [messages loadDoubt]. apply messagesOf_nonempty. now apply Hs. }
  intros d [Hd|Hd]; cbn in Hd; [now apply Hl|].
  destruct loaded as [|first rest].
  - apply Hv. now right.
  - destruct (selectedDoubt v) as [selected|] eqn:Esel.
    + apply Hv. right. now rewrite Esel.
    + injection Hd as <-. apply Hl. now left.
Qed.

Lemma nonEmptyView_select (n : nat) (v : view) :
  nonEmptyView v -> nonEmptyView (selectDoubt n v).
Proof.
  intro Hv. unfold selectDoubt.
  destruct (nth_error (doubts v) n) as [doubt|] eqn:E; [|exact Hv].
  apply nth_error_In in E.
  intros d [Hd|Hd]; cbn in Hd.
  - apply Hv. now left.
  - injection Hd as <-. apply Hv. now left.
Qed.

Definition whole (w : world) : Prop :=
  wholeStore (w_store w) /\ nonEmptyView (w_view w).

Lemma whole_perform (user : option ident) (w : world) (a : action) :
  createsWhole a = true -> whole w -> whole (perform user w a).
Proof.
  intros Ha [Hs Hv].
  destruct a as [answers|q r1 r2 answer r3 r4|m r1 answer r2 r3|id r|n];
    cbn [perform].
  - split; [exact Hs|]. now apply nonEmptyView_fetch.
  - pose proof (@wholePair_submit user q (w_view w) (w_store w) r1 r2 answer r3 r4 Ha Hs Hv) as H.
    destruct (handleSubmitQuestion _ _ _ _ _ _ _ _ _). exact H.
  - pose proof (wholePair_send user m r1 answer r2 r3 Hs Hv) as H.
    destruct (handleSendMessage _ _ _ _ _ _ _ _). exact H.
  - pose proof (wholePair_solve id r Hs Hv) as H.
    destruct (markAsSolved _ _ _ _). exact H.
  - split; [exact Hs|]. now apply nonEmptyView_select.
Qed.

Lemma whole_fold (user : option ident) (l : list action) (w : world) :
  forallb createsWhole l = true -> whole w ->
  whole (fold_left (perform user) l w).
Proof.
  revert w. induction l as [|a l IH]; intros w Hl Hw; [exact Hw|].
  cbn [forallb] in Hl. apply andb_prop in Hl as [Ha Hl].
  cbn [fold_left]. apply IH; [exact Hl|]. now apply whole_perform.
Qed.

Lemma whole_initial : whole initial.
Proof.
  split.
  - intros d [].
  - intros d [[]|H]; discriminate.
Qed.

(** ** The apology after a failed answer *)

(** When the doubt and its first message were inserted and the AI call
    fails, the thread of the new doubt holds nothing but what the user
    sent, as long as the new identifier is new to the store and to the
    selected doubt: the apology, if one is inserted, carries the
    identifier of the doubt that was selected before. *)
Lemma apology_misses_the_new_doubt (uid : ident) (q : jsstring)
      (closure : view) (st : store) (r1 r2 r3 r4 : reply) :
  truthy_str (trim q) = true -> ok r1 = true -> ok r2 = true ->
  (forall m, In m (messageRows st) -> m_doubt_id m <> nextId st) ->
  (forall d, selectedDoubt closure = Some d -> doubt_id d <> nextId st) ->
  forall m,
    In m (messageRows
            (snd (handleSubmitQuestion (Some uid) q closure st r1 r2 None
                    r3 r4))) ->
    m_doubt_id m = nextId st ->
    m_sender m = lit "user" /\ m_content m = q.
Proof.
  intros Hq H1 H2 Hold Hsel m. unfold handleSubmitQuestion.
  rewrite Hq, H1. cbn [insertDoubt]. rewrite H2. cbn [insertMessage].
  unfold apologise.
  destruct (selectedDoubt closure) as [selected|] eqn:E.
  - specialize (Hsel selected eq_refl).
    destruct (ok r4); cbn; intros Hin Hid.
    + apply in_app_iff in Hin as [Hin|[<-|[]]].
      * apply in_app_iff in Hin as [Hin|[<-|[]]]; [|now split].
        exfalso. exact (Hold m Hin Hid).
      * cbn in Hid. contradiction.
    + apply in_app_iff in Hin as [Hin|[<-|[]]]; [|now split].
      exfalso. exact (Hold m Hin Hid).
  - cbn. intros Hin Hid.
    apply in_app_iff in Hin as [Hin|[<-|[]]]; [|now split].
    exfalso. exact (Hold m Hin Hid).
Qed.

End DoubtFacts.

(** C6 on a run of the component.  A first question is answered and the
    page reloaded, so that doubt 1 is the selected one; then the question
    [Why?] is submitted and the AI call fails.  The new doubt (4) and its
    first message persist, but the apology is inserted into the thread
    of doubt 1: the thread of the new doubt holds the question only.
    When no doubt was selected (the first question ever), no apology is
    inserted at all. *)
Theorem apology_goes_to_the_previously_selected_doubt :
  let w := DoubtSolver.runActions (Some 1%N) DoubtSamples.failingRun in
  let w0 := DoubtSolver.runActions (Some 1%N) DoubtSamples.firstFailingRun in
  map DoubtSolver.d_id (DoubtSolver.doubtRows (DoubtSolver.w_store w))
    = [1%N; 4%N]
  /\ DoubtSamples.threads (DoubtSolver.w_store w)
     = [(1%N, Js.lit "user"); (1%N, Js.lit "ai");
        (4%N, Js.lit "user"); (1%N, Js.lit "ai")]
  /\ map DoubtSolver.content
         (DoubtSolver.messagesOf 4%N (DoubtSolver.w_store w))
     = [Js.lit "Why?"]
  /\ map DoubtSolver.content
         (DoubtSolver.messagesOf 1%N (DoubtSolver.w_store w))
     = [Js.lit "What is an integral?"; Js.lit "An area.";
        DoubtSolver.apology]
  /\ DoubtSamples.threads (DoubtSolver.w_store w0) = [(1%N, Js.lit "user")].
Proof. vm_compute. repeat split. Qed.

(** C7 (as amended).  In every state the component reaches, the messages
    of every doubt it holds are in non-decreasing order of their
    timestamps; and every doubt it holds has at least one message as
    long as no doubt was left without its first message, that is, as
    long as every insert of a first message that followed the insert of
    its doubt was answered by the store. *)
Theorem doubt_messages_ordered :
  forall (user : option DoubtSolver.ident) (l : list DoubtSolver.action)
         (d : DoubtSolver.Doubt),
    DoubtSolver.held (DoubtSolver.w_view (DoubtSolver.runActions user l)) d ->
    DoubtSolver.ascending (DoubtSolver.messages d)
    /\ (forallb DoubtSolver.createsWhole l = true ->
        (1 <= length (DoubtSolver.messages d))%nat).
Proof.
  intros user l d Hd. split.
  - destruct (DoubtFacts.good_fold user l DoubtFacts.good_initial) as [_ Hv].
    exact (proj1 (Hv d Hd)).
  - intro Hl.
    destruct (DoubtFacts.whole_fold user l Hl DoubtFacts.whole_initial)
      as [_ Hv].
    specialize (Hv d Hd). destruct (DoubtSolver.messages d);
      [contradiction|cbn; lia].
Qed.

(** C7 on the selected doubt after a question was answered and the page
    reloaded. *)
Lemma doubt_messages_ordered_witness :
  exists d,
    DoubtSolver.held
      (DoubtSolver.w_view
         (DoubtSolver.runActions (Some 1%N) DoubtSamples.answeredRun)) d
    /\ DoubtSolver.ascending (DoubtSolver.messages d)
    /\ (1 <= length (DoubtSolver.messages d))%nat.
Proof.
  destruct (DoubtSolver.selectedDoubt
              (DoubtSolver.w_view
                 (DoubtSolver.runActions (Some 1%N) DoubtSamples.answeredRun)))
    as [d|] eqn:E; [|vm_compute in E; discriminate E].
  exists d.
  assert (H : DoubtSolver.held
                (DoubtSolver.w_view
                   (DoubtSolver.runActions (Some 1%N)
                      DoubtSamples.answeredRun)) d)
    by (right; exact E).
  destruct (doubt_messages_ordered (Some 1%N) DoubtSamples.answeredRun H)
    as [Ha Hn].
  split; [exact H|]. split; [exact Ha|exact (Hn eq_refl)].
Defined.

(** C7, the claim as written fails: the doubt and its first message are
    two inserts; when the store refuses the second, the doubt exists
    without a message and the next load holds it with an empty
    sequence. *)
Lemma doubt_without_first_message :
  exists d,
    DoubtSolver.held
      (DoubtSolver.w_view
         (DoubtSolver.runActions (Some 1%N) DoubtSamples.orphanRun)) d
    /\ DoubtSolver.question d = Js.lit "Why?"
    /\ length (DoubtSolver.messages d) = 0%nat.
Proof.
  eexists. split; [right; vm_compute; reflexivity|]. split; reflexivity.
Qed.

(** A remark on the list of doubts.  The handler replaces the answered
    doubt in the list of its own render, which does not hold the new
    doubt: after an answered question the doubt is selected but not
    listed, until the page is loaded again. *)
Remark answered_doubt_is_not_listed :
  let v := DoubtSolver.w_view
             (DoubtSolver.runActions (Some 1%N)
                [DoubtSolver.Submit (Js.lit "What is an integral?")
                   DoubtSamples.done DoubtSamples.done
                   (Some (Js.lit "An area."))
                   DoubtSamples.done DoubtSamples.done]) in
  DoubtSolver.doubts v = []
  /\ option_map (fun d => length (DoubtSolver.messages d))
                (DoubtSolver.selectedDoubt v) = Some 2%nat.
Proof. split; reflexivity. Qed.

(* ================================================================== *)
(** * Properties: flashcard decks *)
(* ================================================================== *)

Module FlashcardFacts.
Import Js Flashcards.

Lemma insertCards_length (deck : deckId) (cards : list (jsstring * jsstring))
      (st : store) :
  length (fst (insertCards deck cards st)) = length cards.
Proof.
  revert st. induction cards as [|[f b] cards IH]; intro st; [reflexivity|].
  cbn [insertCards].
  match goal with
  | |- context [insertCards deck cards ?s] =>
      specialize (IH s); destruct (insertCards deck cards s) as [rows st']
  end.
  cbn in *. now rewrite IH.
Qed.

Lemma counted_load (st : store) (row : DeckRow) : counted (loadDeck st row).
Proof. unfold counted, loadDeck. cbn. now rewrite length_map. Qed.

Definition countedView (v : view) : Prop := forall d, held v d -> counted d.

(** [handleUpdateDeck] stores the deck it is given or nothing. *)
Lemma countedView_update (closure : view) (st : store) (oi od : bool)
      (ou : nat) (u : FlashcardDeck) :
  counted u -> countedView closure ->
  countedView (fst (handleUpdateDeck closure st oi od ou u)).
Proof.
  intros Hu Hc. unfold handleUpdateDeck.
  destruct (find _ (decks closure)) as [originalDeck|]; [|exact Hc].
  destruct (match filter _ (flashcards u) with [] => _ | _ => _ end);
    [|exact Hc].
  destruct (match map id _ with [] => _ | _ => _ end); [|exact Hc].
  destruct (updateCards _ ou _); [|exact Hc].
  intros d [Hd|Hd]; cbn in Hd.
  - apply in_map_iff in Hd as [x [Hx Hin]].
    destruct (N.eqb (deck_id x) (deck_id u)); subst d; [exact Hu|].
    apply Hc. now left.
  - injection Hd as <-. exact Hu.
Qed.

Lemma counted_add (deck : FlashcardDeck) (cards : list Flashcard) :
  counted deck ->
  counted (withCards deck (totalCards deck + length cards)
                     (flashcards deck ++ cards)).
Proof. unfold counted. cbn. intros ->. now rewrite length_app. Qed.

Lemma counted_created (deck u : FlashcardDeck) (now : Z) (f b : jsstring) :
  counted deck -> handleCreateFlashcard deck now f b = Some u -> counted u.
Proof.
  unfold handleCreateFlashcard. intros Hd.
  destruct (_ || _)%bool; [discriminate|]. intro H. injection H as <-.
  now apply (@counted_add deck [_]).
Qed.

Lemma counted_deleted (deck : FlashcardDeck) (c : cardId) :
  counted (handleDeleteFlashcard deck c).
Proof. reflexivity. Qed.

Lemma counted_edited (deck u : FlashcardDeck) (c : option cardId)
      (f b : jsstring) :
  counted deck -> handleSaveEdit deck c f b = Some u -> counted u.
Proof.
  unfold handleSaveEdit. intro Hd. destruct c as [c|]; [|discriminate].
  destruct (_ || _)%bool; [discriminate|]. intro H. injection H as <-.
  unfold counted in *. cbn. now rewrite length_map.
Qed.

Lemma countedView_perform (user : option N) (w : world) (a : action) :
  countedView (w_view w) -> countedView (w_view (perform user w a)).
Proof.
  intro Hw.
  destruct a as [ok|ok n s|ok oi od ou cards|now f b oi od ou|c oi od ou
                |c f b oi od ou|n]; cbn [perform].
  - (* fetchDecks *)
    cbn [w_view]. unfold fetchDecks. destruct user as [uid|]; [|exact Hw].
    destruct ok; [|exact Hw].
    set (loaded := map (loadDeck (w_store w)) _).
    assert (Hl : forall d, In d loaded -> counted d).
    { intros d Hd. apply in_map_iff in Hd as [row [<- _]].
      apply counted_load. }
    intros d [Hd|Hd]; cbn in Hd; [now apply Hl|].
    destruct loaded as [|first rest].
    + apply Hw. now right.
    + destruct (selectedDeck (w_view w)) as [sel|] eqn:E.
      * apply Hw. right. now rewrite E.
      * injection Hd as <-. apply Hl. now left.
  - (* handleCreateDeck *)
    unfold handleCreateDeck. destruct user as [uid|]; [|exact Hw].
    destruct ok; [|exact Hw]. cbn.
    intros d [[<-|Hd]|Hd]; cbn in *.
    + reflexivity.
    + apply Hw. now left.
    + injection Hd as <-. reflexivity.
  - (* handleAddGeneratedFlashcards *)
    unfold handleAddGeneratedFlashcards.
    destruct (selectedDeck (w_view w)) as [sel|] eqn:E; [|exact Hw].
    destruct cards as [|card cards]; [exact Hw|].
    destruct user as [uid|]; [|exact Hw].
    destruct ok; [|exact Hw].
    destruct (insertCards (deck_id sel) (card :: cards) (w_store w))
      as [data st'].
    cbn [pack w_view]. apply countedView_update; [|exact Hw].
    apply counted_add. apply Hw. now right.
  - (* handleCreateFlashcard *)
    destruct (selectedDeck (w_view w)) as [sel|] eqn:E; [|exact Hw].
    destruct (handleCreateFlashcard sel now f b) as [u|] eqn:Eu; [|exact Hw].
    cbn [pack w_view]. apply countedView_update; [|exact Hw].
    eapply counted_created; [|exact Eu]. apply Hw. now right.
  - (* handleDeleteFlashcard *)
    destruct (selectedDeck (w_view w)) as [sel|] eqn:E; [|exact Hw].
    cbn [pack w_view]. apply countedView_update; [|exact Hw].
    apply counted_deleted.
  - (* handleSaveEdit *)
    destruct (selectedDeck (w_view w)) as [sel|] eqn:E; [|exact Hw].
    destruct (handleSaveEdit sel c f b) as [u|] eqn:Eu; [|exact Hw].
    cbn [pack w_view]. apply countedView_update; [|exact Hw].
    eapply counted_edited; [|exact Eu]. apply Hw. now right.
  - (* a click on a deck of the list *)
    destruct (nth_error (decks (w_view w)) n) as [deck|] eqn:E; [|exact Hw].
    apply nth_error_In in E. intros d [Hd|Hd]; cbn in Hd.
    + apply Hw. now left.
    + injection Hd as <-. apply Hw. now left.
Qed.

Lemma countedView_fold (user : option N) (l : list action) (w : world) :
  countedView (w_view w) -> countedView (w_view (fold_left (perform user) l w)).
Proof.
  revert w. induction l as [|a l IH]; intros w Hw; [exact Hw|].
  cbn [fold_left]. apply IH. now apply countedView_perform.
Qed.

Lemma countedView_initial : countedView (w_view initial).
Proof. intros d [[]|H]; discriminate. Qed.

Lemma filter_changedIn_nil (l : list Flashcard) :
  filter (fun card => changedIn card []) l = [].
Proof. induction l; [reflexivity|assumption]. Qed.

(** When the deck of the list has no card, every card of the updated
    deck is new: nothing is deleted or updated, and the update goes
    through as soon as the insert does. *)
Lemma update_of_empty_deck (closure : view) (st : store) (od : bool) (ou : nat)
      (u original : FlashcardDeck) :
  find (fun deck => N.eqb (deck_id deck) (deck_id u)) (decks closure)
    = Some original ->
  flashcards original = [] ->
  selectedDeck (fst (handleUpdateDeck closure st true od ou u)) = Some u.
Proof.
  intros Hf Hn. unfold handleUpdateDeck. rewrite Hf, Hn.
  cbn [filter map]. rewrite filter_changedIn_nil.
  destruct (filter _ (flashcards u)); reflexivity.
Qed.

(** Creating a deck and adding [generated] to it. *)
Lemma created_then_added (uid : N) (closure : view) (st : store)
      (deckName deckSubject : jsstring)
      (generated : list (jsstring * jsstring)) (od : bool) (ou : nat) :
  let p1 := handleCreateDeck (Some uid) closure st true deckName deckSubject in
  let p2 := handleAddGeneratedFlashcards (Some uid) (fst p1) (snd p1)
              true true od ou generated in
  exists d,
    selectedDeck (fst p2) = Some d
    /\ deck_id d = nextId st
    /\ totalCards d = length generated
    /\ length (flashcards d) = length generated.
Proof.
  cbn [handleCreateDeck insertDeck fst snd].
  unfold handleAddGeneratedFlashcards. cbn [selectedDeck].
  destruct generated as [|card cards].
  { eexists. repeat split. }
  cbv zeta.
  match goal with
  | |- context [insertCards ?k (card :: cards) ?s] =>
      pose proof (insertCards_length k (card :: cards) s) as Hlen;
      destruct (insertCards k (card :: cards) s) as [data st']
  end.
  cbn [fst] in Hlen.
  eexists. split.
  - eapply update_of_empty_deck.
    + cbn [decks find deck_id withCards deck_row_id]. rewrite N.eqb_refl.
      reflexivity.
    + reflexivity.
  - cbn. rewrite length_map. repeat split; exact Hlen.
Qed.

End FlashcardFacts.

(** The decks the component holds.  A deck is created with
    [totalCards = 0] and no card; adding N generated cards to it leaves
    the deck held with [totalCards = N] and N cards;
    and in every state the component reaches, whatever the store
    answers, every deck it holds has [totalCards] equal to the number of
    its cards. *)
Theorem deck_count_matches_cards :
  (forall (uid : N) (closure : Flashcards.view) (st : Flashcards.store)
          (deckName deckSubject : Js.jsstring),
      exists d,
        Flashcards.selectedDeck
          (fst (Flashcards.handleCreateDeck (Some uid) closure st true
                  deckName deckSubject)) = Some d
        /\ Flashcards.totalCards d = 0%nat
        /\ Flashcards.flashcards d = [])
  /\ (forall (uid : N) (closure : Flashcards.view) (st : Flashcards.store)
             (deckName deckSubject : Js.jsstring)
             (generated : list (Js.jsstring * Js.jsstring))
             (okDelete : bool) (okUpdates : nat),
         let p1 := Flashcards.handleCreateDeck (Some uid) closure st true
                     deckName deckSubject in
         let p2 := Flashcards.handleAddGeneratedFlashcards (Some uid)
                     (fst p1) (snd p1) true true okDelete okUpdates
                     generated in
         exists d,
           Flashcards.selectedDeck (fst p2) = Some d
           /\ Flashcards.totalCards d = length generated
           /\ length (Flashcards.flashcards d) = length generated)
  /\ (forall (user : option N) (l : list Flashcards.action)
             (d : Flashcards.FlashcardDeck),
         Flashcards.held (Flashcards.w_view (Flashcards.runActions user l)) d ->
         Flashcards.totalCards d = length (Flashcards.flashcards d)).
Proof.
  split; [|split].
  - intros. eexists. cbn. repeat split.
  - intros uid closure st deckName deckSubject generated od ou p1 p2.
    destruct (FlashcardFacts.created_then_added uid closure st deckName
                deckSubject generated od ou) as [d (H1 & _ & H2 & H3)].
    exists d. repeat split; assumption.
  - intros user l d Hd.
    exact (@FlashcardFacts.countedView_fold user l Flashcards.initial
             FlashcardFacts.countedView_initial d Hd).
Qed.

(** The deck selected after a deck was created and two generated cards
    were added. *)
Lemma deck_count_matches_cards_witness :
  exists d,
    Flashcards.held
      (Flashcards.w_view
         (Flashcards.runActions (Some 1%N) FlashcardSamples.createAndAdd)) d
    /\ length (Flashcards.flashcards d) = 2%nat
    /\ Flashcards.totalCards d = length (Flashcards.flashcards d).
Proof.
  destruct (Flashcards.selectedDeck
              (Flashcards.w_view
                 (Flashcards.runActions (Some 1%N)
                    FlashcardSamples.createAndAdd)))
    as [d|] eqn:E; [|vm_compute in E; discriminate E].
  exists d.
  assert (H : Flashcards.held
                (Flashcards.w_view
                   (Flashcards.runActions (Some 1%N)
                      FlashcardSamples.createAndAdd)) d)
    by (right; exact E).
  split; [exact H|]. split.
  - vm_compute in E. injection E as <-. reflexivity.
  - exact (proj2 (proj2 deck_count_matches_cards) (Some 1%N)
             FlashcardSamples.createAndAdd d H).
Defined.

(** A remark on the store.  [handleAddGeneratedFlashcards] inserts the
    generated cards and hands the deck to [handleUpdateDeck], which finds
    them missing in the deck of the list and inserts them again: after
    two cards were added the table holds four rows, and a reload shows a
    deck of four. *)
Remark generated_cards_are_inserted_twice :
  let w := Flashcards.runActions (Some 1%N) FlashcardSamples.createAndAdd in
  length (Flashcards.cardRows (Flashcards.w_store w)) = 4%nat
  /\ map Flashcards.totalCards
         (Flashcards.decks
            (Flashcards.w_view
               (Flashcards.perform (Some 1%N) w (Flashcards.Fetch true))))
     = [4%nat].
Proof. vm_compute. split; reflexivity. Qed.

(* ================================================================== *)
(** * Properties: the flashcard proxy *)
(* ================================================================== *)

Module GenerateFacts.
Import Js Regex Json GenerateFlashcards.

Lemma pushSection_app (acc : list json) (section : jsstring) :
  pushSection acc section = acc ++ cardsOfSection section.
Proof.
  unfold pushSection, cardsOfSection.
  destruct (partsOf section) as [|f [|b rest]];
    [now rewrite app_nil_r|now rewrite app_nil_r|reflexivity].
Qed.

Lemma fold_pushSection (sections : list jsstring) (acc : list json) :
  fold_left pushSection sections acc = acc ++ flat_map cardsOfSection sections.
Proof.
  revert acc. induction sections as [|s sections IH]; intro acc.
  - cbn. now rewrite app_nil_r.
  - cbn [fold_left flat_map]. rewrite IH, pushSection_app.
    now rewrite app_assoc.
Qed.

(** The loop of the [catch] block collects one card from each section
    that splits into at least two parts, in order. *)
Lemma extracted_flat_map (text : jsstring) :
  extracted text = flat_map cardsOfSection (sectionsOf text).
Proof. unfold extracted. now rewrite fold_pushSection. Qed.

Lemma cardsOfSection_recognisable (section : jsstring) :
  cardsOfSection section = [] <-> recognisable section = false.
Proof.
  unfold cardsOfSection, recognisable.
  destruct (partsOf section) as [|f [|b rest]]; split; intro H;
    try reflexivity; discriminate.
Qed.

Lemma flat_map_nil (sections : list jsstring) :
  flat_map cardsOfSection sections = []
  <-> existsb recognisable sections = false.
Proof.
  induction sections as [|s sections IH]; [cbn; tauto|].
  cbn [flat_map existsb]. rewrite orb_false_iff, <- IH.
  rewrite <- cardsOfSection_recognisable. split.
  - intro H. apply app_eq_nil in H. exact H.
  - intros [-> ->]. reflexivity.
Qed.

Lemma extracted_nil (text : jsstring) :
  extracted text = [] <-> existsb recognisable (sectionsOf text) = false.
Proof. rewrite extracted_flat_map. apply flat_map_nil. Qed.

(** A well-formed exchange reaches the reading of the generated text. *)
Lemma serve_respond (JSON_parse : jsstring -> option json)
      (key : option jsstring) (req : request) (up : upstream)
      (text : jsstring) :
  wellFormed key req up text ->
  serve JSON_parse key req up = respond JSON_parse text.
Proof.
  intros (Hm & (k & -> & Hk) & (t & Hb & Ht) & Hok & Hup & Htext).
  unfold serve. rewrite Hm, Hb, Hok, Hup, Hk, Ht, Htext. cbn.
  destruct t; [discriminate|reflexivity].
Qed.

End GenerateFacts.




(** The format the specification quotes, with a space after the heading:
    the space is the first part of the section, so the card has an empty
    front and the question as its back. *)
Remark spaced_heading_shifts_the_parts :
  GenerateFlashcards.respond Json.parse
    (Js.lit "Flashcard 1: Front: Q Back: A")
  = GenerateFlashcards.Cards
      [GenerateFlashcards.cardOf [] (Js.lit "Q")].
Proof. reflexivity. Qed.

(* ================================================================== *)
(** * Properties: calendar dates *)
(* ================================================================== *)

Module DateFacts.
Import JsDate.

Lemma DayFromYear_step (y : Z) :
  DayFromYear (y + 1) = DayFromYear y + DaysInYear y.
Proof.
  unfold DayFromYear, DaysInYear.
  repeat match goal with
  | |- context [?a =? ?b] => destruct (Z.eqb_spec a b)
  end; cbn [negb]; Z.div_mod_to_equations; lia.
Qed.

(** [YearFromDay] is the year the day falls in. *)
Lemma YearFromDay_spec (d : Z) :
  DayFromYear (YearFromDay d) <= d < DayFromYear (YearFromDay d + 1).
Proof.
  unfold YearFromDay.
  set (y := 1970 + 400 * d / 146097).
  destruct (Z.ltb_spec d (DayFromYear y)).
  - replace (y - 1 + 1) with y by lia. split; [|lia].
    unfold DayFromYear in *. subst y. Z.div_mod_to_equations. lia.
  - destruct (Z.leb_spec (DayFromYear (y + 1)) d).
    + split; [lia|].
      unfold DayFromYear in *. subst y. Z.div_mod_to_equations. lia.
    + lia.
Qed.

(** Year, month and date name the day. *)
Lemma calendar_injective (a b : Z) :
  YearFromDay a = YearFromDay b ->
  MonthFromDay a = MonthFromDay b ->
  DateFromDay a = DateFromDay b ->
  a = b.
Proof.
  intros Hy Hm Hd.
  unfold DateFromDay in Hd. rewrite Hm in Hd.
  assert (Hl : InLeapYear a = InLeapYear b)
    by (unfold InLeapYear; now rewrite Hy).
  rewrite Hl in Hd.
  assert (Hw : DayWithinYear a = DayWithinYear b)
    by (destruct (MonthFromDay b) as [|p|p]; [lia| |lia];
        do 4 (try destruct p as [p|p|]; try lia)).
  unfold DayWithinYear in Hw. rewrite Hy in Hw. lia.
Qed.

End DateFacts.

(* ================================================================== *)
(** * Properties: the planner and its store over time *)
(* ================================================================== *)

Module PlannerRunFacts.
Import Js Order StudyPlanner.

Lemma insertDescending_Permutation (A : Type) (key : A -> Z) (x : A)
      (l : list A) :
  Permutation (insertDescending key x l) (x :: l).
Proof.
  induction l as [|y l IH]; cbn [insertDescending]; [reflexivity|].
  destruct (key x <? key y); [|reflexivity].
  rewrite IH. apply perm_swap.
Qed.

Lemma orderDesc_Permutation (A : Type) (key : A -> Z) (l : list A) :
  Permutation (orderDesc key l) l.
Proof.
  induction l as [|x l IH]; [reflexivity|].
  unfold orderDesc in *. cbn [fold_right].
  rewrite insertDescending_Permutation. now constructor.
Qed.

Lemma insertDescending_sorted (A : Type) (key : A -> Z) (x : A) (l : list A) :
  StronglySorted (fun a b => key b <= key a) l ->
  StronglySorted (fun a b => key b <= key a) (insertDescending key x l).
Proof.
  induction l as [|y l IH]; intro H; cbn [insertDescending].
  - constructor; constructor.
  - inversion H as [|? ? Hl Hy]; subst.
    destruct (Z.ltb_spec (key x) (key y)) as [Hlt|Hge].
    + constructor; [now apply IH|].
      apply Forall_forall. intros z Hz.
      apply OrderFacts.insertDescending_In in Hz as [->|Hz]; [lia|].
      revert z Hz. now apply Forall_forall.
    + constructor; [exact H|].
      constructor; [lia|].
      eapply Forall_impl; [|exact Hy]. cbn. intros; lia.
Qed.

Lemma orderDesc_sorted (A : Type) (key : A -> Z) (l : list A) :
  StronglySorted (fun a b => key b <= key a) (orderDesc key l).
Proof.
  induction l as [|x l IH]; [constructor|].
  unfold orderDesc in *. cbn [fold_right]. now apply insertDescending_sorted.
Qed.

Lemma StronglySorted_map (A B : Type) (f : A -> B) (R : B -> B -> Prop)
      (l : list A) :
  StronglySorted (fun a b => R (f a) (f b)) l -> StronglySorted R (map f l).
Proof.
  induction 1 as [|x l Hl IH Hx]; cbn [map]; constructor; [exact IH|].
  apply Forall_forall. intros y Hy. apply in_map_iff in Hy as [z [<- Hz]].
  revert z Hz. now apply Forall_forall.
Qed.

Lemma StronglySorted_weaken (A : Type) (R R' : A -> A -> Prop) (l : list A) :
  (forall a b, R a b -> R' a b) -> StronglySorted R l -> StronglySorted R' l.
Proof.
  intro HR. induction 1 as [|x l Hl IH Hx]; constructor; [exact IH|].
  eapply Forall_impl; [|exact Hx]. intros b Hb. now apply HR.
Qed.

Lemma Permutation_filter (A : Type) (p : A -> bool) (l l' : list A) :
  Permutation l l' -> Permutation (filter p l) (filter p l').
Proof.
  induction 1 as [|x l l' _ IH|x y l|l l' l'' _ IH1 _ IH2]; cbn [filter].
  - constructor.
  - destruct (p x); [now constructor|exact IH].
  - destruct (p x), (p y); try reflexivity. apply perm_swap.
  - now transitivity (filter p l').
Qed.

Lemma filter_map_commute (A B : Type) (f : A -> B) (p : B -> bool)
      (q : A -> bool) (l : list A) :
  (forall x, p (f x) = q x) ->
  filter p (map f l) = map f (filter q l).
Proof.
  intro H. induction l as [|x l IH]; [reflexivity|].
  cbn [map filter]. rewrite H. destruct (q x); cbn [map]; now rewrite IH.
Qed.

(** The component list holds what the store holds for the user. *)
Definition agrees (uid : ident) (o : outcome) : Prop :=
  Permutation (studySessions o) (map toSession (ownRows uid (db o))).

Lemma toSession_setProgress (sid : ident) (p : number) (c : bool)
      (r : DbStudySession) :
  toSession (if N.eqb (db_id r) sid
             then setProgress (CStr (toString p)) (CStr (bool_toString c)) r
             else r)
  = if N.eqb (id (toSession r)) sid
    then withProgress (toSession r) p c else toSession r.
Proof.
  cbn [toSession id]. destruct (N.eqb (db_id r) sid); [|reflexivity].
  unfold toSession, withProgress.
  cbn -[decodeProgress decodeCompleted toString bool_toString].
  now rewrite PlannerFacts.decode_written_progress,
              PlannerFacts.decode_written_completed.
Qed.

Lemma ownRows_updateRow (uid sid : ident) (p c : cell) (st : store) :
  ownRows uid (updateRow sid p c st)
  = map (fun r => if N.eqb (db_id r) sid then setProgress p c r else r)
        (ownRows uid st).
Proof.
  unfold ownRows, updateRow. cbn [rows].
  apply filter_map_commute. intro r. now destruct (N.eqb (db_id r) sid).
Qed.

Lemma agrees_update (uid sid : ident) (p : number) (c : bool)
      (sessions : list StudySession) (st : store) :
  Permutation sessions (map toSession (ownRows uid st)) ->
  Permutation
    (map (fun session => if N.eqb (id session) sid
                         then withProgress session p c else session) sessions)
    (map toSession
         (ownRows uid (updateRow sid (CStr (toString p))
                                 (CStr (bool_toString c)) st))).
Proof.
  intro H. rewrite ownRows_updateRow, map_map.
  rewrite (map_ext _ _ (toSession_setProgress sid p c)).
  rewrite <- (map_map toSession
                (fun session => if N.eqb (id session) sid
                                then withProgress session p c else session)).
  now apply Permutation_map.
Qed.

Lemma agrees_delete (uid sid : ident) (sessions : list StudySession)
      (st : store) :
  Permutation sessions (map toSession (ownRows uid st)) ->
  Permutation
    (filter (fun session => negb (N.eqb (id session) sid)) sessions)
    (map toSession (ownRows uid (deleteRow sid st))).
Proof.
  intro H.
  assert (E : ownRows uid (deleteRow sid st)
              = filter (fun r => negb (N.eqb (db_id r) sid)) (ownRows uid st)).
  { unfold ownRows, deleteRow. cbn [rows].
    induction (rows st) as [|r l IH]; [reflexivity|].
    cbn [filter].
    destruct (N.eqb (db_id r) sid) eqn:Ei, (N.eqb (db_user_id r) uid) eqn:Eu;
      cbn [negb filter]; rewrite ?Ei, ?Eu; cbn [negb]; now rewrite IH. }
  rewrite E.
  rewrite <- (filter_map_commute toSession
                (fun session => negb (N.eqb (id session) sid))
                (fun r => negb (N.eqb (db_id r) sid)))
    by reflexivity.
  now apply Permutation_filter.
Qed.

Lemma agrees_insert (uid : ident) (row : NewRow) (sessions : list StudySession)
      (st : store) :
  new_user_id row = uid ->
  Permutation sessions (map toSession (ownRows uid st)) ->
  Permutation
    (toSession (fst (insertRow row st)) :: sessions)
    (map toSession (ownRows uid (snd (insertRow row st)))).
Proof.
  intros Hu H. unfold ownRows, insertRow. cbn [fst snd rows].
  rewrite filter_app. cbn [filter db_user_id]. rewrite Hu, N.eqb_refl.
  rewrite map_app. cbn [map].
  apply Permutation_cons_app. now rewrite app_nil_r.
Qed.

Lemma agrees_perform (tz : Z) (uid : ident) (o : outcome) (a : action) :
  agrees uid o -> agrees uid (perform tz (Some uid) o a).
Proof.
  unfold agrees. intro H.
  destruct a as [ok|ok values|ok sid p|ok sid|ok sid]; cbn [perform].
  - unfold fetchStudySessions. destruct ok; [|exact H]. cbn [studySessions db].
    apply Permutation_map. apply orderDesc_Permutation.
  - unfold onSubmit. destruct ok; [|exact H].
    pose proof (@agrees_insert uid (submitRow tz uid values) _ _ eq_refl H)
      as P.
    destruct (insertRow (submitRow tz uid values) (db o)) as [data st'].
    exact P.
  - unfold updateSessionProgress. destruct ok; [|exact H].
    cbn [studySessions db]. now apply agrees_update.
  - unfold markSessionComplete. destruct ok; [|exact H].
    cbn [studySessions db].
    exact (@agrees_update uid sid (Int 100) true _ _ H).
  - unfold deleteSession. destruct ok; [|exact H].
    cbn [studySessions db]. now apply agrees_delete.
Qed.

Lemma agrees_fold (tz : Z) (uid : ident) (l : list action) (o : outcome) :
  agrees uid o -> agrees uid (fold_left (perform tz (Some uid)) l o).
Proof.
  revert o. induction l as [|a l IH]; intros o H; [exact H|].
  cbn [fold_left]. apply IH. now apply agrees_perform.
Qed.

(** The local calendar day of UTC midnight. *)
Lemma localDay_east (tz day : Z) :
  0 <= tz < msPerDay -> localDay tz (newDate day) = day.
Proof. apply PlannerFacts.format_east. Qed.

Lemma localDay_west (tz day : Z) :
  - msPerDay <= tz < 0 -> localDay tz (newDate day) = day - 1.
Proof. apply PlannerFacts.format_west. Qed.

Lemma localDay_previous (tz t : Z) :
  localDay tz (t - msPerDay) = localDay tz t - 1.
Proof.
  unfold localDay, msPerDay.
  replace (t - 86400000 + tz) with (t + tz + (-1) * 86400000) by lia.
  rewrite Z.div_add by lia. lia.
Qed.

(** Two times show the same date, month and year exactly when they fall
    on the same local day. *)
Lemma sameDay_iff (tz a b : Z) :
  ((getDate tz a =? getDate tz b)
   && (getMonth tz a =? getMonth tz b)
   && (getFullYear tz a =? getFullYear tz b))%bool = true
  <-> localDay tz a = localDay tz b.
Proof.
  unfold getDate, getMonth, getFullYear. split.
  - intro H. apply andb_prop in H as [H Hy]. apply andb_prop in H as [Hd Hm].
    apply Z.eqb_eq in Hy, Hd, Hm. now apply DateFacts.calendar_injective.
  - intros ->. now rewrite !Z.eqb_refl.
Qed.

Lemma selected_iff (tz selected : Z) (sessions : list StudySession)
      (s : StudySession) :
  In s (sessionsForSelectedDate tz (Some selected) sessions)
  <-> In s sessions /\ localDay tz (date s) = localDay tz selected.
Proof.
  unfold sessionsForSelectedDate. rewrite filter_In.
  now rewrite sameDay_iff.
Qed.

End PlannerRunFacts.

(** X1.  [fetchStudySessions] shows the rows of the signed-in user and
    no others, each once, the latest date first; without a user, or when
    the store refuses the read, the list stays as it was. *)
Theorem fetchStudySessions_lists_own_rows_latest_first :
  forall (uid : StudyPlanner.ident)
         (sessions : list StudyPlanner.StudySession) (st : StudyPlanner.store),
    (let o := StudyPlanner.fetchStudySessions (Some uid) sessions st true in
     Permutation (StudyPlanner.studySessions o)
                 (map StudyPlanner.toSession
                      (filter (fun r => N.eqb (StudyPlanner.db_user_id r) uid)
                              (StudyPlanner.rows st)))
     /\ StronglySorted
          (fun a b => StudyPlanner.date b <= StudyPlanner.date a)
          (StudyPlanner.studySessions o))
    /\ StudyPlanner.studySessions
         (StudyPlanner.fetchStudySessions (Some uid) sessions st false)
       = sessions
    /\ StudyPlanner.studySessions
         (StudyPlanner.fetchStudySessions None sessions st true)
       = sessions.
Proof.
  intros uid sessions st. split; [|split; reflexivity].
  cbn. split.
  - apply Permutation_map. apply PlannerRunFacts.orderDesc_Permutation.
  - apply PlannerRunFacts.StronglySorted_map.
    eapply PlannerRunFacts.StronglySorted_weaken.
    2: apply (PlannerRunFacts.orderDesc_sorted StudyPlanner.db_date).
    intros a b H. cbn beta in H.
    cbn [StudyPlanner.date StudyPlanner.toSession].
    unfold StudyPlanner.newDate, StudyPlanner.msPerDay. lia.
Qed.


(** X3.  The Undo of a deletion leaves the component with a session the
    store no longer has: the handler of the notification appends the
    restored session to the list of the render in which the session was
    deleted, which still holds it, while its row is gone and the
    restored row has a new identifier. *)
Theorem undo_keeps_the_deleted_session_listed :
  forall (tz : Z) (sessions : list StudyPlanner.StudySession)
         (st : StudyPlanner.store) (sid : StudyPlanner.ident)
         (s : StudyPlanner.StudySession),
    StudyPlanner.findSession sid sessions = Some s ->
    (sid < StudyPlanner.nextId st)%N ->
    exists o r,
      StudyPlanner.deleteThenUndo tz sessions st sid = Some (s, o)
      /\ StudyPlanner.restored o = Some r
      /\ StudyPlanner.studySessions o = sessions ++ [r]
      /\ In s (StudyPlanner.studySessions o)
      /\ StudyPlanner.id s = sid
      /\ StudyPlanner.id r = StudyPlanner.nextId st
      /\ ~ In sid (map StudyPlanner.db_id
                       (StudyPlanner.rows (StudyPlanner.db o))).
Proof.
  intros tz sessions st sid s Hf Hid.
  rewrite (PlannerFacts.deleteThenUndo_some tz sessions st _ Hf).
  eexists. eexists. split; [reflexivity|].
  apply PlannerFacts.find_some_id in Hf as [Hin Hs].
  cbn -[StudyPlanner.toSession StudyPlanner.undoRow In].
  split; [reflexivity|]. split; [reflexivity|].
  split; [apply in_or_app; now left|].
  split; [exact Hs|]. split; [reflexivity|].
  rewrite map_app. cbn [map StudyPlanner.db_id]. intro H.
  apply in_app_or in H as [H|[H|[]]]; [|lia].
  apply in_map_iff in H as [r [Hr Hrin]].
  apply filter_In in Hrin as [_ Hne].
  rewrite Hr, N.eqb_refl in Hne. discriminate.
Qed.

(** A session deleted and restored in the sample store. *)
Lemma undo_keeps_the_deleted_session_listed_witness :
  exists o r,
    StudyPlanner.deleteThenUndo Samples.kolkata [Samples.sampleSession]
                                Samples.sampleStore 7%N
    = Some (Samples.sampleSession, o)
    /\ StudyPlanner.restored o = Some r
    /\ StudyPlanner.studySessions o = [Samples.sampleSession] ++ [r]
    /\ In Samples.sampleSession (StudyPlanner.studySessions o)
    /\ StudyPlanner.id Samples.sampleSession = 7%N
    /\ StudyPlanner.id r = StudyPlanner.nextId Samples.sampleStore
    /\ ~ In 7%N (map StudyPlanner.db_id
                     (StudyPlanner.rows (StudyPlanner.db o))).
Proof.
  apply (@undo_keeps_the_deleted_session_listed Samples.kolkata
           [Samples.sampleSession] Samples.sampleStore 7%N
           Samples.sampleSession).
  - reflexivity.
  - reflexivity.
Defined.

(** X4.  The sessions listed for the date selected in the calendar are
    exactly the sessions whose date falls, in local time, on the same
    calendar day as the selected date; without a selected date none is
    listed. *)
Theorem sessionsForSelectedDate_same_local_day :
  forall (tz : Z) (sessions : list StudyPlanner.StudySession),
    (forall (selected : Z) (s : StudyPlanner.StudySession),
        In s (StudyPlanner.sessionsForSelectedDate tz (Some selected) sessions)
        <-> In s sessions
            /\ StudyPlanner.localDay tz (StudyPlanner.date s)
               = StudyPlanner.localDay tz selected)
    /\ StudyPlanner.sessionsForSelectedDate tz None sessions = [].
Proof.
  intros tz sessions. split; [|reflexivity].
  intros selected s. apply PlannerRunFacts.selected_iff.
Qed.

(** X5.  At a browser at or east of Greenwich, a session created for the
    day picked in the calendar is listed when that day is selected. *)
Theorem created_session_is_listed_east_of_greenwich :
  forall (tz : Z) (uid : StudyPlanner.ident)
         (sessions : list StudyPlanner.StudySession) (st : StudyPlanner.store)
         (values : StudyPlanner.FormValues),
    0 <= tz < StudyPlanner.msPerDay ->
    let o := StudyPlanner.onSubmit tz (Some uid) sessions st true values in
    exists s,
      StudyPlanner.studySessions o = s :: sessions
      /\ StudyPlanner.sent o = [StudyPlanner.SessionCreated s]
      /\ StudyPlanner.progress s = Js.Int 0
      /\ StudyPlanner.completed s = false
      /\ In s (StudyPlanner.sessionsForSelectedDate
                 tz (Some (StudyPlanner.form_date values))
                 (StudyPlanner.studySessions o)).
Proof.
  intros tz uid sessions st values Htz o. subst o.
  eexists. split; [reflexivity|]. split; [reflexivity|].
  split; [reflexivity|]. split; [reflexivity|].
  apply PlannerRunFacts.selected_iff. split; [now left|].
  cbn [StudyPlanner.toSession StudyPlanner.date StudyPlanner.db_date
       StudyPlanner.submitRow StudyPlanner.new_date].
  now rewrite PlannerRunFacts.localDay_east.
Qed.

(** A session created in UTC+05:30. *)
Lemma created_session_is_listed_east_of_greenwich_witness :
  let values :=
    {| StudyPlanner.form_subject := Js.lit "Physics";
       StudyPlanner.form_topic := Js.lit "Optics";
       StudyPlanner.form_date := StudyPlanner.newDate 19792 - Samples.kolkata;
       StudyPlanner.form_startTime := Js.lit "10:00";
       StudyPlanner.form_duration := Js.lit "1 hour";
       StudyPlanner.form_notes := None |} in
  exists s,
    StudyPlanner.studySessions
      (StudyPlanner.onSubmit Samples.kolkata (Some 1%N) []
                             Samples.sampleStore true values)
    = s :: []
    /\ StudyPlanner.sent
         (StudyPlanner.onSubmit Samples.kolkata (Some 1%N) []
                                Samples.sampleStore true values)
       = [StudyPlanner.SessionCreated s]
    /\ StudyPlanner.progress s = Js.Int 0
    /\ StudyPlanner.completed s = false
    /\ In s (StudyPlanner.sessionsForSelectedDate
               Samples.kolkata (Some (StudyPlanner.form_date values))
               (StudyPlanner.studySessions
                  (StudyPlanner.onSubmit Samples.kolkata (Some 1%N) []
                                         Samples.sampleStore true values))).
Proof.
  intro values.
  apply (@created_session_is_listed_east_of_greenwich Samples.kolkata 1%N []
           Samples.sampleStore values).
  vm_compute. split; [discriminate|reflexivity].
Defined.

(** X6.  At a browser west of Greenwich, a session created for the day
    picked in the calendar is not listed when that day is selected: its
    date is read back as UTC midnight, which in local time is the
    evening before, and it is listed under the day before. *)
Theorem created_session_is_listed_a_day_early_west_of_greenwich :
  forall (tz : Z) (uid : StudyPlanner.ident)
         (sessions : list StudyPlanner.StudySession) (st : StudyPlanner.store)
         (values : StudyPlanner.FormValues),
    - StudyPlanner.msPerDay <= tz < 0 ->
    let o := StudyPlanner.onSubmit tz (Some uid) sessions st true values in
    exists s,
      StudyPlanner.studySessions o = s :: sessions
      /\ ~ In s (StudyPlanner.sessionsForSelectedDate
                   tz (Some (StudyPlanner.form_date values))
                   (StudyPlanner.studySessions o))
      /\ In s (StudyPlanner.sessionsForSelectedDate
                 tz (Some (StudyPlanner.form_date values
                           - StudyPlanner.msPerDay))
                 (StudyPlanner.studySessions o)).
Proof.
  intros tz uid sessions st values Htz o. subst o.
  eexists. split; [reflexivity|].
  rewrite !PlannerRunFacts.selected_iff.
  cbn [StudyPlanner.toSession StudyPlanner.date StudyPlanner.db_date
       StudyPlanner.submitRow StudyPlanner.new_date].
  rewrite PlannerRunFacts.localDay_west by exact Htz.
  rewrite PlannerRunFacts.localDay_previous.
  unfold StudyPlanner.format_yyyy_MM_dd, StudyPlanner.localDay.
  split.
  - intros [_ H]. lia.
  - split; [now left|reflexivity].
Qed.

(** A session created in UTC-05:00. *)
Lemma created_session_is_listed_a_day_early_west_of_greenwich_witness :
  let values :=
    {| StudyPlanner.form_subject := Js.lit "Physics";
       StudyPlanner.form_topic := Js.lit "Optics";
       StudyPlanner.form_date := StudyPlanner.newDate 19792 - Samples.newYork;
       StudyPlanner.form_startTime := Js.lit "10:00";
       StudyPlanner.form_duration := Js.lit "1 hour";
       StudyPlanner.form_notes := None |} in
  let o := StudyPlanner.onSubmit Samples.newYork (Some 1%N) []
                                 Samples.sampleStore true values in
  exists s,
    StudyPlanner.studySessions o = s :: []
    /\ ~ In s (StudyPlanner.sessionsForSelectedDate
                 Samples.newYork (Some (StudyPlanner.form_date values))
                 (StudyPlanner.studySessions o))
    /\ In s (StudyPlanner.sessionsForSelectedDate
               Samples.newYork
               (Some (StudyPlanner.form_date values - StudyPlanner.msPerDay))
               (StudyPlanner.studySessions o)).
Proof.
  intros values o.
  apply (@created_session_is_listed_a_day_early_west_of_greenwich
           Samples.newYork 1%N [] Samples.sampleStore values).
  vm_compute. split; [discriminate|reflexivity].
Defined.

(* ================================================================== *)
(** * Properties: durations *)
(* ================================================================== *)

Module MinutesFacts.
Import Js Regex StudyPlanner.

(** The continuation that ends a match. *)
Definition done : jsstring -> list jsstring -> option (jsstring * list jsstring) :=
  fun rest caps => Some (rest, caps).

(** What follows the number in the patterns for hours and minutes. *)
Definition hourTail : regex :=
  Seq optSpaces (Seq (text_i "hour") (Opt (Class (chr_i "s")))).

Definition minuteTail : regex :=
  Seq optSpaces (Seq (text_i "minute") (Opt (Class (chr_i "s")))).

Definition noDigitAhead (r : jsstring) : Prop :=
  match r with c :: _ => isDigit c = false | [] => True end.

(** A greedy run of digits before a continuation that cannot start at a
    digit ends where the digits end. *)
Lemma star_digits (R : Type) (k : jsstring -> option R) (ds r : jsstring) :
  Forall (fun c => isDigit c = true) ds ->
  noDigitAhead r ->
  (forall c rest, isDigit c = true -> k (c :: rest) = None) ->
  star isDigit k (ds ++ r) = k r.
Proof.
  intros Hds Hr Hk. induction Hds as [|c ds Hc _ IH].
  - destruct r as [|c r]; [reflexivity|]. cbn in *. now rewrite Hr.
  - cbn [app star]. rewrite Hc, IH.
    destruct (k r) eqn:E; [reflexivity|]. now apply Hk.
Qed.

Lemma firstn_before (a r : jsstring) :
  firstn (length (a ++ r) - length r) (a ++ r) = a.
Proof.
  rewrite length_app.
  replace (length a + length r - length r)%nat with (length a + 0)%nat by lia.
  rewrite firstn_app_2. cbn. apply app_nil_r.
Qed.

Lemma digit_classes (d : N) :
  isDigit d = true ->
  isSpace d = false /\ chr_i "h" d = false /\ chr_i "m" d = false
  /\ chr "." d = false.
Proof.
  intro H. split; [now apply JsFacts.digit_not_space|].
  unfold isDigit, between in H. apply andb_prop in H as [H1 H2].
  apply N.leb_le in H1, H2.
  unfold chr_i, chr, lowerAscii, isUpper, between.
  repeat split;
    repeat match goal with
    | |- context [N.leb ?a ?b] => destruct (N.leb_spec a b)
    end; cbn [andb]; apply N.eqb_neq; cbn; lia.
Qed.

Lemma hourTail_digit (d : N) (rest : jsstring) (caps : list jsstring) :
  isDigit d = true -> run hourTail (d :: rest) caps done = None.
Proof.
  intro H. apply digit_classes in H as (Hs & Hh & _).
  cbn. now rewrite Hs, Hh.
Qed.

Lemma minuteTail_digit (d : N) (rest : jsstring) (caps : list jsstring) :
  isDigit d = true -> run minuteTail (d :: rest) caps done = None.
Proof.
  intro H. apply digit_classes in H as (Hs & _ & Hm & _).
  cbn. now rewrite Hs, Hm.
Qed.

(** A pattern [(\d+)T] at a run of digits: the number is the whole run,
    and [T] decides. *)
Lemma matchAt_number (T : regex) (c : N) (ds r : jsstring) :
  isDigit c = true ->
  Forall (fun c => isDigit c = true) ds ->
  noDigitAhead r ->
  (forall d rest caps, isDigit d = true -> run T (d :: rest) caps done = None) ->
  matchAt (Seq (Group (Plus isDigit)) T) (c :: ds ++ r)
  = run T r [c :: ds] done.
Proof.
  intros Hc Hds Hr HT. unfold matchAt. cbn [run]. rewrite Hc.
  rewrite star_digits by auto.
  change (c :: ds ++ r) with ((c :: ds) ++ r).
  now rewrite (firstn_before (c :: ds) r).
Qed.

Lemma matchAt_no_number (G T : regex) (c : N) (rest : jsstring) :
  isDigit c = false ->
  matchAt (Seq (Group (Plus isDigit)) T) (c :: rest) = None
  /\ matchAt (Seq (Group (Seq (Plus isDigit) G)) T) (c :: rest) = None.
Proof. intro H. unfold matchAt. cbn [run]. now rewrite H. Qed.

(** The same for [(\d+\.5)T]. *)
Lemma matchAt_half (T : regex) (c : N) (ds r : jsstring) :
  isDigit c = true ->
  Forall (fun c => isDigit c = true) ds ->
  noDigitAhead r ->
  matchAt (Seq (Group (Seq (Plus isDigit) (text ".5"))) T) (c :: ds ++ r)
  = run (text ".5") r []
        (fun s' caps' =>
           run T s'
               (caps' ++ [firstn (length (c :: ds ++ r) - length s')
                                 (c :: ds ++ r)]) done).
Proof.
  intros Hc Hds Hr. unfold matchAt. cbn [run]. rewrite Hc.
  rewrite star_digits; auto.
  intros d rest Hd. apply digit_classes in Hd as (_ & _ & _ & Hp).
  cbn [text str list_ascii_of_string run]. now rewrite Hp.
Qed.

(** Where the tail fails after the digits, no match starts in them. *)
Lemma execFrom_number_skip (T : regex) (ds r : jsstring) (i : nat) :
  Forall (fun c => isDigit c = true) ds ->
  noDigitAhead r ->
  (forall d rest caps, isDigit d = true -> run T (d :: rest) caps done = None) ->
  (forall caps, run T r caps done = None) ->
  execFrom (Seq (Group (Plus isDigit)) T) i (ds ++ r)
  = execFrom (Seq (Group (Plus isDigit)) T) (i + length ds) r.
Proof.
  intros Hds Hr HT Hfail. revert i.
  induction Hds as [|c ds Hc Hds IH]; intro i.
  - cbn [app length]. now rewrite Nat.add_0_r.
  - cbn [app execFrom]. rewrite matchAt_number by assumption.
    rewrite Hfail, IH. cbn [length]. f_equal. lia.
Qed.

Lemma execFrom_half_skip (T : regex) (ds r : jsstring) (i : nat) :
  Forall (fun c => isDigit c = true) ds ->
  noDigitAhead r ->
  (forall k : jsstring -> list jsstring -> option (jsstring * list jsstring),
      run (text ".5") r [] k = None) ->
  execFrom (Seq (Group (Seq (Plus isDigit) (text ".5"))) T) i (ds ++ r)
  = execFrom (Seq (Group (Seq (Plus isDigit) (text ".5"))) T)
             (i + length ds) r.
Proof.
  intros Hds Hr Hfail. revert i.
  induction Hds as [|c ds Hc Hds IH]; intro i.
  - cbn [app length]. now rewrite Nat.add_0_r.
  - cbn [app execFrom]. rewrite matchAt_half by assumption.
    rewrite Hfail, IH. cbn [length]. f_equal. lia.
Qed.

(** The decimal text of a positive integer. *)
Definition decimal (p : positive) : jsstring := toString (Int (Zpos p)).

Lemma decimal_cons (p : positive) :
  exists c ds, decimal p = c :: ds /\ isDigit c = true
               /\ Forall (fun c => isDigit c = true) ds.
Proof.
  unfold decimal, toString.
  pose proof (JsFacts.codes_nonempty p) as Hne.
  pose proof (JsFacts.codes_are_digits (Pos.to_uint p)) as Hd.
  destruct (codes_of_uint (Pos.to_uint p)) as [|c ds]; [congruence|].
  inversion Hd; subst. now exists c, ds.
Qed.

Lemma parseInt_decimal (p : positive) :
  JsNum.parseInt (decimal p) = JsNum.to_float (Zpos p).
Proof.
  unfold JsNum.parseInt, decimal, toString.
  pose proof (JsFacts.codes_nonempty p) as Hne.
  pose proof (JsFacts.digits_value_pos p) as Hv.
  destruct (codes_of_uint (Pos.to_uint p)); [congruence|].
  now rewrite Hv.
Qed.

(** The sum of whole hours or whole minutes below [2^53] is exact. *)
Lemma hours_value (h : Z) :
  0 < h -> 60 * h < 2 ^ 53 ->
  JsNum.orDefault (0 + JsNum.to_float h * 60)%float 60%float
  = JsNum.to_float (60 * h).
Proof.
  intros H0 H1.
  change 60%float with (JsNum.to_float 60) at 1.
  change 0%float with (JsNum.to_float 0).
  rewrite FloatFacts.mul_int by lia.
  rewrite FloatFacts.add_int by lia.
  replace (0 + h * 60) with (60 * h) by lia.
  destruct (@FloatFacts.to_float_real (60 * h)) as [F V]; [lia|].
  apply FloatFacts.orDefault_fin; [exact F|].
  rewrite V. apply RIneq.IZR_lt. lia.
Qed.

Lemma minutes_value (m : Z) :
  0 < m < 2 ^ 53 ->
  JsNum.orDefault (0 + JsNum.to_float m)%float 60%float = JsNum.to_float m.
Proof.
  intros [H0 H1].
  change 0%float with (JsNum.to_float 0).
  rewrite FloatFacts.add_int by lia. cbn [Z.add].
  destruct (@FloatFacts.to_float_real m) as [F V]; [lia|].
  apply FloatFacts.orDefault_fin; [exact F|].
  rewrite V. apply RIneq.IZR_lt. lia.
Qed.

(** The first match of a [(\d+)T] pattern in [decimal p ++ r] when [T]
    accepts [r] entirely: the number is captured whole. *)
Lemma match_number (T : regex) (p : positive) (r : jsstring) :
  noDigitAhead r ->
  (forall d rest caps, isDigit d = true -> run T (d :: rest) caps done = None) ->
  (forall caps, run T r caps done = Some ([], caps)) ->
  option_map group1 (match_ (Seq (Group (Plus isDigit)) T) (decimal p ++ r))
  = Some (decimal p).
Proof.
  intros Hr HT Hok.
  destruct (decimal_cons p) as (c & ds & E & Hc & Hds). rewrite E.
  unfold match_. cbn [app execFrom].
  rewrite matchAt_number by assumption. now rewrite Hok.
Qed.

Lemma match_number_none (T : regex) (p : positive) (r : jsstring) :
  noDigitAhead r ->
  (forall d rest caps, isDigit d = true -> run T (d :: rest) caps done = None) ->
  (forall caps, run T r caps done = None) ->
  (forall i, execFrom (Seq (Group (Plus isDigit)) T) i r = None) ->
  match_ (Seq (Group (Plus isDigit)) T) (decimal p ++ r) = None.
Proof.
  intros Hr HT Hfail Hrest.
  destruct (decimal_cons p) as (c & ds & E & Hc & Hds).
  unfold match_. rewrite execFrom_number_skip; auto.
  rewrite E. now constructor.
Qed.

Lemma match_half_none (T : regex) (p : positive) (r : jsstring) :
  noDigitAhead r ->
  (forall k : jsstring -> list jsstring -> option (jsstring * list jsstring),
      run (text ".5") r [] k = None) ->
  (forall i,
      execFrom (Seq (Group (Seq (Plus isDigit) (text ".5"))) T) i r = None) ->
  match_ (Seq (Group (Seq (Plus isDigit) (text ".5"))) T) (decimal p ++ r)
  = None.
Proof.
  intros Hr Hfail Hrest.
  destruct (decimal_cons p) as (c & ds & E & Hc & Hds).
  unfold match_. rewrite execFrom_half_skip; auto.
  rewrite E. now constructor.
Qed.

(** The minutes of a text in which the hours pattern captures [h], the
    minutes pattern [m], and the half-hour pattern does not match. *)
Lemma extractMinutes_of (d : jsstring) (h m : option jsstring) :
  option_map group1 (match_ hourRe d) = h ->
  option_map group1 (match_ minuteRe d) = m ->
  match_ halfHourRe d = None ->
  extractMinutes d
  = JsNum.orDefault
      (match m with
       | Some t =>
           (match h with
            | Some t' => 0 + JsNum.parseInt t' * 60
            | None => 0
            end) + JsNum.parseInt t
       | None =>
           match h with
           | Some t' => 0 + JsNum.parseInt t' * 60
           | None => 0
           end
       end)%float 60%float.
Proof.
  intros Hh Hm Hf. unfold extractMinutes. rewrite Hf.
  destruct (match_ hourRe d), (match_ minuteRe d); cbn in Hh, Hm; subst;
    reflexivity.
Qed.

(** Where the tail fails after the digits, the first match is the first
    one in the rest of the text. *)
Lemma match_number_later (T : regex) (p : positive) (r t : jsstring) :
  noDigitAhead r ->
  (forall d rest caps, isDigit d = true -> run T (d :: rest) caps done = None) ->
  (forall caps, run T r caps done = None) ->
  (forall i,
      option_map group1 (execFrom (Seq (Group (Plus isDigit)) T) i r)
      = Some t) ->
  option_map group1 (match_ (Seq (Group (Plus isDigit)) T) (decimal p ++ r))
  = Some t.
Proof.
  intros Hr HT Hfail Hrest.
  destruct (decimal_cons p) as (c & ds & E & Hc & Hds).
  unfold match_. rewrite execFrom_number_skip; auto.
  rewrite E. now constructor.
Qed.

(** The half-hour pattern at [decimal p ++ ".5" ++ r] when the pattern
    for hours accepts [r] entirely. *)
Lemma match_half (p : positive) (r : jsstring) :
  (forall caps, run hourTail r caps done = Some ([], caps)) ->
  match_ halfHourRe (decimal p ++ lit ".5" ++ r) <> None.
Proof.
  intro Hok.
  destruct (decimal_cons p) as (c & ds & E & Hc & Hds). rewrite E.
  unfold match_, halfHourRe. cbn [app execFrom].
  fold hourTail.
  rewrite matchAt_half; [|assumption|assumption|reflexivity].
  cbn [text str list_ascii_of_string run lit map app].
  change (chr "." (N_of_ascii ".")) with true.
  change (chr "5" (N_of_ascii "5")) with true. cbv iota.
  rewrite Hok. discriminate.
Qed.

End MinutesFacts.

(** X7.  A whole number of hours or of minutes is read exactly as long
    as the minutes stay below [2^53]: for a positive integer [n] below
    [2^53] the texts [n minutes] and [n minute] are read as [n] minutes,
    and when [60 * n] is below [2^53] the texts [n hours] and [n hour]
    are read as [60 * n] minutes.  Beyond that the number is rounded to
    binary64: [9007199254740993 minutes] is read as 9007199254740992. *)
Theorem extractMinutes_reads_whole_hours_and_minutes :
  forall n : positive,
    Zpos n < 2 ^ 53 ->
    let text := Js.toString (Js.Int (Zpos n)) in
    StudyPlanner.extractMinutes (text ++ Js.lit " minutes")
      = JsNum.to_float (Zpos n)
    /\ StudyPlanner.extractMinutes (text ++ Js.lit " minute")
       = JsNum.to_float (Zpos n)
    /\ (60 * Zpos n < 2 ^ 53 ->
        StudyPlanner.extractMinutes (text ++ Js.lit " hours")
          = JsNum.to_float (60 * Zpos n)
        /\ StudyPlanner.extractMinutes (text ++ Js.lit " hour")
           = JsNum.to_float (60 * Zpos n))
    /\ StudyPlanner.extractMinutes (Js.lit "9007199254740993 minutes")
       = JsNum.to_float 9007199254740992.
Proof.
  intros n Hn text. subst text.
  change (Js.toString (Js.Int (Zpos n))) with (MinutesFacts.decimal n).
  assert (Hh : forall d rest caps,
             Js.isDigit d = true ->
             Regex.run MinutesFacts.hourTail (d :: rest) caps MinutesFacts.done
             = None)
    by (intros; now apply MinutesFacts.hourTail_digit).
  assert (Hm : forall d rest caps,
             Js.isDigit d = true ->
             Regex.run MinutesFacts.minuteTail (d :: rest) caps
                       MinutesFacts.done = None)
    by (intros; now apply MinutesFacts.minuteTail_digit).
  split; [|split; [|split; [intro H60; split|]]].
  - rewrite (@MinutesFacts.extractMinutes_of _ None
               (Some (MinutesFacts.decimal n))).
    + rewrite MinutesFacts.parseInt_decimal.
      apply MinutesFacts.minutes_value. lia.
    + rewrite (@MinutesFacts.match_number_none MinutesFacts.hourTail);
        auto; reflexivity.
    + apply (@MinutesFacts.match_number MinutesFacts.minuteTail); auto;
        reflexivity.
    + apply MinutesFacts.match_half_none; reflexivity.
  - rewrite (@MinutesFacts.extractMinutes_of _ None
               (Some (MinutesFacts.decimal n))).
    + rewrite MinutesFacts.parseInt_decimal.
      apply MinutesFacts.minutes_value. lia.
    + rewrite (@MinutesFacts.match_number_none MinutesFacts.hourTail);
        auto; reflexivity.
    + apply (@MinutesFacts.match_number MinutesFacts.minuteTail); auto;
        reflexivity.
    + apply MinutesFacts.match_half_none; reflexivity.
  - rewrite (@MinutesFacts.extractMinutes_of _ (Some (MinutesFacts.decimal n))
               None).
    + rewrite MinutesFacts.parseInt_decimal.
      apply MinutesFacts.hours_value; lia.
    + apply (@MinutesFacts.match_number MinutesFacts.hourTail); auto;
        reflexivity.
    + rewrite (@MinutesFacts.match_number_none MinutesFacts.minuteTail);
        auto; reflexivity.
    + apply MinutesFacts.match_half_none; reflexivity.
  - rewrite (@MinutesFacts.extractMinutes_of _ (Some (MinutesFacts.decimal n))
               None).
    + rewrite MinutesFacts.parseInt_decimal.
      apply MinutesFacts.hours_value; lia.
    + apply (@MinutesFacts.match_number MinutesFacts.hourTail); auto;
        reflexivity.
    + rewrite (@MinutesFacts.match_number_none MinutesFacts.minuteTail);
        auto; reflexivity.
    + apply MinutesFacts.match_half_none; reflexivity.
  - vm_compute. reflexivity.
Qed.

(** X7 at ninety: [90 minutes] is 90 and [90 hours] is 5400. *)
Lemma extractMinutes_reads_whole_hours_and_minutes_witness :
  StudyPlanner.extractMinutes (Js.lit "90 minutes") = 90%float
  /\ StudyPlanner.extractMinutes (Js.lit "90 hours") = 5400%float.
Proof.
  destruct (@extractMinutes_reads_whole_hours_and_minutes 90%positive)
    as (H1 & _ & H2 & _); [vm_compute; reflexivity|].
  split; [exact H1|]. apply H2. vm_compute. reflexivity.
Defined.

(** X8.  Every duration of the form [n.5 hours] is read as 330 minutes,
    whatever [n] is: the hours pattern finds no hours at [n], which a
    point follows, and matches at the [5] after the point (300 minutes),
    and the half-hour pattern adds 30. *)
Theorem extractMinutes_reads_every_half_hour_as_330 :
  forall n : positive,
    StudyPlanner.extractMinutes
      (Js.toString (Js.Int (Zpos n)) ++ Js.lit ".5 hours")
    = 330%float.
Proof.
  intro n.
  change (Js.toString (Js.Int (Zpos n))) with (MinutesFacts.decimal n).
  assert (Hh : option_map StudyPlanner.group1
                 (Regex.match_ StudyPlanner.hourRe
                    (MinutesFacts.decimal n ++ Js.lit ".5 hours"))
               = Some (Js.lit "5")).
  { apply (@MinutesFacts.match_number_later MinutesFacts.hourTail);
      try reflexivity.
    intros; now apply MinutesFacts.hourTail_digit. }
  assert (Hm : Regex.match_ StudyPlanner.minuteRe
                 (MinutesFacts.decimal n ++ Js.lit ".5 hours") = None).
  { apply (@MinutesFacts.match_number_none MinutesFacts.minuteTail);
      try reflexivity.
    intros; now apply MinutesFacts.minuteTail_digit. }
  pose proof (@MinutesFacts.match_half n (Js.lit " hours")
                (fun caps => eq_refl)) as Hf.
  change (Js.lit ".5" ++ Js.lit " hours") with (Js.lit ".5 hours") in Hf.
  unfold StudyPlanner.extractMinutes. rewrite Hm.
  destruct (Regex.match_ StudyPlanner.hourRe
              (MinutesFacts.decimal n ++ Js.lit ".5 hours")) as [m|];
    [|discriminate].
  cbn in Hh. injection Hh as Hh. rewrite Hh.
  destruct (Regex.match_ StudyPlanner.halfHourRe
              (MinutesFacts.decimal n ++ Js.lit ".5 hours"));
    [vm_compute; reflexivity|congruence].
Qed.

(* ================================================================== *)
(** * Properties: the study mode *)
(* ================================================================== *)

Module StudyFacts.
Import Js Flashcards FlashcardStudyMode.

Definition inRange (deck : FlashcardDeck) (s : state) : Prop :=
  0 <= currentCardIndex s < cardCount deck.

Lemma inRange_perform (deck : FlashcardDeck) (s : state) (a : action) :
  inRange deck s -> inRange deck (perform deck s a).
Proof.
  unfold inRange. intro H. destruct a; cbn; [| |exact H].
  - destruct (Z.ltb_spec (currentCardIndex s) (cardCount deck - 1)); lia.
  - destruct (Z.ltb_spec 0 (currentCardIndex s)); lia.
Qed.

Lemma inRange_fold (deck : FlashcardDeck) (l : list action) (s : state) :
  inRange deck s -> inRange deck (fold_left (perform deck) l s).
Proof.
  revert s. induction l as [|a l IH]; intros s H; [exact H|].
  cbn [fold_left]. apply IH. now apply inRange_perform.
Qed.

Lemma currentCard_inRange (deck : FlashcardDeck) (s : state) :
  inRange deck s ->
  exists card, currentCard deck s = Some card /\ In card (flashcards deck).
Proof.
  unfold inRange, currentCard, element, cardCount. intros [H0 H1].
  destruct (Z.ltb_spec (currentCardIndex s)
                       (Z.of_nat (length (flashcards deck)))); [|lia].
  destruct (Z.ltb_spec (currentCardIndex s) 0); [lia|].
  destruct (nth_error (flashcards deck) (Z.to_nat (currentCardIndex s)))
    as [card|] eqn:E.
  - exists card. split; [reflexivity|]. eapply nth_error_In; exact E.
  - apply nth_error_None in E. lia.
Qed.

Lemma next_index (deck : FlashcardDeck) (s : state) :
  inRange deck s ->
  currentCardIndex (handleNext deck s)
  = (currentCardIndex s + 1) mod cardCount deck.
Proof.
  unfold inRange. intro H. cbn.
  destruct (Z.ltb_spec (currentCardIndex s) (cardCount deck - 1)).
  - symmetry. apply Z.mod_small. lia.
  - replace (currentCardIndex s + 1) with (cardCount deck) by lia.
    symmetry. apply Z.mod_same. lia.
Qed.

Lemma nexts_index (deck : FlashcardDeck) (k : nat) (s : state) :
  inRange deck s ->
  currentCardIndex (fold_left (perform deck) (repeat Next k) s)
  = (currentCardIndex s + Z.of_nat k) mod cardCount deck.
Proof.
  revert s. induction k as [|k IH]; intros s H.
  - cbn. rewrite Z.add_0_r. symmetry. apply Z.mod_small. exact H.
  - cbn [repeat fold_left perform].
    rewrite IH by (exact (@inRange_perform deck s Next H)).
    rewrite next_index by exact H.
    rewrite Zplus_mod_idemp_l. f_equal. lia.
Qed.

End StudyFacts.

(** X9.  In the study mode of a deck that has a card (the Study button
    is offered for such decks only), whatever buttons are pressed, the
    index stays within the deck and a card of the deck is shown. *)
Theorem study_mode_always_shows_a_card :
  forall (deck : Flashcards.FlashcardDeck)
         (l : list FlashcardStudyMode.action),
    Flashcards.flashcards deck <> [] ->
    let s := FlashcardStudyMode.runActions deck l in
    0 <= FlashcardStudyMode.currentCardIndex s
      < Z.of_nat (length (Flashcards.flashcards deck))
    /\ exists card,
         FlashcardStudyMode.currentCard deck s = Some card
         /\ In card (Flashcards.flashcards deck).
Proof.
  intros deck l Hne s.
  assert (H : StudyFacts.inRange deck s).
  { apply StudyFacts.inRange_fold. unfold StudyFacts.inRange.
    unfold FlashcardStudyMode.cardCount. cbn.
    destruct (Flashcards.flashcards deck); [congruence|]. cbn [length]. lia. }
  split; [exact H|]. now apply StudyFacts.currentCard_inRange.
Qed.

(** Next, Next, click, Previous in a deck of two cards. *)
Lemma study_mode_always_shows_a_card_witness :
  let s := FlashcardStudyMode.runActions StudySamples.twoCardDeck
             [FlashcardStudyMode.Next; FlashcardStudyMode.Next;
              FlashcardStudyMode.Flip; FlashcardStudyMode.Previous] in
  0 <= FlashcardStudyMode.currentCardIndex s
    < Z.of_nat (length (Flashcards.flashcards StudySamples.twoCardDeck))
  /\ exists card,
       FlashcardStudyMode.currentCard StudySamples.twoCardDeck s = Some card
       /\ In card (Flashcards.flashcards StudySamples.twoCardDeck).
Proof.
  apply (@study_mode_always_shows_a_card StudySamples.twoCardDeck).
  discriminate.
Defined.

(** X10.  In a deck of [n >= 1] cards the Next button walks through the
    deck in a circle: pressed [k] times from the first card it shows
    card number [k mod n]; and from any card, Previous after Next and
    Next after Previous come back to it, showing its front. *)
Theorem study_mode_walks_in_a_circle :
  forall deck : Flashcards.FlashcardDeck,
    Flashcards.flashcards deck <> [] ->
    (forall k : nat,
        FlashcardStudyMode.currentCardIndex
          (FlashcardStudyMode.runActions deck
             (repeat FlashcardStudyMode.Next k))
        = Z.of_nat k mod Z.of_nat (length (Flashcards.flashcards deck)))
    /\ (forall s : FlashcardStudyMode.state,
           0 <= FlashcardStudyMode.currentCardIndex s
             < Z.of_nat (length (Flashcards.flashcards deck)) ->
           let back :=
             {| FlashcardStudyMode.currentCardIndex :=
                  FlashcardStudyMode.currentCardIndex s;
                FlashcardStudyMode.isFlipped := false |} in
           FlashcardStudyMode.handlePrevious deck
             (FlashcardStudyMode.handleNext deck s) = back
           /\ FlashcardStudyMode.handleNext deck
                (FlashcardStudyMode.handlePrevious deck s) = back).
Proof.
  intros deck Hne.
  assert (Hn : 0 < FlashcardStudyMode.cardCount deck).
  { unfold FlashcardStudyMode.cardCount.
    destruct (Flashcards.flashcards deck); [congruence|]. cbn [length]. lia. }
  split.
  - intro k. unfold FlashcardStudyMode.runActions.
    rewrite StudyFacts.nexts_index by (unfold StudyFacts.inRange; cbn; lia).
    reflexivity.
  - intros s Hs back. subst back.
    fold (FlashcardStudyMode.cardCount deck) in Hs.
    unfold FlashcardStudyMode.handlePrevious, FlashcardStudyMode.handleNext.
    cbn [FlashcardStudyMode.currentCardIndex].
    split; f_equal.
    + destruct (Z.ltb_spec (FlashcardStudyMode.currentCardIndex s)
                           (FlashcardStudyMode.cardCount deck - 1)).
      * destruct (Z.ltb_spec 0 (FlashcardStudyMode.currentCardIndex s + 1));
          lia.
      * cbn. lia.
    + destruct (Z.ltb_spec 0 (FlashcardStudyMode.currentCardIndex s)).
      * destruct (Z.ltb_spec (FlashcardStudyMode.currentCardIndex s - 1)
                             (FlashcardStudyMode.cardCount deck - 1)); lia.
      * destruct (Z.ltb_spec (FlashcardStudyMode.cardCount deck - 1)
                             (FlashcardStudyMode.cardCount deck - 1)); lia.
Qed.

(** The deck of two cards: five presses of Next show the second card. *)
Lemma study_mode_walks_in_a_circle_witness :
  let deck := StudySamples.twoCardDeck in
  (forall k : nat,
      FlashcardStudyMode.currentCardIndex
        (FlashcardStudyMode.runActions deck
           (repeat FlashcardStudyMode.Next k))
      = Z.of_nat k mod Z.of_nat (length (Flashcards.flashcards deck)))
  /\ (forall s : FlashcardStudyMode.state,
         0 <= FlashcardStudyMode.currentCardIndex s
           < Z.of_nat (length (Flashcards.flashcards deck)) ->
         let back :=
           {| FlashcardStudyMode.currentCardIndex :=
                FlashcardStudyMode.currentCardIndex s;
              FlashcardStudyMode.isFlipped := false |} in
         FlashcardStudyMode.handlePrevious deck
           (FlashcardStudyMode.handleNext deck s) = back
         /\ FlashcardStudyMode.handleNext deck
              (FlashcardStudyMode.handlePrevious deck s) = back).
Proof.
  apply (@study_mode_walks_in_a_circle StudySamples.twoCardDeck).
  discriminate.
Defined.

(* ================================================================== *)
(** * Properties: decks and their rows in the store *)
(* ================================================================== *)

Module DeckStoreFacts.
Import Js Flashcards.

Lemma cardId_eqb_eq (a b : cardId) : cardId_eqb a b = true <-> a = b.
Proof.
  destruct a as [x|x], b as [y|y]; cbn; split; try discriminate.
  - intro H. apply N.eqb_eq in H. now subst.
  - intro H. injection H as ->. apply N.eqb_refl.
  - intro H. apply Z.eqb_eq in H. now subst.
  - intro H. injection H as ->. apply Z.eqb_refl.
Qed.

Lemma cardId_eqb_refl (a : cardId) : cardId_eqb a a = true.
Proof. now apply cardId_eqb_eq. Qed.

Lemma hasId_true (c : cardId) (l : list Flashcard) :
  hasId c l = true <-> In c (map id l).
Proof.
  unfold hasId. rewrite existsb_exists, in_map_iff. split.
  - intros [x [Hx E]]. apply cardId_eqb_eq in E. now exists x.
  - intros [x [E Hx]]. exists x. split; [exact Hx|]. now apply cardId_eqb_eq.
Qed.

Lemma hasId_false (c : cardId) (l : list Flashcard) :
  hasId c l = false <-> ~ In c (map id l).
Proof.
  rewrite <- hasId_true. destruct (hasId c l); split; congruence.
Qed.

Lemma filter_all (A : Type) (p : A -> bool) (l : list A) :
  (forall x, In x l -> p x = true) -> filter p l = l.
Proof.
  induction l as [|x l IH]; intro H; [reflexivity|].
  cbn [filter]. rewrite H by now left.
  f_equal. apply IH. intros y Hy. apply H. now right.
Qed.

Lemma filter_none (A : Type) (p : A -> bool) (l : list A) :
  (forall x, In x l -> p x = false) -> filter p l = [].
Proof.
  induction l as [|x l IH]; intro H; [reflexivity|].
  cbn [filter]. rewrite H by now left.
  apply IH. intros y Hy. apply H. now right.
Qed.

(** What a bulk insert leaves in the table and hands back. *)
Lemma insertCards_rows (deck : deckId) (cards : list (jsstring * jsstring))
      (st : store) :
  cardRows (snd (insertCards deck cards st))
  = cardRows st ++ fst (insertCards deck cards st)
  /\ deckRows (snd (insertCards deck cards st)) = deckRows st.
Proof.
  revert st. induction cards as [|[f b] cards IH]; intro st.
  - cbn. now rewrite app_nil_r.
  - cbn [insertCards].
    match goal with
    | |- context [insertCards deck cards ?s] =>
        destruct (IH s) as [IH1 IH2];
        destruct (insertCards deck cards s) as [rows st']
    end.
    cbn [fst snd cardRows deckRows] in *. rewrite IH1, IH2.
    now rewrite <- app_assoc.
Qed.

Lemma insertCards_fresh (deck : deckId) (cards : list (jsstring * jsstring))
      (st : store) (r : CardRow) :
  In r (fst (insertCards deck cards st)) -> (nextId st <= card_row_id r)%N.
Proof.
  revert st. induction cards as [|[f b] cards IH]; intros st H; [destruct H|].
  cbn [insertCards] in H.
  match type of H with
  | context [insertCards deck cards ?s] =>
      specialize (IH s); destruct (insertCards deck cards s) as [rows st']
  end.
  cbn [fst] in *. destruct H as [<-|H].
  - cbn. lia.
  - apply IH in H. cbn [nextId] in H. lia.
Qed.

Lemma insertCards_content (deck : deckId) (cards : list (jsstring * jsstring))
      (st : store) :
  map (fun r => (card_row_deck_id r, card_row_front r, card_row_back r))
      (fst (insertCards deck cards st))
  = map (fun c => (deck, fst c, snd c)) cards.
Proof.
  revert st. induction cards as [|[f b] cards IH]; intro st; [reflexivity|].
  cbn [insertCards].
  match goal with
  | |- context [insertCards deck cards ?s] =>
      specialize (IH s); destruct (insertCards deck cards s) as [rows st']
  end.
  cbn [fst map] in *. now rewrite IH.
Qed.

Lemma updateCards_length (cards : list Flashcard) (ou : nat) (st st' : store) :
  updateCards cards ou st = Some st' ->
  length (cardRows st') = length (cardRows st).
Proof.
  revert ou st. induction cards as [|c cards IH]; intros ou st H.
  - cbn in H. now injection H as <-.
  - cbn [updateCards] in H. destruct ou as [|ou]; [discriminate|].
    apply IH in H. rewrite H. cbn. apply length_map.
Qed.

(** Cards of a list without repeated identifiers. *)
Lemma same_id_same_card (l : list Flashcard) (a b : Flashcard) :
  NoDup (map id l) -> In a l -> In b l -> id a = id b -> a = b.
Proof.
  induction l as [|x l IH]; intros Hn Ha Hb E; [destruct Ha|].
  cbn [map] in Hn. inversion Hn as [|? ? Hx Hl]; subst.
  destruct Ha as [->|Ha], Hb as [->|Hb]; auto.
  - exfalso. apply Hx. rewrite E. now apply in_map.
  - exfalso. apply Hx. rewrite <- E. now apply in_map.
Qed.

Lemma unchanged_in (l : list Flashcard) (c : Flashcard) :
  NoDup (map id l) -> In c l -> changedIn c l = false.
Proof.
  intros Hn Hc. unfold changedIn.
  destruct (existsb _ l) eqn:E; [|reflexivity].
  apply existsb_exists in E as [o [Ho E]].
  apply andb_prop in E as [E1 E2]. apply cardId_eqb_eq in E1.
  rewrite (same_id_same_card l o c Hn Ho Hc E1) in E2.
  now rewrite !JsFacts.str_eqb_refl in E2.
Qed.

Lemma unchanged_absent (l : list Flashcard) (c : Flashcard) :
  ~ In (id c) (map id l) -> changedIn c l = false.
Proof.
  intro Hc. unfold changedIn.
  destruct (existsb _ l) eqn:E; [|reflexivity].
  apply existsb_exists in E as [o [Ho E]].
  apply andb_prop in E as [E1 _]. apply cardId_eqb_eq in E1.
  exfalso. apply Hc. rewrite <- E1. now apply in_map.
Qed.

(** [handleUpdateDeck] on a deck that adds [extra] to the cards of the
    deck of the list and changes none: [extra] is inserted, nothing
    else is asked of the store. *)
Lemma update_adding (closure : view) (st : store) (od : bool) (ou : nat)
      (orig : FlashcardDeck) (total : nat) (extra : list Flashcard) :
  find (fun deck => N.eqb (deck_id deck) (deck_id orig)) (decks closure)
    = Some orig ->
  NoDup (map id (flashcards orig)) ->
  (forall c, In c extra -> ~ In (id c) (map id (flashcards orig))) ->
  extra <> [] ->
  let u := withCards orig total (flashcards orig ++ extra) in
  handleUpdateDeck closure st true od ou u
  = ({| decks := map (fun deck => if N.eqb (deck_id deck) (deck_id orig)
                                  then u else deck) (decks closure);
        selectedDeck := Some u |},
     snd (insertCards (deck_id orig)
                      (map (fun c => (front c, back c)) extra) st)).
Proof.
  intros Hf Hn Hx Hne u. unfold handleUpdateDeck.
  cbn [deck_id withCards u flashcards]. rewrite Hf.
  rewrite filter_app.
  rewrite (filter_none _ (flashcards orig)).
  2:{ intros c Hc. apply negb_false_iff. apply hasId_true. now apply in_map. }
  rewrite (filter_all _ extra).
  2:{ intros c Hc. apply negb_true_iff. apply hasId_false. now apply Hx. }
  cbn [app].
  rewrite (filter_none _ (flashcards orig)).
  2:{ intros c Hc. apply negb_false_iff. apply hasId_true.
      rewrite map_app. apply in_or_app. left. now apply in_map. }
  cbn [map].
  rewrite filter_app.
  rewrite (filter_none _ (flashcards orig))
    by (intros c Hc; now apply unchanged_in).
  rewrite (filter_none _ extra)
    by (intros c Hc; apply unchanged_absent; now apply Hx).
  cbn [app updateCards].
  destruct extra as [|e extra]; [congruence|]. reflexivity.
Qed.

(** [handleUpdateDeck] on a deck that keeps the cards [p] accepts of the
    deck of the list, unchanged: the others are deleted, nothing else is
    asked of the store; when the delete is refused nothing changes. *)
Lemma update_removing (closure : view) (st : store) (oi od : bool) (ou : nat)
      (orig : FlashcardDeck) (total : nat) (p : Flashcard -> bool) :
  find (fun deck => N.eqb (deck_id deck) (deck_id orig)) (decks closure)
    = Some orig ->
  NoDup (map id (flashcards orig)) ->
  filter (fun c => negb (p c)) (flashcards orig) <> [] ->
  let u := withCards orig total (filter p (flashcards orig)) in
  handleUpdateDeck closure st oi od ou u
  = if od
    then ({| decks := map (fun deck => if N.eqb (deck_id deck) (deck_id orig)
                                       then u else deck) (decks closure);
             selectedDeck := Some u |},
          deleteCards
            (map id (filter (fun c => negb (p c)) (flashcards orig))) st)
    else (closure, st).
Proof.
  intros Hf Hn Hne u. unfold handleUpdateDeck.
  cbn [deck_id withCards u flashcards]. rewrite Hf.
  rewrite (filter_none _ (filter p (flashcards orig))).
  2:{ intros c Hc. apply filter_In in Hc as [Hc _].
      apply negb_false_iff. apply hasId_true. now apply in_map. }
  assert (E : filter (fun origCard =>
                        negb (hasId (id origCard) (filter p (flashcards orig))))
                     (flashcards orig)
              = filter (fun c => negb (p c)) (flashcards orig)).
  { apply filter_ext_in. intros c Hc. f_equal.
    destruct (p c) eqn:Ep.
    - apply hasId_true. apply in_map. apply filter_In. now split.
    - apply hasId_false. intro H. apply in_map_iff in H as [o [E Ho]].
      apply filter_In in Ho as [Ho Epo].
      rewrite (same_id_same_card (flashcards orig) o c Hn Ho Hc E) in Epo.
      congruence. }
  rewrite E.
  rewrite (filter_none _ (filter p (flashcards orig))).
  2:{ intros c Hc. apply filter_In in Hc as [Hc _]. now apply unchanged_in. }
  cbn [updateCards].
  destruct (filter (fun c => negb (p c)) (flashcards orig)) as [|x xs];
    [congruence|].
  destruct od; reflexivity.
Qed.

Lemma insertCards_pairs (deck : deckId) (cards : list (jsstring * jsstring))
      (st : store) :
  map (fun r => (card_row_front r, card_row_back r))
      (fst (insertCards deck cards st))
  = cards.
Proof.
  revert st. induction cards as [|[f b] cards IH]; intro st; [reflexivity|].
  cbn [insertCards].
  match goal with
  | |- context [insertCards deck cards ?s] =>
      specialize (IH s); destruct (insertCards deck cards s) as [rows st']
  end.
  cbn [fst map] in *. now rewrite IH.
Qed.

(** What a row holds besides its identifier. *)
Definition rowContent (r : CardRow) : deckId * jsstring * jsstring :=
  (card_row_deck_id r, card_row_front r, card_row_back r).

Lemma deleteCards_one (n : N) (ids : list cardId) (st : store) :
  ids <> [] -> (forall c, In c ids -> c = Uuid n) ->
  cardRows (deleteCards ids st)
  = filter (fun r => negb (N.eqb (card_row_id r) n)) (cardRows st).
Proof.
  intros Hne Hall. cbn [deleteCards cardRows].
  apply filter_ext. intro r. f_equal.
  destruct (N.eqb (card_row_id r) n) eqn:E.
  - apply existsb_exists. destruct ids as [|c ids]; [congruence|].
    exists c. split; [now left|]. rewrite (Hall c) by now left. exact E.
  - destruct (existsb _ ids) eqn:Ex; [|reflexivity].
    apply existsb_exists in Ex as [c [Hc Hn]].
    rewrite (Hall c Hc) in Hn. cbn in Hn. congruence.
Qed.

Lemma deleteCards_stamps (ids : list cardId) (st : store) :
  (forall c, In c ids -> exists t, c = Stamp t) ->
  cardRows (deleteCards ids st) = cardRows st.
Proof.
  intro Hall. cbn [deleteCards cardRows].
  apply filter_all. intros r _. apply negb_true_iff.
  destruct (existsb _ ids) eqn:Ex; [|reflexivity].
  apply existsb_exists in Ex as [c [Hc Hn]].
  destruct (Hall c Hc) as [t ->]. discriminate.
Qed.

Lemma find_replaced (decks : list FlashcardDeck) (orig u : FlashcardDeck) :
  find (fun deck => N.eqb (deck_id deck) (deck_id orig)) decks = Some orig ->
  deck_id u = deck_id orig ->
  find (fun deck => N.eqb (deck_id deck) (deck_id u))
       (map (fun deck => if N.eqb (deck_id deck) (deck_id orig)
                         then u else deck) decks)
  = Some u.
Proof.
  intros Hf Hu. rewrite Hu.
  induction decks as [|d decks IH]; [discriminate|].
  cbn [find map] in *.
  destruct (N.eqb (deck_id d) (deck_id orig)) eqn:E.
  - now rewrite Hu, N.eqb_refl.
  - rewrite E. now apply IH.
Qed.

End DeckStoreFacts.

(** X11.  The generated cards reach the store twice.
    [handleAddGeneratedFlashcards] inserts them and hands the enlarged
    deck to [handleUpdateDeck], which finds them missing in the deck of
    the list and inserts them again: the table gains every generated
    card two times, while the deck shown gains it once. *)
Theorem generated_cards_reach_the_store_twice :
  forall (uid : N) (closure : Flashcards.view) (st : Flashcards.store)
         (sel : Flashcards.FlashcardDeck)
         (generated : list (Js.jsstring * Js.jsstring))
         (okDelete : bool) (okUpdates : nat),
    Flashcards.selectedDeck closure = Some sel ->
    find (fun deck => N.eqb (Flashcards.deck_id deck) (Flashcards.deck_id sel))
         (Flashcards.decks closure) = Some sel ->
    NoDup (map Flashcards.id (Flashcards.flashcards sel)) ->
    (forall n, In (Flashcards.Uuid n)
                  (map Flashcards.id (Flashcards.flashcards sel)) ->
               (n < Flashcards.nextId st)%N) ->
    generated <> [] ->
    let p := Flashcards.handleAddGeneratedFlashcards
               (Some uid) closure st true true okDelete okUpdates generated in
    let sent :=
      map (fun c => (Flashcards.deck_id sel, fst c, snd c)) generated in
    map DeckStoreFacts.rowContent (Flashcards.cardRows (snd p))
    = map DeckStoreFacts.rowContent (Flashcards.cardRows st) ++ sent ++ sent
    /\ exists d,
         Flashcards.selectedDeck (fst p) = Some d
         /\ length (Flashcards.flashcards d)
            = (length (Flashcards.flashcards sel) + length generated)%nat
         /\ Flashcards.totalCards d
            = (Flashcards.totalCards sel + length generated)%nat.
Proof.
  intros uid closure st sel generated od ou Hsel Hf Hn Hfresh Hne p sent.
  subst p. unfold Flashcards.handleAddGeneratedFlashcards. rewrite Hsel.
  destruct generated as [|g gs]; [congruence|].
  pose proof (DeckStoreFacts.insertCards_rows (Flashcards.deck_id sel)
                (g :: gs) st) as [Hrows _].
  pose proof (@DeckStoreFacts.insertCards_fresh (Flashcards.deck_id sel)
                (g :: gs) st) as Hids.
  pose proof (DeckStoreFacts.insertCards_content (Flashcards.deck_id sel)
                (g :: gs) st) as Hcont.
  pose proof (DeckStoreFacts.insertCards_pairs (Flashcards.deck_id sel)
                (g :: gs) st) as Hpairs.
  pose proof (FlashcardFacts.insertCards_length (Flashcards.deck_id sel)
                (g :: gs) st) as Hlen.
  destruct (Flashcards.insertCards (Flashcards.deck_id sel) (g :: gs) st)
    as [data st'].
  cbn [fst snd] in Hrows, Hids, Hcont, Hpairs, Hlen.
  rewrite (@DeckStoreFacts.update_adding closure st' od ou sel
             (Flashcards.totalCards sel
              + length (map (Flashcards.toCard (Flashcards.deck_subject sel))
                            data))
             (map (Flashcards.toCard (Flashcards.deck_subject sel)) data)
             Hf Hn).
  - cbn [fst snd Flashcards.selectedDeck].
    rewrite !map_map.
    cbn [Flashcards.front Flashcards.back Flashcards.toCard].
    rewrite Hpairs. split.
    + pose proof (DeckStoreFacts.insertCards_rows (Flashcards.deck_id sel)
                    (g :: gs) st') as [Hrows2 _].
      rewrite Hrows2, Hrows, !map_app.
      fold DeckStoreFacts.rowContent in Hcont.
      unfold DeckStoreFacts.rowContent at 3.
      rewrite Hcont, DeckStoreFacts.insertCards_content.
      now rewrite <- app_assoc.
    + eexists. split; [reflexivity|].
      cbn [Flashcards.flashcards Flashcards.totalCards Flashcards.withCards].
      rewrite length_app, !length_map, Hlen. split; reflexivity.
  - intros c Hc H. apply in_map_iff in Hc as [r [<- Hr]].
    cbn [Flashcards.id Flashcards.toCard] in H.
    apply Hfresh in H. apply Hids in Hr. lia.
  - destruct data; [discriminate Hlen|discriminate].
Qed.

(** Two generated cards added to a deck that was just created. *)
Lemma generated_cards_reach_the_store_twice_witness :
  let w := Flashcards.perform (Some 1%N) Flashcards.initial
             (Flashcards.CreateDeck true (Js.lit "Calculus") (Js.lit "Math")) in
  let p := Flashcards.handleAddGeneratedFlashcards
             (Some 1%N) (Flashcards.w_view w) (Flashcards.w_store w)
             true true true 0 FlashcardSamples.twoCards in
  let sent := map (fun c => (1%N, fst c, snd c)) FlashcardSamples.twoCards in
  map DeckStoreFacts.rowContent (Flashcards.cardRows (snd p))
  = map DeckStoreFacts.rowContent
        (Flashcards.cardRows (Flashcards.w_store w)) ++ sent ++ sent
  /\ exists d,
       Flashcards.selectedDeck (fst p) = Some d
       /\ length (Flashcards.flashcards d)
          = (0 + length FlashcardSamples.twoCards)%nat
       /\ Flashcards.totalCards d
          = (0 + length FlashcardSamples.twoCards)%nat.
Proof.
  intros w p sent.
  apply (@generated_cards_reach_the_store_twice 1%N (Flashcards.w_view w)
           (Flashcards.w_store w)
           {| Flashcards.deck_id := 1%N;
              Flashcards.name := Js.lit "Calculus";
              Flashcards.deck_subject := Js.lit "Math";
              Flashcards.totalCards := 0;
              Flashcards.flashcards := [] |}
           FlashcardSamples.twoCards true 0%nat).
  - reflexivity.
  - reflexivity.
  - constructor.
  - intros n [].
  - discriminate.
Defined.

(** X12.  A card made by hand cannot be deleted from the store before
    the page is reloaded.  The component knows the card by the time
    stamp it made up, the store by the identifier it assigned: deleting
    the card takes it from the deck shown (when the store answers the
    delete) and leaves its row in the table. *)
Theorem hand_made_card_stays_in_the_store_when_deleted :
  forall (user : option N) (w : Flashcards.world)
         (sel : Flashcards.FlashcardDeck) (now : Z) (f b : Js.jsstring)
         (od : bool) (ou : nat) (oi' od' : bool) (ou' : nat),
    Flashcards.selectedDeck (Flashcards.w_view w) = Some sel ->
    find (fun deck => N.eqb (Flashcards.deck_id deck) (Flashcards.deck_id sel))
         (Flashcards.decks (Flashcards.w_view w)) = Some sel ->
    NoDup (map Flashcards.id (Flashcards.flashcards sel)) ->
    ~ In (Flashcards.Stamp now)
         (map Flashcards.id (Flashcards.flashcards sel)) ->
    Js.truthy_str (Js.trim f) = true ->
    Js.truthy_str (Js.trim b) = true ->
    let card := {| Flashcards.id := Flashcards.Stamp now;
                   Flashcards.front := f;
                   Flashcards.back := b;
                   Flashcards.subject := Flashcards.deck_subject sel |} in
    let w1 := Flashcards.perform user w
                (Flashcards.CreateCard now f b true od ou) in
    let w2 := Flashcards.perform user w1
                (Flashcards.DeleteCard (Flashcards.Stamp now) oi' od' ou') in
    (exists d1,
        Flashcards.selectedDeck (Flashcards.w_view w1) = Some d1
        /\ Flashcards.flashcards d1 = Flashcards.flashcards sel ++ [card])
    /\ (od' = true ->
        exists d2,
          Flashcards.selectedDeck (Flashcards.w_view w2) = Some d2
          /\ Flashcards.flashcards d2 = Flashcards.flashcards sel)
    /\ Flashcards.cardRows (Flashcards.w_store w2)
       = Flashcards.cardRows (Flashcards.w_store w)
         ++ [ {| Flashcards.card_row_id :=
                   Flashcards.nextId (Flashcards.w_store w);
                 Flashcards.card_row_deck_id := Flashcards.deck_id sel;
                 Flashcards.card_row_front := f;
                 Flashcards.card_row_back := b |} ].
Proof.
  intros user w sel now f b od ou oi' od' ou' Hsel Hf Hn Hnew Hft Hbt
         card w1 w2.
  assert (Hc : Flashcards.handleCreateFlashcard sel now f b
               = Some (Flashcards.withCards sel (Flashcards.totalCards sel + 1)
                         (Flashcards.flashcards sel ++ [card]))).
  { unfold Flashcards.handleCreateFlashcard. now rewrite Hft, Hbt. }
  assert (E1 : w1
               = Flashcards.pack
                   (Flashcards.handleUpdateDeck
                      (Flashcards.w_view w) (Flashcards.w_store w) true od ou
                      (Flashcards.withCards sel (Flashcards.totalCards sel + 1)
                         (Flashcards.flashcards sel ++ [card])))).
  { subst w1. cbn [Flashcards.perform]. now rewrite Hsel, Hc. }
  rewrite (@DeckStoreFacts.update_adding _ _ od ou sel
             (Flashcards.totalCards sel + 1) [card] Hf Hn) in E1.
  2:{ intros c [<-|[]]. exact Hnew. }
  2:{ discriminate. }
  set (d1 := Flashcards.withCards sel (Flashcards.totalCards sel + 1)
               (Flashcards.flashcards sel ++ [card])) in *.
  cbn [Flashcards.pack fst snd map Flashcards.front Flashcards.back card
       Flashcards.insertCards] in E1.
  assert (Hkeep : filter (fun c => negb (Flashcards.cardId_eqb
                                           (Flashcards.id c)
                                           (Flashcards.Stamp now)))
                         (Flashcards.flashcards d1)
                  = Flashcards.flashcards sel).
  { cbn [d1 Flashcards.flashcards Flashcards.withCards].
    rewrite filter_app. cbn [filter Flashcards.id card].
    rewrite DeckStoreFacts.cardId_eqb_refl. cbn [negb].
    rewrite app_nil_r. apply DeckStoreFacts.filter_all.
    intros c Hc'. apply negb_true_iff.
    destruct (Flashcards.cardId_eqb (Flashcards.id c) (Flashcards.Stamp now))
      eqn:E; [|reflexivity].
    apply DeckStoreFacts.cardId_eqb_eq in E. exfalso. apply Hnew.
    rewrite <- E. now apply in_map. }
  assert (Hgone : filter (fun c => negb (negb (Flashcards.cardId_eqb
                                                  (Flashcards.id c)
                                                  (Flashcards.Stamp now))))
                         (Flashcards.flashcards d1)
                  = [card]).
  { cbn [d1 Flashcards.flashcards Flashcards.withCards].
    rewrite filter_app. cbn [filter Flashcards.id card].
    rewrite DeckStoreFacts.cardId_eqb_refl. cbn [negb].
    rewrite DeckStoreFacts.filter_none; [reflexivity|].
    intros c Hc'. apply negb_false_iff. apply negb_true_iff.
    destruct (Flashcards.cardId_eqb (Flashcards.id c) (Flashcards.Stamp now))
      eqn:E; [|reflexivity].
    apply DeckStoreFacts.cardId_eqb_eq in E. exfalso. apply Hnew.
    rewrite <- E. now apply in_map. }
  assert (Hn1 : NoDup (map Flashcards.id (Flashcards.flashcards d1))).
  { cbn [d1 Flashcards.flashcards Flashcards.withCards].
    rewrite map_app. cbn [map Flashcards.id card].
    apply NoDup_app_remove_l with (l := []). cbn [app].
    apply Permutation_NoDup with (l := Flashcards.Stamp now
                                         :: map Flashcards.id
                                                (Flashcards.flashcards sel)).
    - apply Permutation_cons_append.
    - now constructor. }
  assert (E2 : w2
               = Flashcards.pack
                   (Flashcards.handleUpdateDeck
                      (Flashcards.w_view w1) (Flashcards.w_store w1)
                      oi' od' ou'
                      (Flashcards.withCards d1
                         (length (Flashcards.flashcards sel))
                         (filter (fun c => negb (Flashcards.cardId_eqb
                                                   (Flashcards.id c)
                                                   (Flashcards.Stamp now)))
                                 (Flashcards.flashcards d1))))).
  { subst w2. cbn [Flashcards.perform]. rewrite E1.
    cbn [Flashcards.w_view Flashcards.selectedDeck Flashcards.pack fst snd].
    unfold Flashcards.handleDeleteFlashcard. now rewrite Hkeep. }
  rewrite (@DeckStoreFacts.update_removing _ _ oi' od' ou' d1
             (length (Flashcards.flashcards sel))
             (fun c => negb (Flashcards.cardId_eqb (Flashcards.id c)
                                                   (Flashcards.Stamp now))))
    in E2.
  2:{ rewrite E1. cbn [Flashcards.w_view Flashcards.decks Flashcards.pack fst].
      now apply DeckStoreFacts.find_replaced. }
  2:{ exact Hn1. }
  2:{ rewrite Hgone. discriminate. }
  rewrite Hgone, Hkeep in E2. cbn [map Flashcards.id card] in E2.
  split; [|split].
  - exists d1. split; [now rewrite E1|reflexivity].
  - intros ->. rewrite E2. eexists. split; reflexivity.
  - rewrite E2. destruct od'; cbn [Flashcards.pack snd Flashcards.w_store].
    + rewrite DeckStoreFacts.deleteCards_stamps
        by (intros c [<-|[]]; now exists now).
      rewrite E1. reflexivity.
    + rewrite E1. reflexivity.
Qed.

(** A card made by hand in the deck of two cards, then deleted. *)
Lemma hand_made_card_stays_in_the_store_when_deleted_witness :
  let w := StudySamples.twoCardWorld in
  let f := Js.lit "What is a limit?" in
  let b := Js.lit "A value approached." in
  let card := {| Flashcards.id := Flashcards.Stamp 1710000000000;
                 Flashcards.front := f;
                 Flashcards.back := b;
                 Flashcards.subject := Js.lit "Math" |} in
  let w1 := Flashcards.perform (Some 1%N) w
              (Flashcards.CreateCard 1710000000000 f b true true 0) in
  let w2 := Flashcards.perform (Some 1%N) w1
              (Flashcards.DeleteCard (Flashcards.Stamp 1710000000000)
                                     true true 0) in
  (exists d1,
      Flashcards.selectedDeck (Flashcards.w_view w1) = Some d1
      /\ Flashcards.flashcards d1
         = Flashcards.flashcards StudySamples.twoCardDeck ++ [card])
  /\ (true = true ->
      exists d2,
        Flashcards.selectedDeck (Flashcards.w_view w2) = Some d2
        /\ Flashcards.flashcards d2
           = Flashcards.flashcards StudySamples.twoCardDeck)
  /\ Flashcards.cardRows (Flashcards.w_store w2)
     = Flashcards.cardRows (Flashcards.w_store w)
       ++ [ {| Flashcards.card_row_id := 4%N;
               Flashcards.card_row_deck_id := 1%N;
               Flashcards.card_row_front := f;
               Flashcards.card_row_back := b |} ].
Proof.
  intros w f b card w1 w2.
  apply (@hand_made_card_stays_in_the_store_when_deleted (Some 1%N) w
           StudySamples.twoCardDeck 1710000000000 f b true 0%nat
           true true 0%nat).
  - reflexivity.
  - reflexivity.
  - repeat constructor; cbn; intuition discriminate.
  - cbn. intuition discriminate.
  - reflexivity.
  - reflexivity.
Defined.

(** X13.  Deleting a card that the store knows deletes its row and no
    other: when the store answers the delete, the table is left without
    the row of that identifier and with every other row, and the deck
    shown is left without the card, its count being the number of its
    cards. *)
Theorem deleting_a_stored_card_deletes_its_row :
  forall (user : option N) (w : Flashcards.world)
         (sel : Flashcards.FlashcardDeck) (n : N) (oi : bool) (ou : nat),
    Flashcards.selectedDeck (Flashcards.w_view w) = Some sel ->
    find (fun deck => N.eqb (Flashcards.deck_id deck) (Flashcards.deck_id sel))
         (Flashcards.decks (Flashcards.w_view w)) = Some sel ->
    NoDup (map Flashcards.id (Flashcards.flashcards sel)) ->
    In (Flashcards.Uuid n) (map Flashcards.id (Flashcards.flashcards sel)) ->
    let w' := Flashcards.perform user w
                (Flashcards.DeleteCard (Flashcards.Uuid n) oi true ou) in
    Flashcards.cardRows (Flashcards.w_store w')
    = filter (fun r => negb (N.eqb (Flashcards.card_row_id r) n))
             (Flashcards.cardRows (Flashcards.w_store w))
    /\ exists d,
         Flashcards.selectedDeck (Flashcards.w_view w') = Some d
         /\ Flashcards.flashcards d
            = filter (fun c => negb (Flashcards.cardId_eqb
                                       (Flashcards.id c) (Flashcards.Uuid n)))
                     (Flashcards.flashcards sel)
         /\ Flashcards.totalCards d = length (Flashcards.flashcards d)
         /\ ~ In (Flashcards.Uuid n)
                 (map Flashcards.id (Flashcards.flashcards d)).
Proof.
  intros user w sel n oi ou Hsel Hf Hn Hin w'.
  subst w'. cbn [Flashcards.perform]. rewrite Hsel.
  unfold Flashcards.handleDeleteFlashcard.
  assert (Hgone : filter (fun c => negb (negb (Flashcards.cardId_eqb
                                                  (Flashcards.id c)
                                                  (Flashcards.Uuid n))))
                         (Flashcards.flashcards sel) <> []).
  { apply in_map_iff in Hin as [c [Hc Hcin]]. intro H.
    assert (Hx : In c (filter (fun c => negb (negb (Flashcards.cardId_eqb
                                                      (Flashcards.id c)
                                                      (Flashcards.Uuid n))))
                              (Flashcards.flashcards sel))).
    { apply filter_In. split; [exact Hcin|].
      rewrite Hc, DeckStoreFacts.cardId_eqb_refl. reflexivity. }
    rewrite H in Hx. destruct Hx. }
  rewrite (@DeckStoreFacts.update_removing _ _ oi true ou sel _
             (fun c => negb (Flashcards.cardId_eqb (Flashcards.id c)
                                                   (Flashcards.Uuid n)))
             Hf Hn Hgone).
  cbn [Flashcards.pack fst snd Flashcards.w_store Flashcards.w_view
       Flashcards.selectedDeck].
  split.
  - apply DeckStoreFacts.deleteCards_one.
    + intro H. apply map_eq_nil in H. contradiction.
    + intros c Hc. apply in_map_iff in Hc as [x [<- Hx]].
      apply filter_In in Hx as [_ Hx].
      apply negb_true_iff, negb_false_iff in Hx.
      now apply DeckStoreFacts.cardId_eqb_eq.
  - eexists. split; [reflexivity|].
    cbn [Flashcards.flashcards Flashcards.totalCards Flashcards.withCards].
    split; [reflexivity|]. split; [reflexivity|].
    intro H. apply in_map_iff in H as [x [Hx Hxin]].
    apply filter_In in Hxin as [_ Hxin].
    rewrite Hx, DeckStoreFacts.cardId_eqb_refl in Hxin. discriminate.
Qed.

(** The second card of the deck of two cards is deleted. *)
Lemma deleting_a_stored_card_deletes_its_row_witness :
  let w := StudySamples.twoCardWorld in
  let w' := Flashcards.perform (Some 1%N) w
              (Flashcards.DeleteCard (Flashcards.Uuid 3) true true 0) in
  Flashcards.cardRows (Flashcards.w_store w')
  = filter (fun r => negb (N.eqb (Flashcards.card_row_id r) 3))
           (Flashcards.cardRows (Flashcards.w_store w))
  /\ exists d,
       Flashcards.selectedDeck (Flashcards.w_view w') = Some d
       /\ Flashcards.flashcards d
          = filter (fun c => negb (Flashcards.cardId_eqb
                                     (Flashcards.id c) (Flashcards.Uuid 3)))
                   (Flashcards.flashcards StudySamples.twoCardDeck)
       /\ Flashcards.totalCards d = length (Flashcards.flashcards d)
       /\ ~ In (Flashcards.Uuid 3)
               (map Flashcards.id (Flashcards.flashcards d)).
Proof.
  intros w w'.
  apply (@deleting_a_stored_card_deletes_its_row (Some 1%N) w
           StudySamples.twoCardDeck 3%N true 0%nat).
  - reflexivity.
  - reflexivity.
  - repeat constructor; cbn; intuition discriminate.
  - cbn. auto.
Defined.

(* ================================================================== *)
(** * Properties: the list of doubts and the store behind it *)
(* ================================================================== *)

Module DoubtListFacts.
Import Js Order DoubtSolver.

Lemma startsWith_nil (s : jsstring) : startsWith s [] = true.
Proof. now destruct s. Qed.

Lemma includes_nil (s : jsstring) : includes s [] = true.
Proof. now destruct s. Qed.

Lemma startsWith_map (f : N -> N) (s p : jsstring) :
  startsWith s p = true -> startsWith (map f s) (map f p) = true.
Proof.
  revert s. induction p as [|a p IH]; intros s H; [apply startsWith_nil|].
  destruct s as [|b s]; [discriminate|].
  cbn in *. apply andb_prop in H as [H1 H2].
  apply N.eqb_eq in H1. subst. rewrite N.eqb_refl. now apply IH.
Qed.

Lemma includes_map (f : N -> N) (s p : jsstring) :
  includes s p = true -> includes (map f s) (map f p) = true.
Proof.
  induction s as [|b s IH]; intro H.
  - cbn in *. now apply (startsWith_map f []).
  - cbn [includes map] in *. apply orb_prop in H as [H|H].
    + apply (startsWith_map f (b :: s)) in H. cbn [map] in H.
      now rewrite H.
    + rewrite IH by exact H. apply orb_true_r.
Qed.

Lemma lower_ascii (lower : jsstring -> jsstring) (s : jsstring) :
  forallb isAscii s = true -> toLowerCase lower s = map lowerAscii s.
Proof. unfold toLowerCase. now intros ->. Qed.

Lemma filter_split (A : Type) (p : A -> bool) (l : list A) :
  Permutation l (filter p l ++ filter (fun x => negb (p x)) l).
Proof.
  induction l as [|x l IH]; [constructor|].
  cbn [filter]. destruct (p x); cbn [negb app].
  - now constructor.
  - now apply Permutation_cons_app.
Qed.

Lemma insertAsc_Permutation (A : Type) (key : A -> Z) (x : A) (l : list A) :
  Permutation (insertAsc key x l) (x :: l).
Proof.
  induction l as [|y l IH]; cbn [insertAsc]; [reflexivity|].
  destruct (key y <? key x); [|reflexivity].
  rewrite IH. apply perm_swap.
Qed.

Lemma orderAsc_Permutation (A : Type) (key : A -> Z) (l : list A) :
  Permutation (orderAsc key l) l.
Proof.
  induction l as [|x l IH]; [reflexivity|].
  unfold orderAsc in *. cbn [fold_right].
  rewrite insertAsc_Permutation. now constructor.
Qed.

(** Replacing a doubt that the list does not hold changes nothing. *)
Lemma replaceDoubt_absent (u : Doubt) (l : list Doubt) :
  (forall d, In d l -> doubt_id d <> doubt_id u) -> replaceDoubt u l = l.
Proof.
  intro H. unfold replaceDoubt.
  induction l as [|d l IH]; [reflexivity|].
  cbn [map].
  destruct (N.eqb_spec (doubt_id d) (doubt_id u)) as [E|_].
  - exfalso. exact (H d (or_introl eq_refl) E).
  - f_equal. apply IH. intros d' Hd'. apply H. now right.
Qed.

(** ** The store only grows *)

Definition solvedIds (st : store) : list ident :=
  map d_id (filter d_solved (doubtRows st)).

Definition extends (st1 st2 : store) : Prop :=
  (exists ms, messageRows st2 = messageRows st1 ++ ms)
  /\ (exists ds, map doubtCore (doubtRows st2)
                 = map doubtCore (doubtRows st1) ++ ds)
  /\ incl (solvedIds st1) (solvedIds st2).

Lemma extends_refl (st : store) : extends st st.
Proof.
  split; [|split].
  - exists []. now rewrite app_nil_r.
  - exists []. now rewrite app_nil_r.
  - apply incl_refl.
Qed.

Lemma extends_trans (a b c : store) :
  extends a b -> extends b c -> extends a c.
Proof.
  intros ([m1 H1] & [d1 H2] & H3) ([m2 H4] & [d2 H5] & H6).
  split; [|split].
  - exists (m1 ++ m2). now rewrite H4, H1, app_assoc.
  - exists (d1 ++ d2). now rewrite H5, H2, app_assoc.
  - eapply incl_tran; eassumption.
Qed.

Lemma extends_later (r : reply) (st : store) : extends st (later r st).
Proof.
  split; [|split].
  - exists []. cbn. now rewrite app_nil_r.
  - exists []. cbn. now rewrite app_nil_r.
  - apply incl_refl.
Qed.

Lemma extends_insertMessage (did : ident) (c s : jsstring) (st : store) :
  extends st (snd (insertMessage did c s st)).
Proof.
  split; [|split].
  - eexists. reflexivity.
  - exists []. cbn. now rewrite app_nil_r.
  - apply incl_refl.
Qed.

Lemma extends_insertDoubt (q : jsstring) (uid : ident) (s : jsstring)
      (st : store) :
  extends st (snd (insertDoubt q uid s st)).
Proof.
  split; [|split].
  - exists []. cbn. now rewrite app_nil_r.
  - eexists. cbn. rewrite map_app. reflexivity.
  - unfold solvedIds. cbn. rewrite filter_app, map_app. cbn.
    apply incl_appl, incl_refl.
Qed.

Lemma extends_solveDoubt (id : ident) (st : store) :
  extends st (solveDoubt id st).
Proof.
  split; [|split].
  - exists []. cbn. now rewrite app_nil_r.
  - exists []. cbn. rewrite app_nil_r, map_map.
    apply map_ext. intro d. now destruct (N.eqb (d_id d) id).
  - unfold solvedIds. cbn. intros i Hi.
    apply in_map_iff in Hi as [d [<- Hd]].
    apply filter_In in Hd as [Hd Hs].
    apply in_map_iff.
    exists (if N.eqb (d_id d) id
            then {| d_id := d_id d; d_question := d_question d;
                    d_solved := true; d_subject := d_subject d;
                    d_timestamp := d_timestamp d; d_user_id := d_user_id d |}
            else d).
    split; [now destruct (N.eqb (d_id d) id)|].
    apply filter_In. split.
    + apply in_map_iff. now exists d.
    + now destruct (N.eqb (d_id d) id).
Qed.

Ltac grow :=
  repeat first
    [ apply extends_refl
    | match goal with
      | |- extends ?a (snd (insertMessage _ _ _ ?b)) =>
          apply (@extends_trans a b _); [|apply extends_insertMessage]
      | |- extends ?a (snd (insertDoubt _ _ _ ?b)) =>
          apply (@extends_trans a b _); [|apply extends_insertDoubt]
      | |- extends ?a (later _ ?b) =>
          apply (@extends_trans a b _); [|apply extends_later]
      | |- extends ?a (solveDoubt _ ?b) =>
          apply (@extends_trans a b _); [|apply extends_solveDoubt]
      end ].

Lemma extends_apologise (closure v : view) (st0 st : store) (r : reply) :
  extends st0 st -> extends st0 (snd (apologise closure v st r)).
Proof.
  intro H. unfold apologise.
  destruct (selectedDoubt closure) as [selected|]; [|exact H].
  destruct (ok r); cbn [snd].
  - change (extends st0 (snd (insertMessage (doubt_id selected) apology
                                            (lit "ai") (later r st)))).
    grow. exact H.
  - grow. exact H.
Qed.

Lemma extends_submit (user : option ident) (q : jsstring) (closure : view)
      (st : store) (r1 r2 : reply) (answer : option jsstring) (r3 r4 : reply) :
  extends st (snd (handleSubmitQuestion user q closure st r1 r2 answer r3 r4)).
Proof.
  unfold handleSubmitQuestion.
  destruct (truthy_str (trim q)); [|apply extends_refl].
  destruct user as [uid|]; [|apply extends_refl].
  destruct (ok r1).
  2:{ apply extends_apologise. grow. }
  set (s1 := snd (insertDoubt q uid (lit "General") (later r1 st))).
  assert (H1 : extends st s1) by (subst s1; grow).
  change (insertDoubt q uid (lit "General") (later r1 st))
    with ({| d_id := nextId (later r1 st); d_question := q; d_solved := false;
             d_subject := lit "General"; d_timestamp := clock (later r1 st);
             d_user_id := uid |}, s1).
  cbv iota beta.
  destruct (ok r2).
  2:{ apply extends_apologise. grow. exact H1. }
  set (s2 := snd (insertMessage (nextId (later r1 st)) q (lit "user")
                                (later r2 s1))).
  assert (H2 : extends st s2) by (subst s2; grow; exact H1).
  change (insertMessage (d_id _) q (lit "user") (later r2 s1))
    with ({| m_id := nextId (later r2 s1); m_content := q;
             m_doubt_id := nextId (later r1 st); m_sender := lit "user";
             m_timestamp := clock (later r2 s1) |}, s2).
  cbv iota beta.
  destruct answer as [text|].
  2:{ apply extends_apologise. exact H2. }
  destruct (ok r3).
  2:{ apply extends_apologise. grow. exact H2. }
  cbn [snd]. 
  change (extends st (snd (insertMessage (nextId (later r1 st)) text (lit "ai")
                                         (later r3 s2)))).
  grow. exact H2.
Qed.

Lemma extends_send (user : option ident) (m : jsstring) (closure : view)
      (st : store) (r1 : reply) (answer : option jsstring) (r2 r3 : reply) :
  extends st (snd (handleSendMessage user m closure st r1 answer r2 r3)).
Proof.
  unfold handleSendMessage.
  destruct (truthy_str (trim m)); [|apply extends_refl].
  destruct (selectedDoubt closure) as [selected|]; [|apply extends_refl].
  destruct user as [uid|]; [|apply extends_refl].
  destruct (ok r1).
  2:{ apply extends_apologise. grow. }
  set (s1 := snd (insertMessage (doubt_id selected) m (lit "user")
                                (later r1 st))).
  assert (H1 : extends st s1) by (subst s1; grow).
  change (insertMessage (doubt_id selected) m (lit "user") (later r1 st))
    with ({| m_id := nextId (later r1 st); m_content := m;
             m_doubt_id := doubt_id selected; m_sender := lit "user";
             m_timestamp := clock (later r1 st) |}, s1).
  cbv iota beta.
  destruct answer as [text|].
  2:{ apply extends_apologise. exact H1. }
  destruct (ok r2).
  2:{ apply extends_apologise. grow. exact H1. }
  cbn [snd].
  change (extends st (snd (insertMessage (doubt_id selected) text (lit "ai")
                                         (later r2 s1)))).
  grow. exact H1.
Qed.

Lemma extends_perform (user : option ident) (w : world) (a : action) :
  extends (w_store w) (w_store (perform user w a)).
Proof.
  destruct a as [answers|q r1 r2 answer r3 r4|m r1 answer r2 r3|id r|n];
    cbn [perform].
  - apply extends_refl.
  - pose proof (extends_submit user q (w_view w) (w_store w) r1 r2 answer
                               r3 r4) as H.
    destruct (handleSubmitQuestion _ _ _ _ _ _ _ _ _). exact H.
  - pose proof (extends_send user m (w_view w) (w_store w) r1 answer r2 r3)
      as H.
    destruct (handleSendMessage _ _ _ _ _ _ _ _). exact H.
  - unfold markAsSolved. destruct (ok r); cbn [w_store]; grow.
  - apply extends_refl.
Qed.

Lemma extends_fold (user : option ident) (l : list action) (w : world) :
  extends (w_store w) (w_store (fold_left (perform user) l w)).
Proof.
  revert w. induction l as [|a l IH]; intro w; [apply extends_refl|].
  cbn [fold_left]. eapply extends_trans; [apply extends_perform|apply IH].
Qed.

End DoubtListFacts.

(** X14.  The search box of the doubt list.  With an empty query every
    doubt is listed; a doubt whose question (or subject) contains the
    query text is listed, letters compared without regard to case, for
    text of ASCII characters; the tabs Solved and Unsolved divide the
    doubts found between them. *)
Theorem search_lists_the_doubts_that_contain_the_query :
  forall (unicodeLower : Js.jsstring -> Js.jsstring)
         (l : list DoubtSolver.Doubt),
    DoubtSolver.filteredDoubts unicodeLower [] l = l
    /\ (forall (q : Js.jsstring) (d : DoubtSolver.Doubt),
           In d l ->
           forallb Js.isAscii q = true ->
           (forallb Js.isAscii (DoubtSolver.question d) = true
            /\ Js.includes (map Js.lowerAscii (DoubtSolver.question d))
                           (map Js.lowerAscii q) = true)
           \/ (forallb Js.isAscii (DoubtSolver.subject d) = true
               /\ Js.includes (map Js.lowerAscii (DoubtSolver.subject d))
                              (map Js.lowerAscii q) = true) ->
           In d (DoubtSolver.filteredDoubts unicodeLower q l))
    /\ (forall (q : Js.jsstring) (d : DoubtSolver.Doubt),
           In d l ->
           forallb Js.isAscii q = true ->
           forallb Js.isAscii (DoubtSolver.question d) = true ->
           Js.includes (DoubtSolver.question d) q = true ->
           In d (DoubtSolver.filteredDoubts unicodeLower q l))
    /\ (forall q : Js.jsstring,
           Permutation (DoubtSolver.filteredDoubts unicodeLower q l)
                       (DoubtSolver.solvedTab unicodeLower q l
                        ++ DoubtSolver.unsolvedTab unicodeLower q l)).
Proof.
  intros lower l.
  assert (Hlisted : forall (q : Js.jsstring) (d : DoubtSolver.Doubt),
             In d l ->
             forallb Js.isAscii q = true ->
             (forallb Js.isAscii (DoubtSolver.question d) = true
              /\ Js.includes (map Js.lowerAscii (DoubtSolver.question d))
                             (map Js.lowerAscii q) = true)
             \/ (forallb Js.isAscii (DoubtSolver.subject d) = true
                 /\ Js.includes (map Js.lowerAscii (DoubtSolver.subject d))
                                (map Js.lowerAscii q) = true) ->
             In d (DoubtSolver.filteredDoubts lower q l)).
  { intros q d Hd Hq H. apply filter_In. split; [exact Hd|].
    unfold DoubtSolver.matchesQuery.
    rewrite (DoubtListFacts.lower_ascii lower q Hq).
    destruct H as [[Ha Hi]|[Ha Hi]];
      rewrite (DoubtListFacts.lower_ascii lower _ Ha), Hi;
      [reflexivity|apply orb_true_r]. }
  split; [|split; [exact Hlisted|split]].
  - unfold DoubtSolver.filteredDoubts. apply DeckStoreFacts.filter_all.
    intros d _. unfold DoubtSolver.matchesQuery.
    rewrite (DoubtListFacts.lower_ascii lower []) by reflexivity.
    cbn [map]. now rewrite DoubtListFacts.includes_nil.
  - intros q d Hd Hq Ha Hi. apply Hlisted; auto. left. split; [exact Ha|].
    now apply DoubtListFacts.includes_map.
  - intro q. apply DoubtListFacts.filter_split.
Qed.

(** The query [INTEGRAL] finds the question [What is an integral?]. *)
Lemma search_lists_the_doubts_that_contain_the_query_witness :
  let d := {| DoubtSolver.doubt_id := 1%N;
              DoubtSolver.question := Js.lit "What is an integral?";
              DoubtSolver.doubt_timestamp := 0;
              DoubtSolver.solved := false;
              DoubtSolver.subject := Js.lit "General";
              DoubtSolver.messages := [] |} in
  In d (DoubtSolver.filteredDoubts (fun s => s) (Js.lit "INTEGRAL") [d]).
Proof.
  intro d.
  apply (proj1 (proj2 (@search_lists_the_doubts_that_contain_the_query
                         (fun s => s) [d]))).
  - now left.
  - reflexivity.
  - left. split; reflexivity.
Defined.

(** X15.  A question that is answered is selected but not listed.  When
    the doubt, its first message and the answer are stored, the handler
    replaces the answered doubt in the list of its own render, which
    does not hold the new doubt: the list is left as it was before the
    question, and the new doubt with its two messages is the selected
    one only. *)
Theorem answered_question_is_selected_but_not_listed :
  forall (uid : DoubtSolver.ident) (q : Js.jsstring)
         (closure : DoubtSolver.view) (st : DoubtSolver.store)
         (r1 r2 : DoubtSolver.reply) (text : Js.jsstring)
         (r3 r4 : DoubtSolver.reply),
    Js.truthy_str (Js.trim q) = true ->
    DoubtSolver.ok r1 = true -> DoubtSolver.ok r2 = true ->
    DoubtSolver.ok r3 = true ->
    (forall d, In d (DoubtSolver.doubts closure) ->
               DoubtSolver.doubt_id d <> DoubtSolver.nextId st) ->
    let p := DoubtSolver.handleSubmitQuestion (Some uid) q closure st
               r1 r2 (Some text) r3 r4 in
    DoubtSolver.doubts (fst p) = DoubtSolver.doubts closure
    /\ exists d,
         DoubtSolver.selectedDoubt (fst p) = Some d
         /\ DoubtSolver.doubt_id d = DoubtSolver.nextId st
         /\ DoubtSolver.question d = q
         /\ map (fun m => (DoubtSolver.sender m, DoubtSolver.content m))
                (DoubtSolver.messages d)
            = [(Js.lit "user", q); (Js.lit "ai", text)]
         /\ ~ In d (DoubtSolver.doubts (fst p))
         /\ In (DoubtSolver.nextId st)
               (map DoubtSolver.d_id (DoubtSolver.doubtRows (snd p))).
Proof.
  intros uid q closure st r1 r2 text r3 r4 Hq H1 H2 H3 Hfresh p. subst p.
  unfold DoubtSolver.handleSubmitQuestion.
  rewrite Hq, H1. cbn [DoubtSolver.insertDoubt]. rewrite H2.
  cbn [DoubtSolver.insertMessage]. rewrite H3.
  cbn [fst snd DoubtSolver.doubts DoubtSolver.selectedDoubt
       DoubtSolver.d_id DoubtSolver.later DoubtSolver.nextId].
  split.
  - apply DoubtListFacts.replaceDoubt_absent. exact Hfresh.
  - eexists. split; [reflexivity|].
    cbn [DoubtSolver.doubt_id DoubtSolver.withMessages DoubtSolver.question
         DoubtSolver.messages DoubtSolver.d_question map app
         DoubtSolver.toMessage DoubtSolver.sender DoubtSolver.content
         DoubtSolver.m_sender DoubtSolver.m_content].
    split; [reflexivity|]. split; [reflexivity|]. split; [reflexivity|].
    split.
    + rewrite DoubtListFacts.replaceDoubt_absent by exact Hfresh.
      intro Hin. exact (Hfresh _ Hin eq_refl).
    + cbn [DoubtSolver.doubtRows DoubtSolver.later]. rewrite map_app.
      apply in_or_app. right. now left.
Qed.

(** The first question of a user, answered. *)
Lemma answered_question_is_selected_but_not_listed_witness :
  let p := DoubtSolver.handleSubmitQuestion (Some 1%N)
             (Js.lit "What is an integral?")
             (DoubtSolver.w_view DoubtSolver.initial)
             (DoubtSolver.w_store DoubtSolver.initial)
             DoubtSamples.done DoubtSamples.done (Some (Js.lit "An area."))
             DoubtSamples.done DoubtSamples.done in
  DoubtSolver.doubts (fst p) = []
  /\ exists d,
       DoubtSolver.selectedDoubt (fst p) = Some d
       /\ DoubtSolver.doubt_id d = 1%N
       /\ DoubtSolver.question d = Js.lit "What is an integral?"
       /\ map (fun m => (DoubtSolver.sender m, DoubtSolver.content m))
              (DoubtSolver.messages d)
          = [(Js.lit "user", Js.lit "What is an integral?");
             (Js.lit "ai", Js.lit "An area.")]
       /\ ~ In d (DoubtSolver.doubts (fst p))
       /\ In 1%N (map DoubtSolver.d_id (DoubtSolver.doubtRows (snd p))).
Proof.
  intro p.
  apply (@answered_question_is_selected_but_not_listed 1%N
           (Js.lit "What is an integral?")
           (DoubtSolver.w_view DoubtSolver.initial)
           (DoubtSolver.w_store DoubtSolver.initial)
           DoubtSamples.done DoubtSamples.done (Js.lit "An area.")
           DoubtSamples.done DoubtSamples.done);
    try reflexivity.
  intros d [].
Defined.

(** X16.  The doubt solver never deletes and never reopens.  Along any
    run of the component, whatever the store answers, the messages
    stored at one moment are still stored afterwards, unchanged and in
    the same order, with the later ones after them; the same holds for
    the doubts, of which nothing but [solved] ever changes; and a doubt
    that is solved stays solved. *)
Theorem doubt_store_only_grows :
  forall (user : option DoubtSolver.ident)
         (before after : list DoubtSolver.action),
    let st1 := DoubtSolver.w_store (DoubtSolver.runActions user before) in
    let st2 := DoubtSolver.w_store
                 (DoubtSolver.runActions user (before ++ after)) in
    (exists ms,
        DoubtSolver.messageRows st2 = DoubtSolver.messageRows st1 ++ ms)
    /\ (exists ds,
           map DoubtSolver.doubtCore (DoubtSolver.doubtRows st2)
           = map DoubtSolver.doubtCore (DoubtSolver.doubtRows st1) ++ ds)
    /\ (forall d,
           In d (DoubtSolver.doubtRows st1) ->
           DoubtSolver.d_solved d = true ->
           exists d',
             In d' (DoubtSolver.doubtRows st2)
             /\ DoubtSolver.d_id d' = DoubtSolver.d_id d
             /\ DoubtSolver.d_solved d' = true).
Proof.
  intros user before after st1 st2.
  assert (H : DoubtListFacts.extends st1 st2).
  { subst st1 st2. unfold DoubtSolver.runActions. rewrite fold_left_app.
    apply DoubtListFacts.extends_fold. }
  destruct H as (Hm & Hd & Hs). split; [exact Hm|]. split; [exact Hd|].
  intros d Hin Hsolved.
  assert (Hi : In (DoubtSolver.d_id d) (DoubtListFacts.solvedIds st1)).
  { unfold DoubtListFacts.solvedIds. apply in_map. apply filter_In.
    now split. }
  apply Hs in Hi. unfold DoubtListFacts.solvedIds in Hi.
  apply in_map_iff in Hi as [d' [Hid Hd']].
  apply filter_In in Hd' as [Hd' Hsol]. now exists d'.
Qed.

(** X17.  [fetchDoubts] lists the doubts of the signed-in user, the
    latest first, and under each doubt exactly the stored messages that
    carry its identifier, the earliest first; the selection is kept, and
    when nothing was selected the first doubt of the list is. *)
Theorem fetchDoubts_lists_each_thread_under_its_doubt :
  forall (uid : DoubtSolver.ident) (v : DoubtSolver.view)
         (st : DoubtSolver.store),
    let v' := DoubtSolver.fetchDoubts (Some uid) v st true in
    Permutation
      (map DoubtSolver.doubt_id (DoubtSolver.doubts v'))
      (map DoubtSolver.d_id
           (filter (fun d => N.eqb (DoubtSolver.d_user_id d) uid)
                   (DoubtSolver.doubtRows st)))
    /\ StronglySorted
         (fun a b => DoubtSolver.doubt_timestamp b
                     <= DoubtSolver.doubt_timestamp a)
         (DoubtSolver.doubts v')
    /\ (forall d, In d (DoubtSolver.doubts v') ->
          DoubtSolver.ascending (DoubtSolver.messages d)
          /\ Permutation
               (DoubtSolver.messages d)
               (map DoubtSolver.toMessage
                    (filter (fun m => N.eqb (DoubtSolver.m_doubt_id m)
                                            (DoubtSolver.doubt_id d))
                            (DoubtSolver.messageRows st))))
    /\ DoubtSolver.selectedDoubt v'
       = match DoubtSolver.selectedDoubt v with
         | Some d => Some d
         | None => hd_error (DoubtSolver.doubts v')
         end.
Proof.
  intros uid v st v'. subst v'. unfold DoubtSolver.fetchDoubts.
  cbn [DoubtSolver.doubts DoubtSolver.selectedDoubt].
  split; [|split; [|split]].
  - rewrite map_map. cbn [DoubtSolver.loadDoubt DoubtSolver.doubt_id].
    apply Permutation_map. apply PlannerRunFacts.orderDesc_Permutation.
  - apply PlannerRunFacts.StronglySorted_map.
    cbn [DoubtSolver.loadDoubt DoubtSolver.doubt_timestamp].
    apply (PlannerRunFacts.orderDesc_sorted DoubtSolver.d_timestamp).
  - intros d Hd. apply in_map_iff in Hd as [row [<- _]].
    cbn [DoubtSolver.loadDoubt DoubtSolver.messages DoubtSolver.doubt_id].
    split; [apply DoubtFacts.messagesOf_ascending|].
    unfold DoubtSolver.messagesOf. apply Permutation_map.
    apply DoubtListFacts.orderAsc_Permutation.
  - destruct (map _ _); destruct (DoubtSolver.selectedDoubt v); reflexivity.
Qed.

(* ================================================================== *)
(** * Properties: what the dashboard shows *)
(* ================================================================== *)

Module DashboardLiveFacts.
Import Js JsNum StudyPlanner Dashboard.

(** ** Sorting with a comparator *)
Section SortFacts.
Variable E : Type.
Variable compare : E -> E -> number.

Lemma insertBy_Permutation (x : E) (l : list E) :
  Permutation (insertBy compare x l) (x :: l).
Proof.
  induction l as [|y l IH]; cbn [insertBy]; [reflexivity|].
  destruct (gtb (compare x y) (Int 0)); [|reflexivity].
  rewrite IH. apply perm_swap.
Qed.

Lemma sortBy_Permutation (l : list E) : Permutation (sortBy compare l) l.
Proof.
  induction l as [|x l IH]; [reflexivity|].
  unfold sortBy in *. cbn [fold_right].
  rewrite insertBy_Permutation. now constructor.
Qed.

Variable good : E -> Prop.
Variable le : E -> E -> Prop.
Hypothesis above :
  forall x y, good x -> good y -> gtb (compare x y) (Int 0) = true -> le y x.
Hypothesis notAbove :
  forall x y, good x -> good y -> gtb (compare x y) (Int 0) = false -> le x y.
Hypothesis le_trans :
  forall x y z, good x -> good y -> good z -> le x y -> le y z -> le x z.

Lemma insertBy_sorted (x : E) (l : list E) :
  good x -> Forall good l ->
  StronglySorted le l -> StronglySorted le (insertBy compare x l).
Proof.
  intros Hx Hl Hs. induction l as [|y l IH]; cbn [insertBy].
  - constructor; constructor.
  - inversion Hl as [|? ? Hy Hl']; subst.
    inversion Hs as [|? ? Hs' Hle]; subst.
    destruct (gtb (compare x y) (Int 0)) eqn:C.
    + constructor; [now apply IH|].
      apply Forall_forall. intros z Hz.
      apply (Permutation_in _ (insertBy_Permutation x l)) in Hz.
      destruct Hz as [<-|Hz]; [now apply above|].
      revert z Hz. now apply Forall_forall.
    + constructor; [exact Hs|].
      assert (Hxy : le x y) by now apply notAbove.
      constructor; [exact Hxy|].
      apply Forall_forall. intros z Hz.
      apply (le_trans Hx Hy); [|exact Hxy|].
      * revert z Hz. now apply Forall_forall.
      * revert z Hz. now apply Forall_forall.
Qed.

Lemma sortBy_sorted (l : list E) :
  Forall good l -> StronglySorted le (sortBy compare l).
Proof.
  induction 1 as [|x l Hx Hl IH]; [constructor|].
  unfold sortBy in *. cbn [fold_right].
  apply insertBy_sorted; auto.
  apply Forall_forall. intros z Hz.
  apply (Permutation_in _ (sortBy_Permutation l)) in Hz.
  revert z Hz. now apply Forall_forall.
Qed.
End SortFacts.

Lemma firstn_min (B : Type) (n : nat) (l : list B) :
  length (firstn n l) = Nat.min n (length l).
Proof. apply length_firstn. Qed.

Lemma in_skipn (B : Type) (n : nat) (l : list B) (y : B) :
  In y (skipn n l) -> In y l.
Proof.
  revert l. induction n as [|n IH]; intros l H; [exact H|].
  destruct l as [|x l]; [destruct H|]. right. now apply IH.
Qed.

Lemma in_firstn (B : Type) (n : nat) (l : list B) (y : B) :
  In y (firstn n l) -> In y l.
Proof.
  revert l. induction n as [|n IH]; intros l H; [destruct H|].
  destruct l as [|x l]; [destruct H|].
  destruct H as [<-|H]; [now left|right; now apply IH].
Qed.

(** The first elements of a sorted list come before the others. *)
Lemma sorted_firstn_skipn (B : Type) (le : B -> B -> Prop) (n : nat)
      (l : list B) (a b : B) :
  StronglySorted le l -> In a (firstn n l) -> In b (skipn n l) -> le a b.
Proof.
  intro H. revert n. induction H as [|x l Hs IH Hx]; intros n Ha Hb.
  - destruct n; destruct Ha.
  - destruct n as [|n]; [destruct Ha|].
    cbn [firstn skipn] in *. destruct Ha as [<-|Ha].
    + apply in_skipn in Hb.
      rewrite Forall_forall in Hx. now apply Hx.
    + now apply (IH n).
Qed.

Lemma sorted_firstn (B : Type) (le : B -> B -> Prop) (n : nat) (l : list B) :
  StronglySorted le l -> StronglySorted le (firstn n l).
Proof.
  intro H. revert n. induction H as [|x l Hs IH Hx]; intro n.
  - destruct n; constructor.
  - destruct n as [|n]; [constructor|]. cbn [firstn].
    constructor; [apply IH|].
    apply Forall_forall. intros z Hz. apply in_firstn in Hz.
    rewrite Forall_forall in Hx. now apply Hx.
Qed.

(** ** The comparator of sessions *)

Lemma compare_wellTimed (a b : Session) (h m h' m' : Z) :
  timeOf (s_startTime a) = [Int h; Int m] ->
  timeOf (s_startTime b) = [Int h'; Int m'] ->
  compareSessions a b
  = Int (if negb (s_date a - s_date b =? 0) then s_date a - s_date b
         else if negb (h =? h') then h - h' else m - m').
Proof.
  intros Ha Hb. unfold compareSessions. rewrite Ha, Hb. cbn.
  destruct (s_date a - s_date b =? 0); cbn; [|reflexivity].
  now destruct (h =? h').
Qed.

Lemma compare_above (x y : Session) :
  wellTimed x -> wellTimed y ->
  gtb (compareSessions x y) (Int 0) = true -> notAfter y x.
Proof.
  intros (h & m & Hx) (h' & m' & Hy).
  rewrite (compare_wellTimed x y Hx Hy). unfold notAfter. rewrite Hx, Hy.
  cbn [gtb].
  destruct (Z.eqb_spec (s_date x - s_date y) 0); cbn [negb].
  - destruct (Z.eqb_spec h h'); cbn [negb]; intro H; apply Z.ltb_lt in H;
      right; (split; [lia|]); lia.
  - intro H. apply Z.ltb_lt in H. left. lia.
Qed.

Lemma compare_notAbove (x y : Session) :
  wellTimed x -> wellTimed y ->
  gtb (compareSessions x y) (Int 0) = false -> notAfter x y.
Proof.
  intros (h & m & Hx) (h' & m' & Hy).
  rewrite (compare_wellTimed x y Hx Hy). unfold notAfter. rewrite Hx, Hy.
  cbn [gtb].
  destruct (Z.eqb_spec (s_date x - s_date y) 0); cbn [negb].
  - destruct (Z.eqb_spec h h'); cbn [negb]; intro H; apply Z.ltb_ge in H;
      right; (split; [lia|]); lia.
  - intro H. apply Z.ltb_ge in H. left. lia.
Qed.

Lemma notAfter_trans (x y z : Session) :
  wellTimed x -> wellTimed y -> wellTimed z ->
  notAfter x y -> notAfter y z -> notAfter x z.
Proof.
  intros (h1 & m1 & Hx) (h2 & m2 & Hy) (h3 & m3 & Hz).
  unfold notAfter. rewrite Hx, Hy, Hz. intros H1 H2.
  destruct H1 as [H1|[E1 H1]], H2 as [H2|[E2 H2]].
  - left; lia.
  - left; lia.
  - left; lia.
  - right. split; [lia|]. lia.
Qed.

Lemma sortSessions_sorted (l : list Session) :
  Forall wellTimed l -> StronglySorted notAfter (sortBy compareSessions l).
Proof.
  apply (@sortBy_sorted Session compareSessions wellTimed notAfter).
  - exact compare_above.
  - exact compare_notAbove.
  - exact notAfter_trans.
Qed.

(** ** Today and later *)

Lemma localDay_startOfDay (tz now : Z) :
  localDay tz (startOfDay tz now) = localDay tz now.
Proof.
  unfold startOfDay, localDay, msPerDay.
  replace ((now + tz) / 86400000 * 86400000 - tz + tz)
    with ((now + tz) / 86400000 * 86400000) by lia.
  apply Z.div_mul. lia.
Qed.

Lemma fromToday (tz now date : Z) :
  (startOfDay tz now <=? date) = (localDay tz now <=? localDay tz date).
Proof.
  unfold startOfDay, localDay, msPerDay.
  destruct (Z.leb_spec ((now + tz) / 86400000 * 86400000 - tz) date) as [H|H];
    symmetry.
  - apply Z.leb_le. apply Z.div_le_lower_bound; lia.
  - apply Z.leb_gt. apply Z.div_lt_upper_bound; lia.
Qed.

(** Not completed, and on the local calendar day of [now] or later. *)
Definition pending (tz now : Z) (s : Session) : bool :=
  (negb (s_completed s) && (localDay tz now <=? localDay tz (s_date s)))%bool.

Lemma isUpcoming_pending (tz now : Z) (s : Session) :
  isUpcoming tz (startOfDay tz now) s = pending tz now s.
Proof.
  unfold isUpcoming, pending. f_equal. rewrite fromToday.
  destruct (localDay tz now <=? localDay tz (s_date s)) eqn:E;
    [reflexivity|].
  cbn [orb]. unfold sameDate.
  destruct (_ && _ && _)%bool eqn:S; [|reflexivity].
  apply PlannerRunFacts.sameDay_iff in S.
  rewrite localDay_startOfDay in S. rewrite S, Z.leb_refl in E.
  discriminate.
Qed.

(** ** The lists the dashboard shows, event after event *)

Definition okUpcoming (l : list Session) : Prop :=
  (length l <= 4)%nat /\ Forall (fun s => s_completed s = false) l.

Lemma okUpcoming_filter (p : Session -> bool) (l : list Session) :
  okUpcoming l -> okUpcoming (filter p l).
Proof.
  intros [Hn Hc]. split.
  - pose proof (filter_length_le p l). lia.
  - apply Forall_forall. intros s Hs. apply filter_In in Hs as [Hs _].
    rewrite Forall_forall in Hc. now apply Hc.
Qed.

Lemma okUpcoming_first4 (l : list Session) :
  Forall (fun s => s_completed s = false) l ->
  okUpcoming (firstn 4 (sortBy compareSessions l)).
Proof.
  intro Hc. split.
  - rewrite firstn_min. lia.
  - apply Forall_forall. intros s Hs. apply in_firstn in Hs.
    apply (Permutation_in _ (sortBy_Permutation compareSessions l)) in Hs.
    rewrite Forall_forall in Hc. now apply Hc.
Qed.

Lemma NoDup_firstn (B : Type) (n : nat) (l : list B) :
  NoDup l -> NoDup (firstn n l).
Proof.
  intro H. revert n. induction H as [|x l Hx Hl IH]; intro n.
  - destruct n; constructor.
  - destruct n as [|n]; [constructor|]. cbn [firstn].
    constructor; [|apply IH]. intro Hin. apply Hx. now apply in_firstn in Hin.
Qed.

Section LiveFacts.
Context {T : Type} {A : Arith T}.

Definition okProgress (l : list (@SubjectProgress T)) : Prop :=
  (length l <= 3)%nat /\ NoDup (map (@sp_subject T) l).

Lemma insertDesc_Permutation (x : @SubjectProgress T)
      (l : list (@SubjectProgress T)) :
  Permutation (insertDesc x l) (x :: l).
Proof.
  induction l as [|y l IH]; cbn [insertDesc]; [reflexivity|].
  destruct (ltb (sp_progress x) (sp_progress y)); [|reflexivity].
  rewrite IH. apply perm_swap.
Qed.

Lemma sortDesc_Permutation (l : list (@SubjectProgress T)) :
  Permutation (sortDesc l) l.
Proof.
  induction l as [|x l IH]; [reflexivity|].
  unfold sortDesc in *. cbn [fold_right].
  rewrite insertDesc_Permutation. now constructor.
Qed.

Lemma okProgress_top3 (l : list (@SubjectProgress T)) :
  NoDup (map (@sp_subject T) l) -> okProgress (firstn 3 (sortDesc l)).
Proof.
  intro H. split.
  - rewrite firstn_min. lia.
  - rewrite <- firstn_map. apply NoDup_firstn.
    apply (Permutation_NoDup (l := map (@sp_subject T) l)); [|exact H].
    apply Permutation_map. symmetry. apply sortDesc_Permutation.
Qed.

Lemma okProgress_putEntry (e : @SubjectProgress T)
      (prev : list (@SubjectProgress T)) :
  okProgress prev -> okProgress (putEntry e prev).
Proof.
  intros [Hn Hd]. unfold putEntry.
  destruct (find _ prev) eqn:F.
  - split; [now rewrite length_map|].
    rewrite map_map.
    erewrite map_ext; [exact Hd|].
    intro p. now destruct (str_eqb (sp_subject p) (sp_subject e)).
  - apply okProgress_top3. rewrite map_app. cbn [map].
    apply NoDup_app_remove_l with (l := []). cbn [app].
    apply (Permutation_NoDup
             (l := sp_subject e :: map (@sp_subject T) prev));
      [apply Permutation_cons_append|].
    constructor; [|exact Hd].
    intro Hin. apply in_map_iff in Hin as [p [Hp Hpin]].
    pose proof (find_none _ _ F p Hpin) as Hf. cbn in Hf.
    rewrite Hp, JsFacts.str_eqb_refl in Hf. discriminate.
Qed.

Lemma okProgress_progressData (data : list DbStudySession) :
  okProgress (progressData (T := T) data).
Proof.
  unfold progressData. apply okProgress_top3.
  rewrite map_map. cbn [entryOf sp_subject].
  exact (proj1 (DashboardFacts.tallied_all (map formatSession data))).
Qed.

(** A state update that keeps the upcoming list short and free of
    completed sessions. *)
Definition tame (e : step) : Prop :=
  match e with
  | SetUpcoming f => forall l, okUpcoming l -> okUpcoming (f l)
  | _ => True
  end.

Definition okState (s : @state T) : Prop :=
  okUpcoming (upcomingStudySessions s) /\ okProgress (studyProgress s).

Lemma okState_exec (user : option ident) (st : store) (ok : bool)
      (s : @state T) (e : step) :
  tame e -> okState s -> okState (exec user st ok s e).
Proof.
  intros He [Hu Hp]. destruct e as [f|u|subject|title]; cbn [exec].
  - split; [now apply He|exact Hp].
  - now split.
  - unfold updateSubjectProgress. destruct user as [uid|]; [|now split].
    destruct ok; [|now split]. split; [exact Hu|].
    now apply okProgress_putEntry.
  - now split.
Qed.

Lemma okState_run (user : option ident) (st : store) (ok : bool)
      (steps : list step) (s : @state T) :
  Forall tame steps -> okState s -> okState (run user st ok steps s).
Proof.
  unfold run. intro H. revert s.
  induction H as [|e steps He _ IH]; intros s Hs; [exact Hs|].
  cbn [fold_left]. apply IH. now apply okState_exec.
Qed.

Definition okLive (w : live (T := T)) : Prop :=
  okState (shown w) /\ okUpcoming (registered w).

Lemma okLive_react (tz : Z) (uid : ident) (w : live (T := T)) (e : event) :
  okLive w -> okLive (react tz uid w e).
Proof.
  intros [[Hu Hp] Hr].
  destruct e as [|st ok now|st ok now session|st ok sid p c subject
                |st ok sid subject|st ok sid subject]; cbn [react].
  - split; [now split|exact Hu].
  - split; [|exact Hr]. destruct ok; [|now split]. split.
    + cbn [fetchDashboardData upcomingStudySessions]. unfold upcomingOf.
      apply okUpcoming_first4.
      apply Forall_forall. intros s Hs. apply filter_In in Hs as [_ Hs].
      unfold isUpcoming in Hs. apply andb_prop in Hs as [Hs _].
      now destruct (s_completed s).
    + apply okProgress_progressData.
  - split; [|exact Hr]. apply okState_run; [|now split].
    unfold handleSessionCreated.
    destruct (negb (s_completed session) && _)%bool eqn:G; cbn [app].
    + constructor; [|repeat constructor].
      cbn [tame]. intros l _. apply okUpcoming_first4.
      apply Forall_app. split; [exact (proj2 Hr)|].
      constructor; [|constructor].
      apply andb_prop in G as [G _]. now destruct (s_completed session).
    + repeat constructor.
  - split; [|exact Hr]. apply okState_run; [|now split].
    unfold handleSessionUpdated. constructor; [|repeat constructor].
    cbn [tame]. intros l _. split.
    + pose proof (filter_length_le
                    (fun session => negb (s_completed session))
                    (map (fun session =>
                            if N.eqb (s_id session) sid
                            then withStatus session p c else session)
                         (registered w))) as Hle.
      rewrite length_map in Hle. destruct Hr as [Hr _]. lia.
    + apply Forall_forall. intros s Hs. apply filter_In in Hs as [_ Hs].
      now destruct (s_completed s).
  - split; [|exact Hr]. apply okState_run; [|now split].
    unfold handleSessionCompleted. constructor; [|repeat constructor].
    cbn [tame]. intros l Hl. now apply okUpcoming_filter.
  - split; [|exact Hr]. apply okState_run; [|now split].
    unfold handleSessionDeleted. constructor; [|repeat constructor].
    cbn [tame]. intros l Hl. now apply okUpcoming_filter.
Qed.

Lemma okLive_runEvents (tz : Z) (uid : ident) (l : list event) :
  okLive (runEvents (T := T) tz uid l).
Proof.
  unfold runEvents.
  assert (H : okLive (mounted (T := T))).
  { repeat split; cbn; try lia; constructor. }
  revert H. generalize (mounted (T := T)).
  induction l as [|e l IH]; intros w Hw; [exact Hw|].
  cbn [fold_left]. apply IH. now apply okLive_react.
Qed.
End LiveFacts.

End DashboardLiveFacts.

(** X18.  The upcoming sessions that [fetchDashboardData] shows are
    sessions that are not completed and whose date falls, in local
    time, on the calendar day of the fetch or later: four of them, or
    all of them when there are fewer, and no other session. *)
Theorem upcoming_sessions_are_pending_and_not_past :
  forall (tz now : Z) (formattedSessions : list Dashboard.Session),
    let upcoming := Dashboard.upcomingOf tz now formattedSessions in
    let pending :=
      filter (fun s => (negb (Dashboard.s_completed s)
                        && (StudyPlanner.localDay tz now
                            <=? StudyPlanner.localDay tz (Dashboard.s_date s)))
                       %bool)
             formattedSessions in
    length upcoming = Nat.min 4 (length pending)
    /\ (exists others, Permutation (upcoming ++ others) pending)
    /\ (forall s, In s upcoming ->
          In s formattedSessions
          /\ Dashboard.s_completed s = false
          /\ StudyPlanner.localDay tz now
             <= StudyPlanner.localDay tz (Dashboard.s_date s)).
Proof.
  intros tz now l upcoming pending.
  assert (E : filter (Dashboard.isUpcoming tz (Dashboard.startOfDay tz now)) l
              = pending).
  { apply filter_ext. intro s. apply DashboardLiveFacts.isUpcoming_pending. }
  assert (P : Permutation
                (upcoming
                 ++ skipn 4 (Dashboard.sortBy Dashboard.compareSessions
                                              pending))
                pending).
  { subst upcoming. unfold Dashboard.upcomingOf. rewrite E.
    rewrite firstn_skipn. apply DashboardLiveFacts.sortBy_Permutation. }
  split; [|split].
  - subst upcoming. unfold Dashboard.upcomingOf. rewrite E.
    rewrite DashboardLiveFacts.firstn_min.
    now rewrite (Permutation_length
                   (DashboardLiveFacts.sortBy_Permutation
                      Dashboard.compareSessions pending)).
  - eexists. exact P.
  - intros s Hs.
    assert (Hp : In s pending).
    { apply (Permutation_in _ P). apply in_or_app. now left. }
    apply filter_In in Hp as [Hin Hp]. apply andb_prop in Hp as [Hc Hd].
    split; [exact Hin|]. split.
    + now destruct (Dashboard.s_completed s).
    + now apply Z.leb_le.
Qed.

(** X19.  When every start time splits at its colon into an hour and a
    minute, the upcoming sessions are shown in the order of their date,
    hour and minute, and they are the earliest ones: a session that
    qualifies and is not shown is not before any session shown. *)
Theorem upcoming_sessions_are_the_earliest_in_order :
  forall (tz now : Z) (formattedSessions : list Dashboard.Session),
    Forall Dashboard.wellTimed formattedSessions ->
    let upcoming := Dashboard.upcomingOf tz now formattedSessions in
    StronglySorted Dashboard.notAfter upcoming
    /\ (forall s t,
          In t upcoming ->
          In s formattedSessions ->
          Dashboard.isUpcoming tz (Dashboard.startOfDay tz now) s = true ->
          ~ In s upcoming ->
          Dashboard.notAfter t s).
Proof.
  intros tz now l Hl upcoming. subst upcoming. unfold Dashboard.upcomingOf.
  cbv zeta.
  set (q := filter (Dashboard.isUpcoming tz (Dashboard.startOfDay tz now)) l).
  assert (Hq : Forall Dashboard.wellTimed q).
  { apply Forall_forall. intros s Hs. apply filter_In in Hs as [Hs _].
    revert s Hs. now apply Forall_forall. }
  pose proof (DashboardLiveFacts.sortSessions_sorted Hq) as Hsorted.
  split.
  - now apply DashboardLiveFacts.sorted_firstn.
  - intros s t Ht Hs Hup Hnot.
    assert (Hin : In s (Dashboard.sortBy Dashboard.compareSessions q)).
    { apply (Permutation_in _ (Permutation_sym
               (DashboardLiveFacts.sortBy_Permutation
                  Dashboard.compareSessions q))).
      apply filter_In. now split. }
    rewrite <- (firstn_skipn 4) in Hin. apply in_app_or in Hin as [Hin|Hin];
      [contradiction|].
    exact (@DashboardLiveFacts.sorted_firstn_skipn _ _ 4 _ t s Hsorted Ht Hin).
Qed.

(** A session in the afternoon, one in the morning of the same day and
    one on the next day. *)
Lemma upcoming_sessions_are_the_earliest_in_order_witness :
  let upcoming :=
    Dashboard.upcomingOf Samples.kolkata (StudyPlanner.newDate 19792)
                         DashboardSamples.threeSessions in
  StronglySorted Dashboard.notAfter upcoming
  /\ (forall s t,
        In t upcoming ->
        In s DashboardSamples.threeSessions ->
        Dashboard.isUpcoming
          Samples.kolkata
          (Dashboard.startOfDay Samples.kolkata (StudyPlanner.newDate 19792))
          s = true ->
        ~ In s upcoming ->
        Dashboard.notAfter t s).
Proof.
  apply (@upcoming_sessions_are_the_earliest_in_order Samples.kolkata
           (StudyPlanner.newDate 19792) DashboardSamples.threeSessions).
  repeat constructor.
  - exists 14, 30. reflexivity.
  - exists 9, 0. reflexivity.
  - exists 8, 15. reflexivity.
Defined.

(** X20.  Whatever events reach the dashboard, in any order and
    whatever the store answers, it never shows more than four upcoming
    sessions, never a completed session among them, never more than
    three subjects, and no subject twice. *)
Theorem dashboard_lists_stay_short_and_clean :
  forall (T : Type) (A : JsNum.Arith T) (tz : Z) (uid : StudyPlanner.ident)
         (events : list Dashboard.event),
    let s := Dashboard.shown (Dashboard.runEvents (T := T) tz uid events) in
    (length (Dashboard.upcomingStudySessions s) <= 4)%nat
    /\ Forall (fun session => Dashboard.s_completed session = false)
              (Dashboard.upcomingStudySessions s)
    /\ (length (Dashboard.studyProgress s) <= 3)%nat
    /\ NoDup (map (@Dashboard.sp_subject T) (Dashboard.studyProgress s)).
Proof.
  intros T A tz uid events s.
  destruct (DashboardLiveFacts.okLive_runEvents (T := T) tz uid events)
    as [[[H1 H2] [H3 H4]] _].
  repeat split; assumption.
Qed.

(** X21.  A session-updated event empties the list of upcoming
    sessions.  The handler maps and filters [upcomingStudySessions] of
    the render that registered it; registered when the component
    mounted, before any data arrived, that list is empty, and the
    handler sets it, whatever the dashboard has loaded and shown
    since. *)
Theorem session_updated_event_empties_the_upcoming_list :
  forall (T : Type) (A : JsNum.Arith T) (tz : Z) (uid : StudyPlanner.ident)
         (events : list Dashboard.event)
         (st : StudyPlanner.store) (ok : bool) (sid : StudyPlanner.ident)
         (p : Js.number) (c : bool) (subject : Js.jsstring),
    Forall (fun e => e <> Dashboard.Registered) events ->
    Dashboard.upcomingStudySessions
      (Dashboard.shown
         (Dashboard.runEvents (T := T) tz uid
            (events ++ [Dashboard.OnUpdated st ok sid p c subject])))
    = [].
Proof.
  intros T A tz uid events st ok sid p c subject Hev.
  unfold Dashboard.runEvents. rewrite fold_left_app.
  assert (Hr : Dashboard.registered
                 (fold_left (Dashboard.react tz uid) events
                            (Dashboard.mounted (T := T))) = []).
  { assert (H0 : Dashboard.registered (Dashboard.mounted (T := T)) = [])
      by reflexivity.
    revert H0. generalize (Dashboard.mounted (T := T)).
    induction Hev as [|e events He _ IH]; intros w Hw; [exact Hw|].
    cbn [fold_left]. apply IH.
    destruct e; cbn [Dashboard.react Dashboard.registered]; congruence. }
  cbn [fold_left Dashboard.react Dashboard.shown]. rewrite Hr.
  unfold Dashboard.handleSessionUpdated, Dashboard.run.
  cbn [map filter fold_left Dashboard.exec].
  unfold Dashboard.updateSubjectProgress. now destruct ok.
Qed.

(** The sessions of the sample store are loaded and shown, then the
    event arrives. *)
Lemma session_updated_event_empties_the_upcoming_list_witness :
  Dashboard.upcomingStudySessions
    (Dashboard.shown
       (Dashboard.runEvents (A := JsNum.Binary64) Samples.kolkata 1%N
          ([Dashboard.Loaded Samples.sampleStore true
                             (StudyPlanner.newDate 19792)]
           ++ [Dashboard.OnUpdated Samples.sampleStore true 7%N (Js.Int 60)
                                   false (Js.lit "Math")])))
  = [].
Proof.
  apply (@session_updated_event_empties_the_upcoming_list
           _ JsNum.Binary64 Samples.kolkata 1%N).
  repeat constructor. discriminate.
Defined.

(* ================================================================== *)
(** * Properties: the array in the generated text and the cards answered *)
(* ================================================================== *)

Module ArrayFacts.
Import Js Regex Json GenerateFlashcards.

Lemma anyUnit_true (c : N) : anyUnit c = true.
Proof. unfold anyUnit. now destruct (isSpace c). Qed.

(** The continuation of [[\s\S]*] in [arrayRe]: a closing bracket. *)
Definition closing (s : jsstring) : option (jsstring * list jsstring) :=
  run (Class (chr "]")) s []
      (fun rest caps => Some (rest, caps)).

Lemma closing_at (c : N) (rest : jsstring) :
  closing (c :: rest) = if N.eqb 93 c then Some (rest, []) else None.
Proof. reflexivity. Qed.

Lemma star_no_closing (post : jsstring) :
  ~ In 93%N post -> star anyUnit closing post = None.
Proof.
  induction post as [|c post IH]; intro H; [reflexivity|].
  cbn [star]. rewrite anyUnit_true, IH by (intro; apply H; now right).
  rewrite closing_at.
  destruct (N.eqb_spec 93 c) as [E|_]; [|reflexivity].
  exfalso. apply H. now left.
Qed.

(** The greedy [[\s\S]*] gives way up to the last closing bracket. *)
Lemma star_last_closing (mid post : jsstring) :
  ~ In 93%N post ->
  star anyUnit closing (mid ++ 93%N :: post) = Some (post, []).
Proof.
  intro H. induction mid as [|c mid IH].
  - cbn [app star]. rewrite anyUnit_true, star_no_closing by exact H.
    reflexivity.
  - cbn [app star]. now rewrite anyUnit_true, IH.
Qed.

Lemma matchAt_array_other (c : N) (rest : jsstring) :
  c <> 91%N -> matchAt arrayRe (c :: rest) = None.
Proof.
  intro H. unfold matchAt, arrayRe. cbn [run].
  assert (E : chr "[" c = false).
  { unfold chr. apply N.eqb_neq. intro E. apply H. symmetry. exact E. }
  now rewrite E.
Qed.

Lemma matchAt_array (mid post : jsstring) :
  ~ In 93%N post ->
  matchAt arrayRe (91%N :: mid ++ 93%N :: post) = Some (post, []).
Proof.
  intro H. unfold matchAt, arrayRe. cbn [run].
  change (chr "[" 91%N) with true. cbv iota.
  exact (@star_last_closing mid post H).
Qed.

Lemma execFrom_array (pre mid post : jsstring) (i : nat) :
  ~ In 91%N pre -> ~ In 93%N post ->
  option_map matched (execFrom arrayRe i (pre ++ 91%N :: mid ++ 93%N :: post))
  = Some (91%N :: mid ++ [93%N]).
Proof.
  intros Hpre Hpost. revert i. induction pre as [|c pre IH]; intro i.
  - cbn [app execFrom]. rewrite matchAt_array by exact Hpost.
    cbn [option_map matched]. f_equal.
    replace (91%N :: mid ++ 93%N :: post)
      with ((91%N :: mid ++ [93%N]) ++ post)
      by (cbn [app]; now rewrite <- app_assoc).
    apply MinutesFacts.firstn_before.
  - cbn [app execFrom].
    rewrite matchAt_array_other by (intro E; apply Hpre; now left).
    apply IH. intro Hin. apply Hpre. now right.
Qed.

Lemma execFrom_no_array (text : jsstring) (i : nat) :
  ~ In 91%N text -> execFrom arrayRe i text = None.
Proof.
  revert i. induction text as [|c text IH]; intros i H; [reflexivity|].
  cbn [execFrom].
  rewrite matchAt_array_other by (intro E; apply H; now left).
  apply IH. intro Hin. apply H. now right.
Qed.

(** The cards of the [try] block. *)
Lemma every_truthy (cards : list json) :
  every cards = Truthy ->
  Forall (fun card => truthyProperty "front" card = true
                      /\ truthyProperty "back" card = true) cards.
Proof.
  induction cards as [|card cards IH]; intro H; [constructor|].
  cbn [every] in H. destruct (frontAndBack card) eqn:E; try discriminate.
  constructor; [|now apply IH].
  unfold frontAndBack in E.
  destruct card; try discriminate;
    destruct (truthyProperty "front" _); try discriminate;
    destruct (truthyProperty "back" _); try discriminate; now split.
Qed.

Lemma truthyProperty_some (key : string) (card : json) :
  truthyProperty key card = true ->
  exists v, property key card = Some v /\ truthy v = true.
Proof.
  unfold truthyProperty. destruct (property key card) as [v|]; [|discriminate].
  intro H. now exists v.
Qed.

(** The cards of the [catch] block. *)
Lemma cardsOfSection_cards (section : jsstring) (card : json) :
  In card (cardsOfSection section) ->
  exists f b, card = cardOf (trim f) (trim b).
Proof.
  unfold cardsOfSection.
  destruct (partsOf section) as [|f [|b rest]]; cbn [In];
    [intros []|intros []|].
  intros [<-|[]]. now exists f, b.
Qed.

End ArrayFacts.

(** X22.  The text handed to [JSON.parse] is the generated text from its
    first opening bracket to its last closing bracket: whatever stands
    before the first [[] and after the last []] (a fence, a sentence) is
    left out; and a text without an opening bracket is handed over as it
    is. *)
Theorem jsonString_is_cut_from_the_first_bracket_to_the_last :
  (forall pre mid post : Js.jsstring,
      ~ In 91%N pre -> ~ In 93%N post ->
      GenerateFlashcards.jsonString
        (pre ++ Js.lit "[" ++ mid ++ Js.lit "]" ++ post)
      = Js.lit "[" ++ mid ++ Js.lit "]")
  /\ (forall text : Js.jsstring,
         ~ In 91%N text -> GenerateFlashcards.jsonString text = text).
Proof.
  split.
  - intros pre mid post Hpre Hpost. unfold GenerateFlashcards.jsonString.
    pose proof (@ArrayFacts.execFrom_array pre mid post 0 Hpre Hpost) as H.
    unfold Regex.match_. cbn [Js.lit map list_ascii_of_string app] in *.
    change (N_of_ascii "[") with 91%N. change (N_of_ascii "]") with 93%N.
    destruct (Regex.execFrom GenerateFlashcards.arrayRe 0
                (pre ++ 91%N :: mid ++ 93%N :: post)) as [m|];
      [|discriminate].
    cbn in H. now injection H.
  - intros text H. unfold GenerateFlashcards.jsonString, Regex.match_.
    now rewrite ArrayFacts.execFrom_no_array.
Qed.

(** An array inside a fence of three backquotes. *)
Lemma jsonString_is_cut_from_the_first_bracket_to_the_last_witness :
  GenerateFlashcards.jsonString
    (Js.lit "```json " ++ Js.lit "[" ++ Js.lit "1, 2" ++ Js.lit "]"
     ++ Js.lit " ```")
  = Js.lit "[" ++ Js.lit "1, 2" ++ Js.lit "]".
Proof.
  apply (proj1 jsonString_is_cut_from_the_first_bracket_to_the_last).
  - cbn. intuition discriminate.
  - cbn. intuition discriminate.
Defined.



(* ================================================================== *)
(** * Properties: a new deck, generated cards, and a reload *)
(* ================================================================== *)

Module DeckReloadFacts.
Import Js Flashcards.

Lemma insertCards_deck (deck : deckId) (cards : list (jsstring * jsstring))
      (st : store) (r : CardRow) :
  In r (fst (insertCards deck cards st)) -> card_row_deck_id r = deck.
Proof.
  intro H.
  pose proof (DeckStoreFacts.insertCards_content deck cards st) as E.
  apply (in_map (fun r => (card_row_deck_id r, card_row_front r,
                           card_row_back r))) in H.
  rewrite E in H. apply in_map_iff in H as [c [Hc _]]. congruence.
Qed.

Lemma insertCards_count (deck : deckId) (cards : list (jsstring * jsstring))
      (st : store) :
  length (fst (insertCards deck cards st)) = length cards.
Proof.
  pose proof (DeckStoreFacts.insertCards_pairs deck cards st) as E.
  apply (f_equal (@length _)) in E. now rewrite length_map in E.
Qed.

(** The cards of deck [deck] among rows none of which is of that deck,
    followed by rows all of that deck. *)
Lemma filter_deck (deck : deckId) (old new : list CardRow) :
  (forall r, In r old -> card_row_deck_id r <> deck) ->
  (forall r, In r new -> card_row_deck_id r = deck) ->
  filter (fun card => N.eqb (card_row_deck_id card) deck) (old ++ new) = new.
Proof.
  intros Ho Hn. rewrite filter_app.
  rewrite (@DeckStoreFacts.filter_none _ _ old).
  - apply DeckStoreFacts.filter_all. intros r Hr. apply N.eqb_eq. now apply Hn.
  - intros r Hr. apply N.eqb_neq. now apply Ho.
Qed.

End DeckReloadFacts.

(** C8.  A deck is created and [N] generated cards are added to it,
    every request being answered by the store.  The deck the component
    then holds has [totalCards = N] and [N] cards, as the claim says;
    but the table holds every generated card twice, so that the deck
    read back from the store ([fetchDecks], the next load of the page)
    has [totalCards = 2 * N] and the generated cards two times over. *)
Theorem generated_cards_are_counted_twice_after_reload :
  forall (uid : N) (closure : Flashcards.view) (st : Flashcards.store)
         (deckName deckSubject : Js.jsstring)
         (generated : list (Js.jsstring * Js.jsstring))
         (okDelete : bool) (okUpdates : nat),
    (forall r, In r (Flashcards.cardRows st) ->
               Flashcards.card_row_deck_id r <> Flashcards.nextId st) ->
    generated <> [] ->
    let p1 := Flashcards.handleCreateDeck (Some uid) closure st true
                deckName deckSubject in
    let p2 := Flashcards.handleAddGeneratedFlashcards (Some uid)
                (fst p1) (snd p1) true true okDelete okUpdates generated in
    let reloaded := Flashcards.fetchDecks (Some uid) (fst p2) (snd p2) true in
    (exists d,
        Flashcards.selectedDeck (fst p2) = Some d
        /\ Flashcards.deck_id d = Flashcards.nextId st
        /\ Flashcards.totalCards d = length generated
        /\ map (fun c => (Flashcards.front c, Flashcards.back c))
               (Flashcards.flashcards d) = generated)
    /\ (exists d',
           find (fun deck => N.eqb (Flashcards.deck_id deck)
                                   (Flashcards.nextId st))
                (Flashcards.decks reloaded) = Some d'
           /\ Flashcards.totalCards d' = (2 * length generated)%nat
           /\ map (fun c => (Flashcards.front c, Flashcards.back c))
                  (Flashcards.flashcards d') = generated ++ generated).
Proof.
  intros uid closure st deckName deckSubject generated od ou Hold Hne
         p1 p2 reloaded.
  subst reloaded p2 p1.
  cbn [Flashcards.handleCreateDeck Flashcards.insertDeck fst snd].
  unfold Flashcards.handleAddGeneratedFlashcards.
  cbn [Flashcards.selectedDeck].
  destruct generated as [|g gs]; [congruence|].
  set (deck := Flashcards.nextId st).
  set (row := {| Flashcards.deck_row_id := deck;
                 Flashcards.deck_row_name := deckName;
                 Flashcards.deck_row_subject := deckSubject;
                 Flashcards.deck_row_user_id := uid |}).
  set (newDeck := {| Flashcards.deck_id := Flashcards.deck_row_id row;
                     Flashcards.name := Flashcards.deck_row_name row;
                     Flashcards.deck_subject := Flashcards.deck_row_subject row;
                     Flashcards.totalCards := 0;
                     Flashcards.flashcards := [] |}).
  set (st1 := {| Flashcards.deckRows := Flashcards.deckRows st ++ [row];
                 Flashcards.cardRows := Flashcards.cardRows st;
                 Flashcards.nextId := N.succ deck |}).
  set (view1 := {| Flashcards.decks := newDeck :: Flashcards.decks closure;
                   Flashcards.selectedDeck := Some newDeck |}).
  change (Flashcards.deck_id newDeck) with deck.
  pose proof (DeckStoreFacts.insertCards_rows deck (g :: gs) st1)
    as [Hrows Hdecks].
  pose proof (DeckStoreFacts.insertCards_pairs deck (g :: gs) st1) as Hpairs.
  pose proof (@DeckReloadFacts.insertCards_deck deck (g :: gs) st1) as Hd1.
  pose proof (DeckReloadFacts.insertCards_count deck (g :: gs) st1) as Hlen.
  destruct (Flashcards.insertCards deck (g :: gs) st1) as [data st'].
  cbn [fst snd] in Hrows, Hdecks, Hpairs, Hd1, Hlen.
  assert (Hdata : data <> []) by (destruct data; [discriminate Hlen|discriminate]).
  set (extra := map (Flashcards.toCard (Flashcards.deck_subject newDeck)) data).
  assert (Hextra : map (fun c => (Flashcards.front c, Flashcards.back c)) extra
                   = g :: gs).
  { subst extra. rewrite map_map. exact Hpairs. }
  rewrite (@DeckStoreFacts.update_adding view1 st' od ou newDeck
             (Flashcards.totalCards newDeck + length extra) extra).
  - cbn [fst snd Flashcards.selectedDeck]. split.
    + eexists. split; [reflexivity|].
      cbn [Flashcards.withCards Flashcards.deck_id Flashcards.totalCards
           Flashcards.flashcards newDeck app Nat.add].
      split; [reflexivity|]. split; [|exact Hextra].
      subst extra. now rewrite length_map.
    + rewrite Hextra. change (Flashcards.deck_id newDeck) with deck.
      pose proof (DeckStoreFacts.insertCards_rows deck (g :: gs) st')
        as [Hrows2 Hdecks2].
      pose proof (DeckStoreFacts.insertCards_pairs deck (g :: gs) st')
        as Hpairs2.
      pose proof (@DeckReloadFacts.insertCards_deck deck (g :: gs) st') as Hd2.
      destruct (Flashcards.insertCards deck (g :: gs) st') as [data2 st2].
      cbn [fst snd] in Hrows2, Hdecks2, Hpairs2, Hd2 |- *.
      unfold Flashcards.fetchDecks.
      rewrite Hdecks2, Hdecks. cbn [Flashcards.deckRows st1].
      rewrite filter_app. cbn [filter Flashcards.deck_row_user_id row].
      rewrite N.eqb_refl, rev_app_distr. cbn [rev app map].
      cbn [Flashcards.decks find Flashcards.loadDeck Flashcards.deck_id
           Flashcards.deck_row_id row].
      fold deck. rewrite N.eqb_refl. eexists. split; [reflexivity|].
      unfold Flashcards.loadDeck.
      cbn [Flashcards.totalCards Flashcards.flashcards
           Flashcards.deck_row_id row].
      rewrite Hrows2, Hrows. cbn [Flashcards.cardRows st1].
      rewrite <- app_assoc.
      rewrite (@DeckReloadFacts.filter_deck deck (Flashcards.cardRows st)
                 (data ++ data2)).
      * split.
        -- rewrite length_app.
           apply (f_equal (@length _)) in Hpairs, Hpairs2.
           rewrite length_map in Hpairs, Hpairs2.
           rewrite Hpairs, Hpairs2. cbn [length]. lia.
        -- rewrite map_map, map_app.
           cbn [Flashcards.front Flashcards.back Flashcards.toCard].
           now rewrite Hpairs, Hpairs2.
      * exact Hold.
      * intros r Hr. apply in_app_or in Hr as [Hr|Hr]; [now apply Hd1|].
        now apply Hd2.
  - subst view1. cbn [Flashcards.decks find].
    now rewrite N.eqb_refl.
  - constructor.
  - intros c _ [].
  - subst extra. destruct data; [congruence|discriminate].
Qed.

(** C8 with two generated cards added to the first deck of an empty
    store: the deck held has 2 cards, the deck read back has 4. *)
Lemma generated_cards_are_counted_twice_after_reload_witness :
  let st := Flashcards.w_store Flashcards.initial in
  let closure := Flashcards.w_view Flashcards.initial in
  let generated := FlashcardSamples.twoCards in
  let p1 := Flashcards.handleCreateDeck (Some 1%N) closure st true
              (Js.lit "Calculus") (Js.lit "Math") in
  let p2 := Flashcards.handleAddGeneratedFlashcards (Some 1%N)
              (fst p1) (snd p1) true true true 0 generated in
  let reloaded := Flashcards.fetchDecks (Some 1%N) (fst p2) (snd p2) true in
  (exists d,
      Flashcards.selectedDeck (fst p2) = Some d
      /\ Flashcards.deck_id d = Flashcards.nextId st
      /\ Flashcards.totalCards d = length generated
      /\ map (fun c => (Flashcards.front c, Flashcards.back c))
             (Flashcards.flashcards d) = generated)
  /\ (exists d',
         find (fun deck => N.eqb (Flashcards.deck_id deck)
                                 (Flashcards.nextId st))
              (Flashcards.decks reloaded) = Some d'
         /\ Flashcards.totalCards d' = (2 * length generated)%nat
         /\ map (fun c => (Flashcards.front c, Flashcards.back c))
                (Flashcards.flashcards d') = generated ++ generated).
Proof.
  intros st closure generated.
  apply (@generated_cards_are_counted_twice_after_reload 1%N closure st
           (Js.lit "Calculus") (Js.lit "Math") generated true 0%nat).
  - intros r [].
  - discriminate.
Defined.
